(* ===== verification/_CoqProject ===== *)
-Q . S2P
Prelude.v
PyValue.v
PyStr.v
Json.v
DiGraph.v
OrderedGraph.v
Acyclic.v
Kahn.v
Cors.v
Request.v
Codecs.v
Body.v
Pipeline.v
Output.v
Response.v
Routing.v
Scenarios.v
