(* ===== verification/Prelude.v ===== *)
(** * A verification development of the pipeline-parsing backend

    The repository is a FastAPI service with one handler,
    [parse_pipeline] in [src/backend/backend/main.py].  It receives a JSON
    body [{"nodes": [...], "edges": [...]}], validates it with the pydantic
    model [GraphData] (lines 23-25), extracts the node ids ([node["id"]],
    line 31) and the edge endpoints ([(edge["source"], edge["target"])],
    line 32), builds a networkx [DiGraph] ([add_nodes_from] then
    [add_edges_from], lines 34-36), and answers
    [{"num_nodes", "num_edges", "is_dag"}] (lines 42-46).  Any exception
    raised on the way is turned into an HTTP 500 whose detail is
    ["Error parsing pipeline: " + str(e)] (lines 47-49); a body that does
    not match [GraphData] is refused by FastAPI with a 422 before the
    handler runs.  Before that, FastAPI reads the body: its [Content-Type]
    decides whether the bytes go to [json.loads], whose errors become a
    422 ([JSONDecodeError]) or a 400 (any other exception).  After it,
    FastAPI and Starlette render the answer to bytes and headers, the
    CORS middleware of lines 11-20 adds its headers, and Starlette's
    [ServerErrorMiddleware] turns an exception raised below it into a
    plain-text 500.

    ** Files, in dependency order

    - [Prelude] (this file): the error monad [result] used for Python
      exceptions (stdpp's [MRet]/[MBind], so [x ← m; k] reads like the
      code), [res_map] for list comprehensions that may raise, [res_fold]
      for [for] loops that thread state and may raise, their lemmas, the
      tactic [res_simpl], [res_map_err] for an [except] clause that raises
      another exception, and the hint database [pipeline].
    - [PyValue]: the Python values a JSON body deserialises to ([json]:
      None, bool, int, str, list, dict as the list of its key/value pairs),
      the exceptions the handler can meet ([py_exc]) with their [str]
      (CPython 3.12 wording), subscripting [v["k"]] ([py_getitem], dict
      lookup with the last duplicate key winning, as [json.loads] builds
      it), hashing to a dictionary key ([py_hash]: [True == 1],
      [False == 0]; list and dict are unhashable), tuple unpacking of two
      values ([py_unpack2]) and the argument check of [dict.update]
      ([dict_update_check]), which networkx's [add_nodes_from] performs on
      ids that are not hashable.
    - [PyStr]: the [str] methods the code and the libraries call on
      strings of characters below U+0100 ([lower], [strip], [split],
      [join]) and [repr] as
      [print] shows values ([str_repr] with Python's choice of quote and
      its escapes, [py_repr] of ids, lists and dicts, [tuple_repr],
      [list_str]); [str.encode("utf-8")] ([utf8_encode]); the round trip
      between [split] and [join]; the items of a dict built from a list
      of pairs ([dict_items]), and how they follow a renaming of the keys.
    - [Json]: CPython's [json] on [str]s: [json_dumps] as
      [JSONResponse.render] calls [json.dumps] (escapes, [","] and [":"],
      a dict's items), and [json_loads], the C scanner ([scan_once_unicode],
      [_parse_array_unicode], [_parse_object_unicode],
      [scanstring_unicode], [_match_number_unicode]) with its messages and
      the positions it reports, the 4300-digit limit of [int()], and
      fuel; the proofs that the fuel never runs out ([json_loads_fuel])
      and that [json_loads] reads back what [json_dumps] writes
      ([json_loads_dumps]); the digit limit bounds every integer
      [json_loads] returns ([json_loads_ints_bounded]).
    - [DiGraph]: networkx's [DiGraph] as a record of three maps
      ([_node], [_succ], [_pred]) over [gset]/[gmap]; [ensure_node] (the
      "add the node if it is new, refuse None" block shared by
      [add_nodes_from] and [add_edges_from]), [add_arc], [add_nodes_from],
      [add_edges_from], [number_of_nodes] ([len(_node)]),
      [number_of_edges] (half of the sum of in- and out-degrees, as
      [DiGraph.size] computes it); the well-formedness invariant [wf]
      ([_succ] and [_pred] are keyed by the nodes and are transposes of
      each other) preserved by every operation; the node set and arc set
      the operations build.
    - [OrderedGraph]: the same [DiGraph] with [_succ] as the dict of
      dicts it is: entries in insertion order, each with the key object
      first inserted ([True] stays [True] when [1] comes later) and its
      successor dict in insertion order; [add_nodes_from],
      [add_edges_from] and [G.edges()] ([o_edges], the walk of line 40)
      on it.  The relation [orel] says an ordered graph and a set graph
      are the same graph; both operations preserve it, raising the same
      exceptions ([o_add_nodes_from_refines], [o_add_edges_from_refines]),
      and a well-formed set graph related to an ordered one is its view
      [o_to_digraph] ([o_to_digraph_eq]).
    - [Acyclic]: reachability ([tc] of the arc relation), the abstract
      specification [acyclic], the interface [DagCheck] (a decision
      procedure for [acyclic] on well-formed graphs), and the three-colour
      depth-first search of spec section 4.1 ([dfs_visit], [dfs_roots],
      [dfs_is_dag]) with its correctness proof and the proof that its fuel
      never runs out; [dfs_dag_check] packages it as a [DagCheck].
    - [Kahn]: what the code really runs at line 44, networkx's
      [is_directed_acyclic_graph] ([has_cycle] over
      [topological_generations], Kahn's algorithm): the in-degree map, the
      generation loop with one unit of fuel per generation, its two
      [RuntimeError] guards; the loop invariants [kinv] (between nodes) and
      [cinv] (between children); the theorem that on a well-formed graph it
      returns normally and decides [acyclic]; [nx_dag_check], the
      [DagCheck] instance the scenarios use; and its agreement with the
      depth-first search.
    - [Cors]: the CORS middleware of lines 11-20, Starlette's
      [CORSMiddleware]: the options of main.py ([main_cors_options]),
      [__init__] ([cors_init], [main_cors]), [__call__] ([cors_call])
      with its three paths (no [Origin]: pass through; preflight:
      [preflight_response] answers itself; otherwise [cors_send] adds
      headers to the application's answer), over ASGI header lists and the
      [MutableHeaders] operations ([hdr_get], [hdr_set], [hdr_update],
      [add_vary_header]), and Starlette's [Response.init_headers]
      ([init_headers]: lower-cased names, [content-length], media type).
      The application behind it is a parameter, which may raise, so its
      theorems hold for any application.
    - [Request]: pydantic's validation of the body against [GraphData]
      ([validate_graph_data], 422 errors with their [loc]) and the two list
      comprehensions of lines 31-32 ([extract_node_ids], [extract_edges]).
    - [Codecs]: CPython's decoders of [bytes.decode] as [json.loads] and
      [jsonable_encoder] call them: UTF-8 with [surrogatepass]
      ([utf8_decode]) or strict ([utf8_decode_strict]), UTF-16 in either
      byte order ([utf16_decode]: code units, surrogate pairs, the
      [truncated data] error of an odd length) and UTF-32
      ([utf32_decode_at]: its [code point not in range] and [truncated
      data] errors), each a [result] of the code points or the
      [UnicodeDecodeError] with its start, end and reason; each proved to
      invert the matching encoder.
    - [Body]: the body step of FastAPI's [get_request_handler]: the
      [Content-Type] test ([wants_json], with [email.message]'s
      [get_content_type]), [json.detect_encoding] and the codec it names
      ([decode_bytes]; the [utf-16] and [utf-32] codecs read and drop the
      byte order mark), Starlette's [Request.json] ([request_json]), the
      value the parameter is validated against ([read_body],
      [validate_body]); the proof that a body a client encodes in any of
      the eight encodings [detect_encoding] tells apart ([encode_text]) is
      decoded as [json.loads] decodes its text ([request_json_encoded]).
    - [Pipeline]: the handler [parse_pipeline] composed as the code
      composes it, against any [DagCheck]; the abstract contract
      [analysis_spec] of spec section 4.1 and the refinement theorem that
      every 200 answer satisfies it; the characterisation of when the
      handler answers 200, 422 or 500 and with which exception.
    - [Output]: the handler with its standard output ([parse_pipeline_io]):
      the three debug lines of lines 38-40 ([debug_lines], [print] of
      [repr]s) after the graph is built on the ordered dictionaries, the
      line of line 48 in the [except] clause; the analysis read through
      [o_to_digraph].
    - [Response]: what the router's answers become on the wire:
      [jsonable_encoder] ([jsonable], [encode_json]; a [bytes] input of a
      422 entry is decoded strictly and may raise), the entries of
      FastAPI's 422 handler ([error_entry]), [JSONResponse] and
      [RedirectResponse] ([json_response], [render_response]), and
      [ServerErrorMiddleware] ([server_error_call]: a plain-text 500, then
      the exception raised again); the proof that dumping UTF-8 bytes is
      encoding the dump ([json_dumps_utf8]).
    - [Routing]: the application of line 9: the routes [FastAPI()] and
      [@app.post] install ([main_routes]: four documentation routes, then
      POST /pipelines/parse), Starlette's [Router.app] ([router_dispatch]:
      full match, partial match answered 405, trailing-slash redirect,
      404), the endpoint of line 28 ([parse_endpoint]: body reading,
      validation, the handler), FastAPI's exception handlers turning its
      answers and the [HTTPException]s into responses ([router_app]),
      rendered ([wire_app]), with the CORS middleware and
      [ServerErrorMiddleware] in front of it all ([main_app]); the script entry of
      lines 52-55 ([module_main]: the application and the address
      [uvicorn.run] is given).
    - [Scenarios]: the examples of spec section 8 and the behaviours the
      spec leaves open, evaluated through [parse_pipeline] with networkx's
      test, the middleware in front of a test application, and one
      witness per theorem with hypotheses, applying it to a concrete graph
      or request whose hypotheses are checked by evaluation.

    ** What the theorems show

    - Invariant: [wf] holds of the empty graph and is preserved by
      [ensure_node], [add_arc], [add_nodes_from], [add_edges_from].
    - Functional: the node set is the declared ids plus every edge
      endpoint; the arc set is the set of distinct (source, target) pairs;
      the counts are the sizes of these sets; parallel edges collapse.
    - Equivalence/refinement: networkx's test returns [True] iff
      [acyclic g], and so does [dfs_is_dag]; the two agree; the handler's
      200 answer satisfies [analysis_spec].
    - Termination: Kahn's loop, given [S (size _node)] generations, and
      the DFS, given [S (size _node)] levels, never run out of fuel on a
      well-formed graph, and Kahn's [RuntimeError] guards never fire.
    - Errors: which malformed input gives which exception, and in which
      order the checks happen (all node ids before any edge endpoint,
      ["source"] before ["target"], hashing only after both
      comprehensions, the first edge with an unhashable or [None]
      endpoint deciding [add_edges_from]'s exception); in a body that
      validates, an entry the comprehensions cannot read
      ([parse_pipeline_bad_entry_500]) or a [null] id or endpoint
      ([parse_pipeline_null_id_500]) makes the answer a 500, whatever the
      other entries hold, where the spec asks for a validation error.
    - Application: the handler runs only for POST /pipelines/parse; other
      methods there get 405, trailing slashes a 307; end to end, the
      frontend receives the route's answer with its origin echoed, and
      no other origin receives [Access-Control-Allow-Origin].
    - Body: on a text sent in UTF-8, UTF-16 or UTF-32 (with or without a
      byte order mark) under a JSON content type the route answers as
      [json.loads] decides ([parse_endpoint_text]): the handler's answer,
      422 [json_invalid] with CPython's message and position, or 400; a
      value a client writes with [json.dumps] is answered as
      [parse_pipeline] answers that value ([parse_endpoint_dumps]); another
      content type gives 422 [model_attributes_type] whatever the bytes,
      and malformed UTF-8, or UTF-16 of odd length, gives 400.
    - CORS: the state [__init__] computes from lines 12-20; no answer to
      another origin carries [Access-Control-Allow-Origin] (safety); the
      exact answer to an allowed preflight; the origin echoed for the
      frontend.  Two lemmas record where the code departs from the
      comments of lines 16 and 18: every non-preflight request reaches the
      handler whatever its origin, with its status and body unchanged
      ([cors_simple_response]), and TRACE and CONNECT preflights are
      refused ([cors_preflight_method_refused]).
    - Answers (liveness and type): [main_app] answers every request
      ([main_app_total]), its answer being determined by the model except
      exactly for a POST to /pipelines/parse whose body is beyond it, with
      a status among 200, 307, 400, 404, 405, 422, 500 and lower-case
      header names, as ASGI requires ([main_app_answer_type]); every body
      the model builds has its length in [content-length]
      ([main_app_content_length]); the frontend's 200 is the exact bytes
      of the handler's dict and the exact header list
      ([main_app_frontend_200]).  The application raises (after the 500
      of [ServerErrorMiddleware], which carries no CORS header) exactly
      when a body kept as bytes is not UTF-8: the 422 handler's
      [jsonable_encoder] cannot decode it to echo it
      ([main_app_binary_body_500]).
    - Output: printing does not change the answer
      ([parse_pipeline_io_response], through the refinement of the set
      model by the ordered one); a 422 prints nothing, a 500 only its
      detail, a 200 the ids and edges as received and the arcs of the
      graph, each once, as pairs of key objects that hash to the
      request's keys ([parse_pipeline_io_200]); each printed pair is made
      of the first object offered with the source's key and the target of
      the first edge of the arc, as Python dicts keep their keys
      ([parse_pipeline_io_edge_objects], proved on the invariants
      [kept_nodes] and [kept_nbrs] of the ordered dictionaries).
    - Round trip and bounds: [json.loads] reads back what [json.dumps]
      writes, and the UTF-8, UTF-16 and UTF-32 decoders what the
      encoders write; [json.dumps]
      on UTF-8 bytes is the UTF-8 encoding of [json.dumps]; [str.split]
      and [str.join] on a one-character separator invert each other
      ([str_split_join]); the counts are bounded by the number of entries
      ([analyze_count_bounds]); no integer [json.loads] returns has more
      than [int_max_str_digits] = 4300 digits, however long the text
      ([json_loads_ints_bounded]).

    ** Bounds and fuel

    Two loops carry fuel.  Kahn's [while zero_indegree] gets one unit per
    generation: every generation processes at least one node not processed
    before, so [S (size _node)] generations suffice
    ([kahn_generations_ok]).  The DFS gets one unit per nesting level:
    each nested visit adds its node to the in-progress set, which stays a
    subset of [_node], so [S (size _node)] levels suffice
    ([dfs_visit_no_fuel]).  The JSON scanner recurses on the text with
    fuel: each level of nesting consumes a character and each turn of an
    array or object loop two, so [2 * length + 2] units suffice
    ([scan_fuel], [json_loads_fuel]).  Integers are Python ints, unbounded, modelled
    as [Z]; networkx's in-degrees start positive and are decremented once
    per arc, so [nat] represents them exactly.

    ** Not modelled

    Percent-decoding of paths; the contents of the documentation
    pages, and with them their [content-length]; the uvicorn server itself (sockets, HTTP parsing, the event
    loop: a library the code only calls at line 55); the CORS
    middleware's unused [allow_origin_regex] option and its handling of
    non-HTTP scopes; characters above U+00FF and JSON numbers with a
    fraction or exponent (Python floats), which make a request body
    beyond the model ([main_app] gives no answer for it: [beyond_model]);
    CPython's recursion limit, which makes
    [json.loads] raise [RecursionError] (a 400) on JSON nested deeper than
    the interpreter's C stack allows, where the model decodes the value;
    the percent-quoting of a redirect's [location]
    (the paths of the model need none); node attribute dictionaries (stored by
    [add_nodes_from] but never read); and the iteration order inside
    networkx's cycle test: [Kahn] enumerates sets in [elements] order,
    which can reorder its generations but not its answer, since every
    proof holds for any order ([G.edges()], whose order is printed, is
    modelled in order by [OrderedGraph]). *)

From stdpp Require Export base gmap sets list strings relations.
From Stdlib Require Export ZArith.

Declare Scope pipeline_scope.
Delimit Scope pipeline_scope with pipeline.
Open Scope pipeline_scope.

Create HintDb pipeline discriminated.
Create Rewrite HintDb pipeline_rw.

(** ** The error monad of Python exceptions *)

Inductive result (E A : Type) : Type :=
| Ok (a : A)
| Err (e : E).
Arguments Ok {E A} a.
Arguments Err {E A} e.

#[export] Instance result_ret {E} : MRet (result E) := λ _ a, Ok a.
#[export] Instance result_bind {E} : MBind (result E) :=
  λ _ _ f r, match r with Ok a => f a | Err e => Err e end.
#[export] Instance result_fmap {E} : FMap (result E) :=
  λ _ _ f r, match r with Ok a => Ok (f a) | Err e => Err e end.

Notation "'raise' e" := (Err e) (at level 10) : pipeline_scope.

(** [[f x for x in xs]] when [f] may raise: the first exception stops the
    comprehension. *)
Fixpoint res_map {E A B} (f : A → result E B) (xs : list A) : result E (list B) :=
  match xs with
  | [] => Ok []
  | x :: xs' => y ← f x; ys ← res_map f xs'; Ok (y :: ys)
  end.

(** [for x in xs: s = f(s, x)] when the body may raise. *)
Fixpoint res_fold {E S A} (f : S → A → result E S) (s : S) (xs : list A) : result E S :=
  match xs with
  | [] => Ok s
  | x :: xs' => s' ← f s x; res_fold f s' xs'
  end.

(** [except E as e: raise F(e)]: an exception translated into another. *)
Definition res_map_err {E F A} (g : E → F) (r : result E A) : result F A :=
  match r with Ok a => Ok a | Err e => Err (g e) end.

(** ** Lemmas on the monad *)

Section ResultLemmas.
Context {E : Type}.

Lemma res_bind_Ok {A B} (a : A) (f : A → result E B) : (Ok a ≫= f) = f a.
Proof. done. Qed.

Lemma res_bind_Err {A B} (e : E) (f : A → result E B) : (Err e ≫= f) = Err e.
Proof. done. Qed.
Lemma res_fmap_Ok {A B} (a : A) (f : A → B) : f <$> (Ok a : result E A) = Ok (f a).
Proof. done. Qed.
Lemma res_fmap_Err {A B} (e : E) (f : A → B) : f <$> (Err e : result E A) = Err e.
Proof. done. Qed.

Lemma res_bind_Ok_inv {A B} (m : result E A) (f : A → result E B) b :
  (m ≫= f) = Ok b → ∃ a, m = Ok a ∧ f a = Ok b.
Proof. destruct m; naive_solver. Qed.

Lemma res_fmap_Ok_inv {A B} (f : A → B) (m : result E A) b :
  f <$> m = Ok b → ∃ a, m = Ok a ∧ b = f a.
Proof. destruct m; naive_solver. Qed.
Lemma res_fmap_Err_inv {A B} (f : A → B) (m : result E A) e :
  f <$> m = Err e → m = Err e.
Proof. destruct m; naive_solver. Qed.
Lemma res_bind_Err_inv {A B} (m : result E A) (f : A → result E B) e :
  (m ≫= f) = Err e → m = Err e ∨ ∃ a, m = Ok a ∧ f a = Err e.
Proof. destruct m; naive_solver. Qed.

(** A comprehension succeeds iff every element does. *)
Lemma res_map_Ok_iff {A B} (f : A → result E B) xs ys :
  res_map f xs = Ok ys ↔ Forall2 (λ x y, f x = Ok y) xs ys.
Proof.
  revert ys; induction xs as [|x xs IH]; intros ys; simpl.
  - split; [intros [= <-]; constructor | by inversion 1].
  - split.
    + intros (y & Hy & (ys' & Hys & [= <-])%res_bind_Ok_inv)%res_bind_Ok_inv.
      constructor; [done | by apply IH].
    + inversion 1 as [|? y ? ys' Hy Hys]; subst.
      rewrite Hy; simpl. by rewrite (proj2 (IH ys') Hys).
Qed.

Lemma res_map_length {A B} (f : A → result E B) xs ys :
  res_map f xs = Ok ys → length ys = length xs.
Proof. intros ?%res_map_Ok_iff. symmetry. by eapply Forall2_length. Qed.

(** A comprehension raises the exception of its first failing element. *)
Lemma res_map_Err_iff {A B} (f : A → result E B) xs e :
  res_map f xs = Err e ↔
  ∃ pre x post, xs = pre ++ x :: post ∧
    Forall (λ x, ∃ y, f x = Ok y) pre ∧ f x = Err e.
Proof.
  induction xs as [|x xs IH]; simpl.
  - split; [done|]. intros ([|??] & ? & ? & ? & _); done.
  - split.
    + destruct (f x) as [y|e'] eqn:Hx; simpl.
      * destruct (res_map f xs) as [ys|e''] eqn:Hxs; simpl; [done|].
        intros [= ->]. destruct (proj1 IH eq_refl) as (pre & x' & post & -> & Hpre & Hx').
        exists (x :: pre), x', post. split_and!; [done| |done]. constructor; eauto.
      * intros [= ->]. exists [], x, xs. auto.
    + intros ([|x0 pre] & x' & post & Heq & Hpre & Hx'); simpl in Heq; simplify_eq.
      * by rewrite Hx'.
      * apply Forall_cons in Hpre as [[y Hy] Hpre]. rewrite Hy; simpl.
        rewrite (proj2 IH); [done|]. by exists pre, x', post.
Qed.

Lemma res_map_elem_of {A B} (f : A → result E B) xs ys y :
  res_map f xs = Ok ys → y ∈ ys ↔ ∃ x, x ∈ xs ∧ f x = Ok y.
Proof.
  intros Hys%res_map_Ok_iff. split.
  - intros (i & Hi)%list_elem_of_lookup.
    destruct (Forall2_lookup_r _ _ _ _ _ Hys Hi) as (x & Hx & Hfx).
    exists x. split; [apply list_elem_of_lookup; eauto|done].
  - intros (x & (i & Hi)%list_elem_of_lookup & Hfx).
    destruct (Forall2_lookup_l _ _ _ _ _ Hys Hi) as (y' & Hy' & Hfx').
    rewrite Hfx in Hfx'. injection Hfx' as <-. apply list_elem_of_lookup. eauto.
Qed.

Lemma res_map_Ok_elem {A B} (f : A → result E B) xs ys x :
  res_map f xs = Ok ys → x ∈ xs → ∃ y, f x = Ok y ∧ y ∈ ys.
Proof.
  intros Hys%res_map_Ok_iff (i & Hi)%list_elem_of_lookup.
  destruct (Forall2_lookup_l _ _ _ _ _ Hys Hi) as (y & Hy & Hfx).
  exists y. split; [done|]. apply list_elem_of_lookup. eauto.
Qed.

Lemma res_map_Ok_all {A B} (f : A → result E B) xs :
  (∀ x, x ∈ xs → ∃ y, f x = Ok y) → ∃ ys, res_map f xs = Ok ys.
Proof.
  induction xs as [|x xs IH]; intros Hall; simpl; [eauto|].
  destruct (Hall x) as [y ->]; [left|]. destruct IH as [ys ->]; [set_solver|]. eauto.
Qed.

(** Mapping lists with the same members gives lists with the same
    members. *)
Lemma res_map_same_elems {A B} (f : A → result E B) xs xs' ys :
  (∀ x, x ∈ xs' ↔ x ∈ xs) → res_map f xs = Ok ys →
  ∃ ys', res_map f xs' = Ok ys' ∧ ∀ y, y ∈ ys' ↔ y ∈ ys.
Proof.
  intros Hsame Hys.
  destruct (res_map_Ok_all f xs') as [ys' Hys'].
  { intros x Hx%Hsame. apply list_elem_of_lookup in Hx as [i Hi].
    destruct (Forall2_lookup_l _ _ _ _ _ (proj1 (res_map_Ok_iff _ _ _) Hys) Hi) as (y & _ & ?).
    eauto. }
  exists ys'. split; [done|]. intros y.
  rewrite (res_map_elem_of f xs' ys' y Hys'), (res_map_elem_of f xs ys y Hys).
  by setoid_rewrite Hsame.
Qed.

Lemma res_map_app {A B} (f : A → result E B) xs ys :
  res_map f (xs ++ ys) = (a ← res_map f xs; b ← res_map f ys; Ok (a ++ b)).
Proof.
  induction xs as [|x xs IH]; simpl.
  - by destruct (res_map f ys).
  - destruct (f x); simpl; [|done]. rewrite IH.
    destruct (res_map f xs), (res_map f ys); done.
Qed.

Lemma res_fold_app {S A} (f : S → A → result E S) s xs ys :
  res_fold f s (xs ++ ys) = (s' ← res_fold f s xs; res_fold f s' ys).
Proof.
  revert s; induction xs as [|x xs IH]; intros s; simpl; [done|].
  destruct (f s x); simpl; [apply IH|done].
Qed.

(** A property of the state kept by every step is kept by the loop. *)
Lemma res_fold_invariant {S A} (P : S → Prop) (f : S → A → result E S) s xs s' :
  (∀ s0 x s1, x ∈ xs → P s0 → f s0 x = Ok s1 → P s1) →
  P s → res_fold f s xs = Ok s' → P s'.
Proof.
  revert s; induction xs as [|x xs IH]; intros s Hstep Hs; simpl.
  - by intros [= <-].
  - intros (s1 & Hs1 & Hrest)%res_bind_Ok_inv.
    apply (IH s1); [|by eapply Hstep; [left| |]|done].
    intros ???; intros; eapply Hstep; [right|..]; eauto.
Qed.

(** A loop whose every step succeeds succeeds. *)
Lemma res_fold_Ok_exists {S A} (P : S → Prop) (f : S → A → result E S) s xs :
  (∀ s0 x, x ∈ xs → P s0 → ∃ s1, f s0 x = Ok s1 ∧ P s1) →
  P s → ∃ s', res_fold f s xs = Ok s' ∧ P s'.
Proof.
  revert s; induction xs as [|x xs IH]; intros s Hstep Hs; simpl; [eauto|].
  destruct (Hstep s x) as (s1 & -> & Hs1); [left|done|]; simpl.
  apply IH; [|done]. intros; apply Hstep; [right|]; done.
Qed.
End ResultLemmas.

(** Two computations that raise the same exception or both succeed with
    related values: the relation of a refinement between two models of
    the same code. *)
Definition res_rel {E A B} (R : A → B → Prop) (x : result E A) (y : result E B) : Prop :=
  match x, y with
  | Ok a, Ok b => R a b
  | Err e, Err e' => e = e'
  | _, _ => False
  end.

Lemma res_rel_bind {E A B C D} (R : A → B → Prop) (R' : C → D → Prop)
    (x : result E A) (y : result E B) f g :
  res_rel R x y → (∀ a b, R a b → res_rel R' (f a) (g b)) → res_rel R' (x ≫= f) (y ≫= g).
Proof. destruct x, y; simpl; naive_solver. Qed.

(** Loops whose bodies are related step by step are related. *)
Lemma res_rel_Ok {E A B} (R : A → B → Prop) (a : A) (y : result E B) :
  res_rel R (Ok a) y → ∃ b, y = Ok b ∧ R a b.
Proof. destruct y; simpl; naive_solver. Qed.
Lemma res_rel_Err {E A B} (R : A → B → Prop) (e : E) (y : result E B) :
  res_rel R (Err e) y → y = Err e.
Proof. destruct y; simpl; naive_solver. Qed.
Lemma res_fold_rel {E S T A} (R : S → T → Prop) (f : S → A → result E S)
    (g : T → A → result E T) s t xs :
  (∀ s t x, x ∈ xs → R s t → res_rel R (f s x) (g t x)) → R s t →
  res_rel R (res_fold f s xs) (res_fold g t xs).
Proof.
  revert s t. induction xs as [|x xs IH]; intros s t Hstep Hst; simpl; [done|].
  apply (res_rel_bind R); [by apply Hstep; [left|]|].
  intros a b Hab. apply IH; [|done]. intros; apply Hstep; [right|]; done.
Qed.

#[export] Hint Rewrite @res_bind_Ok @res_bind_Err @res_fmap_Ok @res_fmap_Err @res_map_app @res_fold_app : pipeline_rw.

(** Split every hypothesis [m ≫= f = Ok b] into its two successful steps. *)
Ltac res_inv :=
  repeat match goal with
  | H : (_ ≫= _) = Ok _ |- _ =>
      let a := fresh "a" in let Ha := fresh "Ha" in
      apply res_bind_Ok_inv in H as (a & Ha & H)
  | H : (_ <$> _) = Ok _ |- _ =>
      let a := fresh "a" in let Ha := fresh "Ha" in
      apply res_fmap_Ok_inv in H as (a & Ha & H)
  | H : match ?m with Ok _ => _ | Err _ => _ end = Ok _ |- _ =>
      let a := fresh "a" in let Ha := fresh "Ha" in
      destruct m as [a|?] eqn:Ha; [|discriminate H]
  | H : Ok _ = Ok _ |- _ => injection H as H; subst
  | H : Ok _ = Err _ |- _ => discriminate H
  | H : Err _ = Ok _ |- _ => discriminate H
  end.

(** Rewrite the monad away in the goal. *)
Ltac res_simpl := autorewrite with pipeline_rw; simpl.

(** Prove a decidable proposition about closed data by evaluating its
    decision procedure. *)
Ltac decide_by_eval := apply (bool_decide_unpack _); vm_compute; exact I.

(** ** Sums over finite sets *)

(** [sum(f(x) for x in X)] over a set, whatever its iteration order. *)
Definition sum_set `{Countable K} (f : K → nat) (X : gset K) : nat :=
  sum_list (f <$> elements X).

#[export] Instance sum_list_perm : Proper ((≡ₚ) ==> (=)) sum_list.
Proof. induction 1; simpl; lia. Qed.

Section SumSet.
Context `{Countable K}.
Implicit Types (f g : K → nat) (X : gset K).

Lemma sum_set_empty f : sum_set f ∅ = 0.
Proof. done. Qed.

Lemma sum_set_union_singleton f x X : x ∉ X → sum_set f ({[x]} ∪ X) = f x + sum_set f X.
Proof.
  intros Hx. unfold sum_set. by rewrite elements_union_singleton by done.
Qed.

Lemma sum_set_ext f g X : (∀ x, x ∈ X → f x = g x) → sum_set f X = sum_set g X.
Proof.
  intros Hfg. unfold sum_set. f_equal. apply list_fmap_ext.
  intros i x Hi. apply Hfg, elem_of_elements, list_elem_of_lookup. eauto.
Qed.

(** Changing [f] at one member [x] of [X] changes the sum by the same
    amount. *)
Lemma sum_set_update f g x X :
  x ∈ X → (∀ y, y ∈ X → y ≠ x → g y = f y) →
  sum_set g X + f x = sum_set f X + g x.
Proof.
  intros Hx Hfg. rewrite (union_difference_singleton_L x X Hx).
  rewrite !sum_set_union_singleton by set_solver.
  rewrite (sum_set_ext g f (X ∖ {[x]})); [lia|].
  intros y Hy. apply Hfg; set_solver.
Qed.

Lemma sum_set_ext_union f g x X :
  x ∉ X → (∀ y, y ∈ X → g y = f y) → g x = 0 →
  sum_set g ({[x]} ∪ X) = sum_set f X.
Proof.
  intros Hx Hfg Hg0. rewrite sum_set_union_singleton by done.
  rewrite Hg0. by apply sum_set_ext.
Qed.
End SumSet.

Section SetSize.
Context `{Countable K}.

Lemma size_union_singleton_new (x : K) (X : gset K) : x ∉ X → size ({[x]} ∪ X) = S (size X).
Proof. intros Hx. rewrite size_union by set_solver. by rewrite size_singleton. Qed.

Lemma size_union_le (X Y : gset K) : size (X ∪ Y) ≤ size X + size Y.
Proof. rewrite size_union_alt. opose proof (subseteq_size (Y ∖ X) Y _); [set_solver|lia]. Qed.

Lemma size_list_to_set_le (l : list K) : size (list_to_set l : gset K) ≤ length l.
Proof.
  induction l as [|x l IH]; simpl; [done|].
  pose proof (size_union_le {[x]} (list_to_set l)). rewrite size_singleton in H0. lia.
Qed.

(** Adding one to [f] at a member [x] adds one to the sum. *)
Lemma sum_set_bump (f : K → nat) x X :
  x ∈ X → sum_set (λ y, f y + if decide (y = x) then 1 else 0) X = S (sum_set f X).
Proof.
  intros Hx. opose proof (sum_set_update f (λ y, f y + if decide (y = x) then 1 else 0) x X Hx _)
    as Hup; [intros y _ Hy; rewrite decide_False by done; lia|].
  simpl in Hup. rewrite decide_True in Hup by done. lia.
Qed.
End SetSize.
