(* ===== verification/PyValue.v ===== *)
(** * Python values of a JSON request body

    FastAPI hands the handler the result of [json.loads]: [None], [bool],
    [int], [str], [list] and [dict] objects.  This file models them
    ([json]), the exceptions the handler's code can raise on them
    ([py_exc]), and the few Python operations [main.py] and the networkx
    methods it calls apply to them: [v["k"]] ([py_getitem]), using [v] as a
    dictionary key ([py_hash], [pykey]), iterating [v] ([py_iter]),
    unpacking [a, b = v] ([py_unpack2]) and [{}.update(v)]
    ([dict_update_check]).  Messages follow CPython 3.12. *)

From S2P Require Import Prelude.
From Stdlib Require Import Ascii.
From stdpp Require Import pretty.

(** ** Values *)

(** A [dict] is kept as the key/value pairs of the JSON text, in order;
    [json.loads] keeps the last value of a repeated key at the position of
    its first occurrence, which [dict_lookup] and [dict_keys] reproduce. *)
#[warnings="-register-all"]
Inductive json : Type :=
| JNull
| JBool (b : bool)
| JInt (z : Z)
| JStr (s : string)
| JArr (items : list json)
| JObj (fields : list (string * json)).

(** Induction on values, with the hypothesis for every element of an
    array and every value of an object. *)
Lemma json_ind' (P : json → Prop) :
  P JNull → (∀ b, P (JBool b)) → (∀ z, P (JInt z)) → (∀ s, P (JStr s)) →
  (∀ vs, Forall P vs → P (JArr vs)) → (∀ kvs, Forall (λ kv, P kv.2) kvs → P (JObj kvs)) →
  ∀ v, P v.
Proof.
  intros Hn Hb Hi Hs Ha Ho. fix IH 1. intros [| | | |vs|kvs].
  - exact Hn.
  - apply Hb.
  - apply Hi.
  - apply Hs.
  - apply Ha. induction vs as [|v vs IHvs]; constructor; [apply IH|exact IHvs].
  - apply Ho. induction kvs as [|[k v] kvs IHkvs]; constructor; [apply IH|exact IHkvs].
Qed.

(** Equality of values, decided structurally. *)
Fixpoint json_eqb (v w : json) {struct v} : bool :=
  match v, w with
  | JNull, JNull => true
  | JBool a, JBool b => bool_decide (a = b)
  | JInt a, JInt b => bool_decide (a = b)
  | JStr a, JStr b => bool_decide (a = b)
  | JArr vs, JArr ws =>
      (fix go (vs ws : list json) : bool :=
         match vs, ws with
         | [], [] => true
         | v :: vs', w :: ws' => json_eqb v w && go vs' ws'
         | _, _ => false
         end) vs ws
  | JObj kvs, JObj lws =>
      (fix go (kvs lws : list (string * json)) : bool :=
         match kvs, lws with
         | [], [] => true
         | (k, v) :: kvs', (l, w) :: lws' => bool_decide (k = l) && json_eqb v w && go kvs' lws'
         | _, _ => false
         end) kvs lws
  | _, _ => false
  end.

Lemma json_eqb_correct v w : json_eqb v w = true ↔ v = w.
Proof.
  revert w. induction v as [| b | z | s | vs IH | kvs IH] using json_ind';
    intros [| b' | z' | s' | ws | lws]; simpl;
    rewrite ?bool_decide_eq_true; try naive_solver.
  - revert ws. induction IH as [|v vs Hv Hvs IHl]; intros [|w ws]; try naive_solver.
    rewrite andb_true_iff, Hv, IHl. naive_solver.
  - revert lws. induction IH as [|[k v] kvs Hv Hkvs IHl]; intros [|[l w] lws]; try naive_solver.
    rewrite !andb_true_iff, bool_decide_eq_true, Hv, IHl. naive_solver.
Qed.

#[export] Instance json_eq_dec : EqDecision json.
Proof.
  intros v w. destruct (json_eqb v w) eqn:E; [left; by apply json_eqb_correct|right].
  intros ?%json_eqb_correct. congruence.
Defined.

(** [type(v).__name__] *)
Definition py_type_name (v : json) : string :=
  match v with
  | JNull => "NoneType"
  | JBool _ => "bool"
  | JInt _ => "int"
  | JStr _ => "str"
  | JArr _ => "list"
  | JObj _ => "dict"
  end.

(** ** Exceptions *)

(** [str(n)] of a natural number. *)
Definition nat_str (n : nat) : string := pretty (N.of_nat n).

(** A hexadecimal digit of [n < 16], lower case, as [\xNN] and [%02x]
    write it. *)
Definition hex_digit (n : nat) : ascii :=
  if decide (n < 10) then ascii_of_nat (48 + n) else ascii_of_nat (87 + n).

(** [%02x] of a byte. *)
Definition hex_byte (n : nat) : string :=
  String (hex_digit (n / 16)) (String (hex_digit (n mod 16)) EmptyString).

Inductive py_exc : Type :=
| KeyError (key : string)
| TypeError (msg : string)
| ValueError (msg : string)
| RuntimeError (msg : string)
| UnicodeDecodeError (obj : string) (start stop : nat) (reason : string).
  (** [UnicodeDecodeError("utf-8", obj, start, stop, reason)] of the
      UTF-8 codec, a [ValueError] *)

#[export] Instance py_exc_eq_dec : EqDecision py_exc.
Proof. solve_decision. Defined.

(** [str(e)]: a [KeyError] prints the [repr] of its key; the keys raised
    here are the literals ["id"], ["source"], ["target"], whose [repr] is
    the key in single quotes. *)
Definition py_exc_str (e : py_exc) : string :=
  match e with
  | KeyError k => "'" +:+ k +:+ "'"
  | TypeError m => m
  | ValueError m => m
  | RuntimeError m => m
  | UnicodeDecodeError obj start stop reason =>
      match String.get start obj with
      | Some c =>
          if decide (stop = S start)
          then "'utf-8' codec can't decode byte 0x" +:+ hex_byte (nat_of_ascii c) +:+
               " in position " +:+ nat_str start +:+ ": " +:+ reason
          else "'utf-8' codec can't decode bytes in position " +:+ nat_str start +:+ "-" +:+
               nat_str (stop - 1) +:+ ": " +:+ reason
      | None =>
          "'utf-8' codec can't decode bytes in position " +:+ nat_str start +:+ "-" +:+
          nat_str (stop - 1) +:+ ": " +:+ reason
      end
  end.

(** ** Dictionaries *)

(** [d[k]] on the dict built from [kvs]: the last binding of [k]. *)
Fixpoint dict_lookup (kvs : list (string * json)) (k : string) : option json :=
  match kvs with
  | [] => None
  | (k', v) :: rest =>
      match dict_lookup rest k with
      | Some w => Some w
      | None => if decide (k' = k) then Some v else None
      end
  end.

(** [list(d)]: the distinct keys, in order of first occurrence. *)
Definition dict_keys (kvs : list (string * json)) : list string :=
  reverse (remove_dups (reverse kvs.*1)).

(** [v[k]] with a string [k]: the subscript of [main.py] lines 31-32. *)
Definition py_getitem (v : json) (k : string) : result py_exc json :=
  match v with
  | JObj kvs =>
      match dict_lookup kvs k with
      | Some w => Ok w
      | None => raise (KeyError k)
      end
  | JArr _ => raise (TypeError "list indices must be integers or slices, not str")
  | JStr _ => raise (TypeError "string indices must be integers, not 'str'")
  | _ => raise (TypeError ("'" +:+ py_type_name v +:+ "' object is not subscriptable"))
  end.

(** ** Hashing: the keys of networkx's dictionaries *)

(** Hashable values up to Python's [==]: [True == 1] and [False == 0]
    hash alike and are the same dictionary key. *)
Inductive pykey : Type :=
| PNone
| PInt (z : Z)
| PStr (s : string).

#[export] Instance pykey_eq_dec : EqDecision pykey.
Proof. solve_decision. Defined.

#[export] Instance pykey_countable : Countable pykey.
Proof.
  refine (inj_countable'
    (λ k, match k with PNone => inl (inl ()) | PInt z => inl (inr z) | PStr s => inr s end)
    (λ c, match c with inl (inl _) => PNone | inl (inr z) => PInt z | inr s => PStr s end) _).
  by intros [].
Defined.

(** [hash(v)], as [n in d] computes it before any lookup. *)
Definition py_hash (v : json) : result py_exc pykey :=
  match v with
  | JNull => Ok PNone
  | JBool b => Ok (PInt (if b then 1 else 0))
  | JInt z => Ok (PInt z)
  | JStr s => Ok (PStr s)
  | JArr _ | JObj _ => raise (TypeError ("unhashable type: '" +:+ py_type_name v +:+ "'"))
  end.

(** ** Iteration and unpacking *)

(** The one-character strings of [s]. *)
Fixpoint str_chars (s : string) : list string :=
  match s with
  | EmptyString => []
  | String c s' => String c EmptyString :: str_chars s'
  end.

(** [list(v)]: the items of a list, the characters of a str, the keys of
    a dict; [None], [bool] and [int] are not iterable. *)
Definition py_iter (v : json) : option (list json) :=
  match v with
  | JArr items => Some items
  | JStr s => Some (JStr <$> str_chars s)
  | JObj kvs => Some (JStr <$> dict_keys kvs)
  | _ => None
  end.


(** [a, b = v] *)
Definition py_unpack2 (v : json) : result py_exc (json * json) :=
  match py_iter v with
  | None => raise (TypeError ("cannot unpack non-iterable " +:+ py_type_name v +:+ " object"))
  | Some [a; b] => Ok (a, b)
  | Some items =>
      if decide (length items < 2)
      then raise (ValueError ("not enough values to unpack (expected 2, got "
                              +:+ nat_str (length items) +:+ ")"))
      else raise (ValueError "too many values to unpack (expected 2)")
  end.

(** One element of the sequence given to [dict.update]: it must be an
    iterable of length 2 whose first item is hashable. *)
Definition dict_update_item (i : nat) (e : json) : result py_exc unit :=
  match py_iter e with
  | None => raise (TypeError ("cannot convert dictionary update sequence element #"
                              +:+ nat_str i +:+ " to a sequence"))
  | Some [k; _] => _ ← py_hash k; Ok ()
  | Some items => raise (ValueError ("dictionary update sequence element #" +:+ nat_str i
                          +:+ " has length " +:+ nat_str (length items) +:+ "; 2 is required"))
  end.

Fixpoint dict_update_items (i : nat) (es : list json) : result py_exc unit :=
  match es with
  | [] => Ok ()
  | e :: es' => _ ← dict_update_item i e; dict_update_items (S i) es'
  end.

(** [{}.update(v)]: a dict is merged as a mapping; anything else must be
    an iterable of key/value pairs. *)
Definition dict_update_check (v : json) : result py_exc unit :=
  match v with
  | JObj _ => Ok ()
  | _ =>
      match py_iter v with
      | None => raise (TypeError ("'" +:+ py_type_name v +:+ "' object is not iterable"))
      | Some es => dict_update_items 0 es
      end
  end.

(** ** Lemmas *)

Lemma py_getitem_Ok v k w :
  py_getitem v k = Ok w ↔ ∃ kvs, v = JObj kvs ∧ dict_lookup kvs k = Some w.
Proof.
  split.
  - destruct v; simpl; try discriminate. destruct (dict_lookup _ k) eqn:?; naive_solver.
  - intros (kvs & -> & Hk). simpl. by rewrite Hk.
Qed.

Lemma py_getitem_KeyError v k k' :
  py_getitem v k = Err (KeyError k') ↔
  k' = k ∧ ∃ kvs, v = JObj kvs ∧ dict_lookup kvs k = None.
Proof.
  split.
  - destruct v; simpl; try discriminate. destruct (dict_lookup _ k) eqn:?; naive_solver.
  - intros (-> & kvs & -> & Hk). simpl. by rewrite Hk.
Qed.

(** A value can be a dictionary key iff it is not a list or a dict. *)
Lemma py_hash_Ok_iff v : (∃ k, py_hash v = Ok k) ↔ (∀ l, v ≠ JArr l) ∧ (∀ kvs, v ≠ JObj kvs).
Proof. destruct v; simpl; naive_solver. Qed.

Lemma dict_lookup_app_last kvs k v : dict_lookup (kvs ++ [(k, v)]) k = Some v.
Proof.
  induction kvs as [|[k' v'] kvs IH]; simpl.
  - by rewrite decide_True.
  - by rewrite IH.
Qed.

Lemma dict_lookup_Some kvs k v : dict_lookup kvs k = Some v → (k, v) ∈ kvs.
Proof.
  induction kvs as [|[k' v'] kvs IH]; simpl; [done|].
  destruct (dict_lookup kvs k); [intros [= ->]; set_solver|].
  case_decide; [intros [= ->]; subst; set_solver|done].
Qed.

Lemma dict_lookup_None kvs k : dict_lookup kvs k = None ↔ k ∉ kvs.*1.
Proof.
  induction kvs as [|[k' v'] kvs IH]; simpl; [set_solver|].
  destruct (dict_lookup kvs k); [split; [done|set_solver]|].
  case_decide; set_solver.
Qed.

#[export] Hint Resolve dict_lookup_app_last : pipeline.
