(* ===== verification/PyStr.v ===== *)
(** * Python string methods and [repr]

    The [str] operations the program reaches through its libraries:
    [lower], [strip], [split] and [join] (Starlette's CORS middleware),
    the string order of [sorted], and [repr] of the values the handler
    prints (lines 38-40): [None], [True]/[False], ints, strs, lists, dicts
    and 2-tuples, as CPython writes them.  Strings hold the characters
    below U+0100 (the JSON model's strings), so [repr] escapes the
    backslash, the quote it chooses, tab, newline, carriage return and the
    other characters [str.isprintable] refuses ([\xNN]), and keeps every
    printable character. *)

From S2P Require Import Prelude PyValue.
From Stdlib Require Import Ascii.
From stdpp Require Import pretty.

(** ** [str] methods *)

(** [c.lower()] on a character below U+0100: the capitals [A] to [Z] and
    U+00C0 to U+00DE but the multiplication sign U+00D7 have their small
    letter 32 code points higher. *)
Definition ascii_lower (c : Ascii.ascii) : Ascii.ascii :=
  let n := Ascii.N_of_ascii c in
  if decide ((65 ≤ n ≤ 90)%N ∨ (192 ≤ n ≤ 222 ∧ n ≠ 215)%N)
  then Ascii.ascii_of_N (n + 32) else c.

Fixpoint str_lower (s : string) : string :=
  match s with
  | EmptyString => EmptyString
  | String c s' => String (ascii_lower c) (str_lower s')
  end.

(** The characters below U+0100 that [str.strip()] removes
    ([Py_UNICODE_ISSPACE]): tab to carriage return, the four information
    separators U+001C to U+001F, space, U+0085 and U+00A0. *)
Definition py_space (c : Ascii.ascii) : bool :=
  bool_decide (c ∈ [" "; "009"; "010"; "011"; "012"; "013"; "028"; "029"; "030"; "031"; "133"; "160"]%char).

Fixpoint str_lstrip (s : string) : string :=
  match s with
  | String c s' => if py_space c then str_lstrip s' else s
  | EmptyString => EmptyString
  end.

Definition str_strip (s : string) : string :=
  String.rev (str_lstrip (String.rev (str_lstrip s))).

(** [s.split(sep)] for a one-character separator: the pieces between the
    separators, empty ones included. *)
Fixpoint str_split (sep : Ascii.ascii) (s : string) : list string :=
  match s with
  | EmptyString => [EmptyString]
  | String c s' =>
      match str_split sep s' with
      | [] => []
      | w :: ws => if decide (c = sep) then EmptyString :: w :: ws else String c w :: ws
      end
  end.

(** [sep.join(ws)] *)
Definition str_join (sep : string) (ws : list string) : string := String.concat sep ws.

(** A byte, or the code point of a character below U+0100. *)
Definition byte (c : ascii) : Z := Z.of_nat (nat_of_ascii c).

(** [s.encode("utf-8")] for a [str] of characters below U+0100: ASCII
    stays, U+0080 to U+00FF become two bytes. *)
Fixpoint utf8_encode (s : string) : string :=
  match s with
  | EmptyString => EmptyString
  | String c s' =>
      let n := byte c in
      if decide (n < 0x80)%Z then String c (utf8_encode s')
      else String (ascii_of_nat (Z.to_nat (Z.lor 0xC0 (Z.shiftr n 6))))
             (String (ascii_of_nat (Z.to_nat (Z.lor 0x80 (Z.land n 0x3F)))) (utf8_encode s'))
  end.

(** Python's [<=] on strings (code-point order), for [sorted]. *)
Definition str_le (s t : string) : Prop := String.leb s t = true.
#[export] Instance str_le_dec : RelDecision str_le.
Proof. intros s t. unfold str_le. apply _. Defined.


(** ** [repr] *)

Definition dquote_char : ascii := ascii_of_nat 34.
Definition squote_char : ascii := "'"%char.
Definition backslash_char : ascii := ascii_of_nat 92.

(** One character of a [str] inside its [repr], the quote being [q]: the
    characters below U+0100 that [str.isprintable] refuses (the controls
    U+0000 to U+001F and U+007F to U+009F, the no-break space U+00A0, the
    soft hyphen U+00AD) are written [\xNN]. *)
Definition repr_char (q c : ascii) : string :=
  let n := nat_of_ascii c in
  if decide (c = q ∨ c = backslash_char) then String backslash_char (String c EmptyString)
  else if decide (n = 9) then String backslash_char "t"
  else if decide (n = 10) then String backslash_char "n"
  else if decide (n = 13) then String backslash_char "r"
  else if decide (n < 32 ∨ 127 ≤ n ≤ 160 ∨ n = 173)
  then String backslash_char (String "x" (hex_byte n))
  else String c EmptyString.

Fixpoint str_has (c : ascii) (s : string) : bool :=
  match s with
  | EmptyString => false
  | String c' s' => bool_decide (c' = c) || str_has c s'
  end.

Fixpoint repr_chars (q : ascii) (s : string) : string :=
  match s with
  | EmptyString => EmptyString
  | String c s' => repr_char q c +:+ repr_chars q s'
  end.

(** [repr(s)]: single quotes, unless [s] holds a single quote and no
    double quote. *)
Definition str_repr (s : string) : string :=
  let q := if (str_has squote_char s && negb (str_has dquote_char s))%bool
           then dquote_char else squote_char in
  String q (repr_chars q s +:+ String q EmptyString).

(** A dict built from key/value pairs: each key at the place of its first
    occurrence, with its last value. *)
Definition dict_items {A} (kvs : list (string * A)) : list (string * A) :=
  omap (λ k, (λ v, (k, v)) <$> last (snd <$> filter (λ kv, kv.1 = k) kvs))
    (reverse (remove_dups (reverse kvs.*1))).

(** [repr(v)] of a value [json.loads] builds. *)
Fixpoint py_repr (v : json) : string :=
  match v with
  | JNull => "None"
  | JBool b => if b then "True" else "False"
  | JInt z => pretty z
  | JStr s => str_repr s
  | JArr vs => "[" +:+ str_join ", " (List.map py_repr vs) +:+ "]"
  | JObj kvs =>
      "{" +:+ str_join ", "
        (List.map (λ kv, str_repr kv.1 +:+ ": " +:+ kv.2)
           (dict_items (List.map (λ kv, (kv.1, py_repr kv.2)) kvs))) +:+ "}"
  end.

(** [repr((a, b))] *)
Definition tuple_repr (a b : json) : string := "(" +:+ py_repr a +:+ ", " +:+ py_repr b +:+ ")".

(** [str(l)] of a list, from the [repr] of its elements. *)
Definition list_str {A} (r : A → string) (l : list A) : string :=
  "[" +:+ str_join ", " (List.map r l) +:+ "]".

(** ** Splitting and joining *)

Lemma str_app_cons c s t : String c s +:+ t = String c (s +:+ t).
Proof. done. Qed.

Lemma str_app_nil_l s : EmptyString +:+ s = s.
Proof. done. Qed.

Lemma str_app_assoc s t u : (s +:+ t) +:+ u = s +:+ t +:+ u.
Proof. induction s as [|c s IH]; [done|]. by rewrite !str_app_cons, IH. Qed.

Lemma str_app_nil_r s : s +:+ EmptyString = s.
Proof. induction s as [|c s IH]; [done|]. by rewrite str_app_cons, IH. Qed.

Lemma str_length_app s t : String.length (s +:+ t) = String.length s + String.length t.
Proof. induction s as [|c s IH]; [done|]. rewrite str_app_cons. simpl. by rewrite IH. Qed.

(** ** Dicts *)

Lemma dict_items_last_map {A B} (f : A → B) kvs k :
  last (snd <$> filter (λ kv, kv.1 = k) (List.map (λ kv, (kv.1, f kv.2)) kvs))
  = f <$> last (snd <$> filter (λ kv : string * A, kv.1 = k) kvs).
Proof.
  induction kvs as [|[k' v] kvs IH]; [done|]. cbn [List.map].
  rewrite !filter_cons. cbn [fst snd]. destruct (decide (k' = k)); [|exact IH].
  rewrite !fmap_cons, !last_cons, IH. by destruct (last (filter (λ kv : string * A, kv.1 = k) kvs).*2).
Qed.

Lemma keys_map_snd {A B} (f : A → B) (kvs : list (string * A)) :
  (List.map (λ kv, (kv.1, f kv.2)) kvs).*1 = kvs.*1.
Proof. induction kvs as [|kv kvs IH]; [done|]. cbn [List.map]. by rewrite !fmap_cons, IH. Qed.

(** Mapping the values of a dict commutes with building it. *)
Lemma dict_items_map {A B} (f : A → B) kvs :
  dict_items (List.map (λ kv, (kv.1, f kv.2)) kvs) = (λ kv, (kv.1, f kv.2)) <$> dict_items kvs.
Proof.
  unfold dict_items. rewrite list_fmap_omap, keys_map_snd.
  apply list_omap_ext, Forall_Forall2_diag, Forall_forall. intros k _.
  rewrite dict_items_last_map. by destruct (last _).
Qed.

Lemma keys_map_fst {A} (f : string → string) (kvs : list (string * A)) :
  (List.map (λ kv, (f kv.1, kv.2)) kvs).*1 = f <$> kvs.*1.
Proof. induction kvs as [|kv kvs IH]; [done|]. cbn [List.map]. by rewrite !fmap_cons, IH. Qed.

Lemma remove_dups_fmap_inj {A B} `{EqDecision A, EqDecision B} (f : A → B) `{!Inj eq eq f} l :
  remove_dups (f <$> l) = f <$> remove_dups l.
Proof.
  induction l as [|x l IH]; [done|]. rewrite fmap_cons. cbn [remove_dups].
  destruct (decide_rel _ (f x) _) as [Hx|Hx], (decide_rel _ x l) as [Hx'|Hx'];
    rewrite ?list_elem_of_fmap_inj in Hx; try done. by rewrite fmap_cons, IH.
Qed.

Lemma filter_map_keys {A} (f : string → string) `{!Inj eq eq f} (kvs : list (string * A)) k :
  filter (λ kv, kv.1 = f k) (List.map (λ kv, (f kv.1, kv.2)) kvs) =
  List.map (λ kv, (f kv.1, kv.2)) (filter (λ kv, kv.1 = k) kvs).
Proof.
  induction kvs as [|[k' v] kvs IH]; [done|]. cbn [List.map]. rewrite !filter_cons. cbn [fst].
  destruct (decide (f k' = f k)) as [Hk|Hk], (decide (k' = k)) as [Hk'|Hk'];
    [by rewrite IH|by apply (inj f) in Hk|by subst|done].
Qed.

(** Renaming the keys of a dict one-to-one commutes with building it. *)
Lemma dict_items_map_keys {A} (f : string → string) `{!Inj eq eq f} (kvs : list (string * A)) :
  dict_items (List.map (λ kv, (f kv.1, kv.2)) kvs) = (λ kv, (f kv.1, kv.2)) <$> dict_items kvs.
Proof.
  unfold dict_items. rewrite keys_map_fst, <- fmap_reverse, remove_dups_fmap_inj by done.
  rewrite <- fmap_reverse, list_fmap_omap. apply list_omap_ext.
  apply Forall2_fmap_l, Forall_Forall2_diag, Forall_forall. intros k _. unfold compose; cbn beta.
  rewrite filter_map_keys by done. rewrite <- list_fmap_compose.
  by destruct (last _).
Qed.

(** Every item of a dict is a pair of the text it was built from. *)
Lemma dict_items_elem {A} (kvs : list (string * A)) k v : (k, v) ∈ dict_items kvs → (k, v) ∈ kvs.
Proof.
  unfold dict_items. intros (k' & _ & Hk)%list_elem_of_omap.
  destruct (last _) as [v'|] eqn:E; simplify_eq/=.
  apply last_Some_elem_of, list_elem_of_fmap in E as ([k'' v''] & -> & Hf).
  apply list_elem_of_filter in Hf as [Hk Hin]. simpl in *. by subst.
Qed.

(** [str.lower] is idempotent. *)
Lemma ascii_lower_idem c : ascii_lower (ascii_lower c) = ascii_lower c.
Proof. destruct c as [[] [] [] [] [] [] [] []]; reflexivity. Qed.

Lemma str_lower_idem s : str_lower (str_lower s) = str_lower s.
Proof. induction s as [|c s IH]; simpl; [done|]. by rewrite ascii_lower_idem, IH. Qed.

Lemma str_split_cons sep s : ∃ w ws, str_split sep s = w :: ws.
Proof.
  induction s as [|c s (w & ws & IH)]; simpl; [by eauto|]. rewrite IH.
  case_decide; eauto.
Qed.

Lemma str_join_cons_char sep c w ws :
  str_join sep (String c w :: ws) = String c (str_join sep (w :: ws)).
Proof. by destruct ws. Qed.

Lemma str_join_cons sep w w' ws :
  str_join sep (w :: w' :: ws) = w +:+ sep +:+ str_join sep (w' :: ws).
Proof. done. Qed.

Lemma str_has_append c s t : str_has c (s +:+ t) = (str_has c s || str_has c t)%bool.
Proof. induction s as [|c' s IH]; simpl; [done|]. rewrite IH. by destruct (bool_decide _). Qed.

Lemma str_has_join c sep ws :
  str_has c sep = false → Forall (λ w, str_has c w = false) ws → str_has c (str_join sep ws) = false.
Proof.
  intros Hsep Hws. induction Hws as [|w ws Hw Hws IH]; [done|].
  destruct ws as [|w' ws]; [done|]. rewrite str_join_cons, !str_has_append, Hw, Hsep, IH. done.
Qed.

(** Splitting [w ++ sep ++ rest] at the first separator, [w] having none. *)
Lemma str_split_app sep w rest :
  str_has sep w = false →
  str_split sep (w +:+ String sep rest) = w :: str_split sep rest.
Proof.
  induction w as [|c w IH]; simpl; intros Hw.
  - destruct (str_split_cons sep rest) as (v & vs & ->). by rewrite decide_True.
  - apply orb_false_iff in Hw as [Hc Hw]. rewrite IH by done.
    rewrite decide_False; [done|]. intros ->. by rewrite bool_decide_true in Hc.
Qed.

Lemma str_split_no_sep sep w : str_has sep w = false → str_split sep w = [w].
Proof.
  induction w as [|c w IH]; simpl; intros Hw; [done|].
  apply orb_false_iff in Hw as [Hc Hw]. rewrite IH by done.
  rewrite decide_False; [done|]. intros ->. by rewrite bool_decide_true in Hc.
Qed.

Lemma str_append_char c x : String c EmptyString +:+ x = String c x.
Proof. done. Qed.

(** [split] and [join] on a one-character separator are inverse:
    [sep.join(s.split(sep)) == s] for every string, and
    [sep.join(ws).split(sep) == ws] for every non-empty list of pieces
    without the separator. *)
Theorem str_split_join sep :
  (∀ s, str_join (String sep EmptyString) (str_split sep s) = s) ∧
  (∀ ws, ws ≠ [] → Forall (λ w, str_has sep w = false) ws →
     str_split sep (str_join (String sep EmptyString) ws) = ws).
Proof.
  split.
  - intros s. induction s as [|c s IH]; [done|]. simpl.
    destruct (str_split_cons sep s) as (w & ws & Hs). rewrite Hs in IH |- *.
    case_decide as Hc; [subst c; by rewrite str_join_cons, IH|].
    by rewrite str_join_cons_char, IH.
  - intros ws Hne Hws. induction ws as [|w ws IH]; [done|].
    apply Forall_cons in Hws as [Hw Hws]. destruct ws as [|w' ws].
    + by apply str_split_no_sep.
    + rewrite str_join_cons, str_append_char, str_split_app by done. by rewrite IH.
Qed.

(** ** UTF-8 *)

Lemma utf8_encode_app s t : utf8_encode (s +:+ t) = utf8_encode s +:+ utf8_encode t.
Proof.
  induction s as [|c s IH]; [done|]. rewrite str_app_cons. cbn [utf8_encode].
  case_decide; by rewrite ?str_app_cons, IH.
Qed.

Lemma utf8_encode_join sep ws :
  utf8_encode (str_join sep ws) = str_join (utf8_encode sep) (List.map utf8_encode ws).
Proof.
  induction ws as [|w [|w' ws] IH]; [done|done|].
  rewrite str_join_cons, !utf8_encode_app, IH. done.
Qed.
