(* ===== verification/Json.v ===== *)
(** * JSON text: [json.loads] and [json.dumps]

    The handler never sees the bytes of the request or of its answer:
    FastAPI decodes the body with [json.loads] (through Starlette's
    [Request.json]) before validating it against [GraphData], and renders
    every answer with [json.dumps(content, ensure_ascii=False,
    allow_nan=False, indent=None, separators=(",", ":"))]
    ([JSONResponse.render]).  This file models both on Python [str]s, a
    Rocq [string] being a [str] whose characters are code points below
    256.

    [json_loads] follows CPython 3.12's C scanner ([scan_once_unicode],
    [_parse_object_unicode], [_parse_array_unicode], [scanstring_unicode],
    [_match_number_unicode]) and [JSONDecoder.decode]: its messages and
    the positions it reports, which FastAPI puts into its 422 answer.  What
    the [json] type cannot hold is reported as [OutsideModel]: numbers
    with a fraction or an exponent and the constants [NaN], [Infinity],
    [-Infinity] (Python floats), and [\u] escapes above U+00FF.  Integers
    longer than 4300 digits make [int()] raise [ValueError]
    ([IntDigitsError]).  The scanner recurses on the text with fuel;
    [json_loads] gives it enough ([json_loads_fuel]). *)

From S2P Require Import Prelude PyValue PyStr.
From Stdlib Require Import Ascii.
From stdpp Require Import pretty.

(** ** Encoding *)

(** [json.encoder.ESCAPE_DCT] for [ensure_ascii=False]: the quote, the
    backslash, the five named controls, and [\u00XX] for the other
    characters below U+0020; every other character is itself. *)
Definition json_escape_char (c : ascii) : string :=
  let n := nat_of_ascii c in
  if decide (c = dquote_char ∨ c = backslash_char) then String backslash_char (String c EmptyString)
  else if decide (n = 8) then String backslash_char "b"
  else if decide (n = 12) then String backslash_char "f"
  else if decide (n = 10) then String backslash_char "n"
  else if decide (n = 13) then String backslash_char "r"
  else if decide (n = 9) then String backslash_char "t"
  else if decide (n < 32)
  then String backslash_char ("u00" +:+ hex_byte n)
  else String c EmptyString.

Fixpoint json_escape (s : string) : string :=
  match s with
  | EmptyString => EmptyString
  | String c s' => json_escape_char c +:+ json_escape s'
  end.

(** [encode_basestring(s)] *)
Definition json_quote (s : string) : string :=
  String dquote_char (json_escape s +:+ String dquote_char EmptyString).

(** [json.dumps] with the separators [","] and [":"]: a dict is written
    in its key order, each key once with its last value. *)
Fixpoint json_dumps (v : json) : string :=
  match v with
  | JNull => "null"
  | JBool b => if b then "true" else "false"
  | JInt z => pretty z
  | JStr s => json_quote s
  | JArr vs => "[" +:+ str_join "," (List.map json_dumps vs) +:+ "]"
  | JObj kvs =>
      "{" +:+ str_join ","
        (List.map (λ kv, json_quote kv.1 +:+ ":" +:+ kv.2)
           (dict_items (List.map (λ kv, (kv.1, json_dumps kv.2)) kvs))) +:+ "}"
  end.

(** CPython's limit on the digits [int()] converts. *)
Definition int_max_str_digits : nat := 4300.

(** The value [json.loads] gives back for [json.dumps(v)]: every dict as
    Python builds it, each key once, at its first place, with its last
    value. *)
Fixpoint json_norm (v : json) : json :=
  match v with
  | JArr vs => JArr (List.map json_norm vs)
  | JObj kvs => JObj (dict_items (List.map (λ kv, (kv.1, json_norm kv.2)) kvs))
  | _ => v
  end.

(** Every integer of [v] has at most [int_max_str_digits] digits. *)
Fixpoint json_ints_fit (v : json) : bool :=
  match v with
  | JInt z => bool_decide (String.length (pretty (Z.abs z)) ≤ int_max_str_digits)
  | JArr vs => forallb json_ints_fit vs
  | JObj kvs => forallb (λ kv, json_ints_fit kv.2) kvs
  | _ => true
  end.

(** What may follow a value in the text [json_dumps] writes. *)
Definition json_delim (rest : string) : bool :=
  match rest with
  | EmptyString => true
  | String c _ => bool_decide (c = ","%char ∨ c = "]"%char ∨ c = "}"%char)
  end.

(** ** Decoding *)

Inductive decode_error : Type :=
| JSONDecodeError (msg : string) (pos : nat)  (** [json.JSONDecodeError(msg, doc, pos)] *)
| IntDigitsError (digits : nat)               (** [ValueError] of [int()] past 4300 digits *)
| OutsideModel                                (** a float, or a code point above U+00FF *)
| DecodeFuel.                                 (** the scanner's fuel ran out *)

#[export] Instance decode_error_eq_dec : EqDecision decode_error.
Proof. solve_decision. Defined.

(** [IS_WHITESPACE]: space, tab, line feed, carriage return. *)
Definition is_ws (c : ascii) : bool :=
  bool_decide (nat_of_ascii c = 32 ∨ nat_of_ascii c = 9 ∨ nat_of_ascii c = 10 ∨ nat_of_ascii c = 13).

Fixpoint skip_ws (s : string) : string :=
  match s with
  | EmptyString => EmptyString
  | String c s' => if is_ws c then skip_ws s' else s
  end.

Definition is_digit (c : ascii) : bool := bool_decide (48 ≤ nat_of_ascii c ≤ 57).

(** The escapes of [scanstring_unicode] other than [\u]. *)
Definition simple_escape (e : ascii) : option ascii :=
  if decide (e = dquote_char ∨ e = backslash_char ∨ e = "/"%char) then Some e
  else if decide (e = "b"%char) then Some (ascii_of_nat 8)
  else if decide (e = "f"%char) then Some (ascii_of_nat 12)
  else if decide (e = "n"%char) then Some (ascii_of_nat 10)
  else if decide (e = "r"%char) then Some (ascii_of_nat 13)
  else if decide (e = "t"%char) then Some (ascii_of_nat 9)
  else None.

(** A hexadecimal digit of a [\uXXXX] escape, either case. *)
Definition hex_val (c : ascii) : option nat :=
  let n := nat_of_ascii c in
  if decide (48 ≤ n ≤ 57) then Some (n - 48)
  else if decide (97 ≤ n ≤ 102) then Some (n - 87)
  else if decide (65 ≤ n ≤ 70) then Some (n - 55)
  else None.

(** [s] without the prefix [p], if [s] starts with it. *)
Fixpoint strip_prefix (p s : string) : option string :=
  match p, s with
  | EmptyString, _ => Some s
  | String a p', String b s' => if decide (a = b) then strip_prefix p' s' else None
  | _, _ => None
  end.

(** The digits at the head of [s], and what follows them. *)
Fixpoint span_digits (s : string) : string * string :=
  match s with
  | String c s' => if is_digit c then let '(ds, r) := span_digits s' in (String c ds, r) else (EmptyString, s)
  | EmptyString => (EmptyString, EmptyString)
  end.

(** [int(ds)] on a string of decimal digits. *)
Fixpoint digits_value (acc : Z) (ds : string) : Z :=
  match ds with
  | EmptyString => acc
  | String d ds' => digits_value (10 * acc + Z.of_nat (nat_of_ascii d - 48)) ds'
  end.

(** After the integer part of a number, a fraction ([.] and a digit) or
    an exponent ([e] or [E], a sign if a character follows it, and a
    digit) makes [_match_number_unicode] read a float. *)
Definition float_follows (s : string) : bool :=
  match s with
  | String c r =>
      if decide (c = "."%char) then
        match r with String d _ => is_digit d | EmptyString => false end
      else if decide (c = "e"%char ∨ c = "E"%char) then
        match r with
        | String sg (String d _) =>
            if decide (sg = "+"%char ∨ sg = "-"%char) then is_digit d else is_digit sg
        | String d EmptyString => is_digit d
        | EmptyString => false
        end
      else false
  | EmptyString => false
  end.

Section Scanner.
(** The length of the whole document; positions are counted from its
    start, so the position of a suffix [r] is [L - length r]. *)
Variable L : nat.

Definition pos (r : string) : nat := L - String.length r.

Definition expecting_value (r : string) : decode_error := JSONDecodeError "Expecting value" (pos r).

(** [scanstring_unicode], [s] starting after the opening quote, [begin]
    the position of that quote: the decoded string and what follows the
    closing quote. *)
Fixpoint scan_chars (begin : nat) (s : string) : result decode_error (string * string) :=
  match s with
  | EmptyString => Err (JSONDecodeError "Unterminated string starting at" begin)
  | String c s' =>
      if decide (c = dquote_char) then Ok (EmptyString, s')
      else if decide (c = backslash_char) then
        match s' with
        | EmptyString => Err (JSONDecodeError "Unterminated string starting at" begin)
        | String e s'' =>
            if decide (e = "u"%char) then
              match s'' with
              | String h1 (String h2 (String h3 (String h4 rest))) =>
                  if decide (rest = EmptyString) then Err (JSONDecodeError "Invalid \uXXXX escape" (pos s'))
                  else
                  match hex_val h1, hex_val h2, hex_val h3, hex_val h4 with
                  | Some a, Some b, Some c', Some d =>
                      let n := ((a * 16 + b) * 16 + c') * 16 + d in
                      if decide (n < 256)
                      then (λ p : string * string, (String (ascii_of_nat n) p.1, p.2)) <$> scan_chars begin rest
                      else Err OutsideModel
                  | _, _, _, _ => Err (JSONDecodeError "Invalid \uXXXX escape" (pos s'))
                  end
              | _ => Err (JSONDecodeError "Invalid \uXXXX escape" (pos s'))
              end
            else
              match simple_escape e with
              | Some ch => (λ p : string * string, (String ch p.1, p.2)) <$> scan_chars begin s''
              | None => Err (JSONDecodeError "Invalid \escape" (pos s))
              end
        end
      else if decide (nat_of_ascii c < 32) then Err (JSONDecodeError "Invalid control character at" (pos s))
      else (λ p : string * string, (String c p.1, p.2)) <$> scan_chars begin s'
  end.

(** The integer [sign digits], with [int()]'s limit on the digits. *)
Definition make_int (neg : bool) (ds : string) : result decode_error json :=
  if decide (int_max_str_digits < String.length ds) then Err (IntDigitsError (String.length ds))
  else let z := digits_value 0 ds in Ok (JInt (if neg then - z else z)).

(** [_match_number_unicode] at the start [s] of a value. *)
Definition match_number (s : string) : result decode_error (json * string) :=
  let '(neg, s1) := match s with
                    | String c r => if decide (c = "-"%char) then (true, r) else (false, s)
                    | EmptyString => (false, s)
                    end in
  match s1 with
  | String d r =>
      let int_part :=
        if decide (49 ≤ nat_of_ascii d ≤ 57) then Some (let '(ds, r') := span_digits r in (String d ds, r'))
        else if decide (d = "0"%char) then Some (String d EmptyString, r)
        else None in
      match int_part with
      | None => Err (expecting_value s)
      | Some (ds, r') =>
          if float_follows r' then Err OutsideModel
          else v ← make_int neg ds; Ok (v, r')
      end
  | EmptyString => Err (expecting_value s)
  end.

(** [scan_once_unicode] and the two loops of [_parse_array_unicode] and
    [_parse_object_unicode]; whitespace after [[], [{], [,] and [:] is
    skipped before they are called. *)
Fixpoint scan_once (fuel : nat) (s : string) {struct fuel} : result decode_error (json * string) :=
  match fuel with
  | 0 => Err DecodeFuel
  | S f =>
      match s with
      | EmptyString => Err (expecting_value s)
      | String c r =>
          if decide (c = dquote_char) then
            '(str, r') ← scan_chars (pos s) r; Ok (JStr str, r')
          else if decide (c = "{"%char) then
            match skip_ws r with
            | String c' r' => if decide (c' = "}"%char) then Ok (JObj [], r') else parse_members f [] (skip_ws r)
            | EmptyString => parse_members f [] EmptyString
            end
          else if decide (c = "["%char) then
            match skip_ws r with
            | String c' r' => if decide (c' = "]"%char) then Ok (JArr [], r') else parse_elems f [] (skip_ws r)
            | EmptyString => parse_elems f [] EmptyString
            end
          else match strip_prefix "null" s with Some r' => Ok (JNull, r') | None =>
               match strip_prefix "true" s with Some r' => Ok (JBool true, r') | None =>
               match strip_prefix "false" s with Some r' => Ok (JBool false, r') | None =>
               if decide (is_Some (strip_prefix "NaN" s) ∨ is_Some (strip_prefix "Infinity" s)
                          ∨ is_Some (strip_prefix "-Infinity" s))
               then Err OutsideModel
               else match_number s
               end end end
      end
  end
with parse_elems (fuel : nat) (acc : list json) (s : string) {struct fuel} : result decode_error (json * string) :=
  match fuel with
  | 0 => Err DecodeFuel
  | S f =>
      '(v, r) ← scan_once f s;
      match skip_ws r with
      | String c r' =>
          if decide (c = "]"%char) then Ok (JArr (reverse (v :: acc)), r')
          else if decide (c = ","%char) then parse_elems f (v :: acc) (skip_ws r')
          else Err (JSONDecodeError "Expecting ',' delimiter" (pos (skip_ws r)))
      | EmptyString => Err (JSONDecodeError "Expecting ',' delimiter" (pos EmptyString))
      end
  end
with parse_members (fuel : nat) (acc : list (string * json)) (s : string) {struct fuel}
    : result decode_error (json * string) :=
  match fuel with
  | 0 => Err DecodeFuel
  | S f =>
      match s with
      | String c r =>
          if decide (c = dquote_char) then
            '(k, r1) ← scan_chars (pos s) r;
            match skip_ws r1 with
            | String c1 r2 =>
                if decide (c1 = ":"%char) then
                  '(v, r3) ← scan_once f (skip_ws r2);
                  match skip_ws r3 with
                  | String c3 r4 =>
                      if decide (c3 = "}"%char) then Ok (JObj (reverse ((k, v) :: acc)), r4)
                      else if decide (c3 = ","%char) then parse_members f ((k, v) :: acc) (skip_ws r4)
                      else Err (JSONDecodeError "Expecting ',' delimiter" (pos (skip_ws r3)))
                  | EmptyString => Err (JSONDecodeError "Expecting ',' delimiter" (pos EmptyString))
                  end
                else Err (JSONDecodeError "Expecting ':' delimiter" (pos (skip_ws r1)))
            | EmptyString => Err (JSONDecodeError "Expecting ':' delimiter" (pos EmptyString))
            end
          else Err (JSONDecodeError "Expecting property name enclosed in double quotes" (pos s))
      | EmptyString => Err (JSONDecodeError "Expecting property name enclosed in double quotes" (pos s))
      end
  end.
End Scanner.

(** The fuel [json_loads] gives the scanner: each level of the recursion
    consumes a character, each turn of a loop two. *)
Definition json_fuel (s : string) : nat := 2 * String.length s + 2.

(** [json.loads(s)]: [JSONDecoder.decode] skips leading whitespace, scans
    one value, skips trailing whitespace and refuses anything after it. *)
Definition json_loads (s : string) : result decode_error json :=
  let L := String.length s in
  '(v, r) ← scan_once L (json_fuel s) (skip_ws s);
  match skip_ws r with
  | EmptyString => Ok v
  | r' => Err (JSONDecodeError "Extra data" (pos L r'))
  end.

(** ** Progress and fuel *)

#[local] Arguments strip_prefix : simpl never.

Section ScannerFacts.
Variable L : nat.

Lemma skip_ws_len s : String.length (skip_ws s) ≤ String.length s.
Proof. induction s as [|c s IH]; simpl; [done|]. destruct (is_ws c); simpl; lia. Qed.

Lemma span_digits_len s : String.length (span_digits s).1 + String.length (span_digits s).2 = String.length s.
Proof.
  induction s as [|c s IH]; simpl; [done|].
  destruct (is_digit c); [|done]. destruct (span_digits s). simpl in *. lia.
Qed.

Lemma strip_prefix_len p s r : strip_prefix p s = Some r → String.length r + String.length p = String.length s.
Proof.
  revert s; induction p as [|a p IH]; intros [|b s]; unfold strip_prefix; fold strip_prefix;
    try naive_solver lia.
  case_decide; [|done]. intros ?%IH. simpl. lia.
Qed.

(** Reading a string consumes at least its closing quote. *)
Lemma scan_chars_len b s x r : scan_chars L b s = Ok (x, r) → String.length r < String.length s.
Proof.
  revert x r. induction s as [s IH] using (well_founded_ind (well_founded_ltof _ String.length)).
  intros x r H. destruct s as [|c s']; simpl in H; [done|].
  repeat (case_decide || case_match); simplify_eq; try (simpl; lia); res_inv;
    match goal with Hs : scan_chars _ _ ?t = Ok ?a |- _ =>
      destruct a as [x' r']; simplify_eq; apply IH in Hs; unfold ltof in *; simpl in *; lia end.
Qed.

Lemma scan_chars_not_fuel b s : scan_chars L b s ≠ Err DecodeFuel.
Proof.
  induction s as [s IH] using (well_founded_ind (well_founded_ltof _ String.length)).
  destruct s as [|c s']; simpl; [done|].
  repeat (case_decide || case_match); try done;
    match goal with |- _ <$> scan_chars _ _ ?t ≠ _ =>
      specialize (IH t); unfold ltof in IH; simpl in IH;
      destruct (scan_chars L b t); [done|]; intros [= ->]; apply IH; [lia|done] end.
Qed.

Lemma match_number_len s v r : match_number L s = Ok (v, r) → String.length r < String.length s.
Proof.
  unfold match_number, make_int. intros H.
  destruct s as [|c s']; [done|].
  repeat (case_decide || case_match); simplify_eq/=; res_inv; simplify_eq/=; try lia;
    match goal with Hs : span_digits ?t = (_, _) |- _ =>
      pose proof (span_digits_len t) as Hl; rewrite Hs in Hl; simpl in *; lia end.
Qed.

Lemma match_number_not_fuel s : match_number L s ≠ Err DecodeFuel.
Proof. unfold match_number, make_int. repeat (case_decide || case_match); done. Qed.

(** Turn the successful steps of a scan into facts about lengths. *)
Local Ltac len_facts :=
  repeat match goal with
  | p : (_ * _)%type |- _ => destruct p
  | H : scan_chars _ _ _ = Ok (_, _) |- _ => apply scan_chars_len in H
  | H : match_number _ _ = Ok (_, _) |- _ => apply match_number_len in H
  | H : strip_prefix _ _ = Some _ |- _ => apply strip_prefix_len in H
  | H : skip_ws ?t = _ |- _ =>
      let Hl := fresh "Hl" in pose proof (skip_ws_len t) as Hl; rewrite H in Hl; clear H
  | |- context [skip_ws ?t] =>
      let Hl := fresh "Hl" in pose proof (skip_ws_len t) as Hl; revert Hl; generalize (skip_ws t)
  | H : context [skip_ws ?t] |- _ =>
      let Hl := fresh "Hl" in pose proof (skip_ws_len t) as Hl; revert H Hl; generalize (skip_ws t); intros
  end.

(** Case analysis of one step of the scanner, down to its successful
    sub-scans. *)
Local Ltac scan_steps :=
  repeat first
    [ progress simplify_eq | progress res_inv
    | match goal with p : (_ * _)%type |- _ => destruct p end
    | progress (cbn beta iota in *) | case_decide | case_match ].

(** Every value read consumes at least one character. *)
Lemma scan_len f :
  (∀ s v r, scan_once L f s = Ok (v, r) → String.length r < String.length s) ∧
  (∀ acc s v r, parse_elems L f acc s = Ok (v, r) → String.length r < String.length s) ∧
  (∀ acc s v r, parse_members L f acc s = Ok (v, r) → String.length r < String.length s).
Proof.
  induction f as [|f (IHo & IHe & IHm)]; [done|].
  split_and!; [intros [|c s] v r H|intros acc s v r H|intros acc [|c s] v r H]; simpl in H; try done;
    scan_steps;
    repeat match goal with
    | H : scan_once _ _ _ = Ok (_, _) |- _ => apply IHo in H
    | H : parse_members _ _ _ _ = Ok (_, _) |- _ => apply IHm in H
    | H : parse_elems _ _ _ _ = Ok (_, _) |- _ => apply IHe in H
    end; len_facts; simplify_eq; simpl in *; lia.
Qed.
(** The same, for a step that fails. *)
Local Ltac scan_err_steps :=
  repeat first
    [ progress simplify_eq | progress res_inv
    | match goal with H : (_ ≫= _) = Err _ |- _ => apply res_bind_Err_inv in H as [H|(? & ? & H)] end
    | match goal with H : (_ <$> _) = Err _ |- _ => apply res_fmap_Err_inv in H end
    | match goal with p : (_ * _)%type |- _ => destruct p end
    | progress (cbn beta iota in *) | case_decide | case_match ].

(** With fuel above twice the length of the text, the scanner never runs
    out of it: a value needs one unit more than its contents, a turn of a
    loop one unit for the element and one for the rest. *)
Lemma scan_fuel f :
  (∀ s, 2 * String.length s < f → scan_once L f s ≠ Err DecodeFuel) ∧
  (∀ acc s, 2 * String.length s + 1 < f → parse_elems L f acc s ≠ Err DecodeFuel) ∧
  (∀ acc s, 2 * String.length s + 1 < f → parse_members L f acc s ≠ Err DecodeFuel).
Proof.
  induction f as [|f (IHo & IHe & IHm)]; [split_and!; intros; lia|].
  split_and!; [intros [|c s] Hf H|intros acc s Hf H|intros acc [|c s] Hf H]; simpl in H; try done;
    scan_err_steps;
    try match goal with
    | H : scan_chars _ _ _ = Err DecodeFuel |- _ => by apply scan_chars_not_fuel in H
    | H : match_number _ _ = Err DecodeFuel |- _ => by apply match_number_not_fuel in H
    | H : scan_once _ _ _ = Err DecodeFuel |- _ => revert H; apply IHo
    | H : parse_elems _ _ _ _ = Err DecodeFuel |- _ => revert H; apply IHe
    | H : parse_members _ _ _ _ = Err DecodeFuel |- _ => revert H; apply IHm
    end;
    repeat match goal with
    | H : scan_once _ _ _ = Ok (_, _) |- _ => apply (proj1 (scan_len _)) in H
    end; len_facts; simpl in *; lia.
Qed.
End ScannerFacts.

(** ** Decimal digits *)

Fixpoint all_digits (ds : string) : bool :=
  match ds with
  | EmptyString => true
  | String d ds' => is_digit d && all_digits ds'
  end.

Lemma digits_value_app acc ds ds' : digits_value acc (ds +:+ ds') = digits_value (digits_value acc ds) ds'.
Proof. revert acc. induction ds as [|d ds IH]; intros acc; [done|]. apply IH. Qed.

Lemma all_digits_app ds ds' : all_digits (ds +:+ ds') = all_digits ds && all_digits ds'.
Proof. induction ds as [|d ds IH]; [done|]. rewrite str_app_cons. simpl. by rewrite IH, andb_assoc. Qed.

Lemma pretty_N_char_digit x : (x < 10)%N →
  is_digit (pretty_N_char x) = true ∧ Z.of_nat (nat_of_ascii (pretty_N_char x) - 48) = Z.of_N x.
Proof.
  intros Hx. assert (x = 0 ∨ x = 1 ∨ x = 2 ∨ x = 3 ∨ x = 4 ∨ x = 5 ∨ x = 6 ∨ x = 7 ∨ x = 8 ∨ x = 9)%N
    as Hc by lia. by repeat destruct Hc as [->|Hc]; [..|subst].
Qed.

(** [pretty_N_go x s] writes the digits of [x] in front of [s], the
    first of them not [0]. *)
Lemma pretty_N_go_digits x s :
  ∃ ds, pretty_N_go x s = ds +:+ s ∧ all_digits ds = true ∧ digits_value 0 ds = Z.of_N x ∧
    ((x = 0)%N ∧ ds = EmptyString ∨ (0 < x)%N ∧ ∃ d ds', ds = String d ds' ∧ 49 ≤ nat_of_ascii d ≤ 57).
Proof.
  revert s. induction (N.lt_wf_0 x) as [x _ IH]; intros s.
  destruct (decide (x = 0)%N) as [->|Hx].
  { exists EmptyString. rewrite pretty_N_go_0. split_and!; [done..|by left]. }
  rewrite pretty_N_go_step by lia.
  destruct (IH (x `div` 10)%N ltac:(apply N.div_lt; lia) (String (pretty_N_char (x `mod` 10)) s))
    as (ds & -> & Hd & Hv & Hhead).
  destruct (pretty_N_char_digit (x `mod` 10)%N) as [Hc Hcv]; [by apply N.mod_lt|].
  exists (ds +:+ String (pretty_N_char (x `mod` 10)) EmptyString).
  rewrite str_app_assoc. split_and!; [done| | |].
  { rewrite all_digits_app, Hd. simpl. by rewrite Hc. }
  { rewrite digits_value_app, Hv. simpl. rewrite Hcv.
    rewrite (N.div_mod x 10) at 3 by done. lia. }
  right. split; [lia|]. destruct Hhead as [[Hq ->]|[_ (d & ds' & -> & Hd')]]; [|by eauto].
  exists (pretty_N_char (x `mod` 10)), EmptyString. split; [done|].
  assert (x < 10)%N as Hlt.
  { apply N.div_small_iff in Hq; lia. }
  rewrite N.mod_small by done. pose proof (pretty_N_char_digit x Hlt) as [_ Hv'].
  assert (x = 1 ∨ x = 2 ∨ x = 3 ∨ x = 4 ∨ x = 5 ∨ x = 6 ∨ x = 7 ∨ x = 8 ∨ x = 9)%N as Hc' by lia.
  destruct_or! Hc'; subst; vm_compute; lia.
Qed.

(** A digit string is below the next power of ten... *)
Lemma digits_value_upper acc ds : (0 ≤ acc)%Z → all_digits ds = true →
  (digits_value acc ds < (acc + 1) * 10 ^ Z.of_nat (String.length ds))%Z.
Proof.
  revert acc. induction ds as [|d ds IH]; intros acc Ha Hd; simpl; [lia|].
  apply andb_prop in Hd as [Hc Hd]. unfold is_digit in Hc. apply bool_decide_eq_true in Hc.
  rewrite Nat2Z.inj_succ, Z.pow_succ_r by lia.
  pose proof (IH (10 * acc + Z.of_nat (nat_of_ascii d - 48))%Z ltac:(lia) Hd).
  pose proof (Z.pow_nonneg 10 (Z.of_nat (String.length ds)) ltac:(lia)). nia.
Qed.

(** ... and at least its first digit times the power of ten below. *)
Lemma digits_value_lower acc ds : (0 ≤ acc)%Z →
  (acc * 10 ^ Z.of_nat (String.length ds) ≤ digits_value acc ds)%Z.
Proof.
  revert acc. induction ds as [|d ds IH]; intros acc Ha; simpl; [lia|].
  rewrite Nat2Z.inj_succ, Z.pow_succ_r by lia.
  pose proof (IH (10 * acc + Z.of_nat (nat_of_ascii d - 48))%Z ltac:(lia)).
  pose proof (Z.pow_nonneg 10 (Z.of_nat (String.length ds)) ltac:(lia)). nia.
Qed.

(** [str(z)] of a [z] below [10 ^ k] has at most [k] digits (and one for
    [0]). *)
Lemma pretty_len_bound (z : Z) k : (0 ≤ z < 10 ^ Z.of_nat k)%Z →
  String.length (pretty z) ≤ Nat.max 1 k.
Proof.
  intros Hz. destruct z as [|p|p]; [simpl; lia| |lia].
  change (pretty (Z.pos p)) with (pretty_N (N.pos p)). unfold pretty_N.
  rewrite decide_False by done.
  destruct (pretty_N_go_digits (N.pos p) EmptyString) as (ds & -> & _ & Hv & [[? _]|[_ (d & ds' & -> & Hd)]]);
    [lia|].
  rewrite str_app_nil_r in *. pose proof (digits_value_lower (Z.of_nat (nat_of_ascii d - 48)) ds' ltac:(lia)).
  simpl in Hv |- *. rewrite Z.mul_0_r, Z.add_0_l in Hv.
  pose proof (Z.pow_nonneg 10 (Z.of_nat (String.length ds')) ltac:(lia)).
  assert (10 ^ Z.of_nat (String.length ds') < 10 ^ Z.of_nat k)%Z as Hlt by nia.
  apply Z.pow_lt_mono_r_iff in Hlt; lia.
Qed.

(** [int()] on at most [int_max_str_digits] digits gives an integer of at
    most as many. *)
Lemma make_int_fits neg ds v : all_digits ds = true → make_int neg ds = Ok v → json_ints_fit v = true.
Proof.
  unfold make_int. intros Hd H. case_decide; simplify_eq. simpl. apply bool_decide_eq_true.
  pose proof (digits_value_upper 0 ds ltac:(lia) Hd). pose proof (digits_value_lower 0 ds ltac:(lia)).
  etrans; [apply (pretty_len_bound _ (String.length ds))|unfold int_max_str_digits in *; lia].
  destruct neg; rewrite ?Z.abs_neq, ?Z.abs_eq by lia; lia.
Qed.

Lemma forallb_reverse {A} (p : A → bool) l : forallb p (reverse l) = forallb p l.
Proof.
  induction l as [|x l IH]; [done|]. rewrite reverse_cons, forallb_app, IH. simpl.
  by rewrite andb_true_r, andb_comm.
Qed.

Lemma span_digits_all s : all_digits (span_digits s).1 = true.
Proof.
  induction s as [|c s IH]; [done|]. simpl. destruct (is_digit c) eqn:Hc; [|done].
  destruct (span_digits s) as [ds r]. simpl in *. by rewrite Hc.
Qed.

Lemma match_number_fits L s v r : match_number L s = Ok (v, r) → json_ints_fit v = true.
Proof.
  unfold match_number. intros H.
  repeat (case_match || case_decide); simplify_eq; res_inv; simplify_eq; try done;
    eapply make_int_fits; eauto; simpl;
    repeat match goal with
    | H : span_digits ?t = _ |- _ => pose proof (span_digits_all t); rewrite H in *; clear H
    end; simpl in *; try done;
    unfold is_digit; rewrite bool_decide_eq_true_2 by lia; done.
Qed.

Section IntBounds.
Variable L : nat.

(** Every value the scanner reads keeps [int()]'s limit on its digits. *)
Lemma scan_ints_fit f :
  (∀ s v r, scan_once L f s = Ok (v, r) → json_ints_fit v = true) ∧
  (∀ acc s v r, forallb json_ints_fit acc = true → parse_elems L f acc s = Ok (v, r) → json_ints_fit v = true) ∧
  (∀ acc s v r, forallb (λ kv, json_ints_fit kv.2) acc = true →
     parse_members L f acc s = Ok (v, r) → json_ints_fit v = true).
Proof.
  induction f as [|f (IHo & IHe & IHm)]; [done|].
  split_and!; [intros [|c s] v r H|intros acc s v r Ha H|intros acc [|c s] v r Ha H]; simpl in H; try done;
    repeat first
      [ progress simplify_eq | progress res_inv
      | match goal with p : (_ * _)%type |- _ => destruct p end
      | progress (cbn beta iota in *) | case_decide | case_match ];
    repeat match goal with
    | H : scan_once _ _ _ = Ok (_, _) |- _ => apply IHo in H
    | H : match_number _ _ = Ok (_, _) |- _ => apply match_number_fits in H
    end; try done;
    try match goal with
    | H : parse_elems _ _ _ _ = Ok (_, _) |- _ => eapply IHe; [|exact H]
    | H : parse_members _ _ _ _ = Ok (_, _) |- _ => eapply IHm; [|exact H]
    end; simpl in *; rewrite ?forallb_reverse; simpl; rewrite ?andb_true_iff in *; naive_solver.
Qed.
End IntBounds.

(** ** The round trip *)

Section RoundTrip.
Variable L : nat.

(** Length arithmetic on texts built by concatenation. *)
Local Ltac str_len_lia :=
  repeat (progress (rewrite ?str_length_app in *; cbn [String.length] in *)); lia.

(** One escaped character is read back as itself, whatever follows it
    (at least the closing quote). *)
Lemma scan_chars_escape_char b c t :
  t ≠ EmptyString →
  scan_chars L b (json_escape_char c +:+ t) = (λ p : string * string, (String c p.1, p.2)) <$> scan_chars L b t.
Proof.
  intros Ht. destruct t as [|x t]; [done|]. clear Ht.
  destruct c as [[] [] [] [] [] [] [] []]; reflexivity.
Qed.

Lemma str_app_dquote_ne t u : t +:+ String dquote_char u ≠ EmptyString.
Proof. by destruct t. Qed.

(** An encoded string is read back up to its closing quote. *)
Lemma scan_chars_quote b s rest :
  scan_chars L b (json_escape s +:+ String dquote_char rest) = Ok (s, rest).
Proof.
  induction s as [|c s IH]; [done|]. cbn [json_escape].
  rewrite str_app_assoc, scan_chars_escape_char by apply str_app_dquote_ne. by rewrite IH.
Qed.

#[local] Arguments String.append : simpl nomatch.
#[local] Arguments strip_prefix : simpl nomatch.

Lemma span_digits_app ds rest :
  all_digits ds = true → json_delim rest = true → span_digits (ds +:+ rest) = (ds, rest).
Proof.
  intros Hd Hr. induction ds as [|d ds IH]; simpl in *.
  - destruct rest as [|c r]; [done|]. simpl in Hr. apply bool_decide_eq_true in Hr.
    by destruct_or! Hr; subst.
  - apply andb_prop in Hd as [-> Hd]. by rewrite IH.
Qed.

Lemma float_follows_delim rest : json_delim rest = true → float_follows rest = false.
Proof.
  destruct rest as [|c r]; [done|]. simpl. intros Hr%bool_decide_eq_true. by destruct_or! Hr; subst.
Qed.

Lemma nonzero_digit d : 49 ≤ nat_of_ascii d ≤ 57 →
  d = "1"%char ∨ d = "2"%char ∨ d = "3"%char ∨ d = "4"%char ∨ d = "5"%char ∨
  d = "6"%char ∨ d = "7"%char ∨ d = "8"%char ∨ d = "9"%char.
Proof. destruct d as [[] [] [] [] [] [] [] []]; vm_compute; intros; first [lia|naive_solver]. Qed.

(** The digits of a positive number, as [pretty] writes them. *)
Lemma pretty_pos_digits p :
  ∃ d ds, pretty (Z.pos p) = String d ds ∧ 49 ≤ nat_of_ascii d ≤ 57 ∧ all_digits ds = true ∧
    digits_value 0 (String d ds) = Z.pos p.
Proof.
  destruct (pretty_N_go_digits (N.pos p) EmptyString) as (ds & Hp & Hd & Hv & [[? _]|[_ (d & ds' & -> & Hd')]]);
    [done|].
  exists d, ds'. rewrite str_app_nil_r in Hp. simpl in Hd. apply andb_prop in Hd as [_ Hd].
  split_and!; [|lia|lia|exact Hd|exact Hv]. change (pretty (Z.pos p)) with (pretty_N (N.pos p)). unfold pretty_N.
  rewrite decide_False by done. exact Hp.
Qed.

(** An integer is read back, unless it has more digits than [int()] converts. *)
Lemma scan_once_int f z rest :
  String.length (pretty (Z.abs z)) ≤ int_max_str_digits → json_delim rest = true →
  scan_once L (S f) (pretty z +:+ rest) = Ok (JInt z, rest).
Proof.
  intros Hlen Hr. pose proof (float_follows_delim rest Hr) as Hf.
  destruct z as [|p|p]; cbn [Z.abs] in Hlen.
  - simpl. unfold match_number. simpl. rewrite Hf. unfold make_int. simpl. done.
  - change (Z.abs (Z.pos p)) with (Z.pos p) in Hlen.
    destruct (pretty_pos_digits p) as (d & ds & Hp & Hd & Hds & Hv). rewrite Hp in *.
    pose proof (nonzero_digit d Hd) as Hc; destruct_or! Hc; subst; simpl; unfold match_number, make_int;
      simpl; rewrite span_digits_app, Hf by done;
      rewrite decide_False by (unfold int_max_str_digits in *; simpl in *; lia); by rewrite res_bind_Ok, Hv.
  - change (Z.abs (Z.neg p)) with (Z.pos p) in Hlen.
    destruct (pretty_pos_digits p) as (d & ds & Hp & Hd & Hds & Hv).
    change (pretty (Z.neg p)) with ("-" +:+ pretty (Z.pos p)). rewrite Hp in *.
    pose proof (nonzero_digit d Hd) as Hc; destruct_or! Hc; subst; simpl; unfold match_number, make_int;
      simpl; rewrite span_digits_app, Hf by done;
      rewrite decide_False by (unfold int_max_str_digits in *; simpl in *; lia); by rewrite res_bind_Ok, Hv.
Qed.

(** Induction on values, with the hypothesis for every element of a list
    and every value of a dict. *)
Lemma str_join_single sep w : str_join sep [w] = w.
Proof. done. Qed.

(** The text of a value starts with a character that is neither
    whitespace nor a closing bracket. *)
Lemma json_dumps_head v :
  ∃ c t, json_dumps v = String c t ∧ is_ws c = false ∧ c ≠ "]"%char ∧ c ≠ "}"%char.
Proof.
  destruct v as [|[]|[|p|p]|s|vs|kvs]; simpl;
    try (eexists _, _; split; [reflexivity|]; split_and!; [reflexivity|discriminate|discriminate]).
  destruct (pretty_pos_digits p) as (d & ds & Hp & Hd & _). rewrite Hp.
  pose proof (nonzero_digit d Hd) as Hc; destruct_or! Hc; subst;
    eexists _, _; (split; [reflexivity|]); split_and!; (reflexivity || discriminate).
Qed.

Lemma skip_ws_dumps v t : skip_ws (json_dumps v +:+ t) = json_dumps v +:+ t.
Proof. destruct (json_dumps_head v) as (c & u & -> & Hc & _). simpl. by rewrite Hc. Qed.

(** What the round trip asks of a value: read from the front of any
    text where a delimiter follows it, with enough fuel. *)
Definition reads_back (v : json) : Prop :=
  ∀ f rest, json_delim rest = true → 2 * String.length (json_dumps v +:+ rest) < f →
    scan_once L f (json_dumps v +:+ rest) = Ok (json_norm v, rest).

Lemma str_join_cons_app sep w ws : ∃ t, str_join sep (w :: ws) = w +:+ t.
Proof.
  destruct ws as [|w' ws]; [exists EmptyString; by rewrite str_join_single, str_app_nil_r|].
  rewrite str_join_cons. eauto.
Qed.

(** The elements of a non-empty array, each read back, then its
    closing bracket. *)
Lemma parse_elems_dumps vs :
  Forall reads_back vs → vs ≠ [] →
  ∀ acc g rest, json_delim rest = true →
    2 * String.length (str_join "," (List.map json_dumps vs) +:+ "]" +:+ rest) + 1 < g →
    parse_elems L g acc (str_join "," (List.map json_dumps vs) +:+ "]" +:+ rest)
    = Ok (JArr (reverse acc ++ List.map json_norm vs), rest).
Proof.
  induction vs as [|v vs IHl]; intros HF Hne acc g rest Hr Hg; [done|].
  apply Forall_cons in HF as [Hv HF]. destruct g as [|g]; [lia|].
  destruct vs as [|v' vs'].
  - cbn [List.map] in *. rewrite str_join_single in *. cbn [parse_elems].
    rewrite Hv by (done || str_len_lia). res_simpl.
    by rewrite reverse_cons.
  - cbn [List.map] in *. rewrite str_join_cons, !str_app_assoc in *.
    destruct (str_join_cons_app "," (json_dumps v') (List.map json_dumps vs')) as [t Ht].
    remember (str_join "," (json_dumps v' :: List.map json_dumps vs')) as J eqn:HJ.
    cbn [parse_elems].
    rewrite Hv by (done || str_len_lia). res_simpl.
    rewrite Ht, str_app_assoc, skip_ws_dumps, <- str_app_assoc, <- Ht.
    change (String "]" rest) with ("]" +:+ rest).
    rewrite IHl by (subst J; done || str_len_lia).
    cbn [List.map]. by rewrite reverse_cons, <- (assoc_L (++)).
Qed.

Lemma json_quote_app k t : json_quote k +:+ t = String dquote_char (json_escape k +:+ String dquote_char t).
Proof. unfold json_quote. by rewrite str_app_cons, str_app_assoc. Qed.

(** The text of one member, ["key":value]. *)
Definition member_text (kv : string * json) : string := json_quote kv.1 +:+ ":" +:+ json_dumps kv.2.

Lemma skip_ws_member kv t : skip_ws (member_text kv +:+ t) = member_text kv +:+ t.
Proof. unfold member_text. by rewrite !str_app_assoc, json_quote_app. Qed.

(** The members of a non-empty object, each value read back, then its
    closing brace. *)
Lemma parse_members_dumps ms :
  Forall (λ kv, reads_back kv.2) ms → ms ≠ [] →
  ∀ acc g rest, json_delim rest = true →
    2 * String.length (str_join "," (List.map member_text ms) +:+ "}" +:+ rest) + 1 < g →
    parse_members L g acc (str_join "," (List.map member_text ms) +:+ "}" +:+ rest)
    = Ok (JObj (reverse acc ++ List.map (λ kv, (kv.1, json_norm kv.2)) ms), rest).
Proof.
  induction ms as [|[k v] ms IHl]; intros HF Hne acc g rest Hr Hg; [done|].
  apply Forall_cons in HF as [Hv HF]. destruct g as [|g]; [lia|]. cbn [fst snd] in Hv.
  destruct ms as [|m' ms'].
  - cbn [List.map] in *. rewrite str_join_single in *. unfold member_text in *. cbn [fst snd] in *.
    rewrite !str_app_assoc, json_quote_app in *. cbn [parse_members].
    rewrite decide_True by done. rewrite scan_chars_quote. res_simpl.
    rewrite skip_ws_dumps, Hv by (done || str_len_lia). res_simpl.
    by rewrite reverse_cons.
  - cbn [List.map] in *. rewrite str_join_cons in *. unfold member_text at 1 in Hg. unfold member_text at 1.
    cbn [fst snd] in *.
    destruct (str_join_cons_app "," (member_text m') (List.map member_text ms')) as [t Ht].
    remember (str_join "," (member_text m' :: List.map member_text ms')) as J eqn:HJ.
    rewrite !str_app_assoc, json_quote_app in *. cbn [parse_members].
    rewrite decide_True by done. rewrite scan_chars_quote. res_simpl.
    rewrite skip_ws_dumps, Hv by (done || str_len_lia). res_simpl.
    rewrite Ht, str_app_assoc, skip_ws_member, <- str_app_assoc, <- Ht.
    change (String "}" rest) with ("}" +:+ rest).
    rewrite IHl by (subst J; done || str_len_lia).
    cbn [List.map]. by rewrite reverse_cons, <- (assoc_L (++)).
Qed.

Lemma map_member_text (kvs : list (string * json)) :
  List.map (λ kv, json_quote kv.1 +:+ ":" +:+ kv.2) ((λ kv, (kv.1, json_dumps kv.2)) <$> kvs)
  = List.map member_text kvs.
Proof. induction kvs as [|kv kvs IH]; [done|]. rewrite fmap_cons. cbn [List.map]. by rewrite IH. Qed.

(** Every value whose integers [int()] accepts is read back from its text. *)
Lemma json_reads_back v : json_ints_fit v = true → reads_back v.
Proof.
  induction v as [| b | z | s | vs IH | kvs IH] using json_ind'; intros Hfit f rest Hr Hf;
    (destruct f as [|f]; [lia|]).
  - done.
  - by destruct b.
  - apply scan_once_int; [|done]. simpl in Hfit. by apply bool_decide_eq_true in Hfit.
  - cbn [json_dumps]. rewrite json_quote_app. simpl. by rewrite scan_chars_quote.
  - destruct vs as [|v vs]; [done|].
    assert (Forall reads_back (v :: vs)) as HF.
    { cbn [json_ints_fit] in Hfit. apply Forall_forall. intros w Hw. rewrite Forall_forall in IH. apply IH; [done|].
      rewrite forallb_forall in Hfit. apply Hfit. by apply list_elem_of_In. }
    cbn [json_dumps json_norm List.map] in *. rewrite !str_app_assoc in *.
    destruct (str_join_cons_app "," (json_dumps v) (List.map json_dumps vs)) as [t Ht].
    destruct (json_dumps_head v) as (c & u & Hu & Hc & Hb & _).
    remember (str_join "," (json_dumps v :: List.map json_dumps vs)) as J eqn:HJ.
    simpl.
    assert (skip_ws (J +:+ String "]" rest) = J +:+ String "]" rest) as Hs
      by (rewrite Ht, str_app_assoc; apply skip_ws_dumps).
    rewrite Hs. change (String "]" rest) with ("]" +:+ rest).
    pose proof (parse_elems_dumps (v :: vs) HF ltac:(done) [] f rest Hr) as He.
    cbn [List.map] in He. rewrite <- HJ in He. rewrite He by (subst J; str_len_lia).
    rewrite Ht, Hu. simpl. by rewrite decide_False.
  - assert (Forall (λ kv, reads_back kv.2) (dict_items kvs)) as HF.
    { apply Forall_forall. intros [k w] Hw%dict_items_elem. rewrite Forall_forall in IH.
      cbn [json_ints_fit] in Hfit. rewrite forallb_forall in Hfit.
      apply (IH (k, w)); [done|]. apply (Hfit (k, w)). by apply list_elem_of_In. }
    cbn [json_dumps json_norm] in *. rewrite dict_items_map, map_member_text in *.
    rewrite dict_items_map. rewrite !str_app_assoc in *.
    destruct (dict_items kvs) as [|m ms] eqn:Ed.
    { done. }
    cbn [List.map] in *.
    destruct (str_join_cons_app "," (member_text m) (List.map member_text ms)) as [t Ht].
    remember (str_join "," (member_text m :: List.map member_text ms)) as J eqn:HJ.
    assert (skip_ws (J +:+ String "}" rest) = J +:+ String "}" rest) as Hs
      by (rewrite Ht, str_app_assoc; apply skip_ws_member).
    simpl. rewrite Hs. change (String "}" rest) with ("}" +:+ rest).
    pose proof (parse_members_dumps (m :: ms) HF ltac:(done) [] f rest Hr) as He.
    cbn [List.map] in He. rewrite <- HJ in He. rewrite He by (subst J; str_len_lia).
    rewrite Ht. destruct m as [k w]. unfold member_text. cbn [fst snd].
    rewrite !str_app_assoc, json_quote_app. simpl. done.
Qed.
End RoundTrip.

(** ** [json.loads] *)

(** C13: [json.loads] always answers: the scanner's fuel never runs out, so
    every text is decoded to a value or to one of CPython's errors. *)
Theorem json_loads_fuel s : json_loads s ≠ Err DecodeFuel.
Proof.
  unfold json_loads, json_fuel. pose proof (skip_ws_len s) as Hs.
  destruct (scan_once _ _ (skip_ws s)) as [[v r]|e] eqn:E; res_simpl.
  - by destruct (skip_ws r).
  - intros [= ->]. refine (proj1 (scan_fuel _ _) _ _ E). lia.
Qed.

(** The round trip: the text [json.dumps] writes for a value whose
    integers [int()] accepts is read back by [json.loads] as the value,
    each dictionary reduced to its keys in first-insertion order with
    their last values, as a Python [dict] holds it. *)
Lemma json_loads_dumps_norm v : json_ints_fit v = true → json_loads (json_dumps v) = Ok (json_norm v).
Proof.
  intros Hfit. unfold json_loads, json_fuel.
  pose proof (skip_ws_dumps v EmptyString) as Hs. rewrite str_app_nil_r in Hs. rewrite Hs.
  pose proof (json_reads_back (String.length (json_dumps v)) v Hfit (2 * String.length (json_dumps v) + 2) EmptyString)
    as Hv.
  rewrite str_app_nil_r in Hv. rewrite Hv by (done || lia). by res_simpl.
Qed.

(** C4: The round trip: the text [json.dumps] writes for a value whose
    integers [int()] accepts is read back by [json.loads] as the value,
    each dictionary reduced to its keys in first-insertion order with
    their last values, as a Python [dict] holds it. *)
Theorem json_loads_dumps v : json_ints_fit v = true → json_loads (json_dumps v) = Ok (json_norm v).
Proof. apply json_loads_dumps_norm. Qed.

(** C14: [int_max_str_digits] bounds every integer [json.loads] returns:
    no integer of the value it reads has more than 4300 decimal digits,
    however long the text. *)
Theorem json_loads_ints_bounded s v : json_loads s = Ok v → json_ints_fit v = true.
Proof.
  unfold json_loads. intros H. apply res_bind_Ok_inv in H as ([v' r] & Hs & H).
  destruct (skip_ws r); simplify_eq. exact (proj1 (scan_ints_fit _ _) _ _ _ Hs).
Qed.

(** ** The text [json.dumps] writes has no NUL *)

Section NoNul.
#[local] Arguments String.append : simpl nomatch.

Lemma all_digits_no_nul ds : all_digits ds = true → str_has "000" ds = false.
Proof.
  induction ds as [|d ds IH]; [done|]. simpl. intros [Hd Hds]%andb_prop.
  rewrite IH by done. apply bool_decide_eq_true in Hd. rewrite orb_false_r.
  apply bool_decide_eq_false. intros ->. vm_compute in Hd. lia.
Qed.

Lemma pretty_no_nul (z : Z) : str_has "000" (pretty z) = false.
Proof.
  destruct z as [|p|p]; [done|..]; destruct (pretty_pos_digits p) as (d & ds & Hp & Hd & Hds & _).
  - rewrite Hp. simpl. rewrite all_digits_no_nul by done. rewrite orb_false_r.
    apply bool_decide_eq_false. intros ->. vm_compute in Hd. lia.
  - change (pretty (Z.neg p)) with ("-" +:+ pretty (Z.pos p)). rewrite Hp. simpl.
    rewrite all_digits_no_nul by done. rewrite orb_false_r.
    apply bool_decide_eq_false. intros ->. vm_compute in Hd. lia.
Qed.

Lemma json_escape_char_no_nul c : str_has "000" (json_escape_char c) = false.
Proof. destruct c as [[] [] [] [] [] [] [] []]; reflexivity. Qed.

Lemma json_quote_no_nul s : str_has "000" (json_quote s) = false.
Proof.
  unfold json_quote. simpl. rewrite str_has_append. simpl. rewrite !orb_false_r.
  induction s as [|c s IH]; [done|]. simpl. by rewrite str_has_append, json_escape_char_no_nul, IH.
Qed.

(** No character of the text is NUL: [json.dumps] escapes the control
    characters of strings. *)
Lemma json_dumps_no_nul v : str_has "000" (json_dumps v) = false.
Proof.
  induction v as [| b | z | s | vs IH | kvs IH] using json_ind'.
  - done.
  - by destruct b.
  - apply pretty_no_nul.
  - apply json_quote_no_nul.
  - cbn [json_dumps]. rewrite !str_has_append, str_has_join; [done|done|].
    apply Forall_forall. intros w (v & <- & Hv)%list_elem_of_In%in_map_iff.
    rewrite Forall_forall in IH. apply IH. by apply list_elem_of_In.
  - cbn [json_dumps]. rewrite !str_has_append, str_has_join; [done|done|].
    apply Forall_forall. intros w (kv & <- & Hkv)%list_elem_of_In%in_map_iff.
    destruct kv as [k w]. apply list_elem_of_In, dict_items_elem in Hkv.
    apply list_elem_of_In, in_map_iff in Hkv as ([k' v] & [= -> <-] & Hin).
    rewrite Forall_forall in IH. cbn [fst snd].
    pose proof (IH (k, v) ltac:(by apply list_elem_of_In)) as Hv; cbn [snd] in Hv.
    by rewrite !str_has_append, json_quote_no_nul, Hv.
Qed.
End NoNul.
