(* ===== verification/DiGraph.v ===== *)
(** * networkx's DiGraph, as [main.py] uses it

    [nx.DiGraph()] keeps three dictionaries: [_node] (node to attribute
    dict), [_succ] (node to successor dict; [_adj] is the same object) and
    [_pred] (node to predecessor dict).  Attribute dicts are never read by
    [main.py], so [_node] is kept as its key set and the inner dicts of
    [_succ]/[_pred] as key sets.  The file models the methods the handler
    calls ([add_nodes_from], [add_edges_from], [number_of_nodes],
    [number_of_edges]), the invariant [wf] they preserve, and how they
    change the node set, the arcs and the degree sum. *)

From S2P Require Import Prelude PyValue.

Record digraph : Type := mk_digraph {
  g_node : gset pykey;
  g_succ : gmap pykey (gset pykey);
  g_pred : gmap pykey (gset pykey);
}.

(** [nx.DiGraph()] *)
Definition empty_digraph : digraph := mk_digraph ∅ ∅ ∅.

(** [d.get(u, {})] on an adjacency dictionary. *)
Definition adj_of (m : gmap pykey (gset pykey)) (u : pykey) : gset pykey :=
  default ∅ (m !! u).

Definition succs (g : digraph) (u : pykey) : gset pykey := adj_of (g_succ g) u.
Definition preds (g : digraph) (v : pykey) : gset pykey := adj_of (g_pred g) v.

(** The block both [add_nodes_from] and [add_edges_from] run for a key [n]:
<<
    if n not in self._node:          # add_edges_from tests self._succ
        if n is None:
            raise ValueError("None cannot be a node")
        self._succ[n] = self.adjlist_inner_dict_factory()
        self._pred[n] = self.adjlist_inner_dict_factory()
        self._node[n] = self.node_attr_dict_factory()
>>
    (under [wf] the keys of [_node] and of [_succ] are the same). *)
Definition ensure_node (g : digraph) (n : pykey) : result py_exc digraph :=
  if decide (n ∈ g_node g) then Ok g
  else if decide (n = PNone) then raise (ValueError "None cannot be a node")
  else Ok (mk_digraph ({[n]} ∪ g_node g) (<[n:=∅]> (g_succ g)) (<[n:=∅]> (g_pred g))).

(** The head of [add_nodes_from]'s loop body:
<<
    try:
        newnode = n not in self._node
        newdict = attr
    except TypeError:
        n, ndict = n
        newnode = n not in self._node
        newdict = attr.copy()
        newdict.update(ndict)
>>
    A hashable item is its own key; an unhashable one (a JSON list or
    dict) is unpacked as a [(node, attributes)] pair. *)
Definition node_item_key (x : json) : result py_exc pykey :=
  match py_hash x with
  | Ok n => Ok n
  | Err _ =>
      '(a, d) ← py_unpack2 x;
      n ← py_hash a;
      _ ← dict_update_check d;
      Ok n
  end.

Definition add_nodes_from_item (g : digraph) (x : json) : result py_exc digraph :=
  n ← node_item_key x; ensure_node g n.

(** [G.add_nodes_from(nodes)] *)
Definition add_nodes_from (g : digraph) (xs : list json) : result py_exc digraph :=
  res_fold add_nodes_from_item g xs.

(** The last two lines of [add_edges_from]'s loop body:
    [self._succ[u][v] = datadict; self._pred[v][u] = datadict]. *)
Definition add_arc (g : digraph) (u v : pykey) : digraph :=
  mk_digraph (g_node g)
    (<[u := {[v]} ∪ succs g u]> (g_succ g))
    (<[v := {[u]} ∪ preds g v]> (g_pred g)).

(** One iteration of [add_edges_from] on the 2-tuple [(x, y)]:
    [u, v = e], then the [ensure_node] block for [u], then for [v], then
    the arc. *)
Definition add_edges_from_item (g : digraph) (e : json * json) : result py_exc digraph :=
  let '(x, y) := e in
  u ← py_hash x;
  g1 ← ensure_node g u;
  v ← py_hash y;
  g2 ← ensure_node g1 v;
  Ok (add_arc g2 u v).

(** [G.add_edges_from(edges)] *)
Definition add_edges_from (g : digraph) (es : list (json * json)) : result py_exc digraph :=
  res_fold add_edges_from_item g es.

(** [G.number_of_nodes()] is [len(self._node)]. *)
Definition number_of_nodes (g : digraph) : nat := size (g_node g).

(** [G.degree[n]] of a DiGraph: [len(self._succ[n]) + len(self._pred[n])]. *)
Definition degree (g : digraph) (n : pykey) : nat := size (succs g n) + size (preds g n).

(** [G.number_of_edges()] is [int(self.size())], and [size] is
    [sum(d for v, d in self.degree()) // 2]. *)
Definition number_of_edges (g : digraph) : nat :=
  Nat.div (sum_set (degree g) (g_node g)) 2.

(** ** The invariant *)

(** [_succ] and [_pred] are keyed by exactly the nodes, are transposes of
    each other, and [None] is never a node. *)
Record wf (g : digraph) : Prop := {
  wf_succ_dom : dom (g_succ g) = g_node g;
  wf_pred_dom : dom (g_pred g) = g_node g;
  wf_transpose : ∀ u v, v ∈ succs g u ↔ u ∈ preds g v;
  wf_no_none : PNone ∉ g_node g;
}.

(** ** Adjacency after the updates *)

Lemma adj_of_insert m u S x :
  adj_of (<[u:=S]> m) x = if decide (x = u) then S else adj_of m x.
Proof. unfold adj_of. rewrite lookup_insert. by repeat case_decide; subst. Qed.

Lemma adj_of_not_dom m x : x ∉ dom m → adj_of m x = ∅.
Proof. unfold adj_of. intros ?%not_elem_of_dom. by rewrite H. Qed.

Lemma adj_of_elem_dom m x y : y ∈ adj_of m x → x ∈ dom m.
Proof. intros Hy. destruct (decide (x ∈ dom m)); [done|]. by rewrite adj_of_not_dom in Hy. Qed.

Lemma succs_add_arc g u v x :
  succs (add_arc g u v) x = if decide (x = u) then {[v]} ∪ succs g u else succs g x.
Proof. apply adj_of_insert. Qed.

Lemma preds_add_arc g u v x :
  preds (add_arc g u v) x = if decide (x = v) then {[u]} ∪ preds g v else preds g x.
Proof. apply adj_of_insert. Qed.

(** ** Consequences of the invariant *)

Section WfFacts.
Context (g : digraph) (Hwf : wf g).

(** Both ends of an arc are nodes. *)
Lemma wf_arc_nodes u v : v ∈ succs g u → u ∈ g_node g ∧ v ∈ g_node g.
Proof.
  intros Huv. split.
  - rewrite <- (wf_succ_dom g Hwf). by eapply adj_of_elem_dom.
  - apply (wf_transpose g Hwf) in Huv.
    rewrite <- (wf_pred_dom g Hwf). by eapply adj_of_elem_dom.
Qed.

Lemma wf_succs_not_node u : u ∉ g_node g → succs g u = ∅.
Proof. intros Hu. apply adj_of_not_dom. by rewrite (wf_succ_dom g Hwf). Qed.

Lemma wf_preds_not_node u : u ∉ g_node g → preds g u = ∅.
Proof. intros Hu. apply adj_of_not_dom. by rewrite (wf_pred_dom g Hwf). Qed.
End WfFacts.

Lemma wf_empty : wf empty_digraph.
Proof.
  split; simpl; [by rewrite dom_empty_L.. | |set_solver].
  intros u v. unfold succs, preds, adj_of. simpl. rewrite !lookup_empty. set_solver.
Qed.

(** ** [ensure_node] *)

Lemma ensure_node_Ok g n g' :
  ensure_node g n = Ok g' ↔
  (n ∈ g_node g ∧ g' = g) ∨
  (n ∉ g_node g ∧ n ≠ PNone ∧
   g' = mk_digraph ({[n]} ∪ g_node g) (<[n:=∅]> (g_succ g)) (<[n:=∅]> (g_pred g))).
Proof. unfold ensure_node. repeat case_decide; naive_solver. Qed.

(** On a well-formed graph the block raises exactly on [None]. *)
Lemma ensure_node_Err g n e :
  wf g → ensure_node g n = Err e ↔ n = PNone ∧ e = ValueError "None cannot be a node".
Proof.
  intros Hwf. unfold ensure_node. pose proof (wf_no_none g Hwf).
  repeat case_decide; subst; naive_solver.
Qed.

Lemma ensure_node_nodes g n g' : ensure_node g n = Ok g' → g_node g' = {[n]} ∪ g_node g.
Proof. intros [[? ->]|(_ & _ & ->)]%ensure_node_Ok; [set_solver|done]. Qed.

Lemma ensure_node_succs g n g' : wf g → ensure_node g n = Ok g' → ∀ u, succs g' u = succs g u.
Proof.
  intros Hwf [[? ->]|(Hn & _ & ->)]%ensure_node_Ok u; [done|].
  unfold succs; simpl. rewrite adj_of_insert. case_decide; subst; [|done].
  symmetry. by apply wf_succs_not_node.
Qed.

Lemma ensure_node_preds g n g' : wf g → ensure_node g n = Ok g' → ∀ u, preds g' u = preds g u.
Proof.
  intros Hwf [[? ->]|(Hn & _ & ->)]%ensure_node_Ok u; [done|].
  unfold preds; simpl. rewrite adj_of_insert. case_decide; subst; [|done].
  symmetry. by apply wf_preds_not_node.
Qed.

(** The add-node block shared by add_nodes_from and add_edges_from
    keeps the graph well formed. *)
Lemma ensure_node_wf g n g' : wf g → ensure_node g n = Ok g' → wf g'.
Proof.
  intros Hwf Hens. pose proof (ensure_node_succs g n g' Hwf Hens) as Hs.
  pose proof (ensure_node_preds g n g' Hwf Hens) as Hp.
  apply ensure_node_Ok in Hens as [[? ->]|(Hn & Hnone & ->)]; [done|].
  split; simpl.
  - rewrite dom_insert_L, (wf_succ_dom g Hwf). done.
  - rewrite dom_insert_L, (wf_pred_dom g Hwf). done.
  - intros u v. rewrite Hs, Hp. apply (wf_transpose g Hwf).
  - pose proof (wf_no_none g Hwf). set_solver.
Qed.

(** ** [add_arc] *)

(** Storing an arc between two nodes keeps _succ and _pred transposes
    of each other. *)
Lemma add_arc_wf g u v : wf g → u ∈ g_node g → v ∈ g_node g → wf (add_arc g u v).
Proof.
  intros Hwf Hu Hv. split; simpl.
  - rewrite dom_insert_L, (wf_succ_dom g Hwf). set_solver.
  - rewrite dom_insert_L, (wf_pred_dom g Hwf). set_solver.
  - intros x y. rewrite succs_add_arc, preds_add_arc.
    pose proof (wf_transpose g Hwf x y). pose proof (wf_transpose g Hwf u y).
    pose proof (wf_transpose g Hwf x v).
    repeat case_decide; subst; set_solver.
  - apply (wf_no_none g Hwf).
Qed.

Lemma add_arc_arcs g u v x y : y ∈ succs (add_arc g u v) x ↔ (x = u ∧ y = v) ∨ y ∈ succs g x.
Proof. rewrite succs_add_arc. case_decide; subst; set_solver. Qed.

#[export] Hint Resolve wf_empty ensure_node_wf add_arc_wf : pipeline.

(** ** Counting arcs *)

(** [P] is the set of arcs of [g] and the degree sum is twice its size. *)
Definition arcs_counted (g : digraph) (P : gset (pykey * pykey)) : Prop :=
  (∀ u v, (u, v) ∈ P ↔ v ∈ succs g u) ∧ sum_set (degree g) (g_node g) = 2 * size P.

(** When the degree sum is twice the size of the arc set,
    number_of_edges is the number of arcs. *)
Lemma arcs_counted_number_of_edges g P : arcs_counted g P → number_of_edges g = size P.
Proof.
  intros [_ Hs]. unfold number_of_edges. rewrite Hs, Nat.mul_comm. by apply Nat.div_mul.
Qed.

Lemma arcs_counted_empty : arcs_counted empty_digraph ∅.
Proof. split; [|done]. intros u v. unfold succs, adj_of; simpl. rewrite lookup_empty. set_solver. Qed.

Lemma ensure_node_arcs_counted g n g' P :
  wf g → ensure_node g n = Ok g' → arcs_counted g P → arcs_counted g' P.
Proof.
  intros Hwf Hens [HP Hsum].
  pose proof (ensure_node_succs g n g' Hwf Hens) as Hs.
  pose proof (ensure_node_preds g n g' Hwf Hens) as Hp.
  split; [intros u v; by rewrite Hs|].
  apply ensure_node_Ok in Hens as [[? ->]|(Hn & _ & ->)]; [done|]. cbn [g_node].
  rewrite <- Hsum. unfold degree. apply sum_set_ext_union; [done|..].
  - intros y _. by rewrite Hs, Hp.
  - by rewrite Hs, Hp, wf_succs_not_node, wf_preds_not_node.
Qed.

(** Adding an arc between nodes of a well-formed graph adds it to the
    arc set and raises the degree sum by two exactly when the arc is new. *)
Lemma add_arc_arcs_counted g u v P :
  wf g → u ∈ g_node g → v ∈ g_node g → arcs_counted g P →
  arcs_counted (add_arc g u v) ({[(u, v)]} ∪ P).
Proof.
  intros Hwf Hu Hv [HP Hsum]. split.
  { intros x y. rewrite add_arc_arcs, elem_of_union, elem_of_singleton, HP. naive_solver. }
  cbn [g_node add_arc]. pose proof (wf_transpose g Hwf u v) as Htr.
  destruct (decide (v ∈ succs g u)) as [Hin|Hnew].
  - replace ({[(u, v)]} ∪ P) with P by (apply HP in Hin; set_solver).
    rewrite <- Hsum. apply sum_set_ext. intros y _. unfold degree.
    rewrite succs_add_arc, preds_add_arc.
    repeat case_decide; subst; repeat f_equal; set_solver.
  - rewrite size_union_singleton_new by (rewrite HP; done).
    rewrite (sum_set_ext _ (λ y, (degree g y + if decide (y = u) then 1 else 0)
                                 + if decide (y = v) then 1 else 0)).
    + rewrite sum_set_bump by done. rewrite sum_set_bump by done. lia.
    + intros y _. unfold degree. rewrite succs_add_arc, preds_add_arc.
      repeat case_decide; subst;
        rewrite ?size_union_singleton_new by (try rewrite <- Htr; done); lia.
Qed.

(** ** [add_nodes_from] *)

Lemma add_nodes_from_item_Ok g x g' :
  wf g → add_nodes_from_item g x = Ok g' →
  ∃ n, node_item_key x = Ok n ∧ n ≠ PNone ∧ wf g' ∧ g_node g' = {[n]} ∪ g_node g ∧
    (∀ u, succs g' u = succs g u) ∧ (∀ P, arcs_counted g P → arcs_counted g' P).
Proof.
  intros Hwf H. unfold add_nodes_from_item in H. res_inv.
  assert (wf g') by eauto with pipeline.
  exists a. split_and!; eauto using ensure_node_nodes, ensure_node_succs, ensure_node_arcs_counted.
  intros ->. apply (wf_no_none g' H0). erewrite ensure_node_nodes by done. set_solver.
Qed.

(** On success, [add_nodes_from] adds exactly the keys of the items, all
    different from [None], and no arc. *)
Lemma add_nodes_from_Ok g xs g' :
  wf g → add_nodes_from g xs = Ok g' →
  ∃ ks, res_map node_item_key xs = Ok ks ∧ (PNone ∉ ks) ∧ wf g' ∧
    g_node g' = list_to_set ks ∪ g_node g ∧ (∀ u, succs g' u = succs g u) ∧
    (∀ P, arcs_counted g P → arcs_counted g' P).
Proof.
  unfold add_nodes_from. revert g; induction xs as [|x xs IH]; intros g Hwf H; simpl in H.
  - injection H as <-. exists []. split_and!; eauto; set_solver.
  - res_inv. rename a into g1.
    destruct (add_nodes_from_item_Ok g x g1) as (n & Hn & Hnone & Hwf1 & Hnodes & Hs & Hc); [done..|].
    destruct (IH g1) as (ks & Hks & Hnone' & Hwf' & Hnodes' & Hs' & Hc'); [done..|].
    exists (n :: ks). simpl. rewrite Hn, Hks. simpl.
    split_and!; eauto.
    + set_solver.
    + rewrite Hnodes', Hnodes. set_solver.
    + intros u. by rewrite Hs', Hs.
Qed.

(** If every item has a key and none is [None], [add_nodes_from] succeeds. *)
Lemma add_nodes_from_succeeds g xs ks :
  wf g → res_map node_item_key xs = Ok ks → PNone ∉ ks → ∃ g', add_nodes_from g xs = Ok g'.
Proof.
  intros Hwf Hks Hnone. apply res_map_Ok_iff in Hks.
  unfold add_nodes_from.
  destruct (res_fold_Ok_exists wf add_nodes_from_item g xs) as (g' & ? & _); [|done|eauto].
  intros g0 x Hx Hwf0. unfold add_nodes_from_item.
  apply list_elem_of_lookup in Hx as [i Hi].
  destruct (Forall2_lookup_l _ _ _ _ _ Hks Hi) as (n & Hn & Hxn). rewrite Hxn; simpl.
  destruct (ensure_node g0 n) as [g1|e] eqn:He; [eauto with pipeline|].
  apply ensure_node_Err in He as [-> _]; [|done].
  exfalso. apply Hnone, list_elem_of_lookup. eauto.
Qed.

(** ** [add_edges_from] *)

(** The keys [(hash(source), hash(target))] of an edge tuple. *)
Definition edge_key (e : json * json) : result py_exc (pykey * pykey) :=
  u ← py_hash e.1; v ← py_hash e.2; Ok (u, v).

Definition endpoints (ps : list (pykey * pykey)) : gset pykey :=
  list_to_set ps.*1 ∪ list_to_set ps.*2.

(** What [add_edges_from] demands of an edge before storing it: each
    endpoint hashable and not [None], the source checked first. *)
Definition endpoint_key (x : json) : result py_exc pykey :=
  k ← py_hash x;
  if decide (k = PNone) then raise (ValueError "None cannot be a node") else Ok k.

Definition edge_endpoint_keys (e : json * json) : result py_exc (pykey * pykey) :=
  u ← endpoint_key e.1; v ← endpoint_key e.2; Ok (u, v).

Lemma add_edges_from_item_Ok g e g' :
  wf g → add_edges_from_item g e = Ok g' →
  ∃ u v, edge_key e = Ok (u, v) ∧ u ≠ PNone ∧ v ≠ PNone ∧ wf g' ∧
    g_node g' = {[u; v]} ∪ g_node g ∧
    (∀ x y, y ∈ succs g' x ↔ (x = u ∧ y = v) ∨ y ∈ succs g x) ∧
    (∀ P, arcs_counted g P → arcs_counted g' ({[(u, v)]} ∪ P)).
Proof.
  destruct e as [x y]. intros Hwf H. simpl in H. res_inv.
  rename a into u, a0 into g1, a1 into v, a2 into g2.
  assert (wf g1) by eauto with pipeline. assert (wf g2) by eauto with pipeline.
  pose proof (ensure_node_nodes _ _ _ Ha0). pose proof (ensure_node_nodes _ _ _ Ha2).
  assert (u ∈ g_node g2 ∧ v ∈ g_node g2) as [Hu Hv] by set_solver.
  exists u, v. unfold edge_key; simpl. rewrite Ha, Ha1; simpl.
  split_and!; [done| | |eauto with pipeline|set_solver| |].
  - intros ->. by apply (wf_no_none g2).
  - intros ->. by apply (wf_no_none g2).
  - intros x' y'. rewrite add_arc_arcs.
    by rewrite (ensure_node_succs g1 v g2), (ensure_node_succs g u g1).
  - intros P HP. apply add_arc_arcs_counted; [done..|].
    eauto using ensure_node_arcs_counted.
Qed.

(** On success, [add_edges_from] adds the endpoints as nodes and exactly
    the [(source, target)] pairs as arcs, and no endpoint is [None]. *)
Lemma add_edges_from_Ok_spec g es g' :
  wf g → add_edges_from g es = Ok g' →
  ∃ ps, res_map edge_key es = Ok ps ∧ (PNone ∉ endpoints ps) ∧ wf g' ∧
    g_node g' = endpoints ps ∪ g_node g ∧
    (∀ x y, y ∈ succs g' x ↔ (x, y) ∈ ps ∨ y ∈ succs g x) ∧
    (∀ P, arcs_counted g P → arcs_counted g' (list_to_set ps ∪ P)).
Proof.
  unfold endpoints, add_edges_from.
  revert g; induction es as [|e es IH]; intros g Hwf H; simpl in H.
  - injection H as <-. exists []. split_and!; eauto; [set_solver..|].
    intros P HP. simpl. by rewrite union_empty_l_L.
  - res_inv. rename a into g1.
    destruct (add_edges_from_item_Ok g e g1) as (u & v & Huv & Hu & Hv & Hwf1 & Hn1 & Hs1 & Hc1);
      [done..|].
    destruct (IH g1) as (ps & Hps & Hnone & Hwf' & Hn' & Hs' & Hc'); [done..|].
    exists ((u, v) :: ps). cbn [res_map]. rewrite Huv, Hps. simpl.
    split_and!; eauto.
    + set_solver.
    + rewrite Hn', Hn1. set_solver.
    + intros x y. rewrite Hs', Hs1. set_solver.
    + intros P HP.
      replace (_ ∪ P) with (list_to_set ps ∪ ({[(u, v)]} ∪ P)) by set_solver.
      by apply Hc', Hc1.
Qed.

(** C29: On success, [add_edges_from] adds the endpoints as nodes and exactly
    the [(source, target)] pairs as arcs, and no endpoint is [None]. *)
Lemma add_edges_from_Ok g es g' :
  wf g → add_edges_from g es = Ok g' →
  ∃ ps, res_map edge_key es = Ok ps ∧ (PNone ∉ endpoints ps) ∧ wf g' ∧
    g_node g' = endpoints ps ∪ g_node g ∧
    (∀ x y, y ∈ succs g' x ↔ (x, y) ∈ ps ∨ y ∈ succs g x) ∧
    (∀ P, arcs_counted g P → arcs_counted g' (list_to_set ps ∪ P)).
Proof. apply add_edges_from_Ok_spec. Qed.

(** If every endpoint hashes and none is [None], [add_edges_from]
    succeeds. *)
Lemma add_edges_from_succeeds g es ps :
  wf g → res_map edge_key es = Ok ps → PNone ∉ endpoints ps → ∃ g', add_edges_from g es = Ok g'.
Proof.
  unfold endpoints. intros Hwf Hps Hnone. apply res_map_Ok_iff in Hps.
  unfold add_edges_from.
  destruct (res_fold_Ok_exists wf add_edges_from_item g es) as (g' & ? & _); [|done|eauto].
  intros g0 [x y] Hx Hwf0.
  apply list_elem_of_lookup in Hx as [i Hi].
  destruct (Forall2_lookup_l _ _ _ _ _ Hps Hi) as ([u v] & Huv & Hxy).
  assert ((u, v) ∈ ps) as Hin by (apply list_elem_of_lookup; eauto).
  unfold edge_key in Hxy; simpl in Hxy. res_inv. simpl. rewrite Ha, Ha0; simpl.
  destruct (ensure_node g0 u) as [g1|e] eqn:He1;
    [|apply ensure_node_Err in He1 as [-> _]; [|done]; exfalso; apply Hnone;
      apply elem_of_union_l, elem_of_list_to_set, list_elem_of_fmap; by exists (PNone, v)].
  simpl. assert (wf g1) by eauto with pipeline.
  destruct (ensure_node g1 v) as [g2|e] eqn:He2;
    [|apply ensure_node_Err in He2 as [-> _]; [|done]; exfalso; apply Hnone;
      apply elem_of_union_r, elem_of_list_to_set, list_elem_of_fmap; by exists (u, PNone)].
  simpl. eexists; split; [done|]. apply add_arc_wf; eauto with pipeline.
  - erewrite ensure_node_nodes by done. erewrite ensure_node_nodes by done. set_solver.
  - erewrite ensure_node_nodes by done. set_solver.
Qed.

Lemma endpoints_same_elems ps ps' :
  (∀ p, p ∈ ps' ↔ p ∈ ps) → endpoints ps' = endpoints ps.
Proof.
  intros Hp. unfold endpoints. apply set_eq. intros x.
  rewrite !elem_of_union, !elem_of_list_to_set, !list_elem_of_fmap. by setoid_rewrite Hp.
Qed.

Lemma ensure_node_not_none g n : wf g → n ≠ PNone → ∃ g', ensure_node g n = Ok g'.
Proof. intros Hwf Hn. unfold ensure_node. repeat case_decide; naive_solver. Qed.

(** When every item has a key, [add_nodes_from] raises exactly when one
    of the keys is [None]. *)
Lemma add_nodes_from_None g xs ks :
  wf g → res_map node_item_key xs = Ok ks → PNone ∈ ks →
  add_nodes_from g xs = Err (ValueError "None cannot be a node").
Proof.
  unfold add_nodes_from. revert g ks; induction xs as [|x xs IH]; intros g ks Hwf Hks Hin;
    simpl in Hks; res_inv; [set_solver|].
  rename a into k, a0 into ks'. cbn [res_fold]. unfold add_nodes_from_item. rewrite Ha. simpl.
  destruct (decide (k = PNone)) as [->|Hk].
  - unfold ensure_node. rewrite decide_False by apply (wf_no_none g Hwf). by rewrite decide_True.
  - destruct (ensure_node_not_none g k Hwf Hk) as [g1 Hg1]. rewrite Hg1. simpl.
    apply (IH g1 ks'); [eauto with pipeline|done|set_solver].
Qed.

(** ** The invariant holds after each method call *)

(** Add_nodes_from keeps the graph well formed. *)
Lemma add_nodes_from_preserves_wf g xs g' : wf g → add_nodes_from g xs = Ok g' → wf g'.
Proof.
  intros Hwf H. apply (res_fold_invariant wf add_nodes_from_item g xs g'); [|done|done].
  intros g0 x g1 _ Hwf0 Hstep. unfold add_nodes_from_item in Hstep. res_inv.
  eauto with pipeline.
Qed.

(** add_edges_from keeps the graph well formed: _succ and _pred keyed
    by the nodes, transposes of each other, None never a node. *)
Lemma add_edges_from_wf g es g' : wf g → add_edges_from g es = Ok g' → wf g'.
Proof.
  intros Hwf H. apply (res_fold_invariant wf add_edges_from_item g es g'); [|done|done].
  intros g0 e g1 _ Hwf0 Hstep.
  by destruct (add_edges_from_item_Ok g0 e g1 Hwf0 Hstep) as (? & ? & _ & _ & _ & ? & _).
Qed.

(** Add_edges_from keeps the graph well formed: _succ and _pred keyed
    by the nodes, transposes of each other, None never a node. *)
Lemma add_edges_from_preserves_wf g es g' : wf g → add_edges_from g es = Ok g' → wf g'.
Proof. apply add_edges_from_wf. Qed.

(** The add-node block on a well-formed graph: it raises for [None] and
    only for it. *)
Lemma ensure_node_cases g k :
  wf g → (k = PNone ∧ ensure_node g k = Err (ValueError "None cannot be a node")) ∨
         (k ≠ PNone ∧ ∃ g', ensure_node g k = Ok g' ∧ wf g').
Proof.
  intros Hwf. destruct (decide (k = PNone)) as [->|Hk].
  - left. split; [done|]. apply (ensure_node_Err g); auto.
  - right. destruct (ensure_node_not_none g k Hwf Hk) as [g' Hg']. eauto with pipeline.
Qed.

Lemma add_edges_from_item_Err g p e :
  wf g → add_edges_from_item g p = Err e ↔ edge_endpoint_keys p = Err e.
Proof.
  intros Hwf. destruct p as [x y]. unfold add_edges_from_item, edge_endpoint_keys, endpoint_key.
  cbn [fst snd]. destruct (py_hash x) as [u|e1]; res_simpl; [|split; by intros [= ->]].
  destruct (ensure_node_cases g u Hwf) as [[-> ->]|(Hu & g1 & -> & Hwf1)]; res_simpl;
    [split; by intros [= ->]|rewrite decide_False by done; res_simpl].
  destruct (py_hash y) as [v|e2]; res_simpl; [|split; by intros [= ->]].
  destruct (ensure_node_cases g1 v Hwf1) as [[-> ->]|(Hv & g2 & -> & _)]; res_simpl;
    [split; by intros [= ->]|rewrite decide_False by done; res_simpl].
  split; discriminate.
Qed.

(** On a well-formed graph [add_edges_from] raises exactly the
    exception of the first edge with an unhashable or [None] endpoint
    (source before target), and succeeds when there is none. *)
Theorem add_edges_from_Err g es e :
  wf g → add_edges_from g es = Err e ↔ res_map edge_endpoint_keys es = Err e.
Proof.
  unfold add_edges_from. revert g. induction es as [|p es IH]; intros g Hwf; [split; discriminate|].
  cbn [res_fold res_map]. destruct (add_edges_from_item g p) as [g1|e1] eqn:Hp.
  - destruct (edge_endpoint_keys p) as [k|e'] eqn:Hk;
      [|apply (add_edges_from_item_Err g p e' Hwf) in Hk; congruence].
    simpl. rewrite IH; [destruct (res_map _ es); simpl; naive_solver|].
    apply (add_edges_from_wf g [p]); [done|]. by cbn; rewrite Hp.
  - pose proof Hp as Hk. apply (add_edges_from_item_Err g p e1 Hwf) in Hk. rewrite Hk. simpl.
    naive_solver.
Qed.

(** ** Checking the invariant *)

(** An executable form of [wf]: the transpose condition only needs to be
    checked on the arcs present. *)
Definition wf_check (g : digraph) : bool :=
  bool_decide (dom (g_succ g) = g_node g) &&
  bool_decide (dom (g_pred g) = g_node g) &&
  bool_decide (set_Forall (λ u, set_Forall (λ v, u ∈ preds g v) (succs g u)) (g_node g)) &&
  bool_decide (set_Forall (λ v, set_Forall (λ u, v ∈ succs g u) (preds g v)) (g_node g)) &&
  bool_decide (PNone ∉ g_node g).

Lemma wf_check_spec g : wf_check g = true ↔ wf g.
Proof.
  unfold wf_check. rewrite !andb_true_iff, !bool_decide_eq_true. split.
  - intros ((((Hs & Hp) & Hsp) & Hps) & Hn). split; [done|done| |done].
    intros u v. split.
    + intros Hv. destruct (decide (u ∈ g_node g)) as [Hu|Hu]; [by apply (Hsp u Hu v)|].
      unfold succs in Hv. rewrite adj_of_not_dom in Hv; [set_solver|]. by rewrite Hs.
    + intros Hu. destruct (decide (v ∈ g_node g)) as [Hv|Hv]; [by apply (Hps v Hv u)|].
      unfold preds in Hu. rewrite adj_of_not_dom in Hu; [set_solver|]. by rewrite Hp.
  - intros Hwf. split_and!; [apply Hwf|apply Hwf| | |apply Hwf].
    + intros u _ v Hv. by apply (wf_transpose g Hwf).
    + intros v _ u Hu. by apply (wf_transpose g Hwf).
Qed.

#[export] Instance wf_dec g : Decision (wf g).
Proof. destruct (wf_check g) eqn:E; [left|right]; rewrite <- wf_check_spec; congruence. Defined.

(** An executable form of [arcs_counted]. *)
Definition arcs_counted_check (g : digraph) (P : gset (pykey * pykey)) : bool :=
  bool_decide (set_Forall (λ p, p.2 ∈ succs g p.1) P) &&
  bool_decide (set_Forall (λ u, set_Forall (λ v, (u, v) ∈ P) (succs g u)) (dom (g_succ g))) &&
  bool_decide (sum_set (degree g) (g_node g) = 2 * size P).

Lemma arcs_counted_check_spec g P : arcs_counted_check g P = true ↔ arcs_counted g P.
Proof.
  unfold arcs_counted_check, arcs_counted. rewrite !andb_true_iff, !bool_decide_eq_true.
  split.
  - intros ((HP & Hs) & Hsum). split; [|done]. intros u v. split; [apply (HP (u, v))|].
    intros Hv. apply (Hs u); [|done]. by eapply adj_of_elem_dom.
  - intros [HP Hsum]. split_and!; [|intros u _ v Hv; by apply HP|done].
    intros [u v] Huv. by apply HP.
Qed.

#[export] Instance arcs_counted_dec g P : Decision (arcs_counted g P).
Proof.
  destruct (arcs_counted_check g P) eqn:E; [left|right]; rewrite <- arcs_counted_check_spec;
    congruence.
Defined.
