(* ===== verification/OrderedGraph.v ===== *)
(** * The DiGraph's dictionaries in insertion order

    [DiGraph.v] models [G._node], [G._succ] and [G._pred] as finite maps
    and sets, which is all the counts and the cycle check read.  The debug
    print of line 40, [print("Graph Edges:", G.edges())], also shows what
    those maps forget: Python dicts keep their keys in insertion order and
    keep the key object first inserted ([True] stays [True] when [1] is
    added later).  This file models [G._succ] as what it is, a dict of
    dicts: a list of entries [(key, key object, neighbours)] in insertion
    order, each neighbour list a dict [(key, key object)] in insertion
    order; [add_nodes_from] and [add_edges_from] on it as networkx writes
    them; and [G.edges()], which walks [_succ] and each neighbour dict in
    order.  The refinement theorems show that it describes the same graph
    as [DiGraph.v], raising the same exceptions, so the two models can be
    used together.  The last sections show which key objects the
    dictionaries keep, and so which objects [G.edges()] prints: each
    object hashes to its key ([objs_hash]), a node keeps the first object
    offered with its key ([kept_nodes]), an arc the target object of its
    first edge ([kept_nbrs]). *)

From S2P Require Import Prelude PyValue DiGraph.

(** ** The ordered dictionaries *)

(** An entry of [G._succ]: the hash key, the key object, and the
    neighbour dict [G._succ[n]] as its keys and key objects. *)
Definition oentry : Type := pykey * json * list (pykey * json).

(** [G._succ], whose keys are also those of [G._node], inserted together. *)
Definition odigraph : Type := list oentry.

Definition okeys (g : odigraph) : list pykey := (λ e : oentry, e.1.1) <$> g.

(** [G._succ[u]], or no neighbours when [u] is not a node. *)
Fixpoint onbrs (g : odigraph) (u : pykey) : list (pykey * json) :=
  match g with
  | [] => []
  | (k, _, nbrs) :: g' => if decide (k = u) then nbrs else onbrs g' u
  end.

(** The head of [add_nodes_from]'s loop body, keeping the node object:
    the item when it is hashable, the first of its two values when it is
    unpacked. *)
Definition node_item (x : json) : result py_exc (pykey * json) :=
  match py_hash x with
  | Ok n => Ok (n, x)
  | Err _ =>
      '(a, d) ← py_unpack2 x;
      n ← py_hash a;
      _ ← dict_update_check d;
      Ok (n, a)
  end.

(** The add-node block: a new key is appended with the object given and
    an empty neighbour dict. *)
Definition o_ensure (g : odigraph) (n : pykey) (obj : json) : result py_exc odigraph :=
  if decide (n ∈ okeys g) then Ok g
  else if decide (n = PNone) then raise (ValueError "None cannot be a node")
  else Ok (g ++ [(n, obj, [])]).

Definition o_add_nodes_from_item (g : odigraph) (x : json) : result py_exc odigraph :=
  '(n, obj) ← node_item x; o_ensure g n obj.

(** [G.add_nodes_from(nodes)] *)
Definition o_add_nodes_from (g : odigraph) (xs : list json) : result py_exc odigraph :=
  res_fold o_add_nodes_from_item g xs.

(** [self._succ[u][v] = datadict]: an existing key keeps its place and its
    key object. *)
Definition nbr_insert (nbrs : list (pykey * json)) (v : pykey) (obj : json) : list (pykey * json) :=
  if decide (v ∈ nbrs.*1) then nbrs else nbrs ++ [(v, obj)].

Fixpoint o_add_arc (g : odigraph) (u v : pykey) (vobj : json) : odigraph :=
  match g with
  | [] => []
  | (k, o, nbrs) :: g' =>
      if decide (k = u) then (k, o, nbr_insert nbrs v vobj) :: g'
      else (k, o, nbrs) :: o_add_arc g' u v vobj
  end.

(** One iteration of [add_edges_from] on the pair [(x, y)]. *)
Definition o_add_edges_from_item (g : odigraph) (e : json * json) : result py_exc odigraph :=
  let '(x, y) := e in
  u ← py_hash x;
  g1 ← o_ensure g u x;
  v ← py_hash y;
  g2 ← o_ensure g1 v y;
  Ok (o_add_arc g2 u v y).

(** [G.add_edges_from(edges)] *)
Definition o_add_edges_from (g : odigraph) (es : list (json * json)) : result py_exc odigraph :=
  res_fold o_add_edges_from_item g es.

(** [list(G.edges())]: [for n, nbrs in G._adj.items(): for nbr in nbrs:
    yield (n, nbr)], with the key objects. *)
Definition o_edges (g : odigraph) : list (json * json) :=
  g ≫= (λ e : oentry, (λ vn : pykey * json, (e.1.2, vn.2)) <$> e.2).

(** The same walk on the keys. *)
Definition o_edge_keys (g : odigraph) : list (pykey * pykey) :=
  g ≫= (λ e : oentry, (λ vn : pykey * json, (e.1.1, vn.1)) <$> e.2).

(** ** The ordered model refines the set model *)

(** [g] and [G] describe the same graph: the keys of [g] are the nodes of
    [G], once each, and each entry's neighbour keys are the node's
    successors, once each. *)
Record orel (g : odigraph) (G : digraph) : Prop := {
  orel_nodup : NoDup (okeys g);
  orel_nodes : g_node G = list_to_set (okeys g);
  orel_succs : ∀ u, succs G u = list_to_set (onbrs g u).*1;
  orel_nbrs_nodup : ∀ u, NoDup (onbrs g u).*1;
}.

Lemma okeys_cons k o nbrs g : okeys ((k, o, nbrs) :: g) = k :: okeys g.
Proof. done. Qed.

Lemma okeys_snoc g e : okeys (g ++ [e]) = okeys g ++ [e.1.1].
Proof. unfold okeys. by rewrite fmap_app. Qed.

Lemma onbrs_not_key g u : u ∉ okeys g → onbrs g u = [].
Proof.
  induction g as [|[[k o] nbrs] g IH]; intros Hu; simpl; [done|].
  rewrite okeys_cons in Hu. case_decide; [set_solver|]. apply IH. set_solver.
Qed.

(** Appending a node with no neighbours changes no neighbour dict. *)
Lemma onbrs_snoc_empty g n obj u : onbrs (g ++ [(n, obj, [])]) u = onbrs g u.
Proof. induction g as [|[[k o] nbrs] g IH]; simpl; [by case_decide|]. by rewrite IH. Qed.

Lemma okeys_o_add_arc g u v obj : okeys (o_add_arc g u v obj) = okeys g.
Proof. induction g as [|[[k o] nbrs] g IH]; simpl; [done|]. case_decide; simpl; by f_equal. Qed.

Lemma onbrs_o_add_arc g u v obj x :
  u ∈ okeys g →
  onbrs (o_add_arc g u v obj) x = if decide (x = u) then nbr_insert (onbrs g u) v obj else onbrs g x.
Proof.
  induction g as [|[[k o] nbrs] g IH]; intros Hu; [set_solver|].
  rewrite okeys_cons in Hu. simpl. destruct (decide (k = u)) as [->|Hku]; simpl.
  - by repeat case_decide.
  - rewrite IH by set_solver. by repeat case_decide; subst.
Qed.

Lemma nbr_insert_keys nbrs v obj :
  list_to_set (nbr_insert nbrs v obj).*1 = ({[v]} ∪ list_to_set nbrs.*1 : gset pykey).
Proof.
  unfold nbr_insert. case_decide; [set_solver|].
  rewrite fmap_app, list_to_set_app_L. simpl. set_solver.
Qed.

Lemma nbr_insert_NoDup nbrs v obj : NoDup nbrs.*1 → NoDup (nbr_insert nbrs v obj).*1.
Proof.
  intros Hnd. unfold nbr_insert. case_decide; [done|].
  rewrite fmap_app. apply NoDup_app. split_and!; [done|set_solver|apply NoDup_singleton].
Qed.

Lemma o_ensure_keys g n obj g' :
  o_ensure g n obj = Ok g' → ∀ k, k ∈ okeys g' ↔ k = n ∨ k ∈ okeys g.
Proof.
  unfold o_ensure. repeat case_decide; intros; simplify_eq; [set_solver|].
  rewrite okeys_snoc. set_solver.
Qed.

Lemma orel_empty : orel [] empty_digraph.
Proof.
  split; simpl; [constructor|done| |intros; constructor].
  intros u. unfold succs, adj_of. simpl. by rewrite lookup_empty.
Qed.

(** The add-node block decides the same way on both models. *)
Lemma o_ensure_rel g G n obj :
  orel g G → res_rel orel (o_ensure g n obj) (ensure_node G n).
Proof.
  intros Hr. unfold o_ensure, ensure_node. rewrite (orel_nodes _ _ Hr).
  destruct (decide (n ∈ okeys g)) as [Hk|Hk];
    destruct (decide (n ∈ (list_to_set (okeys g) : gset pykey))) as [Hk'|Hk'];
    rewrite elem_of_list_to_set in Hk'; [done|done..|].
  case_decide; [done|]. split; simpl.
  - rewrite okeys_snoc. apply NoDup_app. split_and!; [apply Hr|set_solver|apply NoDup_singleton].
  - rewrite okeys_snoc, list_to_set_app_L. set_solver.
  - intros u. unfold succs; simpl. rewrite adj_of_insert, onbrs_snoc_empty.
    case_decide; subst; [|apply Hr]. rewrite onbrs_not_key by set_solver. done.
  - intros u. rewrite onbrs_snoc_empty. apply Hr.
Qed.

Lemma o_add_arc_rel g G u v obj :
  orel g G → u ∈ okeys g → orel (o_add_arc g u v obj) (add_arc G u v).
Proof.
  intros Hr Hu. split; simpl; rewrite ?okeys_o_add_arc; [apply Hr|apply Hr| |].
  - intros x. rewrite succs_add_arc, onbrs_o_add_arc by done.
    case_decide; subst; [|apply Hr]. by rewrite nbr_insert_keys, (orel_succs _ _ Hr).
  - intros x. rewrite onbrs_o_add_arc by done.
    case_decide; [apply nbr_insert_NoDup|]; apply Hr.
Qed.

Lemma node_item_key_spec x : node_item_key x = (p ← node_item x; Ok p.1).
Proof.
  unfold node_item_key, node_item. destruct (py_hash x); [done|].
  destruct (py_unpack2 x) as [[a d]|]; simpl; [|done].
  destruct (py_hash a); simpl; [|done]. by destruct (dict_update_check d).
Qed.

Lemma o_add_nodes_from_item_rel g G x :
  orel g G → res_rel orel (o_add_nodes_from_item g x) (add_nodes_from_item G x).
Proof.
  intros Hr. unfold o_add_nodes_from_item, add_nodes_from_item. rewrite node_item_key_spec.
  destruct (node_item x) as [[n o]|e]; simpl; [by apply o_ensure_rel|done].
Qed.

Lemma o_add_edges_from_item_rel g G e :
  orel g G → res_rel orel (o_add_edges_from_item g e) (add_edges_from_item G e).
Proof.
  intros Hr. destruct e as [x y]; simpl. destruct (py_hash x) as [u|]; simpl; [|done].
  pose proof (o_ensure_rel g G u x Hr) as H1.
  destruct (o_ensure g u x) as [g1|] eqn:E1, (ensure_node G u) as [G1|]; simpl in *; try done.
  destruct (py_hash y) as [v|]; simpl; [|done].
  pose proof (o_ensure_rel g1 G1 v y H1) as H2.
  destruct (o_ensure g1 v y) as [g2|] eqn:E2, (ensure_node G1 v) as [G2|]; simpl in *; try done.
  apply o_add_arc_rel; [done|]. apply (o_ensure_keys _ _ _ _ E2), or_intror, (o_ensure_keys _ _ _ _ E1).
  by left.
Qed.

(** [add_nodes_from] on the ordered dictionaries fails exactly when the
    set model fails, with the same exception, and otherwise yields the
    same graph. *)
Theorem o_add_nodes_from_refines g G xs :
  orel g G → res_rel orel (o_add_nodes_from g xs) (add_nodes_from G xs).
Proof. intros. apply res_fold_rel; [|done]. intros; by apply o_add_nodes_from_item_rel. Qed.

(** [add_edges_from] on the ordered dictionaries raises exactly when
    the set model raises, with the same exception, and otherwise describes
    the same graph: the same nodes and successors, each key once. *)
Lemma o_add_edges_from_sim g G es :
  orel g G → res_rel orel (o_add_edges_from g es) (add_edges_from G es).
Proof. intros. apply res_fold_rel; [|done]. intros; by apply o_add_edges_from_item_rel. Qed.

(** C11: [add_edges_from] on the ordered dictionaries raises exactly when
    the set model raises, with the same exception, and otherwise describes
    the same graph: the same nodes and successors, each key once. *)
Theorem o_add_edges_from_refines g G es :
  orel g G → res_rel orel (o_add_edges_from g es) (add_edges_from G es).
Proof. apply o_add_edges_from_sim. Qed.

(** ** [G.edges()] *)

Lemma o_edge_keys_cons k o nbrs g :
  o_edge_keys ((k, o, nbrs) :: g) = ((λ v, (k, v)) <$> nbrs.*1) ++ o_edge_keys g.
Proof. unfold o_edge_keys. simpl. by rewrite <- list_fmap_compose. Qed.

Lemma o_edges_cons k o nbrs g :
  o_edges ((k, o, nbrs) :: g) = ((λ vn : pykey * json, (o, vn.2)) <$> nbrs) ++ o_edges g.
Proof. done. Qed.

Lemma o_edges_length g : length (o_edges g) = length (o_edge_keys g).
Proof.
  induction g as [|[[k o] nbrs] g IH]; [done|].
  by rewrite o_edges_cons, o_edge_keys_cons, !length_app, !length_fmap, IH.
Qed.

Lemma o_edge_keys_source g u v : (u, v) ∈ o_edge_keys g → u ∈ okeys g.
Proof.
  induction g as [|[[k o] nbrs] g IH]; [set_solver|].
  rewrite o_edge_keys_cons, okeys_cons, elem_of_app, list_elem_of_fmap. set_solver.
Qed.

(** With the keys unique, the walk yields [(u, v)] exactly for the
    neighbour keys [v] of [u]. *)
Lemma o_edge_keys_elem g u v : NoDup (okeys g) → (u, v) ∈ o_edge_keys g ↔ v ∈ (onbrs g u).*1.
Proof.
  induction g as [|[[k o] nbrs] g IH]; intros Hnd; [set_solver|].
  rewrite okeys_cons, NoDup_cons in Hnd. destruct Hnd as [Hk Hnd].
  rewrite o_edge_keys_cons, elem_of_app, list_elem_of_fmap, IH by done. simpl.
  case_decide; subst; [rewrite (onbrs_not_key g u) by done|]; set_solver.
Qed.

Lemma o_edge_keys_NoDup g :
  NoDup (okeys g) → (∀ u, NoDup (onbrs g u).*1) → NoDup (o_edge_keys g).
Proof.
  induction g as [|[[k o] nbrs] g IH]; intros Hnd Hnb; [constructor|].
  rewrite okeys_cons, NoDup_cons in Hnd. destruct Hnd as [Hk Hnd].
  rewrite o_edge_keys_cons. apply NoDup_app. split_and!.
  - apply NoDup_fmap; [congruence|]. specialize (Hnb k). simpl in Hnb. by case_decide.
  - intros [x y] (? & [= -> ->] & _)%list_elem_of_fmap ?%o_edge_keys_source. done.
  - apply IH; [done|]. intros u. specialize (Hnb u). simpl in Hnb.
    case_decide; subst; [rewrite onbrs_not_key by done; constructor|done].
Qed.

(** [G.edges()] lists each arc of the set model once. *)
Lemma o_edge_keys_arcs g G :
  orel g G →
  NoDup (o_edge_keys g) ∧ ∀ u v, (u, v) ∈ o_edge_keys g ↔ v ∈ succs G u.
Proof.
  intros Hr. split; [apply o_edge_keys_NoDup; apply Hr|].
  intros u v. rewrite o_edge_keys_elem by apply Hr. rewrite (orel_succs _ _ Hr). set_solver.
Qed.

(** ** The key objects *)

(** Every key object [g] keeps hashes to its key: the node objects of
    [_succ] and the neighbour objects of each [_succ[n]]. *)
Definition objs_hash (g : odigraph) : Prop :=
  Forall (λ e : oentry, py_hash e.1.2 = Ok e.1.1 ∧ Forall (λ vn : pykey * json, py_hash vn.2 = Ok vn.1) e.2) g.

Lemma objs_hash_nil : objs_hash [].
Proof. constructor. Qed.

Lemma o_ensure_objs g n obj g' :
  objs_hash g → py_hash obj = Ok n → o_ensure g n obj = Ok g' → objs_hash g'.
Proof.
  unfold o_ensure, objs_hash. intros Hg Ho. repeat case_decide; intros; simplify_eq; [done|].
  apply Forall_app. split; [done|]. by repeat constructor.
Qed.

Lemma o_add_arc_objs g u v obj : objs_hash g → py_hash obj = Ok v → objs_hash (o_add_arc g u v obj).
Proof.
  unfold objs_hash. intros Hg Ho. induction Hg as [|[[k o] nbrs] g [Hk Hn] Hg IH]; simpl; [constructor|].
  case_decide; constructor; try done. split; [done|]. unfold nbr_insert. case_decide; [done|].
  apply Forall_app. by repeat constructor.
Qed.

Lemma node_item_hash x n o : node_item x = Ok (n, o) → py_hash o = Ok n.
Proof.
  unfold node_item. destruct (py_hash x) eqn:Hx; [by intros [= <- <-]|].
  intros H. res_inv. destruct a as [a d]. res_inv. by simplify_eq.
Qed.

Lemma o_add_nodes_from_objs g xs g' : objs_hash g → o_add_nodes_from g xs = Ok g' → objs_hash g'.
Proof.
  apply res_fold_invariant. intros g0 x g1 _ Hg H. unfold o_add_nodes_from_item in H.
  res_inv. destruct a as [n o]. eauto using o_ensure_objs, node_item_hash.
Qed.

Lemma o_add_edges_from_objs g es g' : objs_hash g → o_add_edges_from g es = Ok g' → objs_hash g'.
Proof.
  apply res_fold_invariant. intros g0 [x y] g1 _ Hg H. simpl in H. res_inv. simplify_eq.
  eauto using o_add_arc_objs, o_ensure_objs.
Qed.

(** Hashing the pairs [G.edges()] yields gives the walk on the keys. *)
Lemma o_edges_hash g : objs_hash g → res_map edge_key (o_edges g) = Ok (o_edge_keys g).
Proof.
  unfold objs_hash. induction 1 as [|[[k o] nbrs] g [Hk Hn] Hg IH]; [done|].
  rewrite o_edges_cons, o_edge_keys_cons, res_map_app, IH. simpl in *.
  assert (res_map edge_key ((λ vn : pykey * json, (o, vn.2)) <$> nbrs) = Ok ((λ v, (k, v)) <$> nbrs.*1)) as ->;
    [|done].
  induction Hn as [|[v vo] nbrs Hv Hn IHn]; [done|]. simpl in *.
  assert (edge_key (o, vo) = Ok (k, v)) as -> by (unfold edge_key; simpl; by rewrite Hk, Hv).
  simpl. rewrite (IHn : res_map edge_key (list_fmap _ _ _ nbrs) = _). done.
Qed.

(** ** The whole graph seen from the ordered dictionaries *)

(** The first entry of [G._succ] with key [u]. *)
Fixpoint ofind (g : odigraph) (u : pykey) : option oentry :=
  match g with
  | [] => None
  | e :: g' => if decide (e.1.1 = u) then Some e else ofind g' u
  end.

(** A dict built from [g]'s entries, keyed by the entry keys. *)
Definition okeyed {A} (f : oentry → A) (g : odigraph) : gmap pykey A :=
  list_to_map ((λ e : oentry, (e.1.1, f e)) <$> g).

(** [G._node], [G._succ] and [G._pred] read from the ordered [_succ]:
    [_node] has its keys, [_pred] is the transpose of [_succ] (the
    invariant [wf_transpose]). *)
Definition o_to_digraph (g : odigraph) : digraph :=
  mk_digraph (list_to_set (okeys g))
    (okeyed (λ e, list_to_set e.2.*1) g)
    (okeyed (λ e, list_to_set (filter (λ p : pykey * pykey, p.2 = e.1.1) (o_edge_keys g)).*1) g).

Lemma lookup_okeyed {A} (f : oentry → A) g u : okeyed f g !! u = f <$> ofind g u.
Proof.
  induction g as [|e g IH]; [apply lookup_empty|]. unfold okeyed in *. simpl.
  rewrite lookup_insert. by case_decide; subst.
Qed.

Lemma ofind_Some g u e : ofind g u = Some e → e.1.1 = u ∧ e.2 = onbrs g u ∧ u ∈ okeys g.
Proof.
  induction g as [|[[k o] nbrs] g IH]; [done|]. rewrite okeys_cons. cbn [ofind onbrs].
  case_decide; [intros [= <-]; simpl; subst; rewrite decide_True by done; set_solver|].
  intros (? & ? & ?)%IH. rewrite decide_False by done. set_solver.
Qed.

Lemma ofind_None g u : ofind g u = None → u ∉ okeys g.
Proof.
  induction g as [|[[k o] nbrs] g IH]; [set_solver|]. rewrite okeys_cons. cbn [ofind].
  case_decide; [done|]. intros ?%IH. set_solver.
Qed.

Lemma wf_lookup_adj (m : gmap pykey (gset pykey)) N u :
  dom m = N → m !! u = if decide (u ∈ N) then Some (adj_of m u) else None.
Proof.
  intros <-. unfold adj_of. case_decide as Hu.
  - apply elem_of_dom in Hu as [x Hx]. by rewrite Hx.
  - by apply not_elem_of_dom in Hu.
Qed.

(** On a well-formed graph, [_succ] determines [_pred]. *)
Lemma wf_preds_succs G v u : wf G → u ∈ preds G v ↔ v ∈ succs G u.
Proof. intros Hwf. symmetry. apply (wf_transpose G Hwf). Qed.

(** A well-formed graph the ordered dictionaries describe is their view. *)
Theorem o_to_digraph_eq g G : orel g G → wf G → o_to_digraph g = G.
Proof.
  intros Hr Hwf. pose proof (orel_nodes _ _ Hr) as HN.
  destruct (o_edge_keys_arcs g G Hr) as [_ Harc].
  destruct G as [N S P]; simpl in HN. unfold o_to_digraph. f_equal; [done| |].
  - apply map_eq. intros u. rewrite lookup_okeyed, (wf_lookup_adj S N) by apply Hwf.
    destruct (ofind g u) as [e|] eqn:He; simpl.
    + apply ofind_Some in He as (_ & -> & Hu). rewrite decide_True by set_solver.
      f_equal. symmetry. apply (orel_succs _ _ Hr).
    + apply ofind_None in He. rewrite decide_False by set_solver. done.
  - apply map_eq. intros v. rewrite lookup_okeyed, (wf_lookup_adj P N) by apply Hwf.
    destruct (ofind g v) as [e|] eqn:He; simpl.
    + apply ofind_Some in He as (<- & _ & Hv). rewrite decide_True by set_solver.
      f_equal. apply set_eq. intros u. rewrite elem_of_list_to_set, list_elem_of_fmap.
      pose proof (wf_preds_succs _ e.1.1 u Hwf) as Hp. unfold preds in Hp; simpl in Hp. rewrite Hp, <- Harc.
      split; [intros ([x y] & -> & [? ?]%list_elem_of_filter); simpl in *; by subst|].
      intros Hin. exists (u, e.1.1). by rewrite list_elem_of_filter.
    + apply ofind_None in He. rewrite decide_False by set_solver. done.
Qed.

(** ** Which key objects the dictionaries keep *)

(** [hash(x) == k] for a hashable [x]. *)
Definition hashes_to (x : json) (k : pykey) : bool :=
  match py_hash x with Ok k' => bool_decide (k' = k) | Err _ => false end.

(** The first of the objects [xs], offered in this order to the add-node
    block, whose key is [k]. *)
Fixpoint first_obj (k : pykey) (xs : list json) : option json :=
  match xs with
  | [] => None
  | x :: xs' => if hashes_to x k then Some x else first_obj k xs'
  end.

(** The target object of the first edge of [es] whose keys are [(u, v)]. *)
Fixpoint first_target (u v : pykey) (es : list (json * json)) : option json :=
  match es with
  | [] => None
  | e :: es' => if hashes_to e.1 u && hashes_to e.2 v then Some e.2 else first_target u v es'
  end.

(** The objects [add_edges_from] offers the add-node block: source, then
    target, edge after edge. *)
Definition endpoints_seq (es : list (json * json)) : list json := es ≫= λ e, [e.1; e.2].

(** [_succ[u]] read at the key [v]: the key object it keeps. *)
Fixpoint nbr_lookup (nbrs : list (pykey * json)) (v : pykey) : option json :=
  match nbrs with
  | [] => None
  | (w, o) :: nbrs' => if decide (w = v) then Some o else nbr_lookup nbrs' v
  end.

Lemma hashes_to_Ok x k k' : py_hash x = Ok k → hashes_to x k' = bool_decide (k = k').
Proof. unfold hashes_to. by intros ->. Qed.

Lemma first_obj_app k xs ys :
  first_obj k (xs ++ ys) = match first_obj k xs with Some o => Some o | None => first_obj k ys end.
Proof. induction xs as [|x xs IH]; simpl; [done|]. by destruct (hashes_to x k). Qed.

Lemma first_target_app u v es es' :
  first_target u v (es ++ es') =
    match first_target u v es with Some o => Some o | None => first_target u v es' end.
Proof. induction es as [|e es IH]; simpl; [done|]. by destruct (_ && _). Qed.

Lemma nbr_lookup_app nbrs nbrs' v :
  nbr_lookup (nbrs ++ nbrs') v =
    match nbr_lookup nbrs v with Some o => Some o | None => nbr_lookup nbrs' v end.
Proof. induction nbrs as [|[w o] nbrs IH]; simpl; [done|]. by case_decide. Qed.

Lemma nbr_lookup_None nbrs v : nbr_lookup nbrs v = None ↔ v ∉ nbrs.*1.
Proof.
  induction nbrs as [|[w o] nbrs IH]; simpl; [set_solver|].
  case_decide; subst; [set_solver|]. rewrite IH. set_solver.
Qed.

Lemma nbr_lookup_Some nbrs v o : nbr_lookup nbrs v = Some o → (v, o) ∈ nbrs.
Proof.
  induction nbrs as [|[w o'] nbrs IH]; simpl; [done|].
  case_decide; [intros [= <-]; subst; left|intros ?; right; auto].
Qed.

Lemma nbr_lookup_elem nbrs v o : NoDup nbrs.*1 → (v, o) ∈ nbrs → nbr_lookup nbrs v = Some o.
Proof.
  induction nbrs as [|[w o'] nbrs IH]; simpl; [set_solver|]. rewrite NoDup_cons.
  intros [Hw Hnd] [[= -> ->]|Hin]%elem_of_cons; [by rewrite decide_True|].
  rewrite decide_False; [by apply IH|]. intros ->. apply Hw, list_elem_of_fmap. by exists (v, o).
Qed.

Lemma ofind_snoc g e k :
  ofind (g ++ [e]) k = match ofind g k with Some e' => Some e' | None => if decide (e.1.1 = k) then Some e else None end.
Proof. induction g as [|e' g IH]; simpl; [done|]. destruct (decide (e'.1.1 = k)); [done|apply IH]. Qed.

Lemma ofind_elem_of g u e : ofind g u = Some e → e ∈ g.
Proof.
  induction g as [|e' g IH]; simpl; [done|].
  case_decide; [intros [= ->]; left|intros ?; right; auto].
Qed.

Lemma ofind_elem g e : NoDup (okeys g) → e ∈ g → ofind g e.1.1 = Some e.
Proof.
  induction g as [|[[k o] nbrs] g IH]; [set_solver|]. rewrite okeys_cons, NoDup_cons. simpl.
  intros [Hk Hnd] [->|Hin]%elem_of_cons; [by rewrite decide_True|].
  rewrite decide_False; [by apply IH|]. intros Heq. apply Hk, list_elem_of_fmap. eauto.
Qed.

Lemma ofind_o_add_arc_obj g u v obj k :
  (λ e : oentry, e.1.2) <$> ofind (o_add_arc g u v obj) k = (λ e : oentry, e.1.2) <$> ofind g k.
Proof.
  induction g as [|[[k' o] nbrs] g IH]; simpl; [done|].
  case_decide; simpl; by case_decide.
Qed.

(** The node objects of [g] are the first of [xs] with their keys, and a
    key of [xs] is a node. *)
Definition kept_nodes (g : odigraph) (xs : list json) : Prop :=
  ∀ k, (λ e : oentry, e.1.2) <$> ofind g k = first_obj k xs.

(** The neighbour objects of [g] are the targets of the first edges of
    [es] with their keys, and an edge of [es] is an arc. *)
Definition kept_nbrs (g : odigraph) (es : list (json * json)) : Prop :=
  ∀ u v, nbr_lookup (onbrs g u) v = first_target u v es.

Lemma o_ensure_kept_nodes g n obj g' xs :
  kept_nodes g xs → py_hash obj = Ok n → o_ensure g n obj = Ok g' → kept_nodes g' (xs ++ [obj]).
Proof.
  intros Hk Ho. unfold o_ensure. intros H k. rewrite first_obj_app, <- Hk. simpl.
  rewrite (hashes_to_Ok _ _ _ Ho). destruct (decide (n ∈ okeys g)) as [Hin|Hnin]; [simplify_eq|].
  - destruct (ofind g' k) eqn:E; [done|]. apply ofind_None in E.
    rewrite bool_decide_false; [done|]. set_solver.
  - case_decide; simplify_eq. rewrite ofind_snoc. destruct (ofind g k); [done|]. simpl.
    by case_bool_decide; case_decide.
Qed.

Lemma o_ensure_kept_nbrs g n obj g' es : kept_nbrs g es → o_ensure g n obj = Ok g' → kept_nbrs g' es.
Proof.
  unfold o_ensure. intros Hk H. repeat case_decide; simplify_eq; [done|].
  intros u v. by rewrite onbrs_snoc_empty.
Qed.

Lemma o_add_arc_kept_nbrs g x y u v es :
  kept_nbrs g es → u ∈ okeys g → py_hash x = Ok u → py_hash y = Ok v →
  kept_nbrs (o_add_arc g u v y) (es ++ [(x, y)]).
Proof.
  intros Hk Hu Hx Hy w z. rewrite onbrs_o_add_arc, first_target_app, <- Hk by done. simpl.
  rewrite (hashes_to_Ok _ _ _ Hx), (hashes_to_Ok _ _ _ Hy).
  destruct (decide (w = u)) as [->|Hwu].
  2:{ destruct (nbr_lookup _ _); [done|]. by rewrite bool_decide_false by congruence. }
  rewrite bool_decide_true by done. simpl. unfold nbr_insert. case_decide as Hv.
  - destruct (nbr_lookup _ z) eqn:E; [done|]. apply nbr_lookup_None in E.
    rewrite bool_decide_false; [done|]. by intros ->.
  - rewrite nbr_lookup_app. destruct (nbr_lookup _ z); [done|]. simpl.
    by case_decide; case_bool_decide.
Qed.

(** [add_nodes_from] keeps the first object of each key, and adds no
    neighbour. *)
Lemma o_add_nodes_from_kept g xs ids g' :
  kept_nodes g xs → kept_nbrs g [] → o_add_nodes_from g ids = Ok g' →
  ∃ nis, res_map node_item ids = Ok nis ∧ kept_nodes g' (xs ++ nis.*2) ∧ kept_nbrs g' [].
Proof.
  unfold o_add_nodes_from. revert g xs. induction ids as [|x ids IH]; intros g xs Hn He H; simpl in H.
  - simplify_eq. exists []. by rewrite app_nil_r.
  - res_inv. unfold o_add_nodes_from_item in Ha. res_inv. destruct a0 as [n o].
    destruct (IH a (xs ++ [o])) as (nis & Hnis & Hn' & He'); [..|exact H|];
      eauto using o_ensure_kept_nodes, o_ensure_kept_nbrs, node_item_hash.
    exists ((n, o) :: nis). simpl. rewrite Ha0, Hnis. rewrite <- app_assoc in Hn'. done.
Qed.

(** [add_edges_from] keeps the first object of each key, and the target
    object of the first edge of each arc. *)
Lemma o_add_edges_from_kept g xs es0 es g' :
  kept_nodes g xs → kept_nbrs g es0 → o_add_edges_from g es = Ok g' →
  kept_nodes g' (xs ++ endpoints_seq es) ∧ kept_nbrs g' (es0 ++ es).
Proof.
  unfold o_add_edges_from. revert g xs es0. induction es as [|[x y] es IH]; intros g xs es0 Hn He H; simpl in H.
  - simplify_eq. by rewrite !app_nil_r.
  - res_inv.
    destruct (IH (o_add_arc a3 a0 a2 y) (xs ++ [x; y]) (es0 ++ [(x, y)])) as [Hn' He']; [| |exact H|].
    + intros k. rewrite ofind_o_add_arc_obj. change [x; y] with ([x] ++ [y]). rewrite app_assoc.
      revert k. change (kept_nodes a3 ((xs ++ [x]) ++ [y])). eauto using o_ensure_kept_nodes.
    + apply o_add_arc_kept_nbrs; eauto using o_ensure_kept_nbrs.
      apply (o_ensure_keys _ _ _ _ Ha3). right. apply (o_ensure_keys _ _ _ _ Ha1). by left.
    + rewrite <- !app_assoc in Hn', He'. done.
Qed.

(** [G.edges()] prints, for each arc, the object first offered with its
    source's key and the target object of the first edge of the arc. *)
Lemma o_edges_kept g xs es :
  NoDup (okeys g) → (∀ u, NoDup (onbrs g u).*1) → kept_nodes g xs → kept_nbrs g es →
  ∀ a b, (a, b) ∈ o_edges g ↔ ∃ u v, first_obj u xs = Some a ∧ first_target u v es = Some b.
Proof.
  intros Hnd Hnb Hn He a b. unfold o_edges. rewrite list_elem_of_bind. split.
  - intros (e & (vn & [= -> ->] & Hvn)%list_elem_of_fmap & He'). exists e.1.1, vn.1.
    pose proof (ofind_elem g e Hnd He') as Hf. destruct (ofind_Some _ _ _ Hf) as (_ & Hnbrs & _).
    rewrite <- Hn, <- He, Hf, <- Hnbrs. split; [done|].
    apply nbr_lookup_elem; [rewrite Hnbrs; apply Hnb|by destruct vn].
  - intros (u & v & Ha & Hb). rewrite <- Hn in Ha. rewrite <- He in Hb.
    destruct (ofind g u) as [e|] eqn:Hf; simplify_eq/=.
    destruct (ofind_Some _ _ _ Hf) as (_ & Hnbrs & _). exists e. split; [|by eapply ofind_elem_of].
    apply list_elem_of_fmap. exists (v, b). split; [done|]. rewrite Hnbrs. by apply nbr_lookup_Some.
Qed.
