(* ===== verification/Acyclic.v ===== *)
(** * Cycle detection

    [nx.is_directed_acyclic_graph(G)] (main.py line 44) answers whether the
    graph has a directed cycle, a self-loop included.  This file states
    that contract abstractly ([acyclic]: no node reaches itself through one
    or more arcs), packages it as the interface [DagCheck] the handler is
    proved against, and implements it with the three-colour depth-first
    search of spec section 4.1: nodes are unvisited, in progress (on the
    current DFS path) or finished; an arc into an in-progress node is a
    back edge and proves a cycle; the search is started from every node
    not yet finished.  The recursion is bounded by fuel, one unit per
    nesting level; [dfs_visit_no_fuel] shows [S (size _node)] is enough. *)

From S2P Require Import Prelude PyValue DiGraph.

(** ** Specification *)

Definition arc (g : digraph) (u v : pykey) : Prop := v ∈ succs g u.

(** No node reaches itself by a non-empty path. *)
Definition acyclic (g : digraph) : Prop := ∀ v, ¬ tc (arc g) v v.

(** What the handler needs of [nx.is_directed_acyclic_graph]. *)
Class DagCheck : Type := {
  dag_check : digraph → bool;
  dag_check_correct : ∀ g, wf g → dag_check g = true ↔ acyclic g;
}.

(** ** Three-colour depth-first search (spec section 4.1) *)

Inductive dfs_result : Type :=
| DfsCycle                          (** a back edge was found *)
| DfsDone (finished : gset pykey)   (** the new set of finished nodes *)
| DfsFuel.                          (** the nesting bound was reached *)

Section Dfs.
Context (g : digraph).

(** The loop over the successors [ws] of the node being visited, whose
    in-progress set (the node included) is [in_progress]; [visit]
    explores an unvisited successor. *)
Fixpoint dfs_succs (visit : gset pykey → pykey → dfs_result) (in_progress : gset pykey)
    (ws : list pykey) (finished : gset pykey) : dfs_result :=
  match ws with
  | [] => DfsDone finished
  | w :: ws' =>
      if decide (w ∈ in_progress) then DfsCycle
      else if decide (w ∈ finished) then dfs_succs visit in_progress ws' finished
      else match visit finished w with
           | DfsDone finished' => dfs_succs visit in_progress ws' finished'
           | r => r
           end
  end.

(** Visit [v]: mark it in progress, explore its successors, mark it
    finished. *)
Fixpoint dfs_visit (fuel : nat) (in_progress finished : gset pykey) (v : pykey) : dfs_result :=
  match fuel with
  | O => DfsFuel
  | S fuel' =>
      let in_progress' := {[v]} ∪ in_progress in
      match dfs_succs (dfs_visit fuel' in_progress') in_progress'
              (elements (succs g v)) finished with
      | DfsDone finished' => DfsDone ({[v]} ∪ finished')
      | r => r
      end
  end.

(** Start a traversal from every root not yet finished. *)
Fixpoint dfs_roots (fuel : nat) (roots : list pykey) (finished : gset pykey) : dfs_result :=
  match roots with
  | [] => DfsDone finished
  | r :: rs =>
      if decide (r ∈ finished) then dfs_roots fuel rs finished
      else match dfs_visit fuel ∅ finished r with
           | DfsDone finished' => dfs_roots fuel rs finished'
           | res => res
           end
  end.

Definition dfs_is_dag : bool :=
  match dfs_roots (S (size (g_node g))) (elements (g_node g)) ∅ with
  | DfsDone _ => true
  | _ => false
  end.
End Dfs.

(** ** Correctness of the search *)

Section DfsCorrect.
Context (g : digraph) (Hwf : wf g).
#[local] Abbreviation R := (arc g).

(** A set of finished nodes is closed under arcs and holds no node on a
    cycle. *)
Definition closed (B : gset pykey) : Prop := ∀ x y, x ∈ B → R x y → y ∈ B.
Definition finished_ok (B : gset pykey) : Prop := closed B ∧ ∀ x, x ∈ B → ¬ tc R x x.

Lemma closed_rtc B x y : closed B → x ∈ B → rtc R x y → y ∈ B.
Proof. intros HB Hx Hxy. induction Hxy as [|x' y' z Hxy _ IH]; eauto. Qed.

Lemma tc_first_step x z : tc R x z → ∃ y, R x y ∧ rtc R y z.
Proof. destruct 1 as [x y Hxy|x y z Hxy Hyz]; exists y; split; eauto using tc_rtc, rtc_refl. Qed.

(** Every arc of a cycle starts at a node. *)
Lemma tc_start_node x z : tc R x z → x ∈ g_node g.
Proof. intros (y & Hxy & _)%tc_first_step. by apply (wf_arc_nodes g Hwf) in Hxy as []. Qed.

(** Preconditions of visiting [v] with in-progress set [P] and finished
    set [B]: every in-progress node reaches [v]. *)
Definition visit_pre (P B : gset pykey) (v : pykey) : Prop :=
  finished_ok B ∧ (v ∉ B) ∧ (v ∉ P) ∧ (B ## P) ∧ ∀ u, u ∈ P → tc R u v.

Definition visit_post (P B : gset pykey) (v : pykey) (r : dfs_result) : Prop :=
  match r with
  | DfsCycle => ∃ x, tc R x x
  | DfsDone B' => finished_ok B' ∧ B ⊆ B' ∧ v ∈ B' ∧ (B' ## P)
  | DfsFuel => True
  end.

Definition visitor_ok (visit : gset pykey → pykey → dfs_result) (P : gset pykey) : Prop :=
  ∀ B w, visit_pre P B w → visit_post P B w (visit B w).

(** The successor loop of [v] (in progress, in [P]) finishes every
    successor or proves a cycle. *)
Lemma dfs_succs_post visit P v ws B :
  visitor_ok visit P → v ∈ P → (∀ u, u ∈ P → rtc R u v) → (∀ w, w ∈ ws → R v w) →
  finished_ok B → B ## P →
  match dfs_succs visit P ws B with
  | DfsCycle => ∃ x, tc R x x
  | DfsDone B' => finished_ok B' ∧ B ⊆ B' ∧ (∀ w, w ∈ ws → w ∈ B') ∧ (B' ## P)
  | DfsFuel => True
  end.
Proof.
  intros Hvis Hv Hpath. revert B; induction ws as [|w ws IH]; intros B Hws HB HBP; simpl.
  { split_and!; set_solver. }
  assert (R v w) as Hvw by set_solver.
  case_decide as Hgrey.
  { exists w. eapply tc_rtc_l; [by apply Hpath|]. by apply tc_once. }
  case_decide as Hfin.
  { specialize (IH B ltac:(set_solver) HB HBP).
    destruct (dfs_succs _ _ _ _); set_solver. }
  assert (visit_pre P B w) as Hpre.
  { split_and!; [done..|]. intros u Hu. eapply tc_rtc_l; [by apply Hpath|]. by apply tc_once. }
  pose proof (Hvis B w Hpre) as Hpost.
  destruct (visit B w) as [|B1|] eqn:Hvisit; simpl in Hpost; [done| |done].
  destruct Hpost as (HB1 & HBB1 & Hw1 & HB1P).
  specialize (IH B1 ltac:(set_solver) HB1 HB1P).
  destruct (dfs_succs _ _ _ _); set_solver.
Qed.

(** Finishing [v] after all its successors keeps the finished set
    closed and cycle-free. *)
Lemma finish_node_ok P v B :
  finished_ok B → (∀ w, R v w → w ∈ B) → v ∈ P → B ## P → finished_ok ({[v]} ∪ B).
Proof.
  intros [Hcl Hnc] Hsucc Hv HBP. split.
  - intros x y [->%elem_of_singleton|Hx]%elem_of_union Hxy; apply elem_of_union_r; eauto.
  - intros x [->%elem_of_singleton|Hx]%elem_of_union; [|eauto].
    intros (y & Hvy & Hyv)%tc_first_step.
    assert (v ∈ B) by (eapply closed_rtc; eauto). set_solver.
Qed.

Lemma dfs_visit_ok fuel P : visitor_ok (dfs_visit g fuel P) P.
Proof.
  revert P; induction fuel as [|fuel IH]; intros P B v (HB & HvB & HvP & HBP & Hpath); [done|].
  simpl. set (P' := {[v]} ∪ P).
  opose proof (dfs_succs_post (dfs_visit g fuel P') P' v (elements (succs g v)) B
    (IH P') _ _ _ HB _) as Hloop; [set_solver| |intros w ?%elem_of_elements; done|set_solver|].
  { intros u [->%elem_of_singleton|Hu]%elem_of_union; [done|]. by apply tc_rtc, Hpath. }
  destruct (dfs_succs _ _ _ _) as [|B'|]; [done| |done].
  destruct Hloop as (HB' & HBB' & Hsucc & HB'P). split_and!.
  - apply (finish_node_ok P' v B'); [done| |set_solver|done].
    intros w Hw. apply Hsucc, elem_of_elements, Hw.
  - set_solver.
  - set_solver.
  - set_solver.
Qed.

Lemma dfs_roots_post fuel roots B :
  finished_ok B →
  match dfs_roots g fuel roots B with
  | DfsCycle => ∃ x, tc R x x
  | DfsDone B' => finished_ok B' ∧ B ⊆ B' ∧ ∀ r, r ∈ roots → r ∈ B'
  | DfsFuel => True
  end.
Proof.
  revert B; induction roots as [|r roots IH]; intros B HB; simpl; [set_solver|].
  case_decide as Hr.
  { specialize (IH B HB). destruct (dfs_roots _ _ _ _) as [|B'|]; [done| |done].
    destruct IH as (? & ? & ?). split_and!; [done|done|set_solver]. }
  assert (visit_pre ∅ B r) as Hpre by (unfold visit_pre; split_and!; [done|set_solver..]).
  pose proof (dfs_visit_ok fuel ∅ B r Hpre) as Hpost.
  destruct (dfs_visit g fuel ∅ B r) as [|B1|]; simpl in Hpost; [done| |done].
  destruct Hpost as (HB1 & HBB1 & Hr1 & _). specialize (IH B1 HB1).
  destruct (dfs_roots _ _ _ _) as [|B'|]; [done| |done].
  destruct IH as (? & ? & ?). split_and!; [done|set_solver|set_solver].
Qed.
End DfsCorrect.

(** ** The fuel is enough *)

Section DfsFuel.
Context (g : digraph) (Hwf : wf g).

Lemma dfs_succs_no_fuel visit P ws B :
  (∀ B w, w ∈ g_node g → w ∉ P → visit B w ≠ DfsFuel) →
  (∀ w, w ∈ ws → w ∈ g_node g) →
  dfs_succs visit P ws B ≠ DfsFuel.
Proof.
  intros Hvis. revert B; induction ws as [|w ws IH]; intros B Hws; simpl; [done|].
  repeat case_decide; [done|apply IH; set_solver|].
  pose proof (Hvis B w ltac:(set_solver) ltac:(done)).
  destruct (visit B w); [done|apply IH; set_solver|done].
Qed.

(** Each nesting level adds a node of [_node] to the in-progress set, so
    fuel above [size _node - size P] never runs out. *)
Lemma dfs_visit_no_fuel fuel P B v :
  P ⊆ g_node g → v ∈ g_node g → v ∉ P → size (g_node g) < fuel + size P →
  dfs_visit g fuel P B v ≠ DfsFuel.
Proof.
  revert P B v; induction fuel as [|fuel IH]; intros P B v HP Hv HvP Hsize.
  { pose proof (subseteq_size P (g_node g) HP). lia. }
  simpl. opose proof (dfs_succs_no_fuel (dfs_visit g fuel ({[v]} ∪ P)) ({[v]} ∪ P)
    (elements (succs g v)) B _ _) as Hloop.
  - intros B' w Hw HwP. apply IH; [set_solver|done|done|].
    rewrite size_union_singleton_new by done. lia.
  - intros w ?%elem_of_elements. by apply (wf_arc_nodes g Hwf) in H as [].
  - by destruct (dfs_succs _ _ _ _).
Qed.

(** Started from nodes of a well-formed graph with fuel one more than
    the node count, the DFS never stops for lack of fuel. *)
Lemma dfs_roots_fuel_enough roots B :
  (∀ r, r ∈ roots → r ∈ g_node g) → dfs_roots g (S (size (g_node g))) roots B ≠ DfsFuel.
Proof.
  revert B; induction roots as [|r roots IH]; intros B Hroots; cbn [dfs_roots]; [done|].
  case_decide; [apply IH; set_solver|].
  opose proof (dfs_visit_no_fuel (S (size (g_node g))) ∅ B r _ _ _ _) as Hv;
    [set_solver|apply Hroots; set_solver|set_solver|rewrite size_empty; lia|].
  destruct (dfs_visit _ _ _ _ _); [done|apply IH; set_solver|done].
Qed.

(** C9: Started from nodes of a well-formed graph with fuel one more than
    the node count, the DFS never stops for lack of fuel. *)
Lemma dfs_roots_no_fuel roots B :
  (∀ r, r ∈ roots → r ∈ g_node g) → dfs_roots g (S (size (g_node g))) roots B ≠ DfsFuel.
Proof. apply dfs_roots_fuel_enough. Qed.
End DfsFuel.

(** ** The search decides acyclicity *)

Lemma finished_ok_empty g : finished_ok g ∅.
Proof. split; [intros x y Hx|intros x Hx]; set_solver. Qed.

(** The three-colour search answers [true] exactly on acyclic graphs. *)
Lemma dfs_is_dag_spec g : wf g → dfs_is_dag g = true ↔ acyclic g.
Proof.
  intros Hwf. unfold dfs_is_dag.
  pose proof (dfs_roots_post g Hwf (S (size (g_node g))) (elements (g_node g)) ∅
    (finished_ok_empty g)) as Hpost.
  pose proof (dfs_roots_fuel_enough g Hwf (elements (g_node g)) ∅) as Hfuel.
  destruct (dfs_roots _ _ _ _) as [|B|].
  - split; [done|]. intros Hacy. destruct Hpost as [x Hx]. exfalso. by apply (Hacy x).
  - split; [intros _|done]. intros v Hv. destruct Hpost as ([_ Hnc] & _ & Hall).
    apply (Hnc v); [|done]. apply Hall, elem_of_elements. by eapply tc_start_node.
  - exfalso. apply Hfuel; [|done]. intros r ?%elem_of_elements. done.
Qed.

(** C8: The three-colour search answers [true] exactly on acyclic graphs. *)
Theorem dfs_is_dag_correct g : wf g → dfs_is_dag g = true ↔ acyclic g.
Proof. apply dfs_is_dag_spec. Qed.

#[export] Instance dfs_dag_check : DagCheck :=
  {| dag_check := dfs_is_dag; dag_check_correct := dfs_is_dag_correct |}.

(** ** Facts about acyclicity the handler's results rest on *)

Lemma acyclic_no_arcs g : (∀ u, succs g u = ∅) → acyclic g.
Proof. intros Hno v (y & Hy & _)%tc_first_step. unfold arc in Hy. rewrite Hno in Hy. set_solver. Qed.

Lemma self_loop_not_acyclic g v : v ∈ succs g v → ¬ acyclic g.
Proof. intros Hv Hacy. apply (Hacy v), tc_once, Hv. Qed.

(** Acyclicity depends on the arcs only. *)
Lemma tc_subrel {A} (R1 R2 : relation A) :
  (∀ x y, R1 x y → R2 x y) → ∀ x y, tc R1 x y → tc R2 x y.
Proof. intros Hsub x y. induction 1; [apply tc_once|eapply tc_l]; eauto. Qed.

Lemma acyclic_same_arcs g g' : (∀ u v, v ∈ succs g u ↔ v ∈ succs g' u) → acyclic g ↔ acyclic g'.
Proof.
  intros Hsame. assert (∀ x y, tc (arc g) x y ↔ tc (arc g') x y) as Htc.
  { intros x y. split; apply tc_subrel; intros ??; unfold arc; apply Hsame. }
  unfold acyclic. by setoid_rewrite Htc.
Qed.
