(* ===== verification/Kahn.v ===== *)
(** * networkx's acyclicity test: topological generations

    [nx.is_directed_acyclic_graph(G)] (main.py line 44) is, in networkx,
<<
    def is_directed_acyclic_graph(G):
        return G.is_directed() and not has_cycle(G)
    def has_cycle(G):
        try: deque(topological_sort(G), maxlen=0)
        except nx.NetworkXUnfeasible: return True
        else: return False
>>
    where [topological_sort] yields the nodes of [topological_generations]:
<<
    indegree_map = {v: d for v, d in G.in_degree() if d > 0}
    zero_indegree = [v for v, d in G.in_degree() if d == 0]
    while zero_indegree:
        this_generation = zero_indegree
        zero_indegree = []
        for node in this_generation:
            if node not in G:
                raise RuntimeError("Graph changed during iteration")
            for child in G.neighbors(node):
                try:
                    indegree_map[child] -= 1
                except KeyError as err:
                    raise RuntimeError("Graph changed during iteration") from err
                if indegree_map[child] == 0:
                    zero_indegree.append(child)
                    del indegree_map[child]
        yield this_generation
    if indegree_map:
        raise nx.NetworkXUnfeasible("Graph contains a cycle or ...")
>>
    This is Kahn's algorithm.  The file models it with its two
    [RuntimeError] guards, proves that on a well-formed graph neither fires
    and the loop ends within [S (size _node)] generations, and that the
    answer is [acyclic]; it is the [DagCheck] instance the scenarios run,
    and it agrees with the depth-first search of [Acyclic.v].  In-degrees
    are Python ints that start positive and are decremented once per arc,
    so they are modelled as [nat]; the iteration order of [G.in_degree()]
    and [G.neighbors] is the order of [elements], which changes the order
    of the generations but not the answer (the proofs hold for any order). *)

From S2P Require Import Prelude PyValue DiGraph Acyclic.

(** ** The algorithm *)

Section Kahn.
Context (g : digraph).

(** [G.in_degree(v)]: [len(G._pred[v])]. *)
Definition in_degree (v : pykey) : nat := size (preds g v).

(** [indegree_map = {v: d for v, d in G.in_degree() if d > 0}] *)
Definition initial_indegree_map : gmap pykey nat :=
  list_to_map ((λ v, (v, in_degree v)) <$> filter (λ v, 0 < in_degree v) (elements (g_node g))).

(** [zero_indegree = [v for v, d in G.in_degree() if d == 0]] *)
Definition initial_zero_indegree : list pykey :=
  filter (λ v, in_degree v = 0) (elements (g_node g)).

(** The body of [for child in G.neighbors(node)], on the state
    [(indegree_map, zero_indegree)]. *)
Definition kahn_relax (st : gmap pykey nat * list pykey) (child : pykey)
    : result py_exc (gmap pykey nat * list pykey) :=
  let '(indegree_map, zero_indegree) := st in
  match indegree_map !! child with
  | None => raise (RuntimeError "Graph changed during iteration")
  | Some d =>
      let indegree_map := <[child := d - 1]> indegree_map in
      if decide (d - 1 = 0)
      then Ok (delete child indegree_map, zero_indegree ++ [child])
      else Ok (indegree_map, zero_indegree)
  end.

(** The body of [for node in this_generation]. *)
Definition kahn_node (st : gmap pykey nat * list pykey) (node : pykey)
    : result py_exc (gmap pykey nat * list pykey) :=
  if decide (node ∈ g_node g)
  then res_fold kahn_relax st (elements (succs g node))
  else raise (RuntimeError "Graph changed during iteration").

(** [while zero_indegree: ...], one unit of fuel per generation; [None]
    when the fuel runs out, and the final [indegree_map] otherwise. *)
Fixpoint kahn_generations (fuel : nat) (indegree_map : gmap pykey nat)
    (zero_indegree : list pykey) : option (result py_exc (gmap pykey nat)) :=
  match zero_indegree with
  | [] => Some (Ok indegree_map)
  | _ :: _ =>
      match fuel with
      | O => None
      | S fuel' =>
          match res_fold kahn_node (indegree_map, []) zero_indegree with
          | Err e => Some (Err e)
          | Ok (indegree_map', zero_indegree') => kahn_generations fuel' indegree_map' zero_indegree'
          end
      end
  end.

(** [has_cycle(G)]: [NetworkXUnfeasible], hence [True], exactly when
    [indegree_map] is not empty after the loop. *)
Definition nx_has_cycle : option (result py_exc bool) :=
  match kahn_generations (S (size (g_node g))) initial_indegree_map initial_zero_indegree with
  | Some (Ok m) => Some (Ok (bool_decide (m ≠ ∅)))
  | Some (Err e) => Some (Err e)
  | None => None
  end.

(** [G.is_directed() and not has_cycle(G)]; a [DiGraph] is directed. *)
Definition nx_is_directed_acyclic_graph : option (result py_exc bool) :=
  match nx_has_cycle with
  | Some (Ok b) => Some (Ok (negb b))
  | Some (Err e) => Some (Err e)
  | None => None
  end.

End Kahn.

(** ** Graph facts the proof rests on *)

Section Ancestors.
Context {A} `{Countable A} (R : relation A).

Lemma tc_last_step x z : tc R x z → ∃ y, rtc R x y ∧ R y z.
Proof.
  induction 1 as [x y Hxy|x y z Hxy _ (w & Hyw & Hwz)]; [by eexists; split|].
  exists w. split; [eapply rtc_l|]; eauto.
Qed.

(** A set closed under predecessors contains every ancestor of its
    members. *)
Lemma pred_closed_rtc (D : gset A) x y :
  (∀ u v, v ∈ D → R u v → u ∈ D) → y ∈ D → rtc R x y → x ∈ D.
Proof. intros Hcl Hy Hxy. induction Hxy; eauto. Qed.

(** A finite non-empty set in which every member has an ancestor in the
    set holds a cycle. *)
Lemma tc_pred_cycle (S : gset A) :
  S ≠ ∅ → (∀ y, y ∈ S → ∃ z, z ∈ S ∧ tc R z y) → ∃ c, tc R c c.
Proof.
  remember (size S) as n eqn:Hn. revert S Hn.
  induction n as [n IH] using lt_wf_ind. intros S -> Hne Hanc.
  apply set_choose_L in Hne as [y Hy].
  destruct (Hanc y Hy) as (z & Hz & Hzy).
  destruct (decide (z = y)) as [->|Hne]; [by eauto|].
  apply (IH (size (S ∖ {[y]})) (subset_size _ _ (subset_difference_elem_of _ _ Hy)) (S ∖ {[y]}) eq_refl);
    [set_solver|].
  intros w [Hw Hwy%not_elem_of_singleton]%elem_of_difference.
  destruct (Hanc w Hw) as (z' & Hz' & Hz'w).
  destruct (decide (z' = y)) as [->|]; [exists z|exists z'];
    split; [set_solver| |set_solver|done].
  by eapply tc_transitive.
Qed.
End Ancestors.

(** Removing one more element of [A] from [A ∖ D] lowers the count by one. *)
Lemma size_difference_step (A D : gset pykey) v :
  v ∈ A → v ∉ D → size (A ∖ D) = S (size (A ∖ ({[v]} ∪ D))).
Proof.
  intros HA HD. rewrite <- (size_union_singleton_new v (A ∖ ({[v]} ∪ D))) by set_solver.
  f_equal. apply set_eq. intros x. destruct (decide (x = v)); set_solver.
Qed.

Lemma NoDup_snoc_new {A} (l : list A) x : NoDup l → x ∉ l → NoDup (l ++ [x]).
Proof. intros Hl Hx. apply NoDup_app. split_and!; [done|set_solver|apply NoDup_singleton]. Qed.

(** ** Loop invariants *)

Section KahnCorrect.
Context (g : digraph) (Hwf : wf g).
#[local] Abbreviation N := (g_node g).
#[local] Abbreviation R := (arc g).

(** The in-degree of [c] once the nodes of [D] are removed. *)
Definition pending_cnt (D : gset pykey) (c : pykey) : nat := size (preds g c ∖ D).

Lemma pending_cnt_0 D c : pending_cnt D c = 0 → preds g c ⊆ D.
Proof. unfold pending_cnt. intros H%size_empty_inv. set_solver. Qed.

Lemma pending_cnt_pos D c : 0 < pending_cnt D c → ∃ u, u ∈ preds g c ∧ u ∉ D.
Proof. intros [u Hu]%size_pos_elem_of. set_solver. Qed.

Lemma pending_cnt_not_child D v c : v ∉ preds g c → pending_cnt ({[v]} ∪ D) c = pending_cnt D c.
Proof. intros Hv. unfold pending_cnt. f_equal. set_solver. Qed.

(** Between two nodes of the [for node in this_generation] loop: [D] are
    the nodes processed so far, [pend] those taken out of [indegree_map]
    and not yet processed (the rest of the generation, then the next one). *)
Record kinv (D : gset pykey) (m : gmap pykey nat) (pend : list pykey) : Prop := {
  kinv_D : D ⊆ N;
  kinv_pend : ∀ c, c ∈ pend → c ∈ N ∧ (c ∉ D) ∧ preds g c ⊆ D;
  kinv_nodup : NoDup pend;
  kinv_map : ∀ c k, m !! c = Some k →
    c ∈ N ∧ (c ∉ D) ∧ (c ∉ pend) ∧ k = pending_cnt D c ∧ 0 < k;
  kinv_full : ∀ c, c ∈ N → (c ∉ D) → (c ∉ pend) → is_Some (m !! c);
  kinv_closed : ∀ x, x ∈ D → preds g x ⊆ D;
  kinv_acyclic : ∀ x, x ∈ D → ¬ tc R x x;
}.

(** Inside [for child in G.neighbors(v)]: [todo] are the children not yet
    relaxed, whose count still includes the arc from [v]. *)
Record cinv (D : gset pykey) (v : pykey) (todo rest : list pykey)
    (m : gmap pykey nat) (nxt : list pykey) : Prop := {
  cinv_v : (v ∉ D);
  cinv_pend : ∀ c, c ∈ rest ++ nxt → c ∈ N ∧ (c ∉ {[v]} ∪ D) ∧ preds g c ⊆ {[v]} ∪ D;
  cinv_nodup : NoDup (rest ++ nxt);
  cinv_map : ∀ c k, m !! c = Some k →
    c ∈ N ∧ (c ∉ {[v]} ∪ D) ∧ (c ∉ rest ++ nxt) ∧
    k = pending_cnt (if decide (c ∈ todo) then D else {[v]} ∪ D) c ∧ 0 < k;
  cinv_full : ∀ c, c ∈ N → (c ∉ {[v]} ∪ D) → (c ∉ rest ++ nxt) → is_Some (m !! c);
  cinv_todo : ∀ c, c ∈ todo → v ∈ preds g c ∧ c ∈ N ∧ (c ∉ {[v]} ∪ D) ∧ (c ∉ rest ++ nxt);
  cinv_todo_nodup : NoDup todo;
}.

Lemma kahn_relax_step D v c todo rest m nxt :
  cinv D v (c :: todo) rest m nxt →
  ∃ m' nxt', kahn_relax (m, nxt) c = Ok (m', nxt') ∧ cinv D v todo rest m' nxt'.
Proof.
  intros Hc. destruct (cinv_todo _ _ _ _ _ _ Hc c) as (Hvc & HcN & HcD & Hcp); [set_solver|].
  destruct (cinv_full _ _ _ _ _ _ Hc c HcN HcD Hcp) as [k Hk].
  destruct (cinv_map _ _ _ _ _ _ Hc c k Hk) as (_ & _ & _ & Hkc & _).
  rewrite decide_True in Hkc by set_solver.
  unfold pending_cnt in Hkc. rewrite (size_difference_step _ _ v Hvc (cinv_v _ _ _ _ _ _ Hc)) in Hkc.
  fold (pending_cnt ({[v]} ∪ D) c) in Hkc.
  pose proof (cinv_todo_nodup _ _ _ _ _ _ Hc) as [Hctodo Htodo]%NoDup_cons.
  unfold kahn_relax. rewrite Hk. case_decide as Hk0.
  - eexists _, _. split; [done|]. destruct Hc as [Hv Hpend Hnd Hmap Hfull Htd Htdnd].
    assert (preds g c ⊆ {[v]} ∪ D) by (apply pending_cnt_0; lia).
    split; [done| | | | | |done].
    + intros x Hx. rewrite app_assoc, elem_of_app, list_elem_of_singleton in Hx.
      destruct Hx as [?| ->]; auto.
    + rewrite app_assoc. by apply NoDup_snoc_new.
    + intros x k' (Hxc & Hx)%lookup_delete_Some. rewrite lookup_insert_ne in Hx by done.
      destruct (Hmap x k' Hx) as (? & ? & ? & -> & ?). split_and!; [done|done|set_solver| |done].
      repeat case_decide; set_solver.
    + intros x ???. rewrite lookup_delete_ne, lookup_insert_ne by set_solver. apply Hfull; set_solver.
    + intros x Hx. destruct (Htd x) as (? & ? & ? & ?); [set_solver|]. split_and!; try done.
      set_solver.
  - eexists _, _. split; [done|]. destruct Hc as [Hv Hpend Hnd Hmap Hfull Htd Htdnd].
    split; [done|done|done| | | |done].
    + intros x k'. destruct (decide (x = c)) as [->|Hxc].
      * rewrite lookup_insert_eq. intros [= <-]. rewrite decide_False by done. split_and!; auto; lia.
      * rewrite lookup_insert_ne by done. intros Hx.
        destruct (Hmap x k' Hx) as (? & ? & ? & -> & ?). split_and!; [done..| |done].
        repeat case_decide; set_solver.
    + intros x ???. destruct (decide (x = c)) as [->|]; [by rewrite lookup_insert_eq|].
      rewrite lookup_insert_ne by done. auto.
    + intros x Hx. apply Htd. set_solver.
Qed.

Lemma kahn_relax_loop D v todo rest m nxt :
  cinv D v todo rest m nxt →
  ∃ m' nxt', res_fold kahn_relax (m, nxt) todo = Ok (m', nxt') ∧ cinv D v [] rest m' nxt'.
Proof.
  revert m nxt. induction todo as [|c todo IH]; intros m nxt Hc; [by eexists _, _|].
  destruct (kahn_relax_step _ _ _ _ _ _ _ Hc) as (m1 & nxt1 & Hstep & Hc1).
  destruct (IH _ _ Hc1) as (m' & nxt' & Hfold & Hc'). exists m', nxt'.
  split; [|done]. cbn [res_fold]. rewrite Hstep. exact Hfold.
Qed.

(** Entering [for child in G.neighbors(v)]: no child of [v] is processed,
    pending or [v] itself, since all the predecessors of those are. *)
Lemma cinv_start D m v rest nxt :
  kinv D m (v :: rest ++ nxt) → cinv D v (elements (succs g v)) rest m nxt.
Proof.
  intros [HD Hpend Hnd Hmap Hfull Hcl Hacy].
  destruct (Hpend v) as (HvN & HvD & HvP); [set_solver|].
  apply NoDup_cons in Hnd as [Hvrest Hnd].
  assert (Hch : ∀ c, c ∈ succs g v → c ∉ D ∧ c ≠ v ∧ c ∉ rest ++ nxt).
  { intros c Hc%(wf_transpose g Hwf). split_and!.
    - intros HcD. apply HvD, (Hcl c HcD), Hc.
    - intros ->. apply HvD, HvP, Hc.
    - intros Hcp. destruct (Hpend c) as (_ & _ & Hsub); [set_solver|]. apply HvD, Hsub, Hc. }
  split; [done| |done| | | |apply NoDup_elements].
  - intros c Hc. destruct (Hpend c) as (? & ? & ?); [set_solver|]. split_and!; [done|set_solver..].
  - intros c k Hk. destruct (Hmap c k Hk) as (? & ? & ? & -> & ?).
    split_and!; [done|set_solver|set_solver| |done].
    case_decide as Hc; [done|]. symmetry. apply pending_cnt_not_child.
    rewrite elem_of_elements in Hc. by rewrite <- (wf_transpose g Hwf).
  - intros c ???. apply Hfull; set_solver.
  - intros c Hc%elem_of_elements. destruct (Hch c Hc) as (? & ? & ?). split_and!.
    + by apply (wf_transpose g Hwf).
    + by apply (wf_arc_nodes g Hwf) in Hc as [].
    + set_solver.
    + done.
Qed.

(** Leaving it: [v] joins the processed nodes, and stays off every cycle
    because all its predecessors were processed before it. *)
Lemma cinv_finish D m0 v rest nxt0 m nxt :
  kinv D m0 (v :: rest ++ nxt0) → cinv D v [] rest m nxt → kinv ({[v]} ∪ D) m (rest ++ nxt).
Proof.
  intros [HD Hpend _ _ _ Hcl Hacy] [Hv Hpend' Hnd' Hmap' Hfull' _ _].
  destruct (Hpend v) as (HvN & HvD & HvP); [set_solver|].
  split; [set_solver|done|done| |done| |].
  - intros c k Hk. destruct (Hmap' c k Hk) as (? & ? & ? & Hkc & ?).
    rewrite decide_False in Hkc by set_solver. auto.
  - intros x [->%elem_of_singleton|Hx]%elem_of_union; [set_solver|].
    pose proof (Hcl x Hx). set_solver.
  - intros x [->%elem_of_singleton|Hx]%elem_of_union; [|by apply Hacy].
    intros (u & Hvu & Huv)%tc_last_step. apply HvD.
    apply (pred_closed_rtc R D v u); [|by apply HvP, (wf_transpose g Hwf)|done].
    intros a b Hb Hab%(wf_transpose g Hwf). by apply (Hcl b).
Qed.

Lemma kahn_node_step D m v rest nxt :
  kinv D m (v :: rest ++ nxt) →
  ∃ m' nxt', kahn_node g (m, nxt) v = Ok (m', nxt') ∧ kinv ({[v]} ∪ D) m' (rest ++ nxt').
Proof.
  intros Hk. destruct (kahn_relax_loop _ _ _ _ _ _ (cinv_start _ _ _ _ _ Hk))
    as (m' & nxt' & Hfold & Hc'). exists m', nxt'. split; [|by eapply cinv_finish].
  unfold kahn_node. rewrite decide_True; [done|].
  by destruct (kinv_pend _ _ _ Hk v) as []; [set_solver|].
Qed.

(** One pass of [for node in this_generation]. *)
Lemma kahn_generation_step D m gen nxt :
  kinv D m (gen ++ nxt) →
  ∃ m' nxt', res_fold (kahn_node g) (m, nxt) gen = Ok (m', nxt') ∧
             kinv (list_to_set gen ∪ D) m' nxt'.
Proof.
  revert D m nxt. induction gen as [|v gen IH]; intros D m nxt Hk.
  - exists m, nxt. split; [done|]. by replace (list_to_set [] ∪ D) with D by set_solver.
  - destruct (kahn_node_step _ _ _ _ _ Hk) as (m1 & nxt1 & Hnode & Hk1).
    destruct (IH _ _ _ Hk1) as (m' & nxt' & Hfold & Hk').
    exists m', nxt'. split; [simpl; by rewrite Hnode|].
    replace (list_to_set (v :: gen) ∪ D) with (list_to_set gen ∪ ({[v]} ∪ D)) by set_solver.
    done.
Qed.

(** Every generation processes at least one new node, so [fuel] more
    generations than there are unprocessed nodes end the loop. *)
Lemma kahn_generations_ok fuel D m pend :
  kinv D m pend → size N < size D + fuel →
  ∃ D' m', kahn_generations g fuel m pend = Some (Ok m') ∧ kinv D' m' [].
Proof.
  revert D m pend. induction fuel as [|fuel IH]; intros D m pend Hk Hsz.
  - exfalso. pose proof (subseteq_size _ _ (kinv_D _ _ _ Hk)). lia.
  - destruct pend as [|v pend']; [by eauto|].
    destruct (kahn_generation_step D m (v :: pend') []) as (m1 & nxt1 & Hfold & Hk1);
      [by rewrite app_nil_r|].
    cbn [kahn_generations]. rewrite Hfold. apply (IH _ _ _ Hk1).
    destruct (kinv_pend _ _ _ Hk v) as (_ & HvD & _); [set_solver|].
    assert (size ({[v]} ∪ D) ≤ size (list_to_set (v :: pend') ∪ D)) as Hle
      by (apply subseteq_size; set_solver).
    rewrite size_union_singleton_new in Hle by done. lia.
Qed.

Lemma initial_indegree_map_lookup c k :
  initial_indegree_map g !! c = Some k ↔ c ∈ N ∧ 0 < in_degree g c ∧ k = in_degree g c.
Proof.
  unfold initial_indegree_map. rewrite <- elem_of_list_to_map.
  - rewrite list_elem_of_fmap. split.
    + intros (x & [= -> ->] & (Hpos & Hx)%list_elem_of_filter). rewrite elem_of_elements in Hx. auto.
    + intros (Hc & Hpos & ->). exists c. split; [done|].
      apply list_elem_of_filter. by rewrite elem_of_elements.
  - rewrite <- list_fmap_compose. unfold compose. cbn. rewrite list_fmap_id.
    apply NoDup_filter, NoDup_elements.
Qed.

(** The state before [while zero_indegree]. *)
Lemma kinv_initial : kinv ∅ (initial_indegree_map g) (initial_zero_indegree g).
Proof.
  unfold initial_zero_indegree. split; [set_solver| |apply NoDup_filter, NoDup_elements| | |set_solver..].
  - intros c (H0 & Hc)%list_elem_of_filter. rewrite elem_of_elements in Hc.
    unfold in_degree in H0. apply size_empty_inv in H0. set_solver.
  - intros c k (Hc & Hpos & ->)%initial_indegree_map_lookup.
    split_and!; [done|set_solver| |by unfold pending_cnt, in_degree; rewrite difference_empty_L|done].
    rewrite list_elem_of_filter. lia.
  - intros c Hc _ Hz. destruct (decide (0 < in_degree g c)).
    + eexists. by apply initial_indegree_map_lookup.
    + exfalso. apply Hz, list_elem_of_filter. rewrite elem_of_elements. split; [lia|done].
Qed.

(** After the loop, [indegree_map] is empty exactly when the graph is
    acyclic: if it is empty every node was processed, and processed nodes
    lie on no cycle; otherwise every node left in it has a predecessor left
    in it, which closes a cycle. *)
Lemma kinv_final_acyclic D m : kinv D m [] → m = ∅ ↔ acyclic g.
Proof.
  intros Hk. split.
  - intros -> x Hx. apply (kinv_acyclic _ _ _ Hk x); [|done].
    destruct (decide (x ∈ D)) as [|HxD]; [done|exfalso].
    destruct (kinv_full _ _ _ Hk x) as [k Hx']; [by eapply tc_start_node|done|set_solver|].
    by rewrite lookup_empty in Hx'.
  - intros Hacy. apply map_empty. intros c.
    destruct (m !! c) as [k|] eqn:Hc; [exfalso|done].
    destruct (tc_pred_cycle R (dom m)) as [x Hx]; [| |by apply (Hacy x)].
    + apply elem_of_dom_2 in Hc. set_solver.
    + intros y [k' Hy]%elem_of_dom. destruct (kinv_map _ _ _ Hk y k' Hy) as (? & ? & _ & -> & Hpos).
      destruct (pending_cnt_pos _ _ Hpos) as (u & Hu & HuD).
      apply (wf_transpose g Hwf) in Hu. exists u. split; [|by apply tc_once].
      apply elem_of_dom, (kinv_full _ _ _ Hk u); [|done|set_solver].
      by apply (wf_arc_nodes g Hwf) in Hu as [].
Qed.

End KahnCorrect.

(** ** networkx's test is total and decides acyclicity *)

(** On a well-formed graph networkx's test returns normally, neither
    exhausting its generations nor raising [RuntimeError], and answers
    [True] exactly when no node reaches itself through one or more arcs. *)
Lemma nx_is_dag_spec g : wf g →
  ∃ b, nx_is_directed_acyclic_graph g = Some (Ok b) ∧ (b = true ↔ acyclic g).
Proof.
  intros Hwf.
  destruct (kahn_generations_ok g Hwf (S (size (g_node g))) ∅ _ _ (kinv_initial g Hwf))
    as (D & m & Hrun & Hk); [rewrite size_empty; lia|].
  unfold nx_is_directed_acyclic_graph, nx_has_cycle. rewrite Hrun.
  eexists. split; [done|]. rewrite <- (kinv_final_acyclic g Hwf D m Hk).
  rewrite negb_true_iff, bool_decide_eq_false. destruct (decide (m = ∅)); tauto.
Qed.

(** C2: On a well-formed graph networkx's test returns normally, neither
    exhausting its generations nor raising [RuntimeError], and answers
    [True] exactly when no node reaches itself through one or more arcs. *)
Theorem nx_is_directed_acyclic_graph_correct g : wf g →
  ∃ b, nx_is_directed_acyclic_graph g = Some (Ok b) ∧ (b = true ↔ acyclic g).
Proof. apply nx_is_dag_spec. Qed.

(** The boolean the handler stores in [is_dag]. *)
Definition nx_dag (g : digraph) : bool :=
  match nx_is_directed_acyclic_graph g with Some (Ok b) => b | _ => false end.

Lemma nx_dag_correct g : wf g → nx_dag g = true ↔ acyclic g.
Proof.
  intros Hwf. destruct (nx_is_dag_spec g Hwf) as (b & Hb & Hiff).
  unfold nx_dag. by rewrite Hb.
Qed.

(** networkx's test is the implementation main.py calls. *)
#[export] Instance nx_dag_check : DagCheck | 0 :=
  {| dag_check := nx_dag; dag_check_correct := nx_dag_correct |}.

(** C7: networkx's Kahn test and the three-colour depth-first search of
    spec section 4.1 give the same answer on every well-formed graph. *)
Theorem nx_dag_agrees_dfs g : wf g → nx_dag g = dfs_is_dag g.
Proof.
  intros Hwf. apply Bool.eq_iff_eq_true. by rewrite nx_dag_correct, dfs_is_dag_spec.
Qed.
