(* ===== verification/Cors.v ===== *)
(** * The CORS middleware (main.py lines 11-20)

    [app.add_middleware(CORSMiddleware, allow_origins=["http://localhost:3000"],
    allow_credentials=True, allow_methods=["*"], allow_headers=["*"])]
    wraps the application in Starlette's [CORSMiddleware].  This file
    models the middleware as Starlette writes it: [__init__] computing its
    fixed headers from the options ([cors_init]), [__call__] choosing
    between passing the request on, answering a preflight request itself
    ([preflight_response]) and adding headers to the application's answer
    ([cors_send], the [send] wrapper of [simple_response]); with the
    header lists of ASGI (lower-case names, in order) and the
    [MutableHeaders] operations it uses, and Starlette's
    [Response.init_headers], which writes the headers of the middleware's
    own plain-text answers.  The inner application is any function from
    requests to responses or exceptions, partial where the model does not
    determine its answer ([None]), so the theorems hold whatever it
    answers; an exception it raises passes through.  A [KeyError] of [request_headers["origin"]] is a value of
    the error monad; it cannot happen, since [__call__] checks the header
    first. *)

From S2P Require Import Prelude PyValue PyStr.
From Stdlib Require Import Ascii.
From stdpp Require Import sorting.

(** ** Headers *)

(** ASGI headers: [(name, value)] pairs in order, names in lower case. *)
Notation headers := (list (string * string)) (only parsing).

(** The first value bound to the name [k]. *)
Definition assoc_get (h : headers) (k : string) : option string :=
  (λ ikv, ikv.2.2) <$> list_find (λ kv, kv.1 = k) h.

(** [Headers.get(key)]: the first value of the lower-cased [key]. *)
Definition hdr_get (h : headers) (key : string) : option string := assoc_get h (str_lower key).

(** [key in headers] *)
Definition hdr_mem (h : headers) (key : string) : bool := bool_decide (is_Some (hdr_get h key)).

(** [headers[key]]: the first value, or [KeyError]. *)
Definition hdr_getitem (h : headers) (key : string) : result py_exc string :=
  match hdr_get h key with Some v => Ok v | None => raise (KeyError key) end.

(** Setting [key] in a list of pairs: the first pair with that name takes
    the new value, later ones are deleted, and the pair is appended when
    there is none.  This is [MutableHeaders.__setitem__] on lower-cased
    names, and [d[key] = value] on a dict, whose keys are unique. *)
Fixpoint assoc_set_go (found : bool) (k v : string) (h : headers) : headers :=
  match h with
  | [] => if found then [] else [(k, v)]
  | (k', v') :: h' =>
      if decide (k' = k)
      then if found then assoc_set_go true k v h' else (k, v) :: assoc_set_go true k v h'
      else (k', v') :: assoc_set_go found k v h'
  end.

Definition assoc_set (h : headers) (k v : string) : headers := assoc_set_go false k v h.

(** [MutableHeaders.__setitem__] *)
Definition hdr_set (h : headers) (k v : string) : headers := assoc_set h (str_lower k) v.

(** [MutableHeaders.update(d)] *)
Definition hdr_update (h : headers) (d : list (string * string)) : headers :=
  foldl (λ h kv, hdr_set h kv.1 kv.2) h d.

(** [MutableHeaders.add_vary_header(value)] *)
Definition add_vary_header (h : headers) (value : string) : headers :=
  let value := match hdr_get h "vary" with
               | Some vary => str_join ", " [vary; value]
               | None => value
               end in
  hdr_set h "vary" value.

(** ** Requests and responses *)

Record http_request : Type := mk_request {
  rq_method : string;
  rq_path : string;
  rq_headers : headers;
  rq_body : string;   (** the bytes of the body *)
}.

Record http_response (B : Type) : Type := mk_response {
  rs_status : nat;
  rs_headers : headers;
  rs_body : B;
}.
Arguments mk_response {B} _ _ _.
Arguments rs_status {B} _.
Arguments rs_headers {B} _.
Arguments rs_body {B} _.

(** What the middleware sends: a [PlainTextResponse] of its own, or the
    body of the application's response. *)
Inductive cors_body (B : Type) : Type :=
| PlainText (s : string)
| AppBody (b : B).
Arguments PlainText {B} _.
Arguments AppBody {B} _.

(** [s in t] for strings. *)
Definition str_contains (s t : string) : bool := bool_decide (is_Some (String.index 0 s t)).

(** Starlette's [Response.init_headers]: the given headers with their
    names lower-cased; then [content-length], the length of the body, when
    the response has a body ([body_len]), the header is not given and the
    status allows a body; then [content-type], the media type with
    [; charset=utf-8] added to a [text/] type that names no charset, when
    there is one and the header is not given. *)
Definition init_headers (hs : list (string * string)) (status : nat) (body_len : option nat)
    (media_type : option string) : headers :=
  let raw := (λ kv, (str_lower kv.1, kv.2)) <$> hs in
  let raw :=
    match body_len with
    | Some n =>
        if decide ("content-length" ∈ raw.*1) then raw
        else if decide (status < 200 ∨ status = 204 ∨ status = 304) then raw
        else raw ++ [("content-length", nat_str n)]
    | None => raw
    end in
  match media_type with
  | Some mt =>
      if decide ("content-type" ∈ raw.*1) then raw
      else raw ++ [("content-type",
                    if String.prefix "text/" mt && negb (str_contains "charset=" (str_lower mt))
                    then mt +:+ "; charset=utf-8" else mt)]
  | None => raw
  end.

(** [PlainTextResponse(content, status_code, headers=headers)]: the body
    is [content.encode("utf-8")]. *)
Definition plain_text_response {B} (content : string) (status : nat) (hs : list (string * string))
    : http_response (cors_body B) :=
  mk_response status (init_headers hs status (Some (String.length (utf8_encode content))) (Some "text/plain"))
    (PlainText content).

(** ** The middleware *)

(** The keyword arguments of [CORSMiddleware] (the regex option,
    [allow_origin_regex], is left at its default [None]). *)
Record cors_options : Type := mk_cors_options {
  co_allow_origins : list string;
  co_allow_methods : list string;
  co_allow_headers : list string;
  co_allow_credentials : bool;
  co_expose_headers : list string;
  co_max_age : nat;
}.

(** Lines 12-20, with Starlette's defaults for the arguments not given
    ([expose_headers=()], [max_age=600]). *)
Definition main_cors_options : cors_options := {|
  co_allow_origins := ["http://localhost:3000"];
  co_allow_credentials := true;
  co_allow_methods := ["*"];
  co_allow_headers := ["*"];
  co_expose_headers := [];
  co_max_age := 600;
|}.

Definition ALL_METHODS : list string := ["DELETE"; "GET"; "HEAD"; "OPTIONS"; "PATCH"; "POST"; "PUT"].
Definition SAFELISTED_HEADERS : list string :=
  ["Accept"; "Accept-Language"; "Content-Language"; "Content-Type"].

(** The attributes [__init__] stores. *)
Record cors_middleware : Type := mk_cors_middleware {
  cm_allow_origins : list string;
  cm_allow_methods : list string;
  cm_allow_headers : list string;
  cm_allow_all_origins : bool;
  cm_allow_all_headers : bool;
  cm_preflight_explicit_allow_origin : bool;
  cm_simple_headers : list (string * string);
  cm_preflight_headers : list (string * string);
}.

(** [CORSMiddleware.__init__]; [simple_headers] and [preflight_headers]
    are dicts built by insertion, kept in insertion order. *)
Definition cors_init (o : cors_options) : cors_middleware :=
  let allow_methods :=
    if decide ("*" ∈ co_allow_methods o) then ALL_METHODS else co_allow_methods o in
  let allow_all_origins := bool_decide ("*" ∈ co_allow_origins o) in
  let allow_all_headers := bool_decide ("*" ∈ co_allow_headers o) in
  let preflight_explicit_allow_origin := (negb allow_all_origins || co_allow_credentials o)%bool in
  let simple_headers :=
    (if allow_all_origins then [("Access-Control-Allow-Origin", "*")] else []) ++
    (if co_allow_credentials o then [("Access-Control-Allow-Credentials", "true")] else []) ++
    (if decide (co_expose_headers o = []) then []
     else [("Access-Control-Expose-Headers", str_join ", " (co_expose_headers o))]) in
  let preflight_headers :=
    (if preflight_explicit_allow_origin then [("Vary", "Origin")]
     else [("Access-Control-Allow-Origin", "*")]) ++
    [("Access-Control-Allow-Methods", str_join ", " allow_methods);
     ("Access-Control-Max-Age", nat_str (co_max_age o))] in
  let allow_headers := merge_sort str_le (remove_dups (SAFELISTED_HEADERS ++ co_allow_headers o)) in
  let preflight_headers :=
    preflight_headers ++
    (if decide (allow_headers ≠ [] ∧ allow_all_headers = false)
     then [("Access-Control-Allow-Headers", str_join ", " allow_headers)] else []) ++
    (if co_allow_credentials o then [("Access-Control-Allow-Credentials", "true")] else []) in
  {| cm_allow_origins := co_allow_origins o;
     cm_allow_methods := allow_methods;
     cm_allow_headers := str_lower <$> allow_headers;
     cm_allow_all_origins := allow_all_origins;
     cm_allow_all_headers := allow_all_headers;
     cm_preflight_explicit_allow_origin := preflight_explicit_allow_origin;
     cm_simple_headers := simple_headers;
     cm_preflight_headers := preflight_headers |}.

Section Middleware.
Context {B : Type} (cm : cors_middleware) (app : http_request → option (result py_exc (http_response B))).

(** [is_allowed_origin] (no [allow_origin_regex]). *)
Definition is_allowed_origin (origin : string) : bool :=
  (cm_allow_all_origins cm || bool_decide (origin ∈ cm_allow_origins cm))%bool.

(** The header check of [preflight_response] when not every header is
    allowed: [for header in [h.lower() for h in requested_headers.split(",")]:
    if header.strip() not in self.allow_headers: failures.append("headers"); break]. *)
Definition headers_refused (requested_headers : string) : bool :=
  existsb (λ h, bool_decide (str_strip h ∉ cm_allow_headers cm))
    (str_lower <$> str_split "," requested_headers).

(** [CORSMiddleware.preflight_response] *)
Definition preflight_response (request_headers : headers)
    : result py_exc (http_response (cors_body B)) :=
  requested_origin ← hdr_getitem request_headers "origin";
  requested_method ← hdr_getitem request_headers "access-control-request-method";
  let requested_headers := hdr_get request_headers "access-control-request-headers" in
  let hs := cm_preflight_headers cm in
  let '(hs, failures) :=
    if is_allowed_origin requested_origin
    then (if cm_preflight_explicit_allow_origin cm
          then assoc_set hs "Access-Control-Allow-Origin" requested_origin else hs, [])
    else (hs, ["origin"]) in
  let failures :=
    if decide (requested_method ∈ cm_allow_methods cm) then failures else failures ++ ["method"] in
  let '(hs, failures) :=
    match requested_headers with
    | Some rh =>
        if cm_allow_all_headers cm then (assoc_set hs "Access-Control-Allow-Headers" rh, failures)
        else if headers_refused rh then (hs, failures ++ ["headers"]) else (hs, failures)
    | None => (hs, failures)
    end in
  match failures with
  | [] => Ok (plain_text_response "OK" 200 hs)
  | _ => Ok (plain_text_response ("Disallowed CORS " +:+ str_join ", " failures) 400 hs)
  end.

(** [allow_explicit_origin(headers, origin)] *)
Definition allow_explicit_origin (h : headers) (origin : string) : headers :=
  add_vary_header (hdr_set h "Access-Control-Allow-Origin" origin) "Origin".

(** [CORSMiddleware.send] applied to the application's response start. *)
Definition cors_send (request_headers : headers) (r : http_response B)
    : result py_exc (http_response (cors_body B)) :=
  let hs := hdr_update (rs_headers r) (cm_simple_headers cm) in
  origin ← hdr_getitem request_headers "Origin";
  let has_cookie := hdr_mem request_headers "cookie" in
  let hs :=
    if (cm_allow_all_origins cm && has_cookie)%bool then allow_explicit_origin hs origin
    else if (negb (cm_allow_all_origins cm) && is_allowed_origin origin)%bool
    then allow_explicit_origin hs origin
    else hs in
  Ok (mk_response (rs_status r) hs (AppBody (rs_body r))).

Definition pass_through (r : http_response B) : http_response (cors_body B) :=
  mk_response (rs_status r) (rs_headers r) (AppBody (rs_body r)).

(** [CORSMiddleware.__call__] on an HTTP request.  An exception the
    application raises goes through the middleware unchanged.  Where the
    model does not determine the application's answer ([None]) it does not
    determine the middleware's either, except that a preflight request is
    answered without calling the application. *)
Definition cors_call (req : http_request) : option (result py_exc (http_response (cors_body B))) :=
  let hs := rq_headers req in
  match hdr_get hs "origin" with
  | None => (λ out, r ← out; Ok (pass_through r)) <$> app req
  | Some _ =>
      if (bool_decide (rq_method req = "OPTIONS") && hdr_mem hs "access-control-request-method")%bool
      then Some (preflight_response hs)
      else (λ out, r ← out; cors_send hs r) <$> app req
  end.

End Middleware.

(** The middleware main.py installs. *)
Definition main_cors : cors_middleware := cors_init main_cors_options.

(** ** Header lists *)

Lemma assoc_get_cons k' v' h k :
  assoc_get ((k', v') :: h) k = if decide (k' = k) then Some v' else assoc_get h k.
Proof.
  unfold assoc_get. simpl. case_decide; [done|].
  by destruct (list_find _ h) as [[i kv]|].
Qed.

Lemma assoc_get_None h k : assoc_get h k = None ↔ k ∉ h.*1.
Proof.
  induction h as [|[k' v'] h IH]; [set_solver|].
  rewrite assoc_get_cons. case_decide; [set_solver|]. rewrite IH. set_solver.
Qed.

Lemma assoc_set_go_keys found k v h x :
  x ∈ (assoc_set_go found k v h).*1 → x = k ∨ x ∈ h.*1.
Proof.
  revert found. induction h as [|[k' v'] h IH]; intros found; simpl.
  - destruct found; set_solver.
  - case_decide; [destruct found|]; simpl; rewrite ?elem_of_cons; naive_solver.
Qed.

Lemma assoc_get_set_go_other found k v h k' :
  k' ≠ k → assoc_get (assoc_set_go found k v h) k' = assoc_get h k'.
Proof.
  intros Hne. revert found. induction h as [|[k0 v0] h IH]; intros found; simpl.
  - destruct found; [done|]. rewrite assoc_get_cons, decide_False by done. done.
  - rewrite assoc_get_cons. case_decide as Hk0; [subst k0; destruct found|].
    + rewrite decide_False by done. apply IH.
    + rewrite assoc_get_cons, !decide_False by done. apply IH.
    + rewrite assoc_get_cons. case_decide; [done|]. apply IH.
Qed.

Lemma assoc_get_set_same k v h : assoc_get (assoc_set h k v) k = Some v.
Proof.
  unfold assoc_set. induction h as [|[k0 v0] h IH]; simpl.
  - by rewrite assoc_get_cons, decide_True.
  - case_decide; rewrite assoc_get_cons; [by rewrite decide_True|].
    by rewrite decide_False.
Qed.

(** After [assoc_set], [k] has exactly one binding. *)
Lemma assoc_set_go_filter found k v h :
  filter (λ kv, kv.1 = k) (assoc_set_go found k v h) = if found then [] else [(k, v)].
Proof.
  revert found. induction h as [|[k0 v0] h IH]; intros found; cbn [assoc_set_go].
  - destruct found; [done|]. cbv iota. by rewrite filter_cons_True.
  - case_decide; [destruct found|]; cbv iota.
    + apply IH.
    + rewrite filter_cons_True by done. by rewrite IH.
    + rewrite filter_cons_False by done. apply IH.
Qed.

(** [hdr_get] after [hdr_set]: the new value under the same name, the
    old answer under every other name. *)
Lemma hdr_get_set h k v k' :
  hdr_get (hdr_set h k v) k' = if decide (str_lower k' = str_lower k) then Some v else hdr_get h k'.
Proof.
  unfold hdr_get, hdr_set. case_decide as Hk; [rewrite Hk; apply assoc_get_set_same|].
  by apply assoc_get_set_go_other.
Qed.

Lemma hdr_get_None h k : hdr_get h k = None ↔ str_lower k ∉ h.*1.
Proof. apply assoc_get_None. Qed.

Lemma hdr_set_keys h k v x : x ∈ (hdr_set h k v).*1 → x = str_lower k ∨ x ∈ h.*1.
Proof. apply assoc_set_go_keys. Qed.

Lemma hdr_mem_true h k : hdr_mem h k = true ↔ is_Some (hdr_get h k).
Proof. unfold hdr_mem. by rewrite bool_decide_eq_true. Qed.

Lemma hdr_getitem_Some h k v : hdr_get h k = Some v → hdr_getitem h k = Ok v.
Proof. unfold hdr_getitem. by intros ->. Qed.

(** The lookups of [__call__] and [send] use ["origin"] and ["Origin"]. *)
Lemma hdr_get_Origin h : hdr_get h "Origin" = hdr_get h "origin".
Proof. done. Qed.

(** ** The middleware of main.py *)

(** [__init__] on the options of lines 12-20: ["*"] among the methods
    becomes Starlette's seven [ALL_METHODS] (neither CONNECT nor TRACE),
    origins are matched against the single allowed one and echoed back,
    every header is allowed, credentials are allowed, and the preflight
    answer carries [Vary], the methods, [Max-Age: 600] and the
    credentials flag. *)
Theorem main_cors_init :
  main_cors = {|
    cm_allow_origins := ["http://localhost:3000"];
    cm_allow_methods := ["DELETE"; "GET"; "HEAD"; "OPTIONS"; "PATCH"; "POST"; "PUT"];
    cm_allow_headers := ["*"; "accept"; "accept-language"; "content-language"; "content-type"];
    cm_allow_all_origins := false;
    cm_allow_all_headers := true;
    cm_preflight_explicit_allow_origin := true;
    cm_simple_headers := [("Access-Control-Allow-Credentials", "true")];
    cm_preflight_headers :=
      [("Vary", "Origin");
       ("Access-Control-Allow-Methods", "DELETE, GET, HEAD, OPTIONS, PATCH, POST, PUT");
       ("Access-Control-Max-Age", "600");
       ("Access-Control-Allow-Credentials", "true")] |}.
Proof. vm_compute. reflexivity. Qed.

Lemma main_cors_allowed o : is_allowed_origin main_cors o = bool_decide (o = "http://localhost:3000").
Proof.
  rewrite main_cors_init. unfold is_allowed_origin. simpl.
  apply bool_decide_ext. set_solver.
Qed.

Section MainCors.
Context {B : Type} (app : http_request → option (result py_exc (http_response B))).

(** No answer to a request whose [Origin] is not
    ["http://localhost:3000"] (or that has none) carries
    [Access-Control-Allow-Origin], unless the application put it there
    itself. *)
Lemma cors_call_no_acao req resp :
  (∀ r a, app r = Some (Ok a) → "access-control-allow-origin" ∉ (rs_headers a).*1) →
  hdr_get (rq_headers req) "origin" ≠ Some "http://localhost:3000" →
  cors_call main_cors app req = Some (Ok resp) →
  "access-control-allow-origin" ∉ (rs_headers resp).*1.
Proof.
  intros Happ Horig. unfold cors_call.
  destruct (hdr_get (rq_headers req) "origin") as [o|] eqn:Ho.
  2:{ destruct (app req) as [[a|e]|] eqn:Ha; intros [= <-]. by apply (Happ req a). }
  assert (Hdis : is_allowed_origin main_cors o = false).
  { rewrite main_cors_allowed. apply bool_decide_eq_false. congruence. }
  destruct (bool_decide _ && hdr_mem _ _)%bool eqn:Hpre.
  - apply andb_prop in Hpre as [_ [m Hm]%hdr_mem_true]. intros [= Hp]. revert Hp.
    unfold preflight_response. rewrite (hdr_getitem_Some _ _ _ Ho), (hdr_getitem_Some _ _ _ Hm).
    rewrite main_cors_init in Hdis |- *. simpl. rewrite Hdis. simpl.
    destruct (decide (m ∈ _)), (hdr_get _ "access-control-request-headers");
      intros [= <-]; decide_by_eval.
  - destruct (app req) as [[a|e]|] eqn:Ha; intros [= Hs]. revert Hs.
    unfold cors_send. rewrite (hdr_getitem_Some _ "Origin" o) by (rewrite hdr_get_Origin; exact Ho).
    rewrite main_cors_init in Hdis |- *. simpl. rewrite Hdis. intros [= <-]. simpl.
    intros [Hx|Hx]%hdr_set_keys; [done|]. by apply (Happ req a).
Qed.

(** C21: No answer to a request whose [Origin] is not
    ["http://localhost:3000"] (or that has none) carries
    [Access-Control-Allow-Origin], unless the application put it there
    itself. *)
Theorem cors_disallowed_origin_no_acao req resp :
  (∀ r a, app r = Some (Ok a) → "access-control-allow-origin" ∉ (rs_headers a).*1) →
  hdr_get (rq_headers req) "origin" ≠ Some "http://localhost:3000" →
  cors_call main_cors app req = Some (Ok resp) →
  "access-control-allow-origin" ∉ (rs_headers resp).*1.
Proof. apply cors_call_no_acao. Qed.

(** C30: A preflight request from the frontend origin for a method of
    [ALL_METHODS] is answered by the middleware itself, whatever the
    application does: 200 ["OK"], the origin echoed, credentials allowed,
    the seven methods, and the requested headers mirrored back. *)
Theorem cors_preflight_allowed req m :
  rq_method req = "OPTIONS" →
  hdr_get (rq_headers req) "origin" = Some "http://localhost:3000" →
  hdr_get (rq_headers req) "access-control-request-method" = Some m → m ∈ ALL_METHODS →
  cors_call main_cors app req = Some (Ok (mk_response 200
    ([("vary", "Origin");
      ("access-control-allow-methods", "DELETE, GET, HEAD, OPTIONS, PATCH, POST, PUT");
      ("access-control-max-age", "600");
      ("access-control-allow-credentials", "true");
      ("access-control-allow-origin", "http://localhost:3000")] ++
     match hdr_get (rq_headers req) "access-control-request-headers" with
     | Some rh => [("access-control-allow-headers", rh)]
     | None => []
     end ++
     [("content-length", "2"); ("content-type", "text/plain; charset=utf-8")])
    (PlainText "OK"))).
Proof.
  intros Hmeth Ho Hm HmA. unfold cors_call. rewrite Ho, Hmeth.
  rewrite (proj2 (hdr_mem_true _ _)) by (rewrite Hm; eauto).
  unfold preflight_response. rewrite (hdr_getitem_Some _ _ _ Ho), (hdr_getitem_Some _ _ _ Hm).
  rewrite main_cors_init. simpl. rewrite decide_True by exact HmA.
  by destruct (hdr_get _ "access-control-request-headers").
Qed.

(** Where the code departs from the comment of line 18, which says that
    [allow_methods] allows all HTTP methods: Starlette expands the
    wildcard to [ALL_METHODS], so a preflight request for another method,
    such as TRACE or CONNECT, is refused with 400 even from the allowed
    origin. *)
Theorem cors_preflight_method_refused req m :
  rq_method req = "OPTIONS" →
  hdr_get (rq_headers req) "origin" = Some "http://localhost:3000" →
  hdr_get (rq_headers req) "access-control-request-method" = Some m → m ∉ ALL_METHODS →
  ∃ hs, cors_call main_cors app req = Some (Ok (mk_response 400 hs (PlainText "Disallowed CORS method"))).
Proof.
  intros Hmeth Ho Hm HmA. unfold cors_call. rewrite Ho, Hmeth.
  rewrite (proj2 (hdr_mem_true _ _)) by (rewrite Hm; eauto).
  unfold preflight_response. rewrite (hdr_getitem_Some _ _ _ Ho), (hdr_getitem_Some _ _ _ Hm).
  rewrite main_cors_init. simpl. rewrite decide_False by exact HmA.
  by destruct (hdr_get _ "access-control-request-headers"); eexists.
Qed.

(** Every request that is not a preflight reaches the application. *)
Lemma cors_not_preflight req :
  (rq_method req ≠ "OPTIONS" ∨ hdr_get (rq_headers req) "access-control-request-method" = None) →
  (bool_decide (rq_method req = "OPTIONS") && hdr_mem (rq_headers req) "access-control-request-method")%bool
  = false.
Proof.
  intros [Hm|Hm]; apply andb_false_iff; [left; by apply bool_decide_eq_false|right].
  unfold hdr_mem. rewrite Hm. by apply bool_decide_eq_false, is_Some_None.
Qed.

(** A request that is not a preflight is passed to the application
    whatever its origin, and when the application answers, the
    middleware's answer keeps its status and body: the allow-list only
    decides which headers a browser sees. *)
Lemma cors_call_simple req r :
  (rq_method req ≠ "OPTIONS" ∨ hdr_get (rq_headers req) "access-control-request-method" = None) →
  app req = Some (Ok r) →
  ∃ resp, cors_call main_cors app req = Some (Ok resp) ∧
          rs_status resp = rs_status r ∧ rs_body resp = AppBody (rs_body r).
Proof.
  intros Hnp Hr. unfold cors_call. rewrite Hr.
  destruct (hdr_get (rq_headers req) "origin") as [o|] eqn:Ho; [|by eexists].
  rewrite (cors_not_preflight req Hnp). unfold cors_send.
  rewrite (hdr_getitem_Some _ "Origin" o) by (rewrite hdr_get_Origin; exact Ho).
  simpl. by eexists.
Qed.

(** Where the code departs from the comment of line 16, which says that
    only requests from the frontend are allowed: a request that is not a
    preflight is passed to the application whatever its origin, and when
    the application answers, the middleware's answer keeps its status and
    body; the allow-list only decides which headers a browser sees. *)
Theorem cors_simple_response req r :
  (rq_method req ≠ "OPTIONS" ∨ hdr_get (rq_headers req) "access-control-request-method" = None) →
  app req = Some (Ok r) →
  ∃ resp, cors_call main_cors app req = Some (Ok resp) ∧
          rs_status resp = rs_status r ∧ rs_body resp = AppBody (rs_body r).
Proof. apply cors_call_simple. Qed.

(** A request from the frontend origin that is not a preflight gets
    the origin echoed in [Access-Control-Allow-Origin], credentials
    allowed, and [Origin] added to [Vary]. *)
Theorem cors_simple_allowed_origin req r :
  (rq_method req ≠ "OPTIONS" ∨ hdr_get (rq_headers req) "access-control-request-method" = None) →
  hdr_get (rq_headers req) "origin" = Some "http://localhost:3000" →
  app req = Some (Ok r) →
  ∃ resp, cors_call main_cors app req = Some (Ok resp) ∧
    hdr_get (rs_headers resp) "access-control-allow-origin" = Some "http://localhost:3000" ∧
    hdr_get (rs_headers resp) "access-control-allow-credentials" = Some "true" ∧
    hdr_get (rs_headers resp) "vary" =
      Some (match hdr_get (rs_headers r) "vary" with
            | Some v => str_join ", " [v; "Origin"]
            | None => "Origin"
            end).
Proof.
  intros Hnp Ho Hr. unfold cors_call. rewrite Ho, (cors_not_preflight req Hnp), Hr. unfold cors_send.
  rewrite (hdr_getitem_Some _ "Origin" _) by (rewrite hdr_get_Origin; exact Ho).
  rewrite main_cors_init. simpl. eexists. split; [reflexivity|].
  unfold allow_explicit_origin, add_vary_header. simpl. rewrite !hdr_get_set. simpl.
  split_and!; [done|done|]. by destruct (hdr_get (rs_headers r) "vary").
Qed.

End MainCors.

(** ** What the middleware answers *)

(** ASGI sends header names in lower case. *)
Definition hdr_lower (h : headers) : Prop := Forall (λ kv, str_lower kv.1 = kv.1) h.

Lemma assoc_set_go_Forall (P : string * string → Prop) found k v h :
  Forall P h → P (k, v) → Forall P (assoc_set_go found k v h).
Proof.
  revert found. induction h as [|[k' v'] h IH]; intros found Hh Hkv; simpl.
  - destruct found; by repeat constructor.
  - apply Forall_cons in Hh as [? ?]. case_decide; [destruct found|]; by repeat constructor; auto.
Qed.

Lemma hdr_set_lower h k v : hdr_lower h → hdr_lower (hdr_set h k v).
Proof. intros. apply assoc_set_go_Forall; [done|]. apply str_lower_idem. Qed.

Lemma hdr_update_lower h d : hdr_lower h → hdr_lower (hdr_update h d).
Proof. unfold hdr_update. revert h. induction d; intros; simpl; [done|]. auto using hdr_set_lower. Qed.

Lemma allow_explicit_origin_lower h o : hdr_lower h → hdr_lower (allow_explicit_origin h o).
Proof. intros. by apply hdr_set_lower, hdr_set_lower. Qed.

(** [Response.init_headers] lower-cases every name it is given. *)
Lemma init_headers_lower hs status n mt : hdr_lower (init_headers hs status n mt).
Proof.
  unfold init_headers, hdr_lower.
  assert (Forall (λ kv : string * string, str_lower kv.1 = kv.1) ((λ kv, (str_lower kv.1, kv.2)) <$> hs)).
  { apply Forall_fmap, Forall_forall. intros; simpl. apply str_lower_idem. }
  repeat case_match; repeat case_decide; rewrite ?Forall_app; by repeat constructor.
Qed.

Lemma plain_text_response_lower {B} content status hs :
  hdr_lower (rs_headers (plain_text_response (B := B) content status hs)).
Proof. apply init_headers_lower. Qed.

Lemma init_headers_raw_keys (hs : list (string * string)) :
  ((λ kv : string * string, (str_lower kv.1, kv.2)) <$> hs).*1 = str_lower <$> hs.*1.
Proof. by rewrite <- !list_fmap_compose. Qed.

(** The names [init_headers] writes: the given ones, lower-cased, and the
    two it adds. *)
Lemma init_headers_keys hs status n mt x :
  x ∈ (init_headers hs status n mt).*1 →
  x ∈ str_lower <$> hs.*1 ∨ x = "content-length" ∨ x = "content-type".
Proof.
  unfold init_headers. repeat case_match; repeat case_decide;
    rewrite ?fmap_app, ?init_headers_raw_keys; set_solver.
Qed.

Lemma assoc_get_app_r h1 h2 k : k ∉ h1.*1 → assoc_get (h1 ++ h2) k = assoc_get h2 k.
Proof.
  induction h1 as [|[k' v'] h1 IH]; [done|]. intros Hk. cbn [app].
  rewrite assoc_get_cons, decide_False by set_solver. apply IH. set_solver.
Qed.

(** [init_headers] declares the length of the body it is given when the
    status allows a body and the caller names no [content-length]. *)
Lemma init_headers_length hs status n mt :
  "content-length" ∉ str_lower <$> hs.*1 → 200 ≤ status → status ≠ 204 → status ≠ 304 →
  hdr_get (init_headers hs status (Some n) mt) "content-length" = Some (nat_str n).
Proof.
  intros Hcl Hs H204 H304. unfold init_headers.
  rewrite decide_False by (by rewrite init_headers_raw_keys). rewrite decide_False by lia.
  assert (Hg : hdr_get (((λ kv, (str_lower kv.1, kv.2)) <$> hs) ++ [("content-length", nat_str n)])
                 "content-length" = Some (nat_str n)).
  { unfold hdr_get. rewrite assoc_get_app_r by (by rewrite init_headers_raw_keys). reflexivity. }
  destruct mt as [mt|]; [case_decide|]; [done| |done].
  unfold hdr_get in Hg |- *. rewrite <- app_assoc, assoc_get_app_r by (by rewrite init_headers_raw_keys).
  reflexivity.
Qed.

Lemma plain_text_response_length {B} content status hs :
  "content-length" ∉ str_lower <$> hs.*1 → 200 ≤ status → status ≠ 204 → status ≠ 304 →
  hdr_get (rs_headers (plain_text_response (B := B) content status hs)) "content-length"
  = Some (nat_str (String.length (utf8_encode content))).
Proof. apply init_headers_length. Qed.

Section Answers.
Context {B : Type} (cm : cors_middleware) (app : http_request → option (result py_exc (http_response B))).

(** The middleware raises nothing of its own: the lookups of
    [request_headers["origin"]] and of the requested method come after the
    checks that the headers are there.  It answers whenever the
    application answers, and raises what the application raises. *)
Lemma cors_call_total req :
  (cors_call cm app req = None ∧ app req = None) ∨
  (∃ e, cors_call cm app req = Some (Err e) ∧ app req = Some (Err e)) ∨
  ∃ resp, cors_call cm app req = Some (Ok resp).
Proof.
  unfold cors_call. destruct (hdr_get (rq_headers req) "origin") as [o|] eqn:Ho.
  2:{ destruct (app req) as [[a|e]|]; [right; right|right; left|left]; by eauto. }
  destruct (bool_decide _ && hdr_mem _ _)%bool eqn:Hp.
  - apply andb_true_iff in Hp as [_ [m Hm]%hdr_mem_true]. right; right. unfold preflight_response.
    rewrite (hdr_getitem_Some _ _ _ Ho), (hdr_getitem_Some _ _ _ Hm). simpl.
    repeat case_match; by eexists.
  - destruct (app req) as [[a|e]|]; [right; right|right; left; by eauto|by left].
    unfold cors_send. rewrite (hdr_getitem_Some _ "Origin" o) by (rewrite hdr_get_Origin; exact Ho).
    by eexists.
Qed.

(** An answer of the middleware is the application's (with headers
    added, lower case when the application's are) or one of its own,
    200 or 400, with lower-case header names. *)
Lemma cors_call_answer req resp :
  cors_call cm app req = Some (Ok resp) →
  (∃ r, app req = Some (Ok r) ∧ rs_status resp = rs_status r ∧
        (hdr_lower (rs_headers r) → hdr_lower (rs_headers resp))) ∨
  (rs_status resp ∈ [200; 400] ∧ hdr_lower (rs_headers resp)).
Proof.
  unfold cors_call. destruct (hdr_get (rq_headers req) "origin") as [o|].
  2:{ destruct (app req) as [[r|e]|]; intros [= <-]. left. by exists r. }
  destruct (bool_decide _ && hdr_mem _ _)%bool.
  - unfold preflight_response. intros [= H]. res_inv. right. repeat case_match; simplify_eq;
      (split; [set_solver|apply plain_text_response_lower]).
  - destruct (app req) as [[r|e]|]; intros [= H]. unfold cors_send in H. res_inv. left. exists r.
    split_and!; [done..|]. intros.
    simpl; repeat case_match; auto using allow_explicit_origin_lower, hdr_update_lower.
Qed.

(** A request that is not a preflight gets no answer of the model when
    the application has none. *)
Lemma cors_call_app_None req :
  (rq_method req ≠ "OPTIONS" ∨ hdr_get (rq_headers req) "access-control-request-method" = None) →
  app req = None → cors_call cm app req = None.
Proof.
  intros Hnp Hn. unfold cors_call. rewrite Hn.
  destruct (hdr_get (rq_headers req) "origin"); [|done]. by rewrite (cors_not_preflight req Hnp).
Qed.

(** What the middleware leaves undetermined is the application's
    answer to a request it passes on. *)
Lemma cors_call_None req : cors_call cm app req = None → app req = None.
Proof. destruct (cors_call_total req) as [[_ ?]|[(e & -> & _)|[? ->]]]; congruence. Qed.

(** An exception the application raises on a request that is not a
    preflight goes through the middleware. *)
Lemma cors_call_app_Err req e :
  (rq_method req ≠ "OPTIONS" ∨ hdr_get (rq_headers req) "access-control-request-method" = None) →
  app req = Some (Err e) → cors_call cm app req = Some (Err e).
Proof.
  intros Hnp He. unfold cors_call. rewrite He.
  destruct (hdr_get (rq_headers req) "origin"); [|done]. by rewrite (cors_not_preflight req Hnp).
Qed.

(** The middleware raises only what the application raises. *)
Lemma cors_call_Err req e : cors_call cm app req = Some (Err e) → app req = Some (Err e).
Proof. destruct (cors_call_total req) as [[-> _]|[(e' & -> & Ha)|[resp ->]]]; congruence. Qed.
End Answers.

Section Lengths.
Context {B : Type} (app : http_request → option (result py_exc (http_response B))).

(** The middleware of main.py keeps the [content-length] the application
    declares, and declares the length of its own plain-text answers. *)
Lemma cors_call_content_length req resp :
  cors_call main_cors app req = Some (Ok resp) →
  (∃ r, app req = Some (Ok r) ∧ rs_body resp = AppBody (rs_body r) ∧
        hdr_get (rs_headers resp) "content-length" = hdr_get (rs_headers r) "content-length") ∨
  (∃ s, rs_body resp = PlainText s ∧
        hdr_get (rs_headers resp) "content-length" = Some (nat_str (String.length (utf8_encode s)))).
Proof.
  unfold cors_call. destruct (hdr_get (rq_headers req) "origin") as [o|] eqn:Ho.
  2:{ destruct (app req) as [[r|e]|]; intros [= <-]. left. by exists r. }
  destruct (bool_decide _ && hdr_mem _ _)%bool.
  - unfold preflight_response. intros [= H]. res_inv. right. rewrite main_cors_init in H. simpl in H.
    repeat case_match; simplify_eq; (eexists; split; [done|]);
      apply plain_text_response_length; (decide_by_eval || lia).
  - destruct (app req) as [[r|e]|]; intros [= H]. unfold cors_send in H. res_inv. left. exists r.
    split; [done|]. rewrite main_cors_init. simpl.
    repeat case_match; unfold allow_explicit_origin, add_vary_header; rewrite ?hdr_get_set;
      repeat (case_decide as Hd; [vm_compute in Hd; discriminate|]); done.
Qed.
End Lengths.
