(* ===== verification/Request.v ===== *)
(** * The request: pydantic validation and the two comprehensions

    [class GraphData(BaseModel): nodes: list; edges: list] (main.py lines
    23-25) is checked by FastAPI before [parse_pipeline] runs: the body
    must be a JSON object whose ["nodes"] and ["edges"] are arrays; extra
    keys are ignored; otherwise the answer is a 422 listing every failing
    field, in field order.  The error type also holds the [json_invalid]
    entry FastAPI raises for a body [json.loads] refuses ([Body.v]).  The
    handler then runs the comprehensions of lines 31-32 on the two
    lists. *)

From S2P Require Import Prelude PyValue.

Record GraphData : Type := mk_graph_data {
  gd_nodes : list json;
  gd_edges : list json;
}.

(** The [input] of an error entry: a JSON value, or the bytes of a body
    that was not read as JSON. *)
Inductive err_input : Type :=
| InJson (v : json)
| InBytes (b : string).

#[export] Instance err_input_eq_dec : EqDecision err_input.
Proof. solve_decision. Defined.

(** One entry of pydantic's error list: its [type], [loc] and [input]. *)
Inductive validation_error : Type :=
| VMissing (loc : list string) (input : json)
  (** ["missing"]; the input is the object the field is missing from, or
      [None] for a missing body *)
| VModelAttributesType (loc : list string) (input : err_input)
  (** ["model_attributes_type"]: the body is not an object; FastAPI
      validates with [from_attributes=True], so pydantic reports this type
      rather than [model_type] *)
| VListType (loc : list string) (input : json)
  (** ["list_type"]: the field is not an array *)
| VJsonInvalid (pos : nat) (msg : string).
  (** ["json_invalid"] at [("body", pos)], with [json.loads]'s message *)

#[export] Instance validation_error_eq_dec : EqDecision validation_error.
Proof. solve_decision. Defined.

(** A field annotated [list]: present and a JSON array. *)
Definition validate_list_field (kvs : list (string * json)) (name : string)
    : result validation_error (list json) :=
  match dict_lookup kvs name with
  | None => Err (VMissing ["body"; name] (JObj kvs))
  | Some (JArr items) => Ok items
  | Some v => Err (VListType ["body"; name] v)
  end.

Definition field_errors {A} (r : result validation_error A) : list validation_error :=
  match r with Ok _ => [] | Err e => [e] end.

(** FastAPI's handling of the single body parameter [data: GraphData]:
    a [null] body is missing, a body that is not an object is refused as a
    whole, and the fields are validated in declaration order with all
    their errors collected. *)
Definition validate_graph_data (body : json) : result (list validation_error) GraphData :=
  match body with
  | JNull => Err [VMissing ["body"] JNull]
  | JObj kvs =>
      let rn := validate_list_field kvs "nodes" in
      let re := validate_list_field kvs "edges" in
      match rn, re with
      | Ok ns, Ok es => Ok (mk_graph_data ns es)
      | _, _ => Err (field_errors rn ++ field_errors re)
      end
  | _ => Err [VModelAttributesType ["body"] (InJson body)]
  end.

(** [node_ids = [node["id"] for node in data.nodes]] (line 31) *)
Definition extract_node_ids (nodes : list json) : result py_exc (list json) :=
  res_map (λ node, py_getitem node "id") nodes.

(** [(edge["source"], edge["target"])] (line 32) *)
Definition extract_edge (edge : json) : result py_exc (json * json) :=
  s ← py_getitem edge "source";
  t ← py_getitem edge "target";
  Ok (s, t).

(** [edges = [(edge["source"], edge["target"]) for edge in data.edges]] *)
Definition extract_edges (edges : list json) : result py_exc (list (json * json)) :=
  res_map extract_edge edges.

(** ** Lemmas *)

(** C35: A body validates exactly when it is an object whose nodes and edges
    entries (the last occurrence of each key) are arrays, which become the
    model's lists. *)
Lemma validate_graph_data_Ok body d :
  validate_graph_data body = Ok d ↔
  ∃ kvs, body = JObj kvs ∧ dict_lookup kvs "nodes" = Some (JArr (gd_nodes d)) ∧
         dict_lookup kvs "edges" = Some (JArr (gd_edges d)).
Proof.
  unfold validate_graph_data, validate_list_field. split.
  - destruct body as [| | | | |kvs]; try discriminate.
    destruct (dict_lookup kvs "nodes") as [[| | | |ns|]|] eqn:Hn,
      (dict_lookup kvs "edges") as [[| | | |es|]|] eqn:He;
      try discriminate. intros [= <-]. eauto.
  - intros (kvs & -> & Hn & He). rewrite Hn, He. by destruct d.
Qed.

(** An edge raises [KeyError] on the first of ["source"], ["target"] it
    lacks. *)
Lemma extract_edge_KeyError e k :
  extract_edge e = Err (KeyError k) ↔
  ∃ kvs, e = JObj kvs ∧
    ((dict_lookup kvs "source" = None ∧ k = "source") ∨
     (is_Some (dict_lookup kvs "source") ∧ dict_lookup kvs "target" = None ∧ k = "target")).
Proof.
  unfold extract_edge. split.
  - destruct e as [| | | | |kvs]; simpl; try (intros H; discriminate H).
    destruct (dict_lookup kvs "source") eqn:Hs, (dict_lookup kvs "target") eqn:Ht;
      simpl; intros H; simplify_eq; eauto 10.
  - intros (kvs & -> & [[Hs ->]|([s Hs] & Ht & ->)]); simpl; rewrite Hs; simpl; [done|].
    by rewrite Ht.
Qed.

Lemma extract_edge_Ok e s t :
  extract_edge e = Ok (s, t) ↔
  ∃ kvs, e = JObj kvs ∧ dict_lookup kvs "source" = Some s ∧ dict_lookup kvs "target" = Some t.
Proof.
  unfold extract_edge. split.
  - intros H. res_inv. apply py_getitem_Ok in Ha as (kvs & -> & Hs).
    apply py_getitem_Ok in Ha0 as (kvs' & [= <-] & Ht). eauto.
  - intros (kvs & -> & Hs & Ht). simpl. by rewrite Hs, Ht.
Qed.

(** Validating a decoded body never reports bytes as the input. *)
Lemma validate_graph_data_no_bytes body errs loc b :
  validate_graph_data body = Err errs → VModelAttributesType loc (InBytes b) ∉ errs.
Proof.
  assert (Hf : ∀ kvs name, VModelAttributesType loc (InBytes b) ∉ field_errors (validate_list_field kvs name)).
  { intros kvs name. unfold validate_list_field. repeat case_match; set_solver. }
  destruct body as [| | | | |kvs]; cbn; intros H; simplify_eq; try set_solver.
  destruct (validate_list_field kvs "nodes") eqn:Hn, (validate_list_field kvs "edges") eqn:He;
    simplify_eq; pose proof (Hf kvs "nodes"); pose proof (Hf kvs "edges");
    rewrite Hn, He in *; cbn in *; set_solver.
Qed.
