(* ===== verification/Codecs.v ===== *)
(** * CPython's Unicode codecs on the request body

    [json.loads] decodes the bytes of a body with the codec
    [json.detect_encoding] names and the [surrogatepass] error handler,
    and FastAPI's [jsonable_encoder] decodes a [bytes] input with
    [bytes.decode()], strict UTF-8.  This file models the decoders those
    calls run, on bytes given as a Rocq [string]: UTF-8 with the [strict]
    or [surrogatepass] handler, with CPython's error ranges and reasons
    ([utf8_decode_at]); UTF-16 and UTF-32 in either byte order with
    [surrogatepass] ([utf16_decode], [utf32_decode_at]); the code points
    as a [str] of the model when all are below U+0100 ([latin1_string]).
    The encoders of the same codecs ([utf16_encode], [utf32_encode]) are
    what a client runs, and the round trips show each decoder reads back
    what its encoder writes. *)

From S2P Require Import Prelude PyValue PyStr.
From Stdlib Require Import Ascii.

(** ** The UTF-8 codec *)

Definition in_range (c : ascii) (lo hi : Z) : bool := bool_decide (lo ≤ byte c ≤ hi)%Z.

(** The code point of a two-, three- or four-byte sequence. *)
Definition cp2 (b1 b2 : Z) : Z := Z.lor (Z.shiftl (Z.land b1 0x1F) 6) (Z.land b2 0x3F).
Definition cp3 (b1 b2 b3 : Z) : Z :=
  Z.lor (Z.shiftl (Z.land b1 0x0F) 12) (Z.lor (Z.shiftl (Z.land b2 0x3F) 6) (Z.land b3 0x3F)).
Definition cp4 (b1 b2 b3 b4 : Z) : Z :=
  Z.lor (Z.shiftl (Z.land b1 0x07) 18)
    (Z.lor (Z.shiftl (Z.land b2 0x3F) 12) (Z.lor (Z.shiftl (Z.land b3 0x3F) 6) (Z.land b4 0x3F))).

Definition is_cont (c : ascii) : bool := in_range c 0x80 0xBF.

(** [bytes.decode("utf-8", errors)] on the bytes [obj], as CPython's
    decoder ([utf8_decode] of [stringlib/codecs.h] and its caller) runs it
    with the [strict] handler or, when [surrogatepass] is set, with the
    [surrogatepass] handler; [b] is what is left of [obj] from position
    [pos].  Well-formed sequences are those of the Unicode table (no
    overlong form, nothing above U+10FFFF); the three-byte encodings of
    the surrogates U+D800 to U+DFFF, which the decoder refuses, are let
    through by [surrogatepass].  Any other failure
    raises [UnicodeDecodeError] with the decoder's range and reason: an
    invalid lead byte, the number of bytes of a valid prefix before an
    invalid continuation byte, or the bytes left when the data ends inside
    a sequence. *)
Fixpoint utf8_decode_at (surrogatepass : bool) (obj : string) (pos : nat) (b : string) : result py_exc (list Z) :=
  let err n reason := Err (UnicodeDecodeError obj pos (pos + n) reason) in
  match b with
  | EmptyString => Ok []
  | String c1 r =>
      let b1 := byte c1 in
      if decide (b1 < 0x80)%Z then cons b1 <$> utf8_decode_at surrogatepass obj (pos + 1) r
      else if decide (b1 < 0xC2)%Z then err 1 "invalid start byte"
      else if decide (b1 < 0xE0)%Z then
        match r with
        | EmptyString => err 1 "unexpected end of data"
        | String c2 r' =>
            if is_cont c2 then cons (cp2 b1 (byte c2)) <$> utf8_decode_at surrogatepass obj (pos + 2) r'
            else err 1 "invalid continuation byte"
        end
      else if decide (b1 < 0xF0)%Z then
        let ok2 c2 := is_cont c2 && (if decide (b1 = 0xE0)%Z then in_range c2 0xA0 0xBF
                                     else if decide (b1 = 0xED)%Z then in_range c2 0x80 0x9F
                                     else true) in
        match r with
        | EmptyString => err 1 "unexpected end of data"
        | String c2 EmptyString =>
            if ok2 c2 then err 2 "unexpected end of data" else err 1 "invalid continuation byte"
        | String c2 (String c3 r') =>
            if ok2 c2 then
              if is_cont c3 then cons (cp3 b1 (byte c2) (byte c3)) <$> utf8_decode_at surrogatepass obj (pos + 3) r'
              else err 2 "invalid continuation byte"
            else if surrogatepass && bool_decide (b1 = 0xED)%Z && is_cont c2 && is_cont c3
            then cons (cp3 b1 (byte c2) (byte c3)) <$> utf8_decode_at surrogatepass obj (pos + 3) r'
            else err 1 "invalid continuation byte"
        end
      else if decide (b1 < 0xF5)%Z then
        let ok2 c2 := is_cont c2 && (if decide (b1 = 0xF0)%Z then in_range c2 0x90 0xBF
                                     else if decide (b1 = 0xF4)%Z then in_range c2 0x80 0x8F
                                     else true) in
        match r with
        | EmptyString => err 1 "unexpected end of data"
        | String c2 EmptyString =>
            if ok2 c2 then err 2 "unexpected end of data" else err 1 "invalid continuation byte"
        | String c2 (String c3 EmptyString) =>
            if ok2 c2 then (if is_cont c3 then err 3 "unexpected end of data" else err 2 "invalid continuation byte")
            else err 1 "invalid continuation byte"
        | String c2 (String c3 (String c4 r')) =>
            if ok2 c2 then
              if is_cont c3 then
                if is_cont c4 then cons (cp4 b1 (byte c2) (byte c3) (byte c4)) <$> utf8_decode_at surrogatepass obj (pos + 4) r'
                else err 3 "invalid continuation byte"
              else err 2 "invalid continuation byte"
            else err 1 "invalid continuation byte"
        end
      else err 1 "invalid start byte"
  end.

(** [b.decode("utf-8", "surrogatepass")], as [json.loads] decodes. *)
Definition utf8_decode (b : string) : result py_exc (list Z) := utf8_decode_at true b 0 b.

(** [b.decode()], as [jsonable_encoder] decodes [bytes]. *)
Definition utf8_decode_strict (b : string) : result py_exc (list Z) := utf8_decode_at false b 0 b.

(** The code points as a Rocq [string], when all are below 256. *)
Fixpoint latin1_string (cps : list Z) : option string :=
  match cps with
  | [] => Some EmptyString
  | cp :: cps' => if decide (0 ≤ cp < 256)%Z then String (ascii_of_nat (Z.to_nat cp)) <$> latin1_string cps' else None
  end.

(** ** UTF-16 and UTF-32 with [surrogatepass] *)

(** A code unit of two bytes, in big- or little-endian order. *)
Definition unit16 (big : bool) (c1 c2 : ascii) : Z :=
  if big then Z.lor (Z.shiftl (byte c1) 8) (byte c2) else Z.lor (Z.shiftl (byte c2) 8) (byte c1).

(** The code units of [b]; [None] when a byte is left over (the codec's
    ["truncated data"]). *)
Fixpoint utf16_units (big : bool) (b : string) : option (list Z) :=
  match b with
  | EmptyString => Some []
  | String c1 (String c2 r) => cons (unit16 big c1 c2) <$> utf16_units big r
  | String _ EmptyString => None
  end.

(** The code points of the units: a high surrogate followed by a low one
    is one character above U+FFFF; a lone surrogate, which the decoder
    refuses, is let through by [surrogatepass] as itself. *)
Fixpoint utf16_code_points (us : list Z) : list Z :=
  match us with
  | [] => []
  | u :: us' =>
      if decide (0xD800 ≤ u ≤ 0xDBFF)%Z then
        match us' with
        | u2 :: us'' =>
            if decide (0xDC00 ≤ u2 ≤ 0xDFFF)%Z
            then (0x10000 + Z.shiftl (u - 0xD800) 10 + (u2 - 0xDC00))%Z :: utf16_code_points us''
            else u :: utf16_code_points us'
        | [] => [u]
        end
      else u :: utf16_code_points us'
  end.

(** [b.decode("utf-16-be" or "utf-16-le", "surrogatepass")] on the bytes
    [b] of [obj] after its byte order mark, if any: [surrogatepass] lets
    every unit through, so the only failure is a byte left over at the
    end, which it cannot decode. *)
Definition utf16_decode (big : bool) (obj b : string) : result py_exc (list Z) :=
  match utf16_units big b with
  | Some us => Ok (utf16_code_points us)
  | None => Err (UnicodeDecodeError obj (String.length obj - 1) (String.length obj) "truncated data")
  end.

(** A code unit of four bytes. *)
Definition unit32 (big : bool) (c1 c2 c3 c4 : ascii) : Z :=
  if big then Z.lor (Z.shiftl (byte c1) 24) (Z.lor (Z.shiftl (byte c2) 16) (Z.lor (Z.shiftl (byte c3) 8) (byte c4)))
  else Z.lor (Z.shiftl (byte c4) 24) (Z.lor (Z.shiftl (byte c3) 16) (Z.lor (Z.shiftl (byte c2) 8) (byte c1))).

(** [b.decode("utf-32-be" or "utf-32-le", "surrogatepass")]
    ([PyUnicode_DecodeUTF32Stateful]) on what is left of [obj] from
    [pos]: a unit above U+10FFFF is refused, a surrogate let through by
    [surrogatepass], and fewer than four bytes at the end are
    ["truncated data"]. *)
Fixpoint utf32_decode_at (big : bool) (obj : string) (pos : nat) (b : string) : result py_exc (list Z) :=
  match b with
  | EmptyString => Ok []
  | String c1 (String c2 (String c3 (String c4 r))) =>
      let u := unit32 big c1 c2 c3 c4 in
      if decide (u ≤ 0x10FFFF)%Z then cons u <$> utf32_decode_at big obj (pos + 4) r
      else Err (UnicodeDecodeError obj pos (pos + 4) "code point not in range")
  | _ => Err (UnicodeDecodeError obj pos (String.length obj) "truncated data")
  end.

(** [s[n:]] *)
Fixpoint str_drop (n : nat) (s : string) : string :=
  match n, s with
  | S n', String _ s' => str_drop n' s'
  | _, _ => s
  end.

(** ** The encoders a client runs *)

(** [s.encode("utf-16-be")] and [s.encode("utf-16-le")] for characters
    below U+0100: a zero byte and the character's byte, in order. *)
Fixpoint utf16_encode (big : bool) (s : string) : string :=
  match s with
  | EmptyString => EmptyString
  | String c s' =>
      if big then String "000" (String c (utf16_encode big s'))
      else String c (String "000" (utf16_encode big s'))
  end.

(** [s.encode("utf-32-be")] and [s.encode("utf-32-le")]. *)
Fixpoint utf32_encode (big : bool) (s : string) : string :=
  match s with
  | EmptyString => EmptyString
  | String c s' =>
      if big then String "000" (String "000" (String "000" (String c (utf32_encode big s'))))
      else String c (String "000" (String "000" (String "000" (utf32_encode big s'))))
  end.

(** ** Round trips *)

(** One character encoded and decoded again, whatever follows. *)
Lemma utf8_decode_encode_char sp obj pos c s : ∃ n,
  utf8_decode_at sp obj pos (utf8_encode (String c s)) = cons (byte c) <$> utf8_decode_at sp obj (pos + n) (utf8_encode s).
Proof. destruct c as [[] [] [] [] [] [] [] []]; eexists; reflexivity. Qed.

Lemma utf8_decode_at_encode sp obj s pos :
  utf8_decode_at sp obj pos (utf8_encode s) = Ok (List.map byte (String.list_ascii_of_string s)).
Proof.
  revert pos. induction s as [|c s IH]; intros pos; [done|].
  destruct (utf8_decode_encode_char sp obj pos c s) as [n ->]. by rewrite IH.
Qed.

Lemma utf8_decode_encode s : utf8_decode (utf8_encode s) = Ok (List.map byte (String.list_ascii_of_string s)).
Proof. apply utf8_decode_at_encode. Qed.

Lemma latin1_string_bytes s : latin1_string (List.map byte (String.list_ascii_of_string s)) = Some s.
Proof.
  induction s as [|c s IH]; [done|]. cbn [String.list_ascii_of_string List.map latin1_string].
  pose proof (nat_ascii_bounded c). rewrite decide_True by (unfold byte; lia).
  unfold byte at 1. by rewrite IH, Nat2Z.id, ascii_nat_embedding.
Qed.


Lemma byte_range c : (0 ≤ byte c < 256)%Z.
Proof. unfold byte. pose proof (nat_ascii_bounded c). lia. Qed.

Lemma byte_nul : byte "000" = 0%Z.
Proof. reflexivity. Qed.

Lemma utf16_units_encode big s :
  utf16_units big (utf16_encode big s) = Some (List.map byte (String.list_ascii_of_string s)).
Proof.
  induction s as [|c s IH]; [done|].
  destruct big; cbn [utf16_encode utf16_units]; rewrite IH; cbn; f_equal; f_equal;
    unfold unit16; rewrite byte_nul, Z.shiftl_0_l, ?Z.lor_0_l, ?Z.lor_0_r; done.
Qed.

(** Units below 256 are characters of their own. *)
Lemma utf16_code_points_small us : Forall (λ u, 0 ≤ u < 256)%Z us → utf16_code_points us = us.
Proof.
  induction 1 as [|u us Hu _ IH]; [done|]. cbn [utf16_code_points].
  rewrite decide_False by lia. by rewrite IH.
Qed.

Lemma bytes_small s : Forall (λ u, 0 ≤ u < 256)%Z (List.map byte (String.list_ascii_of_string s)).
Proof. apply Forall_forall. intros u (c & <- & _)%list_elem_of_In%in_map_iff. apply byte_range. Qed.

Lemma utf16_decode_encode big obj s :
  utf16_decode big obj (utf16_encode big s) = Ok (List.map byte (String.list_ascii_of_string s)).
Proof. unfold utf16_decode. by rewrite utf16_units_encode, utf16_code_points_small by apply bytes_small. Qed.

Lemma utf32_decode_at_encode big obj pos s :
  utf32_decode_at big obj pos (utf32_encode big s) = Ok (List.map byte (String.list_ascii_of_string s)).
Proof.
  revert pos. induction s as [|c s IH]; intros pos; [done|].
  assert (Hu : unit32 big (if big then "000" else c) "000" "000" (if big then c else "000") = byte c).
  { pose proof (byte_range c). destruct big; unfold unit32; rewrite !byte_nul, !Z.shiftl_0_l;
      rewrite ?Z.lor_0_l, ?Z.lor_0_r; done. }
  destruct big; cbn [utf32_encode utf32_decode_at]; cbn zeta; rewrite Hu;
    (rewrite decide_True by (pose proof (byte_range c); lia)); by rewrite IH.
Qed.
