(* ===== verification/Body.v ===== *)
(** * Reading the request body (FastAPI's [get_request_handler])

    Before [parse_pipeline] (main.py line 29) can receive [data: GraphData],
    FastAPI reads the body of the request: an empty body is no body; a
    body whose [Content-Type] is absent, empty, [application/json] or
    [application/*+json] is decoded with Starlette's [Request.json], that
    is [json.loads] on the bytes; any other body is kept as bytes.  A
    [json.JSONDecodeError] becomes a 422 answer of type [json_invalid]
    with the position the decoder reports; any other exception (a body
    that does not decode, an integer longer than 4300 digits) becomes
    [HTTPException(400, "There was an error parsing the body")].

    This file models those steps on the bytes of the body (a Rocq [string]
    read as a list of bytes): [get_content_type] of [email.message],
    [json.detect_encoding] and the decoder of [Codecs.v] it names, with
    the [surrogatepass] error handler [json.loads] uses, and the value the
    body parameter is validated against.  What the [json] type cannot hold
    is reported as [BodyBeyondModel]: characters above U+00FF and the
    floats of [Json.v].  The encoder a client uses ([encode_text]) is
    here too, for the theorem that every encoding [detect_encoding] tells
    apart carries the text to [json.loads] unchanged. *)

From S2P Require Import Prelude PyValue PyStr Json Cors Request Codecs.
From Stdlib Require Import Ascii.

(** ** [email.message.Message.get_content_type] *)

(** [s.count(c)] *)
Fixpoint str_count (c : ascii) (s : string) : nat :=
  match s with
  | EmptyString => 0
  | String c' s' => (if decide (c' = c) then 1 else 0) + str_count c s'
  end.

(** [s.endswith(suffix)] *)
Definition str_endswith (s suffix : string) : bool :=
  String.prefix (String.rev suffix) (String.rev s).

(** [get_content_type]: the value before the first [;] ([_splitparam]),
    stripped and lower-cased, or [text/plain] when it does not have exactly
    one [/]. *)
Definition get_content_type (value : string) : string :=
  let ctype := str_lower (str_strip (List.hd EmptyString (str_split ";" value))) in
  if decide (str_count "/" ctype = 1) then ctype else "text/plain".

(** [get_content_maintype] and [get_content_subtype]: the two sides of
    the [/]. *)
Definition content_maintype (ctype : string) : string := List.hd EmptyString (str_split "/" ctype).
Definition content_subtype (ctype : string) : string := List.nth 1 (str_split "/" ctype) EmptyString.

(** The test of [get_request_handler] on [request.headers.get("content-type")]:
    [if not content_type_value] reads JSON, and otherwise the main type must
    be [application] and the subtype [json] or end with [+json]. *)
Definition wants_json (content_type : option string) : bool :=
  match content_type with
  | None | Some EmptyString => true
  | Some v =>
      let ct := get_content_type v in
      bool_decide (content_maintype ct = "application") &&
      (bool_decide (content_subtype ct = "json") || str_endswith (content_subtype ct) "+json")
  end.

(** ** [json.detect_encoding] *)

Inductive encoding : Type :=
| Utf8 | Utf8Sig | Utf16 | Utf16BE | Utf16LE | Utf32 | Utf32BE | Utf32LE.

#[export] Instance encoding_eq_dec : EqDecision encoding.
Proof. solve_decision. Defined.

Definition nul (c : ascii) : bool := bool_decide (byte c = 0)%Z.

(** [b.startswith(prefix)] on bytes given by their values. *)
Definition starts_with_bytes (b : string) (prefix : list Z) : bool :=
  String.prefix (String.string_of_list_ascii (List.map (λ z, ascii_of_nat (Z.to_nat z)) prefix)) b.

(** The byte order marks first, then the zero bytes of the first four
    (or two) bytes, else UTF-8. *)
Definition detect_encoding (b : string) : encoding :=
  if starts_with_bytes b [0x00; 0x00; 0xFE; 0xFF]%Z || starts_with_bytes b [0xFF; 0xFE; 0x00; 0x00]%Z then Utf32
  else if starts_with_bytes b [0xFE; 0xFF]%Z || starts_with_bytes b [0xFF; 0xFE]%Z then Utf16
  else if starts_with_bytes b [0xEF; 0xBB; 0xBF]%Z then Utf8Sig
  else match b with
  | String b0 (String b1 (String b2 (String b3 _))) =>
      if nul b0 then (if nul b1 then Utf32BE else Utf16BE)
      else if nul b1 then (if nul b2 && nul b3 then Utf32LE else Utf16LE)
      else Utf8
  | String b0 (String b1 EmptyString) =>
      if nul b0 then Utf16BE else if nul b1 then Utf16LE else Utf8
  | _ => Utf8
  end.

(** ** [Request.json] and the body parameter *)

(** Why the body could not be read. *)
Inductive body_error : Type :=
| BodyJSONInvalid (msg : string) (pos : nat)  (** [json.JSONDecodeError]: 422 [json_invalid] *)
| BodyParseError                             (** any other exception: 400 *)
| BodyBeyondModel.                           (** text the model does not represent *)

#[export] Instance body_error_eq_dec : EqDecision body_error.
Proof. solve_decision. Defined.

(** A decoder's answer as a [str] of the model: its [UnicodeDecodeError]
    is an exception other than [JSONDecodeError], and a text with a
    character above U+00FF is beyond the model. *)
Definition decoded_text (r : result py_exc (list Z)) : result body_error string :=
  match r with
  | Err _ => Err BodyParseError
  | Ok cps => match latin1_string cps with Some s => Ok s | None => Err BodyBeyondModel end
  end.

(** The UTF-8 decoder's answer. *)
Definition utf8_text (b : string) : result body_error string := decoded_text (utf8_decode b).

(** The bytes after the UTF-8 byte order mark, which the [utf-8-sig]
    codec drops. *)
Definition drop_bom (b : string) : string :=
  match b with String _ (String _ (String _ rest)) => rest | _ => b end.

(** [s.decode(detect_encoding(s), "surrogatepass")] in [json.loads].
    The [utf-16] and [utf-32] codecs read the byte order from the mark
    ([FE FF] and [00 00 FE FF] are big-endian) and drop it; the others
    take the order their name gives. *)
Definition decode_bytes (b : string) : result body_error string :=
  match detect_encoding b with
  | Utf8 => utf8_text b
  | Utf8Sig => utf8_text (drop_bom b)
  | Utf16 => decoded_text (utf16_decode (starts_with_bytes b [0xFE; 0xFF]%Z) b (str_drop 2 b))
  | Utf16BE => decoded_text (utf16_decode true b b)
  | Utf16LE => decoded_text (utf16_decode false b b)
  | Utf32 => decoded_text (utf32_decode_at (starts_with_bytes b [0x00; 0x00; 0xFE; 0xFF]%Z) b 4 (str_drop 4 b))
  | Utf32BE => decoded_text (utf32_decode_at true b 0 b)
  | Utf32LE => decoded_text (utf32_decode_at false b 0 b)
  end.

(** The exceptions of [json.loads] as [get_request_handler] sorts them:
    a [JSONDecodeError] is kept with its message and position, the
    [ValueError] of [int()] is any other exception. *)
Definition loads_error (e : decode_error) : body_error :=
  match e with
  | JSONDecodeError msg pos => BodyJSONInvalid msg pos
  | IntDigitsError _ => BodyParseError
  | OutsideModel | DecodeFuel => BodyBeyondModel
  end.

(** [await request.json()]: [json.loads] on the bytes of the body; a
    [UnicodeDecodeError] is not a [JSONDecodeError]. *)
Definition request_json (raw : string) : result body_error json :=
  s ← decode_bytes raw;
  res_map_err loads_error (json_loads s).

(** What the body parameter is validated against: [None], the decoded
    JSON, or the bytes. *)
Inductive body_value : Type :=
| BodyNone
| BodyJson (v : json)
| BodyBytes (b : string).

(** The body step of [get_request_handler]: [body_bytes = await
    request.body()]; [if body_bytes:] the content type decides between
    [request.json()] and the bytes. *)
Definition read_body (hs : headers) (raw : string) : result body_error body_value :=
  if decide (raw = EmptyString) then Ok BodyNone
  else if wants_json (hdr_get hs "content-type") then BodyJson <$> request_json raw
  else Ok (BodyBytes raw).

(** [request_body_to_args] for the single body field [data: GraphData]:
    [None] is missing, bytes are not a [GraphData], and a decoded JSON
    value is validated as [Request.v] says. *)
Definition validate_body (bv : body_value) : result (list validation_error) GraphData :=
  match bv with
  | BodyNone => Err [VMissing ["body"] JNull]
  | BodyJson v => validate_graph_data v
  | BodyBytes b => Err [VModelAttributesType ["body"] (InBytes b)]
  end.

(** ** UTF-8 round trip *)

Lemma utf8_text_encode s : utf8_text (utf8_encode s) = Ok s.
Proof. unfold utf8_text, decoded_text. by rewrite utf8_decode_encode, latin1_string_bytes. Qed.

(** Two texts with the same UTF-8 bytes are the same text. *)
#[export] Instance utf8_encode_inj : Inj eq eq utf8_encode.
Proof. intros s t H. apply (f_equal utf8_text) in H. rewrite !utf8_text_encode in H. by injection H. Qed.

Definition nul_char : ascii := "000".

Lemma utf8_encode_has_nul_char c s :
  str_has nul_char (utf8_encode (String c s)) = (bool_decide (c = nul_char) || str_has nul_char (utf8_encode s))%bool.
Proof. destruct c as [[] [] [] [] [] [] [] []]; reflexivity. Qed.

Lemma utf8_encode_has_nul s : str_has nul_char (utf8_encode s) = str_has nul_char s.
Proof. induction s as [|c s IH]; [done|]. by rewrite utf8_encode_has_nul_char, IH. Qed.

(** The first byte of the encoding is ASCII or a lead byte [C2], [C3]. *)
Lemma utf8_encode_head c s : ∃ b t, utf8_encode (String c s) = String b t ∧ (byte b < 0xC4)%Z.
Proof. destruct c as [[] [] [] [] [] [] [] []]; eexists _, _; (split; [reflexivity|vm_compute; done]). Qed.

Lemma nul_false c : bool_decide (c = nul_char) = false → nul c = false.
Proof.
  intros Hc%bool_decide_eq_false. apply bool_decide_eq_false. intros H. apply Hc.
  unfold byte in H. rewrite <- (ascii_nat_embedding c). assert (nat_of_ascii c = 0) as -> by lia. done.
Qed.

(** Text without a zero byte whose first byte is neither a byte order
    mark's nor zero is read as UTF-8. *)
Lemma detect_encoding_utf8 b :
  str_has nul_char b = false → (∀ c t, b = String c t → byte c < 0xC4)%Z → detect_encoding b = Utf8.
Proof.
  intros Hn Hf. destruct b as [|b0 t]; [done|].
  specialize (Hf b0 t eq_refl). simpl in Hn. apply orb_false_iff in Hn as [H0 Hn].
  assert (Hne : ∀ k, k = 0 ∨ 0xC4 ≤ k < 256 → b0 ≠ ascii_of_nat k).
  { intros k [->| Hk] ->; [done|]. unfold byte in Hf. rewrite nat_ascii_embedding in Hf by lia. lia. }
  apply nul_false in H0.
  unfold detect_encoding, starts_with_bytes. cbn -[nul].
  repeat match goal with
  | |- context [ascii_dec ?a b0] =>
      destruct (ascii_dec a b0) as [Ha|_];
      [exfalso; apply (Hne (nat_of_ascii a)); [vm_compute; lia|by rewrite ascii_nat_embedding]|]
  end.
  destruct t as [|b1 [|b2 [|b3 t]]]; cbn -[nul] in Hn |- *; rewrite ?H0; [done|..];
    apply orb_false_iff in Hn as [H1 Hn]; apply nul_false in H1; by rewrite ?H1.
Qed.

(** ** Reading a UTF-8 body *)

(** A text without NUL sent in UTF-8 is decoded back to itself. *)
Lemma decode_bytes_encode s : str_has nul_char s = false → decode_bytes (utf8_encode s) = Ok s.
Proof.
  intros Hn. unfold decode_bytes. rewrite detect_encoding_utf8; [apply utf8_text_encode|..].
  - by rewrite utf8_encode_has_nul.
  - intros c t Hs. destruct s as [|c0 s]; [done|].
    destruct (utf8_encode_head c0 s) as (b & u & Hb & Hlt). rewrite Hs in Hb. by injection Hb as -> ->.
Qed.

(** ** Bodies in every encoding [detect_encoding] knows *)

(** [s.encode(codec)] for the codec each [encoding] names, as a client
    writes its body; [utf-16] and [utf-32] write a little-endian byte
    order mark first, as CPython does on little-endian machines. *)
Definition encode_text (e : encoding) (s : string) : string :=
  match e with
  | Utf8 => utf8_encode s
  | Utf8Sig => String "239" (String "187" (String "191" (utf8_encode s)))
  | Utf16 => String "255" (String "254" (utf16_encode false s))
  | Utf16BE => utf16_encode true s
  | Utf16LE => utf16_encode false s
  | Utf32 => String "255" (String "254" (String "000" (String "000" (utf32_encode false s))))
  | Utf32BE => utf32_encode true s
  | Utf32LE => utf32_encode false s
  end.

Lemma nul_nul : nul "000" = true.
Proof. reflexivity. Qed.

(** The facts [nul c = false] for the characters of a text without NUL. *)
Local Ltac nul_facts Hn := simpl in Hn; repeat (apply orb_false_iff in Hn as [?%nul_false Hn]).

(** The byte values of [starts_with_bytes] as characters. *)
Local Ltac bytes_lit := repeat match goal with |- context [ascii_of_nat (Z.to_nat ?z)] =>
    let a := eval vm_compute in (ascii_of_nat (Z.to_nat z)) in change (ascii_of_nat (Z.to_nat z)) with a end.

(** Every comparison of two characters, one of them maybe unknown. *)
Local Ltac ascii_cases := repeat match goal with
  | |- context [ascii_dec ?a ?b] => destruct (ascii_dec a b); [try discriminate; try subst|try congruence]
  end.

(** [detect_encoding] names the codec a non-empty text without NUL was
    written with. *)
Lemma detect_encode_text e s :
  s ≠ EmptyString → str_has nul_char s = false → detect_encoding (encode_text e s) = e.
Proof.
  intros Hne Hn. destruct e.
  2: destruct s as [|c s]; [done|]; destruct (utf8_encode_head c s) as (b & u & Hu & _); cbn [encode_text]; rewrite Hu.
  3-8: destruct s as [|c [|c2 s]]; [done|..]; nul_facts Hn.
  2-14: unfold detect_encoding, starts_with_bytes, encode_text; cbn [List.map String.string_of_list_ascii]; bytes_lit;
      cbn -[nul ascii_dec]; ascii_cases; cbn -[nul ascii_dec]; rewrite ?nul_nul;
      repeat match goal with H : nul _ = false |- _ => rewrite H; clear H end; try done.
  cbn [encode_text]. apply detect_encoding_utf8; [by rewrite utf8_encode_has_nul|].
  intros c t Hs. destruct s as [|c0 s]; [done|].
  destruct (utf8_encode_head c0 s) as (b & u & Hb & Hlt). rewrite Hs in Hb. by injection Hb as -> ->.
Qed.

Lemma decoded_text_bytes s : decoded_text (Ok (List.map byte (String.list_ascii_of_string s))) = Ok s.
Proof. unfold decoded_text. by rewrite latin1_string_bytes. Qed.

(** A non-empty text without NUL written in any encoding
    [detect_encoding] recognises is decoded back to itself. *)
Lemma decode_bytes_encode_text e s :
  s ≠ EmptyString → str_has nul_char s = false → decode_bytes (encode_text e s) = Ok s.
Proof.
  intros Hne Hn. unfold decode_bytes. rewrite detect_encode_text by done.
  destruct e; cbn [encode_text]; try apply utf8_text_encode;
    rewrite ?utf16_decode_encode, ?utf32_decode_at_encode; try apply decoded_text_bytes.
  - assert (Hb : ∀ t, starts_with_bytes (String "255" (String "254" t)) [0xFE; 0xFF]%Z = false) by done.
    rewrite Hb.
    cbn [str_drop]. by rewrite utf16_decode_encode, decoded_text_bytes.
  - assert (Hb : ∀ t, starts_with_bytes (String "255" t) [0x00; 0x00; 0xFE; 0xFF]%Z = false) by done.
    rewrite Hb.
    cbn [str_drop]. by rewrite utf32_decode_at_encode, decoded_text_bytes.
Qed.

(** The text of any encoding reaches [json.loads]. *)
Lemma request_json_encode_text e s :
  s ≠ EmptyString → str_has nul_char s = false →
  request_json (encode_text e s) = res_map_err loads_error (json_loads s).
Proof. intros Hne Hn. unfold request_json. by rewrite decode_bytes_encode_text. Qed.

Lemma encode_text_nonempty e s : s ≠ EmptyString → encode_text e s ≠ EmptyString.
Proof.
  destruct s as [|c s]; [done|]. intros _.
  destruct e; cbn [encode_text]; [|done..]. by destruct (utf8_encode_head c s) as (b & u & -> & _).
Qed.

(** C12: Whatever encoding [json.detect_encoding] recognises a client
    writes its text in (UTF-8 with or without a byte order mark, UTF-16
    and UTF-32 in either byte order or with a mark), FastAPI decodes the
    body to the same text and hands it to [json.loads]: the decoded
    value, or its error sorted as [get_request_handler] sorts it. *)
Theorem request_json_encoded e s :
  s ≠ EmptyString → str_has nul_char s = false →
  request_json (encode_text e s) = res_map_err loads_error (json_loads s).
Proof. apply request_json_encode_text. Qed.

(** What FastAPI decodes from a UTF-8 body is what [json.loads]
    gives on the text: the decoded value, or its error sorted as
    [get_request_handler] sorts it. *)
Lemma request_json_utf8_text s :
  str_has nul_char s = false → request_json (utf8_encode s) = res_map_err loads_error (json_loads s).
Proof. intros Hn. unfold request_json. by rewrite decode_bytes_encode. Qed.

(** A body a client writes with [json.dumps] and sends in UTF-8 under a
    JSON content type reaches validation as the value it was written
    from (each dictionary as a Python [dict] holds it), when its integers
    are short enough for [int()]. *)
Theorem read_body_dumps hs v :
  wants_json (hdr_get hs "content-type") = true → json_ints_fit v = true →
  read_body hs (utf8_encode (json_dumps v)) = Ok (BodyJson (json_norm v)).
Proof.
  intros Hct Hfit. unfold read_body.
  destruct (json_dumps_head v) as (c & t & Hd & _).
  destruct (utf8_encode_head c t) as (b & u & Hb & _). rewrite <- Hd in Hb.
  rewrite Hb, decide_False, <- Hb by done.
  rewrite Hct, request_json_utf8_text by apply json_dumps_no_nul.
  by rewrite json_loads_dumps_norm.
Qed.
