(* ===== verification/Pipeline.v ===== *)
(** * The handler [parse_pipeline] (main.py lines 28-49)

    [analyze] is the body of the [try] block (lines 31-46): the two
    comprehensions, the graph construction, the three results.
    [parse_pipeline] puts FastAPI's validation in front (422) and the
    [except Exception] clause behind (500 with the exception's text).  The
    handler is parameterised by the [DagCheck] interface standing for
    [nx.is_directed_acyclic_graph]; every theorem holds for any correct
    implementation, and the examples run with the depth-first search.

    [analysis_spec] is the contract of spec section 4.1, stated on the
    node keys [ks] and edge key pairs [ps] of the request: the node count
    is the number of distinct declared ids and endpoints, the edge count
    the number of distinct pairs, and [is_dag] says that the pair relation
    has no cycle.  [parse_pipeline_refines] shows every 200 answer meets
    it. *)

From S2P Require Import Prelude PyValue DiGraph Acyclic Request.

(** The JSON object returned on success (line 46). *)
Record analysis : Type := mk_analysis {
  num_nodes : nat;
  num_edges : nat;
  is_dag : bool;
}.

Inductive response : Type :=
| Resp200 (a : analysis)
| Resp422 (errs : list validation_error)
| Resp500 (detail : string).

Section Handler.
Context {dc : DagCheck}.

(** Lines 31-46. *)
Definition analyze (data : GraphData) : result py_exc analysis :=
  node_ids ← extract_node_ids (gd_nodes data);
  edges ← extract_edges (gd_edges data);
  G ← add_nodes_from empty_digraph node_ids;
  G ← add_edges_from G edges;
  Ok (mk_analysis (number_of_nodes G) (number_of_edges G) (dag_check G)).

(** The body of [async def parse_pipeline(data: GraphData)] on the
    validated model: lines 30-46 and the [except Exception as e] clause
    (lines 47-49). *)
Definition run_parse_pipeline (data : GraphData) : response :=
  match analyze data with
  | Ok a => Resp200 a
  | Err e => Resp500 ("Error parsing pipeline: " +:+ py_exc_str e)
  end.

(** [@app.post("/pipelines/parse")] on a decoded JSON body: FastAPI's
    validation of [data: GraphData] (422), then the function. *)
Definition parse_pipeline (body : json) : response :=
  match validate_graph_data body with
  | Err errs => Resp422 errs
  | Ok data => run_parse_pipeline data
  end.
End Handler.

(** ** The contract *)

Definition pair_rel (ps : list (pykey * pykey)) (x y : pykey) : Prop := (x, y) ∈ ps.

Definition analysis_spec (ks : list pykey) (ps : list (pykey * pykey)) (a : analysis) : Prop :=
  num_nodes a = size (list_to_set ks ∪ endpoints ps : gset pykey) ∧
  num_edges a = size (list_to_set ps : gset (pykey * pykey)) ∧
  (is_dag a = true ↔ ∀ v, ¬ tc (pair_rel ps) v v).

(** ** The graph of lines 34-36 *)

Lemma build_graph_Ok ids es g1 g2 :
  add_nodes_from empty_digraph ids = Ok g1 → add_edges_from g1 es = Ok g2 →
  ∃ ks ps, res_map node_item_key ids = Ok ks ∧ res_map edge_key es = Ok ps ∧
    (PNone ∉ ks) ∧ (PNone ∉ endpoints ps) ∧ wf g2 ∧
    g_node g2 = list_to_set ks ∪ endpoints ps ∧
    (∀ x y, arc g2 x y ↔ pair_rel ps x y) ∧
    number_of_edges g2 = size (list_to_set ps : gset (pykey * pykey)).
Proof.
  intros H1 H2.
  destruct (add_nodes_from_Ok _ _ _ wf_empty H1) as (ks & Hks & Hnk & Hwf1 & Hn1 & Hs1 & Hc1).
  destruct (add_edges_from_Ok_spec _ _ _ Hwf1 H2) as (ps & Hps & Hnp & Hwf2 & Hn2 & Hs2 & Hc2).
  exists ks, ps. split_and!; [done..| | |].
  - rewrite Hn2, Hn1. simpl. set_solver.
  - intros x y. unfold arc, pair_rel. rewrite Hs2, Hs1.
    unfold succs, adj_of; simpl. rewrite lookup_empty. set_solver.
  - apply arcs_counted_number_of_edges. rewrite <- (right_id_L ∅ union (list_to_set ps)).
    apply Hc2, Hc1, arcs_counted_empty.
Qed.

Lemma acyclic_pair_rel g ps : (∀ x y, arc g x y ↔ pair_rel ps x y) →
  acyclic g ↔ ∀ v, ¬ tc (pair_rel ps) v v.
Proof.
  intros Hsame. unfold acyclic.
  assert (∀ v, tc (arc g) v v ↔ tc (pair_rel ps) v v) as Htc
    by (intros v; split; apply tc_subrel; naive_solver).
  by setoid_rewrite Htc.
Qed.

Lemma analysis_spec_unique ks ps a a' :
  analysis_spec ks ps a → analysis_spec ks ps a' → a = a'.
Proof.
  destruct a as [n e b], a' as [n' e' b']; intros (Hn & He & Hb) (Hn' & He' & Hb'); simpl in *.
  subst. f_equal. destruct b, b'; naive_solver.
Qed.

Section HandlerProofs.
Context {dc : DagCheck}.

Lemma analyze_Ok d a :
  analyze d = Ok a ↔
  ∃ ids es g1 g2, extract_node_ids (gd_nodes d) = Ok ids ∧ extract_edges (gd_edges d) = Ok es ∧
    add_nodes_from empty_digraph ids = Ok g1 ∧ add_edges_from g1 es = Ok g2 ∧
    a = mk_analysis (number_of_nodes g2) (number_of_edges g2) (dag_check g2).
Proof.
  unfold analyze. split.
  - intros H. res_inv. eauto 10.
  - intros (ids & es & g1 & g2 & H1 & H2 & H3 & H4 & ->).
    rewrite H1, res_bind_Ok; cbv beta. rewrite H2, res_bind_Ok; cbv beta.
    by rewrite H3, res_bind_Ok, H4, res_bind_Ok.
Qed.

(** The counts and the DAG flag of a successful analysis are those of
    the request's keys. *)
Lemma analyze_spec d ids es g1 g2 :
  extract_node_ids (gd_nodes d) = Ok ids → extract_edges (gd_edges d) = Ok es →
  add_nodes_from empty_digraph ids = Ok g1 → add_edges_from g1 es = Ok g2 →
  ∃ ks ps, res_map node_item_key ids = Ok ks ∧ res_map edge_key es = Ok ps ∧
    (PNone ∉ ks) ∧ (PNone ∉ endpoints ps) ∧
    analysis_spec ks ps (mk_analysis (number_of_nodes g2) (number_of_edges g2) (dag_check g2)).
Proof.
  intros _ _ H1 H2.
  destruct (build_graph_Ok ids es g1 g2 H1 H2) as (ks & ps & Hks & Hps & ? & ? & Hwf & Hn & Harc & He).
  exists ks, ps. split_and!; [done..|]. split_and!; simpl.
  - unfold number_of_nodes. by rewrite Hn.
  - done.
  - rewrite dag_check_correct by done. by apply acyclic_pair_rel.
Qed.

(** Every successful analysis meets the contract of spec section 4.1. *)
Theorem analyze_refines d a :
  analyze d = Ok a →
  ∃ ids es ks ps, extract_node_ids (gd_nodes d) = Ok ids ∧ extract_edges (gd_edges d) = Ok es ∧
    res_map node_item_key ids = Ok ks ∧ res_map edge_key es = Ok ps ∧ analysis_spec ks ps a.
Proof.
  intros (ids & es & g1 & g2 & Hids & Hes & H1 & H2 & ->)%analyze_Ok.
  destruct (analyze_spec d ids es g1 g2) as (ks & ps & ? & ? & _ & _ & Hspec); [done..|].
  eauto 10.
Qed.

(** The analysis succeeds when every node entry has an id usable as a
    node and every edge has hashable endpoints, none of them [None]. *)
Lemma analyze_Ok_spec d ids es ks ps :
  extract_node_ids (gd_nodes d) = Ok ids → extract_edges (gd_edges d) = Ok es →
  res_map node_item_key ids = Ok ks → PNone ∉ ks →
  res_map edge_key es = Ok ps → PNone ∉ endpoints ps →
  ∃ a, analyze d = Ok a ∧ analysis_spec ks ps a.
Proof.
  intros Hids Hes Hks Hnk Hps Hnp.
  destruct (add_nodes_from_succeeds empty_digraph ids ks wf_empty Hks Hnk) as [g1 H1].
  destruct (add_nodes_from_Ok _ _ _ wf_empty H1) as (_ & _ & _ & Hwf1 & _).
  destruct (add_edges_from_succeeds g1 es ps Hwf1 Hps Hnp) as [g2 H2].
  destruct (analyze_spec d ids es g1 g2) as (ks' & ps' & Hks' & Hps' & _ & _ & Hspec); [done..|].
  rewrite Hks in Hks'. rewrite Hps in Hps'. simplify_eq.
  eexists; split; [|done]. apply analyze_Ok. eauto 10.
Qed.

(** C27: The analysis succeeds when every node entry has an id usable as a
    node and every edge has hashable endpoints, none of them [None]. *)
Theorem analyze_succeeds d ids es ks ps :
  extract_node_ids (gd_nodes d) = Ok ids → extract_edges (gd_edges d) = Ok es →
  res_map node_item_key ids = Ok ks → PNone ∉ ks →
  res_map edge_key es = Ok ps → PNone ∉ endpoints ps →
  ∃ a, analyze d = Ok a ∧ analysis_spec ks ps a.
Proof. apply analyze_Ok_spec. Qed.

(** C1: A 200 answer of the handler satisfies the contract, for the keys of
    the validated request. *)
Theorem parse_pipeline_refines body a :
  parse_pipeline body = Resp200 a →
  ∃ d ids es ks ps, validate_graph_data body = Ok d ∧
    extract_node_ids (gd_nodes d) = Ok ids ∧ extract_edges (gd_edges d) = Ok es ∧
    res_map node_item_key ids = Ok ks ∧ res_map edge_key es = Ok ps ∧ analysis_spec ks ps a.
Proof.
  unfold parse_pipeline, run_parse_pipeline. destruct (validate_graph_data body) as [d|] eqn:Hv; [|done].
  destruct (analyze d) as [a'|] eqn:Ha; [|done]. intros [= <-].
  destruct (analyze_refines d a' Ha) as (ids & es & ks & ps & ?). eauto 10.
Qed.
End HandlerProofs.

(** ** What the answer depends on *)

Lemma analysis_spec_same_elems ks ks' ps ps' a :
  (∀ k, k ∈ ks' ↔ k ∈ ks) → (∀ p, p ∈ ps' ↔ p ∈ ps) →
  analysis_spec ks ps a → analysis_spec ks' ps' a.
Proof.
  intros Hk Hp (Hn & He & Hd). unfold analysis_spec. rewrite (endpoints_same_elems ps ps' Hp).
  assert (∀ {A} `{Countable A} (l l' : list A), (∀ x, x ∈ l' ↔ x ∈ l) →
    (list_to_set l' : gset A) = list_to_set l) as Hset.
  { intros A ?? l l' Hl. apply set_eq. intros x. by rewrite !elem_of_list_to_set. }
  split_and!.
  - by rewrite (Hset _ _ _ ks ks' Hk).
  - by rewrite (Hset _ _ _ ps ps' Hp).
  - rewrite Hd. assert (∀ v, tc (pair_rel ps) v v ↔ tc (pair_rel ps') v v) as Htc.
    { intros v. split; apply tc_subrel; intros x y; unfold pair_rel; apply Hp. }
    by setoid_rewrite Htc.
Qed.

Section HandlerShape.
Context {dc : DagCheck}.

(** C28: Order and repetition of the node and edge entries do not matter:
    requests with the same entries get the same answer. *)
Theorem analyze_same_entries d d' a :
  (∀ n, n ∈ gd_nodes d' ↔ n ∈ gd_nodes d) → (∀ e, e ∈ gd_edges d' ↔ e ∈ gd_edges d) →
  analyze d = Ok a → analyze d' = Ok a.
Proof.
  intros Hn He (ids & es & g1 & g2 & Hids & Hes & H1 & H2 & ->)%analyze_Ok.
  destruct (analyze_spec d ids es g1 g2) as (ks & ps & Hks & Hps & Hnk & Hnp & Hspec);
    [done..|].
  destruct (res_map_same_elems _ _ _ _ Hn Hids) as (ids' & Hids' & Hid).
  destruct (res_map_same_elems _ _ _ _ He Hes) as (es' & Hes' & Hee).
  destruct (res_map_same_elems _ _ _ _ Hid Hks) as (ks' & Hks' & Hk).
  destruct (res_map_same_elems _ _ _ _ Hee Hps) as (ps' & Hps' & Hp).
  destruct (analyze_Ok_spec d' ids' es' ks' ps') as (a' & Ha' & Hspec');
    [done|done|done| |done| |].
  - by rewrite Hk.
  - by rewrite (endpoints_same_elems ps ps' Hp).
  - rewrite Ha'. f_equal. apply (analysis_spec_unique ks ps); [|done].
    eapply analysis_spec_same_elems; [..|done]; intros; [by rewrite Hk|by rewrite Hp].
Qed.

(** ** Errors, and the order in which they are found *)

(** The first node entry without a usable ["id"] decides the exception,
    whatever the edges hold. *)
Theorem analyze_first_bad_node d pre n post e :
  gd_nodes d = pre ++ n :: post → Forall (λ x, ∃ id, py_getitem x "id" = Ok id) pre →
  py_getitem n "id" = Err e → analyze d = Err e.
Proof.
  intros Hd Hpre Hn. unfold analyze, extract_node_ids.
  rewrite (proj2 (res_map_Err_iff _ _ e)); [done|]. rewrite Hd. by exists pre, n, post.
Qed.

(** C31: Once every node has an id, the first malformed edge decides the
    exception: both comprehensions run before any id is hashed. *)
Theorem analyze_first_bad_edge d ids pre x post e :
  extract_node_ids (gd_nodes d) = Ok ids →
  gd_edges d = pre ++ x :: post → Forall (λ y, ∃ st, extract_edge y = Ok st) pre →
  extract_edge x = Err e → analyze d = Err e.
Proof.
  intros Hids Hd Hpre Hx. unfold analyze. rewrite Hids, res_bind_Ok; cbv beta.
  unfold extract_edges. rewrite (proj2 (res_map_Err_iff _ _ e)); [done|].
  rewrite Hd. by exists pre, x, post.
Qed.

(** C32: A node id [null] (or an unpacked [[null, attrs]]) raises networkx's
    [ValueError] once both comprehensions have succeeded. *)
Theorem analyze_none_node d ids es ks :
  extract_node_ids (gd_nodes d) = Ok ids → extract_edges (gd_edges d) = Ok es →
  res_map node_item_key ids = Ok ks → PNone ∈ ks →
  analyze d = Err (ValueError "None cannot be a node").
Proof.
  intros Hids Hes Hks Hin. unfold analyze. rewrite Hids, res_bind_Ok; cbv beta.
  rewrite Hes, res_bind_Ok; cbv beta.
  by rewrite (add_nodes_from_None empty_digraph ids ks wf_empty Hks Hin).
Qed.

(** Once the comprehensions and [add_nodes_from] have succeeded, the
    analysis raises exactly the exception of the first edge with an
    unhashable or [None] endpoint. *)
Theorem analyze_first_bad_endpoint d ids es g e :
  extract_node_ids (gd_nodes d) = Ok ids → extract_edges (gd_edges d) = Ok es →
  add_nodes_from empty_digraph ids = Ok g →
  analyze d = Err e ↔ res_map edge_endpoint_keys es = Err e.
Proof.
  intros Hids Hes Hg. unfold analyze. rewrite Hids, res_bind_Ok; cbv beta.
  rewrite Hes, res_bind_Ok; cbv beta. rewrite Hg, res_bind_Ok; cbv beta.
  rewrite <- (add_edges_from_Err g es e) by eauto using add_nodes_from_preserves_wf, wf_empty.
  destruct (add_edges_from g es); res_simpl; naive_solver.
Qed.
End HandlerShape.

Section HandlerConsequences.
Context {dc : DagCheck}.

(** Spec section 8: a request with no edges is a DAG with no arc. *)
Theorem analyze_no_edges d a :
  gd_edges d = [] → analyze d = Ok a → num_edges a = 0 ∧ is_dag a = true.
Proof.
  intros Hnil (ids & es & ks & ps & _ & Hes & _ & Hps & _ & He & Hd)%analyze_refines.
  unfold extract_edges in Hes. rewrite Hnil in Hes. injection Hes as <-.
  injection Hps as <-. split; [by rewrite He|]. apply Hd.
  intros v Hv. inversion Hv; unfold pair_rel in *; set_solver.
Qed.

(** Spec section 8: an edge from a node to itself makes the answer
    [is_dag = false]. *)
Theorem analyze_self_loop d a e s :
  e ∈ gd_edges d → extract_edge e = Ok (s, s) → analyze d = Ok a → is_dag a = false.
Proof.
  intros He Hss (ids & es & ks & ps & _ & Hes & _ & Hps & _ & _ & Hd)%analyze_refines.
  assert ((s, s) ∈ es) as Hin by (apply (res_map_elem_of _ _ _ _ Hes); eauto).
  destruct (res_map_Ok_elem _ _ _ _ Hps Hin) as ([u v] & Huv & Hp).
  unfold edge_key in Huv; simpl in Huv. res_inv. rewrite Ha in Ha0. injection Ha0 as ->.
  destruct (is_dag a); [|done]. exfalso.
  apply (proj1 Hd eq_refl v). by apply tc_once.
Qed.

(** The edge count is at most the number of edge entries, the node count
    at most the number of node entries plus two per edge entry. *)
Theorem analyze_count_bounds d a :
  analyze d = Ok a →
  num_edges a ≤ length (gd_edges d) ∧
  num_nodes a ≤ length (gd_nodes d) + 2 * length (gd_edges d).
Proof.
  intros (ids & es & ks & ps & Hids & Hes & Hks & Hps & Hn & He & _)%analyze_refines.
  apply res_map_length in Hids, Hes, Hks, Hps.
  pose proof (size_list_to_set_le ps). pose proof (size_list_to_set_le ks).
  pose proof (size_list_to_set_le ps.*1). pose proof (size_list_to_set_le ps.*2).
  pose proof (size_union_le (list_to_set ks) (endpoints ps)).
  pose proof (size_union_le (list_to_set ps.*1) (list_to_set ps.*2)).
  unfold endpoints in *. rewrite length_fmap in *. lia.
Qed.

(** A 500 answer carries [str(e)] of the exception the analysis raised. *)
Theorem parse_pipeline_500 body detail :
  parse_pipeline body = Resp500 detail ↔
  ∃ d e, validate_graph_data body = Ok d ∧ analyze d = Err e ∧
    detail = "Error parsing pipeline: " +:+ py_exc_str e.
Proof.
  unfold parse_pipeline, run_parse_pipeline. destruct (validate_graph_data body) as [d|errs] eqn:Hv.
  - destruct (analyze d) as [a|e] eqn:Ha.
    + split; [done|]. intros (d0 & e & [= <-] & He & _). congruence.
    + split; [intros [= <-]; eauto|]. intros (d0 & e' & [= <-] & He & ->). congruence.
  - split; [done|]. by intros (d0 & e & ? & _).
Qed.

(** A body that does not validate is refused with pydantic's errors and
    never reaches the analysis. *)
Theorem parse_pipeline_422 body errs :
  parse_pipeline body = Resp422 errs ↔ validate_graph_data body = Err errs.
Proof.
  unfold parse_pipeline, run_parse_pipeline. destruct (validate_graph_data body) as [d|errs'].
  - split; [by destruct (analyze d)|done].
  - split; congruence.
Qed.

(** A failed analysis is answered 500 with [str(e)]. *)
Lemma parse_pipeline_analyze_Err body d :
  validate_graph_data body = Ok d →
  (∀ a, analyze d ≠ Ok a) →
  ∃ e, analyze d = Err e ∧ parse_pipeline body = Resp500 ("Error parsing pipeline: " +:+ py_exc_str e).
Proof.
  intros Hv Hna. unfold parse_pipeline, run_parse_pipeline. rewrite Hv.
  destruct (analyze d) as [a|e]; [by destruct (Hna a)|eauto].
Qed.

(** C33: Spec sections 4.1 and 7 ask for a validation error (4xx) when a
    node lacks its id or an edge its source or target.  The code answers
    every such request with a 500: as soon as one node entry on which
    [node["id"]] raises, or one edge entry on which [edge["source"]] or
    [edge["target"]] raises, is in a body that validates, the analysis
    raises, whatever the other entries hold, and the answer is the
    [except] clause's 500 with [str(e)]. *)
Theorem parse_pipeline_bad_entry_500 body d :
  validate_graph_data body = Ok d →
  (∃ n e, n ∈ gd_nodes d ∧ py_getitem n "id" = Err e) ∨
  (∃ x k e, x ∈ gd_edges d ∧ (k = "source" ∨ k = "target") ∧ py_getitem x k = Err e) →
  ∃ e, analyze d = Err e ∧ parse_pipeline body = Resp500 ("Error parsing pipeline: " +:+ py_exc_str e).
Proof.
  intros Hv Hbad. apply (parse_pipeline_analyze_Err _ _ Hv). intros a Ha.
  apply analyze_Ok in Ha as (ids & es & g1 & g2 & Hids & Hes & _).
  unfold extract_node_ids, extract_edges in *.
  destruct Hbad as [(n & e & Hn & He)|(x & k & e & Hx & Hk & He)].
  - destruct (res_map_Ok_elem _ _ _ _ Hids Hn) as (y & Hy & _). congruence.
  - destruct (res_map_Ok_elem _ _ _ _ Hes Hx) as ([s t] & Hy & _). unfold extract_edge in Hy.
    res_inv. destruct Hk as [-> | ->]; congruence.
Qed.

(** C34: A node id [null], or an edge whose source or target is [null],
    passes both comprehensions and is refused by networkx: in a body that
    validates, the answer is a 500 whatever the other entries hold. *)
Theorem parse_pipeline_null_id_500 body d :
  validate_graph_data body = Ok d →
  (∃ n, n ∈ gd_nodes d ∧ py_getitem n "id" = Ok JNull) ∨
  (∃ x y, x ∈ gd_edges d ∧ (extract_edge x = Ok (JNull, y) ∨ extract_edge x = Ok (y, JNull))) →
  ∃ e, analyze d = Err e ∧ parse_pipeline body = Resp500 ("Error parsing pipeline: " +:+ py_exc_str e).
Proof.
  intros Hv Hnull. apply (parse_pipeline_analyze_Err _ _ Hv). intros a Ha.
  apply analyze_Ok in Ha as (ids & es & g1 & g2 & Hids & Hes & H1 & H2 & _).
  destruct (build_graph_Ok _ _ _ _ H1 H2) as (ks & ps & Hks & Hps & Hnk & Hnp & _).
  unfold extract_node_ids, extract_edges in *.
  destruct Hnull as [(n & Hn & Hid)|(x & y & Hx & Hxy)].
  - assert (JNull ∈ ids) as Hin by (apply (res_map_elem_of _ _ _ _ Hids); eauto).
    destruct (res_map_Ok_elem _ _ _ _ Hks Hin) as (k & Hk & Hk'). assert (k = PNone) as -> by (vm_compute in Hk; congruence). done.
  - destruct Hxy as [Hxy|Hxy]; [set (e := (JNull, y))|set (e := (y, JNull))];
      (assert (e ∈ es) as Hin by (apply (res_map_elem_of _ _ _ _ Hes); eauto));
      destruct (res_map_Ok_elem _ _ _ _ Hps Hin) as ([u v] & Huv & Hp); subst e;
      unfold edge_key in Huv; simpl in Huv; res_inv; simplify_eq/=;
      apply Hnp; unfold endpoints; rewrite elem_of_union, !elem_of_list_to_set, !list_elem_of_fmap;
      first [left; eexists; split; [|exact Hp]; done|right; eexists; split; [|exact Hp]; done].
Qed.
End HandlerConsequences.
