(* ===== verification/Output.v ===== *)
(** * What the handler prints (main.py lines 38-40 and 48)

    [parse_pipeline] writes to standard output: after building the graph,
    the three lines of lines 38-40, and in the [except] clause the line of
    line 48.  This file models the handler with its output, on the ordered
    dictionaries of [OrderedGraph.v] so that [G.edges()] is printed in
    networkx's order with the key objects networkx keeps: standard output
    is the list of lines [print] writes, [print(a, b)] being [str(a)],
    a space and [str(b)].  The theorems show that the output does not
    change the answer ([parse_pipeline_io] answers what [parse_pipeline]
    answers), what each kind of answer prints, and that the last debug line
    names every arc of the graph exactly once. *)

From S2P Require Import Prelude PyValue PyStr DiGraph Acyclic Request OrderedGraph Pipeline.

(** [print(a, b, ...)] with the default separator, one space, as one line of output. *)
Definition py_print (args : list string) : string := str_join " " args.

(** [str(e)] in the f-string of lines 48 and 49. *)
Definition error_line (e : py_exc) : string := "Error parsing pipeline: " +:+ py_exc_str e.

(** Lines 38-40: [print("Received Nodes:", node_ids)],
    [print("Received Edges:", edges)], [print("Graph Edges:", G.edges())];
    [str] of a list is its [repr], and [str] of an [OutEdgeView] that of
    [list(G.edges())]. *)
Definition debug_lines (node_ids : list json) (edges : list (json * json)) (g : odigraph) : list string :=
  [py_print ["Received Nodes:"; list_str py_repr node_ids];
   py_print ["Received Edges:"; list_str (uncurry tuple_repr) edges];
   py_print ["Graph Edges:"; list_str (uncurry tuple_repr) (o_edges g)]].

(** Lines 31-36 on the ordered dictionaries. *)
Definition build_graph_io (data : GraphData) :
    result py_exc (list json * list (json * json) * odigraph) :=
  node_ids ← extract_node_ids (gd_nodes data);
  edges ← extract_edges (gd_edges data);
  g ← o_add_nodes_from [] node_ids;
  g ← o_add_edges_from g edges;
  Ok (node_ids, edges, g).

Section Handler.
Context {dc : DagCheck}.

(** Lines 31-46 with their output: nothing is printed when lines 31-36
    raise, and lines 42-46 do not raise. *)
Definition analyze_io (data : GraphData) : list string * result py_exc analysis :=
  match build_graph_io data with
  | Err e => ([], Err e)
  | Ok (node_ids, edges, g) =>
      let G := o_to_digraph g in
      (debug_lines node_ids edges g,
       Ok (mk_analysis (number_of_nodes G) (number_of_edges G) (dag_check G)))
  end.

(** The handler with its output; the [except] clause prints the detail
    line before raising the [HTTPException]. *)
Definition parse_pipeline_io (body : json) : list string * response :=
  match validate_graph_data body with
  | Err errs => ([], Resp422 errs)
  | Ok data =>
      match analyze_io data with
      | (out, Ok a) => (out, Resp200 a)
      | (out, Err e) => (out ++ [error_line e], Resp500 (error_line e))
      end
  end.
End Handler.

(** ** The output does not change the answer *)

Lemma build_graph_io_Ok data ids es g :
  build_graph_io data = Ok (ids, es, g) →
  ∃ G1 G2, extract_node_ids (gd_nodes data) = Ok ids ∧ extract_edges (gd_edges data) = Ok es ∧
    add_nodes_from empty_digraph ids = Ok G1 ∧ add_edges_from G1 es = Ok G2 ∧ orel g G2.
Proof.
  unfold build_graph_io. intros H. res_inv. rename a1 into g1.
  pose proof (o_add_nodes_from_refines [] empty_digraph ids orel_empty) as H1.
  rewrite Ha1 in H1. destruct (res_rel_Ok _ _ _ H1) as (G1 & ? & Hr1).
  pose proof (o_add_edges_from_sim g1 G1 es Hr1) as H2.
  rewrite Ha2 in H2. destruct (res_rel_Ok _ _ _ H2) as (G2 & ? & ?).
  eauto 10.
Qed.

(** The key objects of the graph built hash to their keys. *)
Lemma build_graph_io_objs data ids es g : build_graph_io data = Ok (ids, es, g) → objs_hash g.
Proof.
  unfold build_graph_io. intros H. res_inv. simplify_eq.
  eauto using o_add_edges_from_objs, o_add_nodes_from_objs, objs_hash_nil.
Qed.

(** The objects the graph built keeps: for each key the first node item or
    endpoint offered with it, for each arc the target of its first edge. *)
Lemma build_graph_io_kept data ids es g :
  build_graph_io data = Ok (ids, es, g) →
  ∃ nis, res_map node_item ids = Ok nis ∧ kept_nodes g (nis.*2 ++ endpoints_seq es) ∧ kept_nbrs g es.
Proof.
  unfold build_graph_io. intros H. res_inv. simplify_eq.
  destruct (o_add_nodes_from_kept [] [] ids a1) as (nis & Hnis & Hn & He); [done..|].
  destruct (o_add_edges_from_kept _ _ [] es g Hn He) as [Hn' He']; [done|]. by exists nis.
Qed.

Lemma build_graph_io_Err {dc : DagCheck} data e : build_graph_io data = Err e → analyze data = Err e.
Proof.
  unfold build_graph_io, analyze.
  destruct (extract_node_ids _) as [ids|]; res_simpl; [|by intros [= ->]].
  destruct (extract_edges _) as [es|]; res_simpl; [|by intros [= ->]].
  pose proof (o_add_nodes_from_refines [] empty_digraph ids orel_empty) as H1.
  destruct (o_add_nodes_from [] ids) as [g1|e1]; res_simpl.
  - destruct (res_rel_Ok _ _ _ H1) as (G1 & -> & Hr1). res_simpl.
    pose proof (o_add_edges_from_sim g1 G1 es Hr1) as H2.
    destruct (o_add_edges_from g1 es); res_simpl; [done|].
    intros [= ->]. by rewrite (res_rel_Err _ _ _ H2).
  - intros [= ->]. by rewrite (res_rel_Err _ _ _ H1).
Qed.

Section HandlerProofs.
Context {dc : DagCheck}.

(** The analysis computed on the ordered dictionaries, read through
    [o_to_digraph], is the analysis of the set model. *)
Lemma analyze_io_refines data : (analyze_io data).2 = analyze data.
Proof.
  unfold analyze_io. destruct (build_graph_io data) as [[[ids es] g]|e] eqn:Hb; simpl.
  - destruct (build_graph_io_Ok _ _ _ _ Hb) as (G1 & G2 & H1 & H2 & H3 & H4 & Hr).
    assert (wf G2) by eauto using add_edges_from_wf, add_nodes_from_preserves_wf, wf_empty.
    rewrite (o_to_digraph_eq g G2 Hr) by done. symmetry. apply analyze_Ok. eauto 10.
  - symmetry. by apply build_graph_io_Err.
Qed.

(** C10: The debug output does not change the answer: the handler with its
    prints answers every request as [parse_pipeline] does. *)
Theorem parse_pipeline_io_response body : (parse_pipeline_io body).2 = parse_pipeline body.
Proof.
  unfold parse_pipeline_io, parse_pipeline, run_parse_pipeline. destruct (validate_graph_data body) as [data|]; [|done].
  rewrite <- analyze_io_refines. by destruct (analyze_io data) as [out [a|e]].
Qed.

(** A refused body prints nothing. *)
Theorem parse_pipeline_io_422 body out errs :
  parse_pipeline_io body = (out, Resp422 errs) → out = [].
Proof.
  unfold parse_pipeline_io. destruct (validate_graph_data body) as [data|]; [|congruence].
  by destruct (analyze_io data) as [o [a|e]].
Qed.

(** A 500 answer prints exactly its detail line: the exception is
    raised before any debug print. *)
Theorem parse_pipeline_io_500 body out detail :
  parse_pipeline_io body = (out, Resp500 detail) → out = [detail].
Proof.
  unfold parse_pipeline_io, analyze_io. destruct (validate_graph_data body) as [data|]; [|done].
  destruct (build_graph_io data) as [[[ids es] g]|e]; simpl; congruence.
Qed.

(** C16: A 200 answer prints the three debug lines: the node ids and edge
    pairs as extracted from the request, then [G.edges()], whose printed
    pairs of key objects hash to the distinct [(source, target)] keys of
    the request's edges, each exactly once, so that the line lists
    [num_edges] pairs. *)
Theorem parse_pipeline_io_200 body out a :
  parse_pipeline_io body = (out, Resp200 a) →
  ∃ data ids es ps g qs, validate_graph_data body = Ok data ∧
    extract_node_ids (gd_nodes data) = Ok ids ∧ extract_edges (gd_edges data) = Ok es ∧
    res_map edge_key es = Ok ps ∧ out = debug_lines ids es g ∧
    res_map edge_key (o_edges g) = Ok qs ∧ NoDup qs ∧ (∀ u v, (u, v) ∈ qs ↔ (u, v) ∈ ps) ∧
    length (o_edges g) = num_edges a.
Proof.
  unfold parse_pipeline_io, analyze_io.
  destruct (validate_graph_data body) as [data|]; [|done].
  destruct (build_graph_io data) as [[[ids es] g]|e] eqn:Hb; simpl; [|congruence]. intros [= <- <-].
  pose proof (o_edges_hash g (build_graph_io_objs _ _ _ _ Hb)) as Hq.
  destruct (build_graph_io_Ok _ _ _ _ Hb) as (G1 & G2 & H1 & H2 & H3 & H4 & Hr).
  destruct (build_graph_Ok _ _ _ _ H3 H4) as (ks & ps & _ & Hps & _ & _ & Hwf & _ & Harc & Hne).
  destruct (o_edge_keys_arcs g G2 Hr) as [Hnd Hkeys].
  assert (∀ u v, (u, v) ∈ o_edge_keys g ↔ (u, v) ∈ ps) as Hsame.
  { intros u v. rewrite Hkeys. apply Harc. }
  exists data, ids, es, ps, g, (o_edge_keys g). split_and!; [done..|]. simpl.
  rewrite (o_to_digraph_eq g G2 Hr Hwf), Hne, o_edges_length, <- (size_list_to_set (C := gset (pykey * pykey)) (o_edge_keys g)) by done.
  f_equal. apply set_eq. intros [u v]. rewrite !elem_of_list_to_set. apply Hsame.
Qed.

(** C17: On a 200 answer the line [Graph Edges:] prints exactly one pair
    per arc, made of the key objects the dictionaries kept: for the
    source, the first object with its key among the node ids (unpacked as
    [add_nodes_from] unpacks them) and then the edge endpoints, in the
    order [add_nodes_from] and [add_edges_from] meet them; for the target,
    the target object of the first edge of the request with that pair of
    keys. *)
Theorem parse_pipeline_io_edge_objects body out a :
  parse_pipeline_io body = (out, Resp200 a) →
  ∃ data ids es nis g, validate_graph_data body = Ok data ∧
    extract_node_ids (gd_nodes data) = Ok ids ∧ extract_edges (gd_edges data) = Ok es ∧
    res_map node_item ids = Ok nis ∧ out = debug_lines ids es g ∧
    ∀ x y, (x, y) ∈ o_edges g ↔
      ∃ u v, first_obj u (nis.*2 ++ endpoints_seq es) = Some x ∧ first_target u v es = Some y.
Proof.
  unfold parse_pipeline_io, analyze_io.
  destruct (validate_graph_data body) as [data|]; [|done].
  destruct (build_graph_io data) as [[[ids es] g]|e] eqn:Hb; simpl; [|congruence]. intros [= <- _].
  destruct (build_graph_io_kept _ _ _ _ Hb) as (nis & Hnis & Hn & He).
  destruct (build_graph_io_Ok _ _ _ _ Hb) as (G1 & G2 & H1 & H2 & _ & _ & Hr).
  exists data, ids, es, nis, g. split_and!; [done..|].
  apply o_edges_kept; [apply Hr|apply Hr|done|done].
Qed.
End HandlerProofs.
