(* ===== verification/Response.v ===== *)
(** * Rendering the answers

    The router's answers ([Routing.v]) are values: the handler's dict, the
    validation errors, the detail of an [HTTPException], a redirect, a
    documentation page, each with the [headers=] the code passes.  This
    file models how they become bytes and headers: FastAPI's
    [serialize_response] and exception handlers ([jsonable_encoder] on
    the content), Starlette's [JSONResponse] ([json.dumps(...)] encoded in
    UTF-8, [Response.init_headers]) and [RedirectResponse]; and the
    outermost layer, [ServerErrorMiddleware], which answers an exception
    raised below it with a plain-text 500 and then re-raises it.

    Rendered JSON is built on the UTF-8 bytes of its strings
    ([utf8_json]).  A [bytes] input echoed in a 422 entry is decoded by
    [jsonable_encoder] with [bytes.decode()] (strict UTF-8), and the text
    may hold characters above U+00FF; such a text is given by its bytes,
    which are the bytes of the body.  [json.dumps] with
    [ensure_ascii=False] escapes only ASCII characters and UTF-8 writes
    ASCII as itself and every other character with bytes from 0x80 on, so
    dumping the bytes is encoding the dump: [json_dumps_utf8] proves it
    for the texts of the model. *)

From S2P Require Import Prelude PyValue PyStr Json Cors Request Codecs Body Pipeline.
From Stdlib Require Import Ascii.
From stdpp Require Import pretty.

(** ** The router's answers *)

(** The endpoints of the application's routes. *)
Inductive endpoint : Type :=
| OpenApiSchema | SwaggerUI | SwaggerOAuthRedirect | ReDoc | ParsePipeline.

#[export] Instance endpoint_eq_dec : EqDecision endpoint.
Proof. solve_decision. Defined.

(** What the router answers with, before rendering. *)
Inductive app_body : Type :=
| AnalysisJson (a : analysis)                    (** the handler's 200 *)
| ValidationJson (errs : list validation_error)  (** FastAPI's 422 *)
| DetailJson (detail : string)                   (** an [HTTPException]: 400, 404, 405, 500 *)
| DocsPage (e : endpoint)                        (** a documentation route *)
| Redirect (url : string).                       (** [RedirectResponse(url)] *)

(** The route's answer once the handler has run: the returned dict, the
    validation errors of FastAPI's 422 handler, and the [HTTPException]
    of line 49; none passes [headers]. *)
Definition endpoint_response (r : response) : http_response app_body :=
  match r with
  | Resp200 a => mk_response 200 [] (AnalysisJson a)
  | Resp422 errs => mk_response 422 [] (ValidationJson errs)
  | Resp500 d => mk_response 500 [] (DetailJson d)
  end.

(** The answers FastAPI gives while reading the body: the 422 of a
    [JSONDecodeError] (a [RequestValidationError] with one [json_invalid]
    entry) and [HTTPException(400, "There was an error parsing the
    body")]; a body beyond the model has no answer of the model. *)
Definition body_error_response (e : body_error) : option (http_response app_body) :=
  match e with
  | BodyJSONInvalid msg pos => Some (mk_response 422 [] (ValidationJson [VJsonInvalid pos msg]))
  | BodyParseError => Some (mk_response 400 [] (DetailJson "There was an error parsing the body"))
  | BodyBeyondModel => None
  end.

(** The media types of the documentation routes: the schema is a
    [JSONResponse], the pages are [HTMLResponse]s. *)
Definition docs_media (e : endpoint) : string :=
  match e with OpenApiSchema => "application/json" | _ => "text/html" end.

(** ** [jsonable_encoder] *)

(** [jsonable_encoder] on a value [json.loads] built: a dict keeps its
    items in order except those whose key starts with ["_sa"]
    ([sqlalchemy_safe=True]); lists, strings, numbers, booleans and
    [None] are kept. *)
Fixpoint jsonable (v : json) : json :=
  match v with
  | JArr vs => JArr (List.map jsonable vs)
  | JObj kvs =>
      JObj (filter (λ kv, negb (String.prefix "_sa" kv.1))
              (dict_items (List.map (λ kv, (kv.1, jsonable kv.2)) kvs)))
  | _ => v
  end.

(** A value whose strings and keys are given by their UTF-8 bytes. *)
Fixpoint utf8_json (v : json) : json :=
  match v with
  | JStr s => JStr (utf8_encode s)
  | JArr vs => JArr (List.map utf8_json vs)
  | JObj kvs => JObj (List.map (λ kv, (utf8_encode kv.1, utf8_json kv.2)) kvs)
  | _ => v
  end.

(** [jsonable_encoder(content)], its strings given by their bytes. *)
Definition encode_json (v : json) : json := utf8_json (jsonable v).

(** The dict the handler returns (line 46). *)
Definition analysis_json (a : analysis) : json :=
  JObj [("num_nodes", JInt (Z.of_nat (num_nodes a)));
        ("num_edges", JInt (Z.of_nat (num_edges a)));
        ("is_dag", JBool (is_dag a))].

(** The [loc] of an entry: a tuple of field names, a list once encoded. *)
Definition loc_json (loc : list string) : json := JArr (JStr <$> loc).

(** [jsonable_encoder] on the [input] of an entry: a [bytes] input is
    decoded with [bytes.decode()], which raises [UnicodeDecodeError] on
    bytes that are not UTF-8; the text it gives is written with the
    bytes it was decoded from. *)
Definition encode_input (i : err_input) : result py_exc json :=
  match i with
  | InJson v => Ok (encode_json v)
  | InBytes b => _ ← utf8_decode_strict b; Ok (JStr b)
  end.

(** [jsonable_encoder] on one entry of [exc.errors()]: the keys [type],
    [loc], [msg], [input] and, for [json_invalid], [ctx], in pydantic's
    order (FastAPI builds the [json_invalid] entry itself, with the
    input [{}]). *)
Definition error_entry (e : validation_error) : result py_exc json :=
  let entry ty loc msg input := JObj [("type", JStr ty); ("loc", loc); ("msg", JStr msg); ("input", input)] in
  match e with
  | VMissing loc input => Ok (entry "missing" (loc_json loc) "Field required" (encode_json input))
  | VModelAttributesType loc input =>
      input' ← encode_input input;
      Ok (entry "model_attributes_type" (loc_json loc)
            "Input should be a valid dictionary or object to extract fields from" input')
  | VListType loc input => Ok (entry "list_type" (loc_json loc) "Input should be a valid list" (encode_json input))
  | VJsonInvalid pos msg =>
      Ok (JObj [("type", JStr "json_invalid"); ("loc", JArr [JStr "body"; JInt (Z.of_nat pos)]);
                ("msg", JStr "JSON decode error"); ("input", JObj []);
                ("ctx", JObj [("error", JStr (utf8_encode msg))])])
  end.

(** ** Starlette's responses *)

(** The body a response sends: its bytes, or a documentation page, which
    the model names without building. *)
Inductive wire_body : Type :=
| WireBytes (b : string)
| WireDocs (e : endpoint).

(** [JSONResponse(content, status_code, headers)]: [render] writes
    [json.dumps(content, ensure_ascii=False, allow_nan=False,
    indent=None, separators=(",", ":"))] encoded in UTF-8, and
    [init_headers] adds its length and the media type. *)
Definition json_response (status : nat) (hs : headers) (content : json) : http_response wire_body :=
  let body := json_dumps content in
  mk_response status (init_headers hs status (Some (String.length body)) (Some "application/json"))
    (WireBytes body).

(** An answer of the router as the application sends it: the handler's
    dict through [jsonable_encoder] ([serialize_response]); the errors of
    a [RequestValidationError] through [jsonable_encoder], which may
    raise; the [{"detail": ...}] of an [HTTPException] as it is; a
    documentation page with its media type; and [RedirectResponse], whose
    empty body gives [content-length: 0] before [location] is set. *)
Definition render_response (r : http_response app_body) : result py_exc (http_response wire_body) :=
  match rs_body r with
  | AnalysisJson a => Ok (json_response (rs_status r) (rs_headers r) (encode_json (analysis_json a)))
  | ValidationJson errs =>
      entries ← res_map error_entry errs;
      Ok (json_response (rs_status r) (rs_headers r) (JObj [("detail", JArr entries)]))
  | DetailJson d => Ok (json_response (rs_status r) (rs_headers r) (utf8_json (JObj [("detail", JStr d)])))
  | DocsPage e =>
      Ok (mk_response (rs_status r) (init_headers (rs_headers r) (rs_status r) None (Some (docs_media e))) (WireDocs e))
  | Redirect url =>
      Ok (mk_response (rs_status r) (hdr_set (init_headers (rs_headers r) (rs_status r) (Some 0) None) "location" url)
            (WireBytes EmptyString))
  end.

(** ** [ServerErrorMiddleware] *)

(** What the server sees of a request: the answer sent, and the exception
    the application raised after sending it, if any. *)
Record asgi_outcome : Type := mk_outcome {
  ao_response : http_response (cors_body wire_body);
  ao_raised : option py_exc;
}.

(** [ServerErrorMiddleware.__call__] with [debug=False]: an exception
    raised below it, before the answer has started, is answered with
    [PlainTextResponse("Internal Server Error", status_code=500)] and
    raised again. *)
Definition server_error_call (out : result py_exc (http_response (cors_body wire_body))) : asgi_outcome :=
  match out with
  | Ok r => mk_outcome r None
  | Err e => mk_outcome (plain_text_response "Internal Server Error" 500 []) (Some e)
  end.

(** The bytes of a body the model builds. *)
Definition sent_bytes (b : cors_body wire_body) : option string :=
  match b with
  | PlainText s => Some (utf8_encode s)
  | AppBody (WireBytes bs) => Some bs
  | AppBody (WireDocs _) => None
  end.

(** ** Dumping the bytes is encoding the dump *)

Section Utf8Dump.
#[local] Arguments String.append : simpl nomatch.

Lemma utf8_encode_ascii c s : (byte c < 0x80)%Z → utf8_encode (String c s) = String c (utf8_encode s).
Proof. intros Hc. cbn [utf8_encode]. by rewrite decide_True. Qed.

Lemma utf8_encode_all_digits ds : all_digits ds = true → utf8_encode ds = ds.
Proof.
  induction ds as [|d ds IH]; [done|]. cbn [all_digits]. intros [Hd Hds]%andb_prop.
  apply bool_decide_eq_true in Hd. rewrite utf8_encode_ascii by (unfold byte; lia). by rewrite IH.
Qed.

Lemma utf8_encode_pretty (z : Z) : utf8_encode (pretty z) = pretty z.
Proof.
  destruct z as [|p|p]; [done|..]; destruct (pretty_pos_digits p) as (d & ds & Hp & Hd & Hds & _).
  - rewrite Hp, utf8_encode_ascii by (unfold byte; lia). by rewrite utf8_encode_all_digits.
  - change (pretty (Z.neg p)) with ("-" +:+ pretty (Z.pos p)). rewrite Hp, str_app_cons, str_app_nil_l.
    rewrite utf8_encode_ascii by reflexivity.
    rewrite utf8_encode_ascii by (unfold byte; lia). by rewrite utf8_encode_all_digits.
Qed.

Lemma json_escape_char_utf8 c : json_escape (utf8_encode (String c EmptyString)) = utf8_encode (json_escape_char c).
Proof. destruct c as [[] [] [] [] [] [] [] []]; reflexivity. Qed.

Lemma json_escape_app s t : json_escape (s +:+ t) = json_escape s +:+ json_escape t.
Proof.
  induction s as [|c s IH]; [done|]. rewrite str_app_cons. cbn [json_escape]. by rewrite IH, str_app_assoc.
Qed.

Lemma json_escape_utf8 s : json_escape (utf8_encode s) = utf8_encode (json_escape s).
Proof.
  induction s as [|c s IH]; [done|].
  change (String c s) with (String c EmptyString +:+ s).
  rewrite utf8_encode_app, json_escape_app, json_escape_char_utf8, IH.
  rewrite str_app_cons, str_app_nil_l. cbn [json_escape]. by rewrite utf8_encode_app.
Qed.

Lemma json_quote_utf8 s : json_quote (utf8_encode s) = utf8_encode (json_quote s).
Proof.
  unfold json_quote. rewrite utf8_encode_ascii by reflexivity.
  by rewrite utf8_encode_app, utf8_encode_ascii, json_escape_utf8 by reflexivity.
Qed.

(** The text of a dict item, in bytes. *)
Lemma member_utf8 (kv : string * string) :
  json_quote (utf8_encode kv.1) +:+ ":" +:+ utf8_encode kv.2 = utf8_encode (json_quote kv.1 +:+ ":" +:+ kv.2).
Proof. by rewrite !utf8_encode_app, json_quote_utf8. Qed.

(** [json.dumps] of a value whose strings are given by their UTF-8
    bytes is the UTF-8 encoding of [json.dumps] of the value: rendering
    on bytes is [JSONResponse.render]'s [.encode("utf-8")] of the text. *)
Theorem json_dumps_utf8 v : json_dumps (utf8_json v) = utf8_encode (json_dumps v).
Proof.
  induction v as [| b | z | s | vs IH | kvs IH] using json_ind'.
  - done.
  - by destruct b.
  - cbn [json_dumps utf8_json]. by rewrite utf8_encode_pretty.
  - apply json_quote_utf8.
  - cbn [json_dumps utf8_json]. rewrite !utf8_encode_app, utf8_encode_join, !map_map.
    f_equal. f_equal. f_equal. by apply Forall_fmap_ext_1.
  - cbn [json_dumps utf8_json].
    assert (Hm : List.map (λ kv, (kv.1, json_dumps kv.2)) (List.map (λ kv, (utf8_encode kv.1, utf8_json kv.2)) kvs)
      = List.map (λ kv, (utf8_encode kv.1, kv.2))
          (List.map (λ kv, (kv.1, utf8_encode kv.2)) (List.map (λ kv, (kv.1, json_dumps kv.2)) kvs))).
    { rewrite !map_map. apply Forall_fmap_ext_1. eapply Forall_impl; [exact IH|]. intros [k v] Hv. cbn in Hv |- *. by rewrite Hv. }
    rewrite Hm, dict_items_map_keys, (dict_items_map utf8_encode) by apply _.
    rewrite !utf8_encode_app, utf8_encode_join. do 3 f_equal.
    generalize (dict_items (List.map (λ kv, (kv.1, json_dumps kv.2)) kvs)) as l.
    induction l as [|kv l IHl]; [done|]. cbn. f_equal; [apply member_utf8|apply IHl].
Qed.
End Utf8Dump.

(** ** What rendering writes *)

Section Rendered.
#[local] Arguments init_headers : simpl never.

Lemma encode_analysis a : encode_json (analysis_json a) = analysis_json a.
Proof. reflexivity. Qed.

Lemma render_response_status r w : render_response r = Ok w → rs_status w = rs_status r.
Proof. unfold render_response. destruct (rs_body r); intros H; res_inv; by simplify_eq. Qed.

(** The header names of a rendered answer: the router's, lower-cased,
    and those Starlette adds. *)
Lemma render_response_keys r w x :
  render_response r = Ok w → x ∈ (rs_headers w).*1 →
  x ∈ str_lower <$> (rs_headers r).*1 ∨ x ∈ ["content-length"; "content-type"; "location"].
Proof.
  unfold render_response. destruct (rs_body r); intros H; res_inv; simplify_eq; unfold json_response; cbn [rs_headers rs_body rs_status];
    try (intros [Hx|[->| ->]]%init_headers_keys; set_solver).
  intros [->|[Hx|[->| ->]]%init_headers_keys]%hdr_set_keys; set_solver.
Qed.

Lemma render_response_lower r w : render_response r = Ok w → hdr_lower (rs_headers w).
Proof.
  unfold render_response. destruct (rs_body r); intros H; res_inv; simplify_eq; unfold json_response; cbn [rs_headers rs_body rs_status];
    auto using init_headers_lower, hdr_set_lower.
Qed.

(** The length a rendered answer declares is the length of its bytes. *)
Lemma render_response_length r w bs :
  render_response r = Ok w → "content-length" ∉ str_lower <$> (rs_headers r).*1 →
  200 ≤ rs_status r → rs_status r ≠ 204 → rs_status r ≠ 304 → rs_body w = WireBytes bs →
  hdr_get (rs_headers w) "content-length" = Some (nat_str (String.length bs)).
Proof.
  intros H Hcl Hs H204 H304. revert H. unfold render_response.
  destruct (rs_body r); intros H; res_inv; simplify_eq; unfold json_response; cbn [rs_headers rs_body rs_status]; intros [= <-];
    try (by apply init_headers_length).
  rewrite hdr_get_set, decide_False by (vm_compute; discriminate). by apply init_headers_length.
Qed.

(** One entry is encoded unless it echoes bytes that are not UTF-8. *)
Lemma error_entry_Err e x :
  error_entry x = Err e → ∃ loc b, x = VModelAttributesType loc (InBytes b) ∧ utf8_decode_strict b = Err e.
Proof.
  destruct x as [| loc [v|b] | |]; cbn; try done.
  destruct (utf8_decode_strict b) eqn:Hb; [done|]. intros [= ->]. eauto.
Qed.

(** Rendering raises only when a 422 answer echoes bytes that are not
    UTF-8: [jsonable_encoder]'s [bytes.decode()]. *)
Lemma render_response_Err r e :
  render_response r = Err e →
  ∃ errs loc b, rs_body r = ValidationJson errs ∧ VModelAttributesType loc (InBytes b) ∈ errs ∧
    utf8_decode_strict b = Err e.
Proof.
  unfold render_response. destruct (rs_body r) as [|errs| | |]; try done.
  intros [Hm|(a & _ & Ha)]%res_bind_Err_inv; [|done].
  apply res_map_Err_iff in Hm as (pre & x & post & -> & _ & (loc & b & -> & Hb)%error_entry_Err).
  exists (pre ++ VModelAttributesType loc (InBytes b) :: post), loc, b. set_solver.
Qed.

(** Every entry is encoded when the bytes echoed are UTF-8. *)
Lemma render_response_Ok r :
  (∀ errs loc b, rs_body r = ValidationJson errs → VModelAttributesType loc (InBytes b) ∈ errs →
     ∃ cps, utf8_decode_strict b = Ok cps) →
  ∃ w, render_response r = Ok w.
Proof.
  intros Hok. destruct (render_response r) as [w|e] eqn:Hr; [by eauto|].
  destruct (render_response_Err r e Hr) as (errs & loc & b & He & Hin & Hb).
  destruct (Hok errs loc b He Hin) as [cps Hc]. congruence.
Qed.
End Rendered.
