(* ===== verification/Routing.v ===== *)
(** * The application: FastAPI's routing and the middleware stack

    [app = FastAPI()] (line 9) builds a Starlette router whose routes are,
    in order, the four documentation routes FastAPI installs by default
    ([/openapi.json], [/docs], [/docs/oauth2-redirect], [/redoc], each
    for GET and HEAD) and the route [@app.post("/pipelines/parse")]
    (line 28, POST only).  [Router.app] hands a request to the first route
    that matches path and method, else to the first that matches the path
    only (which answers 405 with an [Allow] header), else, when the path
    with a trailing slash added or removed matches a route, redirects
    there (307), else answers 404.  FastAPI's exception middleware turns
    the [HTTPException]s of 404, 405 and of the handler into
    [{"detail": ...}] answers ([router_app]); the answers are rendered as
    [Response.v] models ([wire_app]), inside the CORS middleware, which
    is inside [ServerErrorMiddleware] ([main_app]).  Run as a script, the
    module hands [main_app] to [uvicorn.run] on 127.0.0.1:8000
    ([module_main], lines 52-55).

    The endpoint of line 28 ([parse_endpoint]) reads the body as [Body.v]
    models it, validates [data: GraphData] and runs the handler; a body
    beyond the model (a float, a character above U+00FF, UTF-16 or
    UTF-32 text) leaves the answer undetermined ([None]), and the theorems
    say exactly when.  The last theorems show that [main_app] answers
    every request with one of seven statuses, lower-case header names and
    the length of its bytes in [content-length], give the frontend's 200
    byte for byte, and show that it raises exactly when a body kept as
    bytes is not UTF-8, after a plain 500.  Request paths are taken after
    percent-decoding, and the redirect target is given by its path. *)

From S2P Require Import Prelude PyValue PyStr Json DiGraph Acyclic Cors Request Codecs Body Pipeline Response.
From Stdlib Require Import Ascii.

(** ** Routes *)

Record route : Type := mk_route {
  rt_path : string;
  rt_methods : list string;
  rt_endpoint : endpoint;
}.

(** [FastAPI.setup()] adds the documentation routes ([add_route] with no
    methods gives GET, and Starlette adds HEAD to GET), then line 28 adds
    the handler's route. *)
Definition main_routes : list route := [
  mk_route "/openapi.json" ["GET"; "HEAD"] OpenApiSchema;
  mk_route "/docs" ["GET"; "HEAD"] SwaggerUI;
  mk_route "/docs/oauth2-redirect" ["GET"; "HEAD"] SwaggerOAuthRedirect;
  mk_route "/redoc" ["GET"; "HEAD"] ReDoc;
  mk_route "/pipelines/parse" ["POST"] ParsePipeline ].

Inductive match_kind : Type := MatchNone | MatchPartial | MatchFull.

#[export] Instance match_kind_eq_dec : EqDecision match_kind.
Proof. solve_decision. Defined.

(** [Route.matches]: the path pattern (a constant path here) and then the
    method. *)
Definition route_matches (r : route) (method path : string) : match_kind :=
  if decide (path = rt_path r) then
    if decide (method ∈ rt_methods r) then MatchFull else MatchPartial
  else MatchNone.

(** What [Router.app] does with the request. *)
Inductive dispatch : Type :=
| Handle (r : route)
| RedirectTo (path : string)
| NotFound.

Fixpoint str_ends_with_slash (s : string) : bool :=
  match s with
  | EmptyString => false
  | String c EmptyString => bool_decide (c = "/"%char)
  | String _ s' => str_ends_with_slash s'
  end.

(** [path.rstrip("/")] *)
Definition str_rstrip_slash (s : string) : string :=
  String.rev (let fix go (s : string) : string :=
                match s with
                | String c s' => if decide (c = "/"%char) then go s' else s
                | EmptyString => EmptyString
                end in go (String.rev s)).

(** [Router.app] on an HTTP request: the first full match, else the first
    partial match, else the [redirect_slashes] retry, else [default]. *)
Definition router_dispatch (routes : list route) (method path : string) : dispatch :=
  match list_find (λ r, route_matches r method path = MatchFull) routes with
  | Some (_, r) => Handle r
  | None =>
      match list_find (λ r, route_matches r method path = MatchPartial) routes with
      | Some (_, r) => Handle r
      | None =>
          if decide (path ≠ "/") then
            let path' := if str_ends_with_slash path then str_rstrip_slash path
                         else path +:+ "/" in
            if decide (Exists (λ r, route_matches r method path' ≠ MatchNone) routes)
            then RedirectTo path' else NotFound
          else NotFound
      end
  end.

Section App.
Context {dc : DagCheck}.

(** [get_request_handler] for the route of line 28: read the body,
    validate [data: GraphData] (a [RequestValidationError] is a 422), then
    run the function. *)
Definition solve_body (bv : body_value) : response :=
  match validate_body bv with
  | Err errs => Resp422 errs
  | Ok data => run_parse_pipeline data
  end.

Definition parse_endpoint (req : http_request) : option (http_response app_body) :=
  match read_body (rq_headers req) (rq_body req) with
  | Err e => body_error_response e
  | Ok bv => Some (endpoint_response (solve_body bv))
  end.

(** [Route.handle]: a method the route does not accept raises
    [HTTPException(405, headers={"Allow": ", ".join(methods)})].  The
    methods are a Python set; for the two-method documentation routes
    the order in [Allow] is the set's iteration order, taken here as
    listed. *)
Definition route_handle (r : route) (req : http_request) : option (http_response app_body) :=
  if decide (rq_method req ∈ rt_methods r) then
    match rt_endpoint r with
    | ParsePipeline => parse_endpoint req
    | e => Some (mk_response 200 [] (DocsPage e))
    end
  else Some (mk_response 405 [("Allow", str_join ", " (rt_methods r))] (DetailJson "Method Not Allowed")).

(** The router with FastAPI's exception middleware. *)
Definition router_app (req : http_request) : option (http_response app_body) :=
  match router_dispatch main_routes (rq_method req) (rq_path req) with
  | Handle r => route_handle r req
  | RedirectTo p => Some (mk_response 307 [] (Redirect p))
  | NotFound => Some (mk_response 404 [] (DetailJson "Not Found"))
  end.

(** The router's answers as Starlette sends them ([Response.v]).  They
    are rendered inside FastAPI's exception middleware, so what rendering
    raises reaches the CORS middleware. *)
Definition wire_app (req : http_request) : option (result py_exc (http_response wire_body)) :=
  render_response <$> router_app req.

(** The whole application: [ServerErrorMiddleware] outermost, then the
    CORS middleware of lines 12-20, then the router. *)
Definition main_app (req : http_request) : option asgi_outcome :=
  server_error_call <$> cors_call main_cors wire_app req.

(** The server [uvicorn.run] starts: the application and the address it
    listens on. *)
Record server : Type := mk_server {
  sv_app : http_request → option asgi_outcome;
  sv_host : string;
  sv_port : nat;
}.

(** Lines 52-55: [if __name__ == "__main__": uvicorn.run(app,
    host="127.0.0.1", port=8000)]; the module imported under any other
    name (as a server like [uvicorn main:app] imports it) starts nothing. *)
Definition module_main (name : string) : option server :=
  if decide (name = "__main__") then Some (mk_server main_app "127.0.0.1" 8000) else None.

End App.

(** ** Dispatch *)

Definition parse_route : route := mk_route "/pipelines/parse" ["POST"] ParsePipeline.

Lemma route_matches_path r m p : route_matches r m p ≠ MatchNone → p = rt_path r.
Proof. unfold route_matches. by repeat case_decide. Qed.

Lemma router_dispatch_Handle routes m p r :
  router_dispatch routes m p = Handle r → r ∈ routes ∧ p = rt_path r.
Proof.
  unfold router_dispatch.
  destruct (list_find (λ r, route_matches r m p = MatchFull) routes) as [[i r1]|] eqn:Hf1.
  { intros [= <-]. apply list_find_Some in Hf1 as (Hl & Hm & _).
    split; [by eapply list_elem_of_lookup_2|]. apply (route_matches_path _ m). by rewrite Hm. }
  destruct (list_find (λ r, route_matches r m p = MatchPartial) routes) as [[i r1]|] eqn:Hf2.
  { intros [= <-]. apply list_find_Some in Hf2 as (Hl & Hm & _).
    split; [by eapply list_elem_of_lookup_2|]. apply (route_matches_path _ m). by rewrite Hm. }
  by repeat case_decide.
Qed.

(** The only route whose endpoint is the handler. *)
Lemma main_routes_parse r : r ∈ main_routes → rt_endpoint r = ParsePipeline → r = parse_route.
Proof. unfold main_routes. intros Hr He. repeat (apply elem_of_cons in Hr as [->|Hr]; [done|]); set_solver. Qed.

Lemma router_dispatch_parse m : router_dispatch main_routes m "/pipelines/parse" = Handle parse_route.
Proof.
  unfold router_dispatch, route_matches. simpl.
  by destruct (decide (m ∈ ["POST"])).
Qed.

Section AppFacts.
Context {dc : DagCheck}.

(** A JSON body is validated as [parse_pipeline] validates it. *)
Lemma solve_body_json v : solve_body (BodyJson v) = parse_pipeline v.
Proof. done. Qed.

(** The handler runs only for POST /pipelines/parse: every analysis or
    validation answer of the router comes from such a request. *)
Theorem router_app_only_parse req resp :
  router_app req = Some resp →
  (∃ a, rs_body resp = AnalysisJson a) ∨ (∃ errs, rs_body resp = ValidationJson errs) →
  rq_method req = "POST" ∧ rq_path req = "/pipelines/parse".
Proof.
  unfold router_app.
  destruct (router_dispatch _ _ _) as [r| |] eqn:Hd; [|intros [= <-] [[]|[]]; done..].
  apply router_dispatch_Handle in Hd as [Hr ->]. unfold route_handle.
  case_decide as Hm; [|intros [= <-] [[]|[]]; done].
  destruct (rt_endpoint r) eqn:He; try (intros [= <-] [[]|[]]; done).
  rewrite (main_routes_parse r Hr He) in Hm |- *. intros _ _.
  split; [set_solver|done].
Qed.

(** On /pipelines/parse a POST runs the handler, body reading
    included, and is answered with its result; any other method is
    answered 405 with [Allow: POST], before the body is looked at. *)
Lemma router_app_parse_path req :
  rq_path req = "/pipelines/parse" →
  router_app req =
    if decide (rq_method req = "POST") then parse_endpoint req
    else Some (mk_response 405 [("Allow", "POST")] (DetailJson "Method Not Allowed")).
Proof.
  intros Hp. unfold router_app. rewrite Hp, router_dispatch_parse. unfold route_handle. simpl.
  destruct (decide (rq_method req = "POST")) as [Hm|Hm].
  - by rewrite decide_True by set_solver.
  - by rewrite decide_False by set_solver.
Qed.

(** C26: On /pipelines/parse a POST runs the handler, body reading
    included, and is answered with its result; any other method is
    answered 405 with [Allow: POST], before the body is looked at. *)
Theorem router_app_parse req :
  rq_path req = "/pipelines/parse" →
  router_app req =
    if decide (rq_method req = "POST") then parse_endpoint req
    else Some (mk_response 405 [("Allow", "POST")] (DetailJson "Method Not Allowed")).
Proof. apply router_app_parse_path. Qed.

(** A path with trailing slashes added to /pipelines/parse is
    redirected there with 307, for every method ([redirect_slashes]); the
    307 keeps a POST a POST. *)
Theorem router_app_trailing_slash req :
  rq_path req = "/pipelines/parse/" →
  router_app req = Some (mk_response 307 [] (Redirect "/pipelines/parse")).
Proof.
  intros Hp. unfold router_app, router_dispatch. rewrite Hp. simpl.
  rewrite decide_True; [done|].
  apply Exists_exists. exists parse_route. split; [set_solver|].
  unfold route_matches. simpl. by case_decide.
Qed.

(** The answers of the route of line 28. *)
Lemma parse_endpoint_answer req resp :
  parse_endpoint req = Some resp → rs_status resp ∈ [200; 400; 422; 500] ∧ rs_headers resp = [].
Proof.
  unfold parse_endpoint, body_error_response, endpoint_response.
  repeat case_match; intros; simplify_eq; split; (done || set_solver).
Qed.

(** ** Reading the body of POST /pipelines/parse *)

(** C3: On a non-empty text without NUL sent under a JSON content type in
    any encoding [json.detect_encoding] recognises, the route answers as
    [json.loads] decides on the text: the handler's answer on the decoded
    value, 422 [json_invalid] with the decoder's message and position,
    400 for an integer [int()] refuses, and no answer of the model for a
    float or a character above U+00FF. *)
Theorem parse_endpoint_text req e s :
  wants_json (hdr_get (rq_headers req) "content-type") = true →
  s ≠ EmptyString → str_has nul_char s = false → rq_body req = encode_text e s →
  parse_endpoint req =
    match json_loads s with
    | Ok v => Some (endpoint_response (parse_pipeline v))
    | Err (JSONDecodeError msg pos) =>
        Some (mk_response 422 [] (ValidationJson [VJsonInvalid pos msg]))
    | Err (IntDigitsError _) =>
        Some (mk_response 400 [] (DetailJson "There was an error parsing the body"))
    | Err OutsideModel | Err DecodeFuel => None
    end.
Proof.
  intros Hct Hne Hn Hb. unfold parse_endpoint, read_body. rewrite Hb.
  rewrite decide_False by (by apply encode_text_nonempty).
  rewrite Hct, request_json_encode_text by done.
  by destruct (json_loads s) as [v|[]].
Qed.

(** C20: A client's POST of a value written with [json.dumps] and sent in
    UTF-8 under a JSON content type is answered as [parse_pipeline]
    answers that value, each dictionary as Python holds it. *)
Theorem parse_endpoint_dumps req v :
  wants_json (hdr_get (rq_headers req) "content-type") = true → json_ints_fit v = true →
  rq_body req = utf8_encode (json_dumps v) →
  parse_endpoint req = Some (endpoint_response (parse_pipeline (json_norm v))).
Proof. intros Hct Hfit Hb. unfold parse_endpoint. by rewrite Hb, read_body_dumps. Qed.

(** A non-empty body under any other content type (text/plain, a form,
    or a JSON type with two slashes) is kept as bytes and refused with 422
    [model_attributes_type], whatever it holds, even a valid JSON object. *)
Lemma parse_endpoint_bytes req :
  rq_body req ≠ EmptyString → wants_json (hdr_get (rq_headers req) "content-type") = false →
  parse_endpoint req =
    Some (mk_response 422 [] (ValidationJson [VModelAttributesType ["body"] (InBytes (rq_body req))])).
Proof.
  intros Hne Hct. unfold parse_endpoint, read_body. by rewrite decide_False, Hct by done.
Qed.

(** C24: A non-empty body under any other content type (text/plain, a form,
    or a JSON type with two slashes) is kept as bytes and refused with 422
    [model_attributes_type], whatever it holds, even a valid JSON object. *)
Theorem parse_endpoint_not_json req :
  rq_body req ≠ EmptyString → wants_json (hdr_get (rq_headers req) "content-type") = false →
  parse_endpoint req =
    Some (mk_response 422 [] (ValidationJson [VModelAttributesType ["body"] (InBytes (rq_body req))])).
Proof. apply parse_endpoint_bytes. Qed.

(** C25: A body that [detect_encoding] takes for UTF-8 but that is not
    well-formed UTF-8 is answered 400 "There was an error parsing the
    body": the [UnicodeDecodeError] is not a [JSONDecodeError]. *)
Theorem parse_endpoint_bad_utf8 req e :
  wants_json (hdr_get (rq_headers req) "content-type") = true →
  detect_encoding (rq_body req) = Utf8 → utf8_decode (rq_body req) = Err e →
  parse_endpoint req =
    Some (mk_response 400 [] (DetailJson "There was an error parsing the body")).
Proof.
  intros Hct Henc Hdec. unfold parse_endpoint, read_body.
  rewrite decide_False by (intros Hb; rewrite Hb in Hdec; done).
  unfold request_json, decode_bytes, utf8_text. by rewrite Hct, Henc, Hdec.
Qed.

(** An empty body is no body: the parameter is missing. *)
Lemma parse_endpoint_empty req :
  rq_body req = EmptyString →
  parse_endpoint req = Some (mk_response 422 [] (ValidationJson [VMissing ["body"] JNull])).
Proof. intros Hb. unfold parse_endpoint, read_body. by rewrite Hb. Qed.

(** The only header the router names is [Allow]. *)
Lemma router_app_headers req resp :
  router_app req = Some resp → str_lower <$> (rs_headers resp).*1 ⊆ ["allow"].
Proof.
  unfold router_app, route_handle.
  destruct (router_dispatch _ _ _) as [r| |]; [|intros [= <-]; set_solver..].
  case_decide; [|intros [= <-]; decide_by_eval].
  destruct (rt_endpoint r); try (intros [= <-]; set_solver).
  intros (_ & ->)%parse_endpoint_answer. set_solver.
Qed.

(** Every answer of the router has one of the statuses its routes and
    exception handlers produce. *)
Lemma router_app_answer req resp :
  router_app req = Some resp → rs_status resp ∈ [200; 307; 400; 404; 405; 422; 500].
Proof.
  unfold router_app, route_handle.
  destruct (router_dispatch _ _ _) as [r| |]; [|intros [= <-]; set_solver..].
  case_decide; [|intros [= <-]; set_solver].
  destruct (rt_endpoint r); try (intros [= <-]; set_solver).
  intros (Hs & _)%parse_endpoint_answer. set_solver.
Qed.

(** Those statuses all allow a body. *)
Lemma answer_status_body s :
  s ∈ [200; 307; 400; 404; 405; 422; 500] → 200 ≤ s ∧ s ≠ 204 ∧ s ≠ 304.
Proof. intros Hs. repeat (apply elem_of_cons in Hs as [->|Hs]; [lia|]). set_solver. Qed.

(** A [bytes] input is echoed only for the body of a POST to
    /pipelines/parse kept as bytes. *)
Lemma router_app_bytes_input req r errs loc b :
  router_app req = Some r → rs_body r = ValidationJson errs → VModelAttributesType loc (InBytes b) ∈ errs →
  rq_method req = "POST" ∧ rq_path req = "/pipelines/parse" ∧
  read_body (rq_headers req) (rq_body req) = Ok (BodyBytes b).
Proof.
  intros Hr Hb Hin. destruct (router_app_only_parse req r Hr) as [Hm Hp]; [right; eauto|].
  split_and!; [done|done|]. rewrite (router_app_parse_path req Hp), decide_True in Hr by done.
  revert Hr. unfold parse_endpoint, body_error_response.
  destruct (read_body _ _) as [bv|[]]; intros [= <-]; cbn in Hb; simplify_eq; try set_solver.
  destruct bv as [|v|b']; cbn in Hb; simplify_eq; [set_solver| |by apply list_elem_of_singleton in Hin as [= -> ->]].
  unfold solve_body, validate_body in Hb. destruct (validate_graph_data v) as [d|errs'] eqn:Hv.
  - unfold run_parse_pipeline in Hb. by destruct (analyze d).
  - cbn in Hb. simplify_eq. by apply (validate_graph_data_no_bytes v errs) in Hin.
Qed.

Lemma wire_app_Ok req w :
  wire_app req = Some (Ok w) → ∃ r, router_app req = Some r ∧ render_response r = Ok w.
Proof. unfold wire_app. destruct (router_app req); [|done]. intros [= H]. eauto. Qed.

Lemma wire_app_Err req e :
  wire_app req = Some (Err e) → ∃ r, router_app req = Some r ∧ render_response r = Err e.
Proof. unfold wire_app. destruct (router_app req); [|done]. intros [= H]. eauto. Qed.

(** The header names of the rendered answers. *)
Lemma wire_app_keys req w x :
  wire_app req = Some (Ok w) → x ∈ (rs_headers w).*1 →
  x ∈ ["allow"; "content-length"; "content-type"; "location"].
Proof.
  intros (r & Hr & Hw)%wire_app_Ok Hx. apply router_app_headers in Hr.
  destruct (render_response_keys r w x Hw Hx); set_solver.
Qed.

(** Every rendered answer has a status of the router and lower-case
    header names. *)
Lemma wire_app_answer req w :
  wire_app req = Some (Ok w) →
  rs_status w ∈ [200; 307; 400; 404; 405; 422; 500] ∧ hdr_lower (rs_headers w).
Proof.
  intros (r & Hr & Hw)%wire_app_Ok. rewrite (render_response_status r w Hw).
  split; [by eapply router_app_answer|by eapply render_response_lower].
Qed.

(** C22: The whole application answers no request from an origin other
    than http://localhost:3000 (or without an origin) with
    [Access-Control-Allow-Origin], whatever the path, method or body,
    the 500 of [ServerErrorMiddleware] included. *)
Theorem main_app_other_origin_no_acao req o :
  hdr_get (rq_headers req) "origin" ≠ Some "http://localhost:3000" →
  main_app req = Some o → "access-control-allow-origin" ∉ (rs_headers (ao_response o)).*1.
Proof.
  intros Horig. unfold main_app.
  destruct (cors_call main_cors wire_app req) as [[resp|e]|] eqn:Hc; intros [= <-];
    cbn [server_error_call ao_response]; [|decide_by_eval].
  eapply cors_call_no_acao; [|done|exact Hc].
  intros r w Hw Hx. apply (wire_app_keys r w _ Hw) in Hx. set_solver.
Qed.

(** C23: A POST to /pipelines/parse from the frontend origin whose answer
    renders gets it (200, 400, 422 or 500, with its bytes) through the
    CORS middleware, readable by the frontend: the origin is echoed back. *)
Theorem main_app_frontend_post req r w :
  rq_method req = "POST" → rq_path req = "/pipelines/parse" →
  hdr_get (rq_headers req) "origin" = Some "http://localhost:3000" →
  parse_endpoint req = Some r → render_response r = Ok w →
  ∃ resp, main_app req = Some (mk_outcome resp None) ∧
    rs_status resp = rs_status r ∧ rs_body resp = AppBody (rs_body w) ∧
    hdr_get (rs_headers resp) "access-control-allow-origin" = Some "http://localhost:3000".
Proof.
  intros Hm Hp Ho Hr Hw. assert (Hnp : rq_method req ≠ "OPTIONS" ∨
    hdr_get (rq_headers req) "access-control-request-method" = None) by (left; by rewrite Hm).
  assert (Happ : wire_app req = Some (Ok w)).
  { unfold wire_app. rewrite (router_app_parse_path req Hp), decide_True, Hr by done. simpl. by rewrite Hw. }
  destruct (cors_call_simple wire_app req w Hnp Happ) as (resp & Hc & Hs & Hb).
  destruct (cors_simple_allowed_origin wire_app req w Hnp Ho Happ) as (resp' & Hc' & Hacao & _).
  rewrite Hc in Hc'. injection Hc' as <-. exists resp. unfold main_app. rewrite Hc.
  split_and!; [done| |done|done]. rewrite Hs. by apply render_response_status.
Qed.

(** A request beyond the model: a POST to /pipelines/parse whose body is
    read as text the [json] type does not hold. *)
Definition beyond_model (req : http_request) : Prop :=
  rq_method req = "POST" ∧ rq_path req = "/pipelines/parse" ∧
  read_body (rq_headers req) (rq_body req) = Err BodyBeyondModel.

Lemma router_app_None req : router_app req = None ↔ beyond_model req.
Proof.
  unfold beyond_model. split.
  - unfold router_app. destruct (router_dispatch _ _ _) as [r| |] eqn:Hd; [|done..].
    apply router_dispatch_Handle in Hd as [Hr Hp]. unfold route_handle.
    case_decide as Hm; [|done]. destruct (rt_endpoint r) eqn:He; try done.
    rewrite (main_routes_parse r Hr He) in Hm, Hp. simpl in Hm, Hp.
    unfold parse_endpoint, body_error_response.
    destruct (read_body _ _) as [|[]]; try done. intros _. split_and!; [set_solver|done|done].
  - intros (Hm & Hp & Hb). rewrite (router_app_parse_path req Hp), decide_True by done.
    unfold parse_endpoint. by rewrite Hb.
Qed.

Lemma wire_app_None req : wire_app req = None ↔ router_app req = None.
Proof. unfold wire_app. by destruct (router_app req). Qed.

(** C18: Every request gets an answer, determined by the model except for
    a POST to /pipelines/parse whose body is beyond it; and the
    application raises (after [ServerErrorMiddleware] has sent its 500)
    only for a body kept as bytes that is not UTF-8, which FastAPI's 422
    handler cannot decode to echo it. *)
Theorem main_app_total req :
  (main_app req = None ↔ beyond_model req) ∧
  ∀ o e, main_app req = Some o → ao_raised o = Some e →
    ∃ b, rq_method req = "POST" ∧ rq_path req = "/pipelines/parse" ∧
      read_body (rq_headers req) (rq_body req) = Ok (BodyBytes b) ∧ utf8_decode_strict b = Err e ∧
      ao_response o = plain_text_response "Internal Server Error" 500 [].
Proof.
  split.
  - unfold main_app. rewrite <- router_app_None, <- wire_app_None, fmap_None. split; [apply cors_call_None|].
    intros Hn. apply cors_call_app_None; [|done]. left.
    apply wire_app_None, router_app_None in Hn as (-> & _). done.
  - intros o e. unfold main_app.
    destruct (cors_call main_cors wire_app req) as [[resp|e']|] eqn:Hc; intros [= <-]; [done|].
    intros [= <-]. cbn [ao_response server_error_call].
    apply cors_call_Err in Hc. destruct (wire_app_Err req e' Hc) as (r & Hr & He).
    destruct (render_response_Err r e' He) as (errs & loc & b & Hb & Hin & Hdec).
    destruct (router_app_bytes_input req r errs loc b Hr Hb Hin) as (Hm & Hp & Hrb). eauto 10.
Qed.

(** C19: Every answer of the application is a well-formed ASGI response:
    its status is one of 200, 307, 400, 404, 405, 422 and 500, and its
    header names are in lower case. *)
Theorem main_app_answer_type req o :
  main_app req = Some o →
  rs_status (ao_response o) ∈ [200; 307; 400; 404; 405; 422; 500] ∧ hdr_lower (rs_headers (ao_response o)).
Proof.
  unfold main_app. destruct (cors_call main_cors wire_app req) as [[resp|e]|] eqn:Hc; intros [= <-];
    cbn [ao_response server_error_call].
  - destruct (cors_call_answer main_cors wire_app req resp Hc) as [(w & Hw & Hs & Hl)|[Hs Hl]].
    + destruct (wire_app_answer req w Hw) as [Hs' Hl']. rewrite Hs. auto.
    + split; [|done]. set_solver.
  - split; [set_solver|apply plain_text_response_lower].
Qed.

(** C15: Every answer whose bytes the model builds declares their number in
    [content-length]: the router's rendered answers, the CORS
    middleware's own, and the 500 of [ServerErrorMiddleware]. *)
Theorem main_app_content_length req o bs :
  main_app req = Some o → sent_bytes (rs_body (ao_response o)) = Some bs →
  hdr_get (rs_headers (ao_response o)) "content-length" = Some (nat_str (String.length bs)).
Proof.
  unfold main_app. destruct (cors_call main_cors wire_app req) as [[resp|e]|] eqn:Hc; intros [= <-];
    cbn [ao_response server_error_call]; [|by intros [= <-]].
  destruct (cors_call_content_length wire_app req resp Hc) as [(w & Hw & Hb & Hl)|(s & Hb & Hl)];
    rewrite Hb; cbn [sent_bytes]; [|by intros [= <-]].
  destruct (rs_body w) as [bs'|] eqn:Hwb; [intros [= <-]|done]. rewrite Hl.
  destruct (wire_app_Ok req w Hw) as (r & Hr & Hrw).
  destruct (answer_status_body _ (router_app_answer req r Hr)) as (? & ? & ?).
  apply (render_response_length r w bs'); try done. apply router_app_headers in Hr. set_solver.
Qed.

(** C6: A body kept as bytes (its content type is not JSON) that is not
    UTF-8 is answered 500 "Internal Server Error" in plain text, without
    CORS headers even for the frontend, and the [UnicodeDecodeError] of
    FastAPI's 422 handler is raised to the server. *)
Theorem main_app_binary_body_500 req e :
  rq_method req = "POST" → rq_path req = "/pipelines/parse" → rq_body req ≠ EmptyString →
  wants_json (hdr_get (rq_headers req) "content-type") = false →
  utf8_decode_strict (rq_body req) = Err e →
  main_app req = Some (mk_outcome (mk_response 500
      [("content-length", "21"); ("content-type", "text/plain; charset=utf-8")]
      (PlainText "Internal Server Error")) (Some e)).
Proof.
  intros Hm Hp Hne Hct Hdec.
  assert (Hw : wire_app req = Some (Err e)).
  { unfold wire_app. rewrite (router_app_parse_path req Hp), decide_True by done.
    rewrite parse_endpoint_bytes by done. unfold render_response. cbn -[utf8_decode_strict].
    by rewrite Hdec. }
  unfold main_app. rewrite (cors_call_app_Err main_cors wire_app req e); [done| |done].
  left. by rewrite Hm.
Qed.
End AppFacts.

Section Frontend200.
Context {dc : DagCheck}.

(** C5: The handler's 200 as the frontend receives it: the bytes of
    [json.dumps] of the dict of line 46, their length, the media type,
    then the headers of the CORS middleware. *)
Theorem main_app_frontend_200 req a :
  rq_method req = "POST" → rq_path req = "/pipelines/parse" →
  hdr_get (rq_headers req) "origin" = Some "http://localhost:3000" →
  parse_endpoint req = Some (endpoint_response (Resp200 a)) →
  main_app req = Some (mk_outcome (mk_response 200
     [("content-length", nat_str (String.length (json_dumps (analysis_json a))));
      ("content-type", "application/json");
      ("access-control-allow-credentials", "true");
      ("access-control-allow-origin", "http://localhost:3000");
      ("vary", "Origin")]
     (AppBody (WireBytes (json_dumps (analysis_json a))))) None).
Proof.
  intros Hm Hp Ho Hr. unfold main_app, cors_call.
  rewrite Ho, cors_not_preflight by (left; by rewrite Hm).
  unfold wire_app. rewrite (router_app_parse_path req Hp), decide_True, Hr by done.
  cbn [fmap option_fmap option_map endpoint_response render_response rs_body rs_status rs_headers].
  rewrite encode_analysis. unfold cors_send.
  rewrite (hdr_getitem_Some _ "Origin" _) by (rewrite hdr_get_Origin; exact Ho).
  rewrite main_cors_init. reflexivity.
Qed.
End Frontend200.
