(* ===== verification/Scenarios.v ===== *)
(** * Concrete requests

    The examples of spec section 8 run through [parse_pipeline] (with
    networkx's test of [Kahn.v], the [DagCheck] instance main.py runs), the behaviours
    of the code the spec does not describe, the lines the handler prints
    ([parse_pipeline_io]), and witnesses: each theorem of
    the development with hypotheses applied at a concrete input where the
    hypotheses are checked by evaluation. *)

From S2P Require Import Prelude PyValue PyStr Json DiGraph OrderedGraph Acyclic Kahn Cors Request Codecs Body Pipeline Output Response Routing.
From Stdlib Require Import Ascii.

(** ** Building requests *)

Definition node_obj (id : json) : json := JObj [("id", id)].
Definition edge_obj (s t : json) : json := JObj [("source", s); ("target", t)].
Definition request (ns es : list json) : json := JObj [("nodes", JArr ns); ("edges", JArr es)].

Definition ja : json := JStr "a".
Definition jb : json := JStr "b".
Definition jc : json := JStr "c".

(** ** Spec section 8 *)

(** A graph with zero edges is a DAG whatever its node count:
    [nodes=[a, b], edges=[]] gives [{2, 0, true}]. *)
Example spec_example_no_edges :
  parse_pipeline (request [node_obj ja; node_obj jb] []) = Resp200 (mk_analysis 2 0 true).
Proof. vm_compute. reflexivity. Qed.

(** A single self-loop forces [is_dag = false]:
    [nodes=[a], edges=[a->a]] gives [{1, 1, false}]. *)
Example spec_example_self_loop :
  parse_pipeline (request [node_obj ja] [edge_obj ja ja]) = Resp200 (mk_analysis 1 1 false).
Proof. vm_compute. reflexivity. Qed.

(** A simple cycle is detected: [a->b, b->c, c->a] over [a, b, c]
    gives [{3, 3, false}]. *)
Example spec_example_cycle :
  parse_pipeline (request [node_obj ja; node_obj jb; node_obj jc]
                          [edge_obj ja jb; edge_obj jb jc; edge_obj jc ja])
  = Resp200 (mk_analysis 3 3 false).
Proof. vm_compute. reflexivity. Qed.

(** A linear chain [a->b, b->c] is a DAG. *)
Example spec_example_chain :
  parse_pipeline (request [node_obj ja; node_obj jb; node_obj jc] [edge_obj ja jb; edge_obj jb jc])
  = Resp200 (mk_analysis 3 2 true).
Proof. vm_compute. reflexivity. Qed.

(** A diamond [a->b, a->c, b->c] is a DAG: [c] leaves
    [indegree_map] only once both of its arcs are relaxed. *)
Example diamond_is_dag :
  parse_pipeline (request [node_obj ja] [edge_obj ja jb; edge_obj ja jc; edge_obj jb jc])
  = Resp200 (mk_analysis 3 3 true).
Proof. vm_compute. reflexivity. Qed.

(** An edge to [null] passes both comprehensions and is refused by
    networkx with [ValueError], answered as a 500. *)
Example null_endpoint_500 :
  parse_pipeline (request [node_obj ja] [edge_obj ja JNull])
  = Resp500 "Error parsing pipeline: None cannot be a node".
Proof. vm_compute. reflexivity. Qed.

(** An edge whose source is a list is refused with the [TypeError] of
    hashing it, before its target is looked at. *)
Example unhashable_endpoint_500 :
  parse_pipeline (request [] [edge_obj (JArr [ja]) JNull])
  = Resp500 "Error parsing pipeline: unhashable type: 'list'".
Proof. vm_compute. reflexivity. Qed.

(** An edge object missing ["target"] is refused and never answered
    with partial data; the code answers 500 with the [KeyError], where the
    spec asks for a validation error. *)
Example spec_example_missing_target :
  parse_pipeline (request [node_obj ja] [JObj [("source", ja)]])
  = Resp500 "Error parsing pipeline: 'target'".
Proof. vm_compute. reflexivity. Qed.

(** ** Behaviour beyond the spec *)

(** Ids compare as Python values: [1] and [true] are one node. *)
Example true_and_one_same_node :
  parse_pipeline (request [node_obj (JInt 1); node_obj (JBool true)] [])
  = Resp200 (mk_analysis 1 0 true).
Proof. vm_compute. reflexivity. Qed.

(** An id given as a two-element array [[n, attrs]] is unpacked by
    networkx into node [n]: here it is the node ["a"] the edge uses. *)
Example unpacked_pair_id :
  parse_pipeline (request [node_obj (JArr [ja; JObj []])] [edge_obj ja jb])
  = Resp200 (mk_analysis 2 1 true).
Proof. vm_compute. reflexivity. Qed.

(** ** What the handler prints *)

(** [G.edges()] walks [_succ] in insertion order: the nodes of the node
    list first, then each node's successors in the order their arcs were
    added, not the order of the request's edges. *)
Example debug_output_order :
  parse_pipeline_io (request [node_obj jb; node_obj ja] [edge_obj ja jb; edge_obj jb ja])
  = (["Received Nodes: ['b', 'a']"; "Received Edges: [('a', 'b'), ('b', 'a')]";
      "Graph Edges: [('b', 'a'), ('a', 'b')]"], Resp200 (mk_analysis 2 2 false)).
Proof. vm_compute. reflexivity. Qed.

(** A node keeps the key object it was first added with: the edge
    [1 -> 2] is printed as [(True, 2)], once though it is given twice. *)
Example debug_output_first_key :
  parse_pipeline_io (request [node_obj (JBool true); node_obj (JInt 2)]
                             [edge_obj (JInt 1) (JInt 2); edge_obj (JInt 1) (JInt 2)])
  = (["Received Nodes: [True, 2]"; "Received Edges: [(1, 2), (1, 2)]";
      "Graph Edges: [(True, 2)]"], Resp200 (mk_analysis 2 1 true)).
Proof. vm_compute. reflexivity. Qed.

Definition first_key_body : json :=
  request [node_obj (JBool true); node_obj (JInt 2)] [edge_obj (JInt 1) (JInt 2); edge_obj (JInt 1) (JInt 2)].

(** The printed pair [(True, 2)] is the node object [True] kept for the
    key of [1], and the target of the first edge [1 -> 2]. *)
Lemma parse_pipeline_io_edge_objects_witness :
  parse_pipeline_io first_key_body =
    (["Received Nodes: [True, 2]"; "Received Edges: [(1, 2), (1, 2)]"; "Graph Edges: [(True, 2)]"],
     Resp200 (mk_analysis 2 1 true)) ∧
  ∃ data ids es nis g, validate_graph_data first_key_body = Ok data ∧
    extract_node_ids (gd_nodes data) = Ok ids ∧ extract_edges (gd_edges data) = Ok es ∧
    res_map node_item ids = Ok nis ∧
    ["Received Nodes: [True, 2]"; "Received Edges: [(1, 2), (1, 2)]"; "Graph Edges: [(True, 2)]"] =
      debug_lines ids es g ∧
    ∀ x y, (x, y) ∈ o_edges g ↔
      ∃ u v, first_obj u (nis.*2 ++ endpoints_seq es) = Some x ∧ first_target u v es = Some y.
Proof.
  assert (H : parse_pipeline_io first_key_body =
    (["Received Nodes: [True, 2]"; "Received Edges: [(1, 2), (1, 2)]"; "Graph Edges: [(True, 2)]"],
     Resp200 (mk_analysis 2 1 true))) by (vm_compute; reflexivity).
  split; [exact H|exact (parse_pipeline_io_edge_objects _ _ _ H)].
Defined.

(** A failing request prints only the line of the [except] clause. *)
Example debug_output_error :
  parse_pipeline_io (request [node_obj ja] [edge_obj ja JNull])
  = (["Error parsing pipeline: None cannot be a node"],
     Resp500 "Error parsing pipeline: None cannot be a node").
Proof. vm_compute. reflexivity. Qed.

(** Endpoints absent from the node list are created as nodes. *)
Example implicit_endpoint_nodes :
  parse_pipeline (request [] [edge_obj ja jb]) = Resp200 (mk_analysis 2 1 true).
Proof. vm_compute. reflexivity. Qed.

(** In a node object with a repeated ["id"] the last one counts, as
    [json.loads] builds the dict: the node is ["b"], the self-loop's
    endpoint. *)
Example duplicate_key_last_wins :
  parse_pipeline (request [JObj [("id", ja); ("id", jb)]] [edge_obj jb jb])
  = Resp200 (mk_analysis 1 1 false).
Proof. vm_compute. reflexivity. Qed.

(** A body without ["edges"] is refused by the validation with 422. *)
Example missing_edges_field_422 :
  parse_pipeline (JObj [("nodes", JArr [node_obj ja])]) = Resp422 [VMissing ["body"; "edges"] (JObj [("nodes", JArr [node_obj ja])])].
Proof. vm_compute. reflexivity. Qed.

(** ** The application *)

(** [FastAPI()] serves its documentation as well: GET /docs is the
    Swagger page and GET /openapi.json the schema, endpoints spec section
    6 does not list. *)
Example docs_routes_served :
  wire_app (mk_request "GET" "/docs" [] "") =
    Some (Ok (mk_response 200 [("content-type", "text/html; charset=utf-8")] (WireDocs SwaggerUI))) ∧
  wire_app (mk_request "GET" "/openapi.json" [] "") =
    Some (Ok (mk_response 200 [("content-type", "application/json")] (WireDocs OpenApiSchema))).
Proof. split; vm_compute; reflexivity. Qed.

(** Any other path is answered 404 with [{"detail":"Not Found"}], 22
    bytes. *)
Example unknown_path_404 :
  wire_app (mk_request "POST" "/pipelines" [] "") =
    Some (Ok (mk_response 404 [("content-length", "22"); ("content-type", "application/json")]
                (WireBytes (json_dumps (JObj [("detail", JStr "Not Found")]))))).
Proof. vm_compute. reflexivity. Qed.

(** ** Witnesses *)

Definition chain_data : GraphData :=
  mk_graph_data [node_obj ja; node_obj jb; node_obj jc] [edge_obj ja jb; edge_obj jb jc].
Definition chain_body : json := request (gd_nodes chain_data) (gd_edges chain_data).

(** The graph [add_edges_from] builds from an empty [DiGraph]. *)
Definition graph_of (es : list (json * json)) : digraph :=
  match add_edges_from empty_digraph es with Ok g => g | Err _ => empty_digraph end.

Definition chain_pairs : list (json * json) := [(ja, jb); (jb, jc)].
Definition cycle_graph : digraph := graph_of [(ja, jb); (jb, jc); (jc, ja)].
Definition ka : pykey := PStr "a".
Definition kb : pykey := PStr "b".
Definition kc : pykey := PStr "c".

Lemma parse_pipeline_refines_witness :
  parse_pipeline chain_body = Resp200 (mk_analysis 3 2 true) ∧
  ∃ d ids es ks ps, validate_graph_data chain_body = Ok d ∧
    extract_node_ids (gd_nodes d) = Ok ids ∧ extract_edges (gd_edges d) = Ok es ∧
    res_map node_item_key ids = Ok ks ∧ res_map edge_key es = Ok ps ∧
    analysis_spec ks ps (mk_analysis 3 2 true).
Proof.
  assert (H : parse_pipeline chain_body = Resp200 (mk_analysis 3 2 true)) by (vm_compute; reflexivity).
  split; [exact H|exact (parse_pipeline_refines chain_body _ H)].
Defined.

Definition diamond_graph : digraph := graph_of [(ja, jb); (ja, jc); (jb, jc)].

Lemma nx_is_directed_acyclic_graph_correct_witness :
  wf diamond_graph ∧ ∃ b, nx_is_directed_acyclic_graph diamond_graph = Some (Ok b) ∧
                          (b = true ↔ acyclic diamond_graph).
Proof.
  assert (Hwf : wf diamond_graph) by decide_by_eval.
  split; [exact Hwf|exact (nx_is_directed_acyclic_graph_correct diamond_graph Hwf)].
Defined.

Lemma nx_dag_agrees_dfs_witness :
  wf cycle_graph ∧ nx_dag cycle_graph = dfs_is_dag cycle_graph.
Proof.
  assert (Hwf : wf cycle_graph) by decide_by_eval.
  split; [exact Hwf|exact (nx_dag_agrees_dfs cycle_graph Hwf)].
Defined.

Lemma dfs_is_dag_correct_witness :
  wf cycle_graph ∧ (dfs_is_dag cycle_graph = true ↔ acyclic cycle_graph).
Proof.
  assert (Hwf : wf cycle_graph) by decide_by_eval.
  split; [exact Hwf|exact (dfs_is_dag_correct cycle_graph Hwf)].
Defined.

Lemma dfs_roots_no_fuel_witness :
  wf cycle_graph ∧ (∀ r, r ∈ [ka; kb; kc] → r ∈ g_node cycle_graph) ∧
  dfs_roots cycle_graph (S (size (g_node cycle_graph))) [ka; kb; kc] ∅ ≠ DfsFuel.
Proof.
  assert (Hwf : wf cycle_graph) by decide_by_eval.
  assert (Hr : ∀ r, r ∈ [ka; kb; kc] → r ∈ g_node cycle_graph)
    by (apply Forall_forall; decide_by_eval).
  split_and!; [exact Hwf|exact Hr|exact (dfs_roots_no_fuel cycle_graph Hwf _ ∅ Hr)].
Defined.

Lemma analyze_succeeds_witness :
  extract_node_ids (gd_nodes chain_data) = Ok [ja; jb; jc] ∧
  extract_edges (gd_edges chain_data) = Ok chain_pairs ∧
  res_map node_item_key [ja; jb; jc] = Ok [ka; kb; kc] ∧ PNone ∉ [ka; kb; kc] ∧
  res_map edge_key chain_pairs = Ok [(ka, kb); (kb, kc)] ∧ PNone ∉ endpoints [(ka, kb); (kb, kc)] ∧
  ∃ a, analyze chain_data = Ok a ∧ analysis_spec [ka; kb; kc] [(ka, kb); (kb, kc)] a.
Proof.
  assert (H1 : extract_node_ids (gd_nodes chain_data) = Ok [ja; jb; jc]) by (vm_compute; reflexivity).
  assert (H2 : extract_edges (gd_edges chain_data) = Ok chain_pairs) by (vm_compute; reflexivity).
  assert (H3 : res_map node_item_key [ja; jb; jc] = Ok [ka; kb; kc]) by (vm_compute; reflexivity).
  assert (H4 : PNone ∉ [ka; kb; kc]) by decide_by_eval.
  assert (H5 : res_map edge_key chain_pairs = Ok [(ka, kb); (kb, kc)]) by (vm_compute; reflexivity).
  assert (H6 : PNone ∉ endpoints [(ka, kb); (kb, kc)]) by decide_by_eval.
  split_and!; [done..|exact (analyze_succeeds chain_data _ _ _ _ H1 H2 H3 H4 H5 H6)].
Defined.

(** The chain with its edges reordered and one repeated. *)
Definition chain_data_shuffled : GraphData :=
  mk_graph_data [node_obj jc; node_obj ja; node_obj jb; node_obj ja]
                [edge_obj jb jc; edge_obj ja jb; edge_obj ja jb].

Lemma analyze_same_entries_witness :
  (∀ n, n ∈ gd_nodes chain_data_shuffled ↔ n ∈ gd_nodes chain_data) ∧
  (∀ e, e ∈ gd_edges chain_data_shuffled ↔ e ∈ gd_edges chain_data) ∧
  analyze chain_data = Ok (mk_analysis 3 2 true) ∧
  analyze chain_data_shuffled = Ok (mk_analysis 3 2 true).
Proof.
  assert (H1 : ∀ n, n ∈ gd_nodes chain_data_shuffled ↔ n ∈ gd_nodes chain_data)
    by (simpl; set_solver).
  assert (H2 : ∀ e, e ∈ gd_edges chain_data_shuffled ↔ e ∈ gd_edges chain_data)
    by (simpl; set_solver).
  assert (H3 : analyze chain_data = Ok (mk_analysis 3 2 true)) by (vm_compute; reflexivity).
  split_and!; [done..|exact (analyze_same_entries chain_data chain_data_shuffled _ H1 H2 H3)].
Defined.

Lemma add_edges_from_Ok_witness :
  wf empty_digraph ∧ add_edges_from empty_digraph chain_pairs = Ok (graph_of chain_pairs) ∧
  ∃ ps, res_map edge_key chain_pairs = Ok ps ∧ (PNone ∉ endpoints ps) ∧ wf (graph_of chain_pairs) ∧
    g_node (graph_of chain_pairs) = endpoints ps ∪ g_node empty_digraph ∧
    (∀ x y, y ∈ succs (graph_of chain_pairs) x ↔ (x, y) ∈ ps ∨ y ∈ succs empty_digraph x) ∧
    (∀ P, arcs_counted empty_digraph P → arcs_counted (graph_of chain_pairs) (list_to_set ps ∪ P)).
Proof.
  assert (H0 : wf empty_digraph) by decide_by_eval.
  assert (H1 : add_edges_from empty_digraph chain_pairs = Ok (graph_of chain_pairs))
    by (vm_compute; reflexivity).
  split_and!; [done..|exact (add_edges_from_Ok _ _ _ H0 H1)].
Defined.

Definition node_items : list json := [ja; JBool true; JInt 1; JArr [jb; JObj []]].
Definition nodes_graph : digraph :=
  match add_nodes_from empty_digraph node_items with Ok g => g | Err _ => empty_digraph end.

Lemma add_edges_from_preserves_wf_witness :
  wf empty_digraph ∧ add_edges_from empty_digraph chain_pairs = Ok (graph_of chain_pairs) ∧
  wf (graph_of chain_pairs).
Proof.
  assert (H0 : wf empty_digraph) by decide_by_eval.
  assert (H1 : add_edges_from empty_digraph chain_pairs = Ok (graph_of chain_pairs))
    by (vm_compute; reflexivity).
  split_and!; [done..|exact (add_edges_from_preserves_wf _ _ _ H0 H1)].
Defined.

Definition one_node_graph : digraph :=
  match ensure_node empty_digraph ka with Ok g => g | Err _ => empty_digraph end.

Definition bad_endpoint_data : GraphData :=
  mk_graph_data [node_obj ja] [edge_obj ja jb; edge_obj jb (JObj []); edge_obj JNull ja].

Lemma add_edges_from_Err_witness :
  wf one_node_graph ∧
  (add_edges_from one_node_graph [(ja, JNull)] = Err (ValueError "None cannot be a node") ↔
   res_map edge_endpoint_keys [(ja, JNull)] = Err (ValueError "None cannot be a node")).
Proof.
  assert (Hwf : wf one_node_graph) by decide_by_eval.
  split; [exact Hwf|exact (add_edges_from_Err one_node_graph _ _ Hwf)].
Defined.

Lemma analyze_first_bad_endpoint_witness :
  extract_node_ids (gd_nodes bad_endpoint_data) = Ok [ja] ∧
  extract_edges (gd_edges bad_endpoint_data) = Ok [(ja, jb); (jb, JObj []); (JNull, ja)] ∧
  add_nodes_from empty_digraph [ja] = Ok one_node_graph ∧
  (analyze bad_endpoint_data = Err (TypeError "unhashable type: 'dict'") ↔
   res_map edge_endpoint_keys [(ja, jb); (jb, JObj []); (JNull, ja)] =
     Err (TypeError "unhashable type: 'dict'")).
Proof.
  assert (H1 : extract_node_ids (gd_nodes bad_endpoint_data) = Ok [ja]) by reflexivity.
  assert (H2 : extract_edges (gd_edges bad_endpoint_data) = Ok [(ja, jb); (jb, JObj []); (JNull, ja)])
    by reflexivity.
  assert (H3 : add_nodes_from empty_digraph [ja] = Ok one_node_graph) by (vm_compute; reflexivity).
  split_and!; [exact H1|exact H2|exact H3|exact (analyze_first_bad_endpoint _ _ _ _ _ H1 H2 H3)].
Defined.

(** The second node entry has no ["id"]; the edges are malformed too. *)
Definition bad_node_data : GraphData :=
  mk_graph_data [node_obj ja; JObj [("name", jb)]; JInt 3] [JInt 7].

(** The only node id is a list, which networkx cannot use; the second
    edge lacks its ["target"], and that is what is reported. *)
Definition bad_edge_data : GraphData :=
  mk_graph_data [node_obj (JArr [JArr []; ja])] [edge_obj ja jb; JObj [("source", jb)]].

Lemma analyze_first_bad_edge_witness :
  extract_node_ids (gd_nodes bad_edge_data) = Ok [JArr [JArr []; ja]] ∧
  gd_edges bad_edge_data = [edge_obj ja jb] ++ JObj [("source", jb)] :: [] ∧
  Forall (λ y, ∃ st, extract_edge y = Ok st) [edge_obj ja jb] ∧
  extract_edge (JObj [("source", jb)]) = Err (KeyError "target") ∧
  analyze bad_edge_data = Err (KeyError "target").
Proof.
  assert (H0 : extract_node_ids (gd_nodes bad_edge_data) = Ok [JArr [JArr []; ja]])
    by (vm_compute; reflexivity).
  assert (H1 : gd_edges bad_edge_data = [edge_obj ja jb] ++ JObj [("source", jb)] :: [])
    by reflexivity.
  assert (H2 : Forall (λ y, ∃ st, extract_edge y = Ok st) [edge_obj ja jb])
    by (constructor; [exists (ja, jb); reflexivity|constructor]).
  assert (H3 : extract_edge (JObj [("source", jb)]) = Err (KeyError "target")) by reflexivity.
  split_and!; [done..|exact (analyze_first_bad_edge bad_edge_data _ _ _ _ _ H0 H1 H2 H3)].
Defined.

Definition none_node_data : GraphData := mk_graph_data [node_obj ja; node_obj JNull] [].

Lemma analyze_none_node_witness :
  extract_node_ids (gd_nodes none_node_data) = Ok [ja; JNull] ∧
  extract_edges (gd_edges none_node_data) = Ok [] ∧
  res_map node_item_key [ja; JNull] = Ok [ka; PNone] ∧ PNone ∈ [ka; PNone] ∧
  analyze none_node_data = Err (ValueError "None cannot be a node").
Proof.
  assert (H1 : extract_node_ids (gd_nodes none_node_data) = Ok [ja; JNull]) by reflexivity.
  assert (H2 : extract_edges (gd_edges none_node_data) = Ok []) by reflexivity.
  assert (H3 : res_map node_item_key [ja; JNull] = Ok [ka; PNone]) by reflexivity.
  assert (H4 : PNone ∈ [ka; PNone]) by decide_by_eval.
  split_and!; [done..|exact (analyze_none_node none_node_data _ _ _ H1 H2 H3 H4)].
Defined.

(** A node without ["id"] and an edge without ["target"]: a 500. *)
Definition missing_keys_body : json := request [node_obj ja; JObj []] [JObj [("source", ja)]].
Definition missing_keys_data : GraphData := mk_graph_data [node_obj ja; JObj []] [JObj [("source", ja)]].

Lemma parse_pipeline_bad_entry_500_witness :
  validate_graph_data missing_keys_body = Ok missing_keys_data ∧
  ((∃ n e, n ∈ gd_nodes missing_keys_data ∧ py_getitem n "id" = Err e) ∨
   (∃ x k e, x ∈ gd_edges missing_keys_data ∧ (k = "source" ∨ k = "target") ∧ py_getitem x k = Err e)) ∧
  ∃ e, analyze missing_keys_data = Err e ∧
    parse_pipeline missing_keys_body = Resp500 ("Error parsing pipeline: " +:+ py_exc_str e).
Proof.
  assert (H1 : validate_graph_data missing_keys_body = Ok missing_keys_data) by (vm_compute; reflexivity).
  assert (H2 : (∃ n e, n ∈ gd_nodes missing_keys_data ∧ py_getitem n "id" = Err e) ∨
    (∃ x k e, x ∈ gd_edges missing_keys_data ∧ (k = "source" ∨ k = "target") ∧ py_getitem x k = Err e)).
  { right. exists (JObj [("source", ja)]), "target", (KeyError "target").
    split_and!; [by left|by right|reflexivity]. }
  split_and!; [exact H1|exact H2|exact (parse_pipeline_bad_entry_500 _ _ H1 H2)].
Defined.

Definition null_edge_body : json := request [node_obj ja] [edge_obj ja JNull].
Definition null_edge_data : GraphData := mk_graph_data [node_obj ja] [edge_obj ja JNull].

Lemma parse_pipeline_null_id_500_witness :
  validate_graph_data null_edge_body = Ok null_edge_data ∧
  ((∃ n, n ∈ gd_nodes null_edge_data ∧ py_getitem n "id" = Ok JNull) ∨
   (∃ x y, x ∈ gd_edges null_edge_data ∧ (extract_edge x = Ok (JNull, y) ∨ extract_edge x = Ok (y, JNull)))) ∧
  ∃ e, analyze null_edge_data = Err e ∧
    parse_pipeline null_edge_body = Resp500 ("Error parsing pipeline: " +:+ py_exc_str e).
Proof.
  assert (H1 : validate_graph_data null_edge_body = Ok null_edge_data) by (vm_compute; reflexivity).
  assert (H2 : (∃ n, n ∈ gd_nodes null_edge_data ∧ py_getitem n "id" = Ok JNull) ∨
    (∃ x y, x ∈ gd_edges null_edge_data ∧ (extract_edge x = Ok (JNull, y) ∨ extract_edge x = Ok (y, JNull)))).
  { right. exists (edge_obj ja JNull), ja. split; [by left|right; reflexivity]. }
  split_and!; [exact H1|exact H2|exact (parse_pipeline_null_id_500 _ _ H1 H2)].
Defined.

Definition two_nodes_data : GraphData := mk_graph_data [node_obj ja; node_obj jb] [].

(** ** The CORS middleware in front of the handler *)

(** A stand-in for the routed application: it echoes the body with a
    JSON content type. *)
Definition test_app (r : http_request) : option (result py_exc (http_response string)) :=
  Some (Ok (mk_response 200 [("content-type", "application/json")] (rq_body r))).

(** The bytes a client sends for [chain_body]: [json.dumps] in UTF-8. *)
Definition chain_raw : string := utf8_encode (json_dumps chain_body).

Definition frontend : string := "http://localhost:3000".
Definition evil_post : http_request :=
  mk_request "POST" "/pipelines/parse" [("origin", "http://evil.example")] chain_raw.
Definition frontend_post : http_request :=
  mk_request "POST" "/pipelines/parse" [("origin", frontend); ("content-type", "application/json")] chain_raw.
Definition preflight (m : string) : http_request :=
  mk_request "OPTIONS" "/pipelines/parse"
    [("origin", frontend); ("access-control-request-method", m);
     ("access-control-request-headers", "content-type")] "".

Definition evil_app_answer : http_response string :=
  mk_response 200 [("content-type", "application/json")] chain_raw.
Definition evil_answer : http_response (cors_body string) :=
  mk_response 200 [("content-type", "application/json"); ("access-control-allow-credentials", "true")]
    (AppBody chain_raw).
Definition frontend_app_answer : http_response string :=
  mk_response 200 [("content-type", "application/json")] chain_raw.

Lemma cors_disallowed_origin_no_acao_witness :
  (∀ r a, test_app r = Some (Ok a) → "access-control-allow-origin" ∉ (rs_headers a).*1) ∧
  hdr_get (rq_headers evil_post) "origin" ≠ Some "http://localhost:3000" ∧
  cors_call main_cors test_app evil_post = Some (Ok evil_answer) ∧
  "access-control-allow-origin" ∉ (rs_headers evil_answer).*1.
Proof.
  assert (H1 : ∀ r a, test_app r = Some (Ok a) → "access-control-allow-origin" ∉ (rs_headers a).*1)
    by (intros r a [= <-]; decide_by_eval).
  assert (H2 : hdr_get (rq_headers evil_post) "origin" ≠ Some "http://localhost:3000")
    by decide_by_eval.
  assert (H3 : cors_call main_cors test_app evil_post = Some (Ok evil_answer)) by reflexivity.
  split_and!; [exact H1|exact H2|exact H3|exact (cors_disallowed_origin_no_acao test_app evil_post _ H1 H2 H3)].
Defined.

Lemma cors_simple_response_witness :
  rq_method evil_post ≠ "OPTIONS" ∧ test_app evil_post = Some (Ok evil_app_answer) ∧
  ∃ resp, cors_call main_cors test_app evil_post = Some (Ok resp) ∧
          rs_status resp = rs_status evil_app_answer ∧
          rs_body resp = AppBody (rs_body evil_app_answer).
Proof.
  assert (H : rq_method evil_post ≠ "OPTIONS") by decide_by_eval.
  assert (H' : test_app evil_post = Some (Ok evil_app_answer)) by reflexivity.
  split_and!; [exact H|exact H'|exact (cors_simple_response test_app evil_post _ (or_introl H) H')].
Defined.

Lemma cors_preflight_allowed_witness :
  rq_method (preflight "POST") = "OPTIONS" ∧
  hdr_get (rq_headers (preflight "POST")) "origin" = Some "http://localhost:3000" ∧
  hdr_get (rq_headers (preflight "POST")) "access-control-request-method" = Some "POST" ∧
  "POST" ∈ ALL_METHODS ∧
  cors_call main_cors test_app (preflight "POST") = Some (Ok (mk_response 200
    ([("vary", "Origin");
      ("access-control-allow-methods", "DELETE, GET, HEAD, OPTIONS, PATCH, POST, PUT");
      ("access-control-max-age", "600");
      ("access-control-allow-credentials", "true");
      ("access-control-allow-origin", "http://localhost:3000")] ++
     match hdr_get (rq_headers (preflight "POST")) "access-control-request-headers" with
     | Some rh => [("access-control-allow-headers", rh)]
     | None => []
     end ++
     [("content-length", "2"); ("content-type", "text/plain; charset=utf-8")])
    (PlainText "OK"))).
Proof.
  assert (H1 : rq_method (preflight "POST") = "OPTIONS") by reflexivity.
  assert (H2 : hdr_get (rq_headers (preflight "POST")) "origin" = Some "http://localhost:3000")
    by reflexivity.
  assert (H3 : hdr_get (rq_headers (preflight "POST")) "access-control-request-method" = Some "POST")
    by reflexivity.
  assert (H4 : "POST" ∈ ALL_METHODS) by decide_by_eval.
  split_and!; [exact H1|exact H2|exact H3|exact H4|].
  exact (cors_preflight_allowed test_app (preflight "POST") "POST" H1 H2 H3 H4).
Defined.

Lemma cors_preflight_method_refused_witness :
  rq_method (preflight "TRACE") = "OPTIONS" ∧
  hdr_get (rq_headers (preflight "TRACE")) "origin" = Some "http://localhost:3000" ∧
  hdr_get (rq_headers (preflight "TRACE")) "access-control-request-method" = Some "TRACE" ∧
  "TRACE" ∉ ALL_METHODS ∧
  ∃ hs, cors_call main_cors test_app (preflight "TRACE") =
        Some (Ok (mk_response 400 hs (PlainText "Disallowed CORS method"))).
Proof.
  assert (H1 : rq_method (preflight "TRACE") = "OPTIONS") by reflexivity.
  assert (H2 : hdr_get (rq_headers (preflight "TRACE")) "origin" = Some "http://localhost:3000")
    by reflexivity.
  assert (H3 : hdr_get (rq_headers (preflight "TRACE")) "access-control-request-method" = Some "TRACE")
    by reflexivity.
  assert (H4 : "TRACE" ∉ ALL_METHODS) by decide_by_eval.
  split_and!; [exact H1|exact H2|exact H3|exact H4|].
  exact (cors_preflight_method_refused test_app (preflight "TRACE") "TRACE" H1 H2 H3 H4).
Defined.

Lemma cors_simple_allowed_origin_witness :
  rq_method frontend_post ≠ "OPTIONS" ∧
  hdr_get (rq_headers frontend_post) "origin" = Some "http://localhost:3000" ∧
  test_app frontend_post = Some (Ok frontend_app_answer) ∧
  ∃ resp, cors_call main_cors test_app frontend_post = Some (Ok resp) ∧
    hdr_get (rs_headers resp) "access-control-allow-origin" = Some "http://localhost:3000" ∧
    hdr_get (rs_headers resp) "access-control-allow-credentials" = Some "true" ∧
    hdr_get (rs_headers resp) "vary" =
      Some (match hdr_get (rs_headers frontend_app_answer) "vary" with
            | Some v => str_join ", " [v; "Origin"]
            | None => "Origin"
            end).
Proof.
  assert (H1 : rq_method frontend_post ≠ "OPTIONS") by decide_by_eval.
  assert (H2 : hdr_get (rq_headers frontend_post) "origin" = Some "http://localhost:3000")
    by reflexivity.
  assert (H3 : test_app frontend_post = Some (Ok frontend_app_answer)) by reflexivity.
  split_and!; [exact H1|exact H2|exact H3|].
  exact (cors_simple_allowed_origin test_app frontend_post _ (or_introl H1) H2 H3).
Defined.

Definition frontend_get : http_request :=
  mk_request "GET" "/pipelines/parse" [("origin", frontend)] chain_raw.

(** What the route answers to the chain: its analysis, 200. *)
Definition frontend_answer : http_response app_body :=
  mk_response 200 [] (AnalysisJson (mk_analysis 3 2 true)).

Lemma router_app_only_parse_witness :
  router_app frontend_post = Some frontend_answer ∧
  ((∃ a, rs_body frontend_answer = AnalysisJson a) ∨ (∃ errs, rs_body frontend_answer = ValidationJson errs)) ∧
  rq_method frontend_post = "POST" ∧ rq_path frontend_post = "/pipelines/parse".
Proof.
  assert (H1 : router_app frontend_post = Some frontend_answer) by (vm_compute; reflexivity).
  assert (H2 : (∃ a, rs_body frontend_answer = AnalysisJson a) ∨
               (∃ errs, rs_body frontend_answer = ValidationJson errs)) by (left; eexists; reflexivity).
  split; [exact H1|split; [exact H2|exact (router_app_only_parse frontend_post _ H1 H2)]].
Defined.

Lemma router_app_parse_witness :
  rq_path frontend_get = "/pipelines/parse" ∧
  router_app frontend_get =
    if decide (rq_method frontend_get = "POST") then parse_endpoint frontend_get
    else Some (mk_response 405 [("Allow", "POST")] (DetailJson "Method Not Allowed")).
Proof.
  assert (H : rq_path frontend_get = "/pipelines/parse") by reflexivity.
  split; [exact H|exact (router_app_parse frontend_get H)].
Defined.

(** The chain's analysis as the handler's 200 sends it. *)
Definition chain_wire : http_response wire_body :=
  json_response 200 [] (analysis_json (mk_analysis 3 2 true)).

Definition evil_outcome : asgi_outcome :=
  mk_outcome (mk_response 200 (rs_headers chain_wire ++ [("access-control-allow-credentials", "true")])
                (AppBody (rs_body chain_wire))) None.

Lemma main_app_other_origin_no_acao_witness :
  hdr_get (rq_headers evil_post) "origin" ≠ Some "http://localhost:3000" ∧
  main_app evil_post = Some evil_outcome ∧
  "access-control-allow-origin" ∉ (rs_headers (ao_response evil_outcome)).*1.
Proof.
  assert (H : hdr_get (rq_headers evil_post) "origin" ≠ Some "http://localhost:3000")
    by decide_by_eval.
  assert (H' : main_app evil_post = Some evil_outcome) by (vm_compute; reflexivity).
  split_and!; [exact H|exact H'|exact (main_app_other_origin_no_acao evil_post _ H H')].
Defined.

Lemma main_app_frontend_post_witness :
  rq_method frontend_post = "POST" ∧ rq_path frontend_post = "/pipelines/parse" ∧
  hdr_get (rq_headers frontend_post) "origin" = Some "http://localhost:3000" ∧
  parse_endpoint frontend_post = Some frontend_answer ∧ render_response frontend_answer = Ok chain_wire ∧
  ∃ resp, main_app frontend_post = Some (mk_outcome resp None) ∧
    rs_status resp = rs_status frontend_answer ∧ rs_body resp = AppBody (rs_body chain_wire) ∧
    hdr_get (rs_headers resp) "access-control-allow-origin" = Some "http://localhost:3000".
Proof.
  assert (H1 : rq_method frontend_post = "POST") by reflexivity.
  assert (H2 : rq_path frontend_post = "/pipelines/parse") by reflexivity.
  assert (H3 : hdr_get (rq_headers frontend_post) "origin" = Some "http://localhost:3000")
    by reflexivity.
  assert (H4 : parse_endpoint frontend_post = Some frontend_answer) by (vm_compute; reflexivity).
  assert (H5 : render_response frontend_answer = Ok chain_wire) by (vm_compute; reflexivity).
  split_and!; [exact H1|exact H2|exact H3|exact H4|exact H5|].
  exact (main_app_frontend_post frontend_post _ _ H1 H2 H3 H4 H5).
Defined.

Lemma main_app_frontend_200_witness :
  rq_method frontend_post = "POST" ∧ rq_path frontend_post = "/pipelines/parse" ∧
  hdr_get (rq_headers frontend_post) "origin" = Some "http://localhost:3000" ∧
  parse_endpoint frontend_post = Some (endpoint_response (Resp200 (mk_analysis 3 2 true))) ∧
  main_app frontend_post = Some (mk_outcome (mk_response 200
     [("content-length", nat_str (String.length (json_dumps (analysis_json (mk_analysis 3 2 true)))));
      ("content-type", "application/json");
      ("access-control-allow-credentials", "true");
      ("access-control-allow-origin", "http://localhost:3000");
      ("vary", "Origin")]
     (AppBody (WireBytes (json_dumps (analysis_json (mk_analysis 3 2 true)))))) None).
Proof.
  assert (H1 : rq_method frontend_post = "POST") by reflexivity.
  assert (H2 : rq_path frontend_post = "/pipelines/parse") by reflexivity.
  assert (H3 : hdr_get (rq_headers frontend_post) "origin" = Some "http://localhost:3000")
    by reflexivity.
  assert (H4 : parse_endpoint frontend_post = Some (endpoint_response (Resp200 (mk_analysis 3 2 true))))
    by (vm_compute; reflexivity).
  split_and!; [exact H1|exact H2|exact H3|exact H4|exact (main_app_frontend_200 frontend_post _ H1 H2 H3 H4)].
Defined.

(** ** Witnesses: output, answers, round trips *)

Definition order_body : json := request [node_obj jb; node_obj ja] [edge_obj ja jb; edge_obj jb ja].
Definition order_out : list string :=
  ["Received Nodes: ['b', 'a']"; "Received Edges: [('a', 'b'), ('b', 'a')]";
   "Graph Edges: [('b', 'a'), ('a', 'b')]"].

Lemma parse_pipeline_io_200_witness :
  parse_pipeline_io order_body = (order_out, Resp200 (mk_analysis 2 2 false)) ∧
  ∃ data ids es ps g qs, validate_graph_data order_body = Ok data ∧
    extract_node_ids (gd_nodes data) = Ok ids ∧ extract_edges (gd_edges data) = Ok es ∧
    res_map edge_key es = Ok ps ∧ order_out = debug_lines ids es g ∧
    res_map edge_key (o_edges g) = Ok qs ∧ NoDup qs ∧ (∀ u v, (u, v) ∈ qs ↔ (u, v) ∈ ps) ∧
    length (o_edges g) = num_edges (mk_analysis 2 2 false).
Proof.
  assert (H : parse_pipeline_io order_body = (order_out, Resp200 (mk_analysis 2 2 false)))
    by (vm_compute; reflexivity).
  split; [exact H|exact (parse_pipeline_io_200 _ _ _ H)].
Defined.

Definition null_body : json := request [node_obj ja] [edge_obj ja JNull].
Definition null_detail : string := "Error parsing pipeline: None cannot be a node".

Lemma parse_pipeline_io_500_witness :
  parse_pipeline_io null_body = ([null_detail], Resp500 null_detail) ∧ [null_detail] = [null_detail].
Proof.
  assert (H : parse_pipeline_io null_body = ([null_detail], Resp500 null_detail))
    by (vm_compute; reflexivity).
  split; [exact H|exact (parse_pipeline_io_500 _ _ _ H)].
Defined.

Lemma o_add_edges_from_refines_witness :
  orel [] empty_digraph ∧
  res_rel orel (o_add_edges_from [] chain_pairs) (add_edges_from empty_digraph chain_pairs).
Proof.
  assert (H : orel [] empty_digraph) by apply orel_empty.
  split; [exact H|exact (o_add_edges_from_refines [] empty_digraph chain_pairs H)].
Defined.

Lemma analyze_count_bounds_witness :
  analyze chain_data = Ok (mk_analysis 3 2 true) ∧
  num_edges (mk_analysis 3 2 true) ≤ length (gd_edges chain_data) ∧
  num_nodes (mk_analysis 3 2 true) ≤ length (gd_nodes chain_data) + 2 * length (gd_edges chain_data).
Proof.
  assert (H : analyze chain_data = Ok (mk_analysis 3 2 true)) by (vm_compute; reflexivity).
  split; [exact H|exact (analyze_count_bounds _ _ H)].
Defined.

Lemma str_split_join_witness :
  ["a"; "b"; ""] ≠ [] ∧ Forall (λ w, str_has ","%char w = false) ["a"; "b"; ""] ∧
  str_split ","%char (str_join "," ["a"; "b"; ""]) = ["a"; "b"; ""] ∧
  str_join "," (str_split ","%char "x,,y") = "x,,y".
Proof.
  assert (H1 : ["a"; "b"; ""] ≠ []) by discriminate.
  assert (H2 : Forall (λ w, str_has ","%char w = false) ["a"; "b"; ""]) by (repeat constructor).
  split_and!; [exact H1|exact H2|exact (proj2 (str_split_join ","%char) _ H1 H2)|].
  exact (proj1 (str_split_join ","%char) "x,,y").
Defined.

Definition frontend_post_outcome : asgi_outcome :=
  match main_app frontend_post with Some o => o | None => server_error_call (Err (KeyError "")) end.

Lemma main_app_answer_type_witness :
  main_app frontend_post = Some frontend_post_outcome ∧
  rs_status (ao_response frontend_post_outcome) ∈ [200; 307; 400; 404; 405; 422; 500] ∧
  hdr_lower (rs_headers (ao_response frontend_post_outcome)).
Proof.
  assert (H : main_app frontend_post = Some frontend_post_outcome) by (vm_compute; reflexivity).
  split; [exact H|exact (main_app_answer_type _ _ H)].
Defined.

Lemma main_app_content_length_witness :
  main_app frontend_post = Some frontend_post_outcome ∧
  sent_bytes (rs_body (ao_response frontend_post_outcome)) = Some (json_dumps (analysis_json (mk_analysis 3 2 true))) ∧
  hdr_get (rs_headers (ao_response frontend_post_outcome)) "content-length"
  = Some (nat_str (String.length (json_dumps (analysis_json (mk_analysis 3 2 true))))).
Proof.
  assert (H : main_app frontend_post = Some frontend_post_outcome) by (vm_compute; reflexivity).
  assert (H' : sent_bytes (rs_body (ao_response frontend_post_outcome))
               = Some (json_dumps (analysis_json (mk_analysis 3 2 true)))) by (vm_compute; reflexivity).
  split_and!; [exact H|exact H'|exact (main_app_content_length _ _ _ H H')].
Defined.

(** ** Process start *)

(** Run as a script the module serves the application on the loopback
    address, port 8000, fixed in the code; imported under its module name
    it starts nothing. *)
Example process_start_fixed_address :
  option_map (λ sv, (sv_host sv, sv_port sv)) (module_main "__main__") = Some ("127.0.0.1", 8000) ∧
  module_main "main" = None.
Proof. split; reflexivity. Qed.

(** ** Bodies: JSON text, content types and bytes *)

(** The chain written by [json.dumps] is read back by [json.loads]. *)
Lemma json_loads_dumps_witness :
  json_ints_fit chain_body = true ∧ json_loads (json_dumps chain_body) = Ok (json_norm chain_body).
Proof.
  assert (H : json_ints_fit chain_body = true) by reflexivity.
  split; [exact H|exact (json_loads_dumps chain_body H)].
Defined.

(** The integers of [[12, -345]] fit [int()]'s limit. *)
Lemma json_loads_ints_bounded_witness :
  json_loads "[12, -345]" = Ok (JArr [JInt 12; JInt (-345)]) ∧ json_ints_fit (JArr [JInt 12; JInt (-345)]) = true.
Proof.
  assert (H : json_loads "[12, -345]" = Ok (JArr [JInt 12; JInt (-345)])) by (vm_compute; reflexivity).
  split; [exact H|exact (json_loads_ints_bounded _ _ H)].
Defined.

(** [n] nines. *)
Fixpoint nines (n : nat) : string :=
  match n with 0 => EmptyString | S n => String "9" (nines n) end.

(** 4300 digits are read, 4301 raise [int()]'s [ValueError]. *)
Example json_loads_digit_limit :
  (∃ z, json_loads (nines 4300) = Ok (JInt z)) ∧ json_loads (nines 4301) = Err (IntDigitsError 4301).
Proof. split; [eexists|]; vm_compute; reflexivity. Qed.

Definition trailing_comma : string := "[1,]".

(** The text [[1,]] as a client writes it in UTF-16 with a byte order
    mark, and in UTF-32 big-endian. *)
Lemma request_json_encoded_witness :
  trailing_comma ≠ EmptyString ∧ str_has nul_char trailing_comma = false ∧
  request_json (encode_text Utf16 trailing_comma) = res_map_err loads_error (json_loads trailing_comma) ∧
  request_json (encode_text Utf16 trailing_comma) = Err (BodyJSONInvalid "Expecting value" 3).
Proof.
  assert (H1 : trailing_comma ≠ EmptyString) by discriminate.
  assert (H2 : str_has nul_char trailing_comma = false) by reflexivity.
  split_and!; [exact H1|exact H2|exact (request_json_encoded Utf16 trailing_comma H1 H2)|vm_compute; reflexivity].
Defined.

(** UTF-32 texts are read as well: [[1,]] in UTF-32 big-endian gets the
    same 422 as in UTF-8. *)
Example utf32_body_422 :
  parse_endpoint (mk_request "POST" "/pipelines/parse" [] (encode_text Utf32BE trailing_comma)) =
    Some (mk_response 422 [] (ValidationJson [VJsonInvalid 3 "Expecting value"])).
Proof. vm_compute. reflexivity. Qed.

(** A UTF-16 body of odd length is not text: 400. *)
Example utf16_odd_400 :
  parse_endpoint (mk_request "POST" "/pipelines/parse" []
    (String "255" (String "254" (String "{" (String "000" (String "}" EmptyString)))))) =
    Some (mk_response 400 [] (DetailJson "There was an error parsing the body")).
Proof. vm_compute. reflexivity. Qed.

(** A POST of [[1,]] from the frontend. *)
Definition trailing_comma_post : http_request :=
  mk_request "POST" "/pipelines/parse" [("origin", frontend); ("content-type", "application/json")]
    (utf8_encode trailing_comma).

(** A trailing comma is refused with 422 [json_invalid], message
    ["Expecting value"] at position 3, as CPython reports it. *)
Example trailing_comma_422 :
  parse_endpoint trailing_comma_post =
    Some (mk_response 422 [] (ValidationJson [VJsonInvalid 3 "Expecting value"])).
Proof. vm_compute. reflexivity. Qed.

(** [[1,]] posted in UTF-16 little-endian without a mark. *)
Definition trailing_comma_utf16_post : http_request :=
  mk_request "POST" "/pipelines/parse" [("content-type", "application/json")]
    (encode_text Utf16LE trailing_comma).

Lemma parse_endpoint_text_witness :
  wants_json (hdr_get (rq_headers trailing_comma_utf16_post) "content-type") = true ∧
  trailing_comma ≠ EmptyString ∧ str_has nul_char trailing_comma = false ∧
  rq_body trailing_comma_utf16_post = encode_text Utf16LE trailing_comma ∧
  parse_endpoint trailing_comma_utf16_post =
    match json_loads trailing_comma with
    | Ok v => Some (endpoint_response (parse_pipeline v))
    | Err (JSONDecodeError msg pos) =>
        Some (mk_response 422 [] (ValidationJson [VJsonInvalid pos msg]))
    | Err (IntDigitsError _) =>
        Some (mk_response 400 [] (DetailJson "There was an error parsing the body"))
    | Err OutsideModel | Err DecodeFuel => None
    end.
Proof.
  assert (H1 : wants_json (hdr_get (rq_headers trailing_comma_utf16_post) "content-type") = true) by reflexivity.
  assert (H2 : trailing_comma ≠ EmptyString) by discriminate.
  assert (H3 : str_has nul_char trailing_comma = false) by reflexivity.
  assert (H4 : rq_body trailing_comma_utf16_post = encode_text Utf16LE trailing_comma) by reflexivity.
  split_and!; [exact H1|exact H2|exact H3|exact H4|exact (parse_endpoint_text _ _ _ H1 H2 H3 H4)].
Defined.

Lemma parse_endpoint_dumps_witness :
  wants_json (hdr_get (rq_headers frontend_post) "content-type") = true ∧
  json_ints_fit chain_body = true ∧ rq_body frontend_post = utf8_encode (json_dumps chain_body) ∧
  parse_endpoint frontend_post = Some (endpoint_response (parse_pipeline (json_norm chain_body))).
Proof.
  assert (H1 : wants_json (hdr_get (rq_headers frontend_post) "content-type") = true) by reflexivity.
  assert (H2 : json_ints_fit chain_body = true) by reflexivity.
  assert (H3 : rq_body frontend_post = utf8_encode (json_dumps chain_body)) by reflexivity.
  split_and!; [exact H1|exact H2|exact H3|exact (parse_endpoint_dumps _ _ H1 H2 H3)].
Defined.

(** The chain posted as text/plain. *)
Definition text_plain_post : http_request :=
  mk_request "POST" "/pipelines/parse" [("content-type", "text/plain; charset=utf-8")] chain_raw.

Lemma parse_endpoint_not_json_witness :
  rq_body text_plain_post ≠ EmptyString ∧
  wants_json (hdr_get (rq_headers text_plain_post) "content-type") = false ∧
  parse_endpoint text_plain_post =
    Some (mk_response 422 [] (ValidationJson [VModelAttributesType ["body"] (InBytes chain_raw)])).
Proof.
  assert (H1 : rq_body text_plain_post ≠ EmptyString) by discriminate.
  assert (H2 : wants_json (hdr_get (rq_headers text_plain_post) "content-type") = false) by reflexivity.
  split_and!; [exact H1|exact H2|exact (parse_endpoint_not_json _ H1 H2)].
Defined.

(** A body of the single byte [FF]. *)
Definition ff_post : http_request :=
  mk_request "POST" "/pipelines/parse" [] (String (ascii_of_nat 255) EmptyString).

Lemma parse_endpoint_bad_utf8_witness :
  wants_json (hdr_get (rq_headers ff_post) "content-type") = true ∧
  detect_encoding (rq_body ff_post) = Utf8 ∧
  utf8_decode (rq_body ff_post) = Err (UnicodeDecodeError (rq_body ff_post) 0 1 "invalid start byte") ∧
  parse_endpoint ff_post =
    Some (mk_response 400 [] (DetailJson "There was an error parsing the body")).
Proof.
  assert (H1 : wants_json (hdr_get (rq_headers ff_post) "content-type") = true) by reflexivity.
  assert (H2 : detect_encoding (rq_body ff_post) = Utf8) by reflexivity.
  assert (H3 : utf8_decode (rq_body ff_post) = Err (UnicodeDecodeError (rq_body ff_post) 0 1 "invalid start byte"))
    by reflexivity.
  split_and!; [exact H1|exact H2|exact H3|exact (parse_endpoint_bad_utf8 _ _ H1 H2 H3)].
Defined.

(** A byte [FF] sent from the frontend as [application/octet-stream]. *)
Definition binary_post : http_request :=
  mk_request "POST" "/pipelines/parse" [("origin", frontend); ("content-type", "application/octet-stream")]
    (String (ascii_of_nat 255) EmptyString).

Lemma main_app_binary_body_500_witness :
  rq_method binary_post = "POST" ∧ rq_path binary_post = "/pipelines/parse" ∧
  rq_body binary_post ≠ EmptyString ∧
  wants_json (hdr_get (rq_headers binary_post) "content-type") = false ∧
  utf8_decode_strict (rq_body binary_post) = Err (UnicodeDecodeError (rq_body binary_post) 0 1 "invalid start byte") ∧
  main_app binary_post = Some (mk_outcome (mk_response 500
      [("content-length", "21"); ("content-type", "text/plain; charset=utf-8")]
      (PlainText "Internal Server Error")) (Some (UnicodeDecodeError (rq_body binary_post) 0 1 "invalid start byte"))).
Proof.
  assert (H1 : rq_method binary_post = "POST") by reflexivity.
  assert (H2 : rq_path binary_post = "/pipelines/parse") by reflexivity.
  assert (H3 : rq_body binary_post ≠ EmptyString) by discriminate.
  assert (H4 : wants_json (hdr_get (rq_headers binary_post) "content-type") = false) by reflexivity.
  assert (H5 : utf8_decode_strict (rq_body binary_post)
               = Err (UnicodeDecodeError (rq_body binary_post) 0 1 "invalid start byte")) by reflexivity.
  split_and!; [exact H1|exact H2|exact H3|exact H4|exact H5|exact (main_app_binary_body_500 _ _ H1 H2 H3 H4 H5)].
Defined.

(** The chain posted as text/plain is valid UTF-8: the 422 echoes its
    bytes, escaped by [json.dumps], as the entry's input. *)
Example text_plain_422_echo :
  wire_app text_plain_post =
    Some (Ok (json_response 422 []
      (JObj [("detail", JArr [JObj [("type", JStr "model_attributes_type"); ("loc", JArr [JStr "body"]);
         ("msg", JStr "Input should be a valid dictionary or object to extract fields from");
         ("input", JStr chain_raw)]])]))).
Proof. vm_compute. reflexivity. Qed.
